(* ===== verification/_CoqProject ===== *)
-Q . S2P
Prelude.v
Timespec.v
Vector.v
PQueue.v
TaskHeap.v
TaskQueue.v
TaskSched.v
Invariant.v
Safety.v
Bytes.v
CString.v
Binary64.v
PcmChunk.v
Speed.v
Intercom.v
ClientState.v
AlsaDevice.v
IntercomClient.v
ClientGaps.v
ClientBuffer.v
AlsaPlayer.v
PlayerProofs.v
ClientLoop.v
ClientInv.v
ServerState.v
InputPipe.v
ClientMgr.v
IntercomSrv.v
ServerProofs.v
JsonRpc.v
Memory.v
Ownership.v
Util.v
Control.v
ControlProofs.v
Stream.v
Tests.v
ServerLoop.v
ServerInv.v
Pointers.v
PipeInv.v
ServerMain.v
ServerClients.v
Sent.v
TaskSafety.v
Registry.v
Repair.v
EndToEnd.v
Transmission.v
Held.v
System.v
