(* ===== verification/Prelude.v ===== *)
(** * A verification library for SnapCastC

    SnapCastC plays an audio stream in time on many machines.  The server reads
    PCM data from pipes, encodes it with opus and sends every chunk in a datagram
    to every client; the client buffers the chunks, asks for those that were
    lost, and plays each one at the time written on it.  A control connection
    changes volumes and moves clients between streams.  Both programs are single
    threaded event loops around a task queue.  This library models the C code
    under src/src/ as functions, from main to the handlers, and proves what they
    do.

    ** How the code is modelled

    A C integer is a [Z]; its conversions and wrap-arounds are written out with
    [u8] .. [u64], [s32] and [s64].  A function that can go wrong (null pointer,
    access out of bounds, use after free, division by zero, [exit]) returns in
    [res] or, if it has a state, in the monad [M W], whose failures are the values
    of [fault].  A loop takes a fuel; running out of it is the fault [Diverges],
    so a theorem that a handler returns [Ok] includes that it ends.  What is not
    under src/ is a parameter: libopus ([OpusLib]), libasound ([AlsaLib],
    [AlsaPollLib]), the change of a chunk's speed with libsoxr ([SoxrLib]),
    json-c ([JsonLib]), what the C library prints for addresses ([HostLib]), and
    what a union holds after another of its members was written ([UnionLib]).  The
    clocks, the name resolution, [read] on a pipe, [open] and [socket] are oracles
    in the state of the world: the [n]-th call has the [n]-th answer, which for
    [open] may depend on the descriptors in use; in Memory.v and Ownership.v [malloc] is one
    as well, elsewhere allocation succeeds.  What [epoll_wait], [poll],
    [recvfrom], [accept] and [read] on a connection return, and the options that
    [getopt_long] finds, are arguments of the loops and of main.

    ** Parts, files and sources

    Shared:
    - Prelude.v (this file): integers, results, the monad and its loops, the
      hint database [snap], lemmas on lists.
    - Timespec.v: timespec.c.
    - Vector.v: vector.h, vector.c.  The other files use lists for vectors, as
      [insert_refines] and [delete_refines] allow.
    - PQueue.v: pqueue.h, pqueue.c: the receive buffer's heap.
    - TaskHeap.v, TaskQueue.v: the pairing heap of taskqueue.c, as a forest and as
      the pointer code, with the refinement between them.  TaskHeap.v has the
      interface [TimerQueue] with its laws [TimerQueueLaws].
    - TaskSched.v: the rest of taskqueue.c ([post_task], [drop_task],
      [reschedule_task], [taskqueue_run]) over any [TimerQueue], in any world that
      contains a scheduler ([HasSched]).
    - Invariant.v: predicates that computations keep, the tactic [preserve], and
      what every computation on tasks keeps ([sched_invariant]).  Safety.v: the
      same for computations of which only some faults are allowed ([wp], [safe]),
      with the run of the task queue ([run_safe]).
    - Memory.v: alloc.h over a heap of blocks, and what a request of the control
      connection owns on it.  Ownership.v: on the same heap the tasks that ask for
      a packet, with their copies, and the receive buffer with its chunks.  Util.v: util.c, error.h and syscallwrappers.c: the
      printed forms with their ring of strings, the log, random bytes.
    - Binary64.v: the floating point numbers that the client's speed needs.
    - Bytes.v: byte buffers and byte order.  CString.v: the functions on strings
      of the C library that the program calls.
    - PcmChunk.v: pcmchunk.c and opuscodec.c.
    - Intercom.v: the packets of intercom_common.h, the functions of intercom.c,
      and the functions of intercom_client.c and intercom_srv.c that write and
      read packets.

    Client:
    - ClientState.v: the state (snapcast.h, alsaplayer.h, intercom_common.h).
      IntercomClient.v: intercom_client.c.  AlsaDevice.v and AlsaPlayer.v:
      alsaplayer.c and the tasks; Speed.v: the factor of [adjust_speed_soxr].
      ClientLoop.v: main and the main loop of client.c.
    - ClientGaps.v, ClientBuffer.v, PlayerProofs.v, ClientInv.v: theorems.

    Server:
    - ServerState.v: the state.  InputPipe.v: inputpipe.c and the lookups of
      stream.c.  Stream.v: the parser of stream.c.  ClientMgr.v: clientmgr.c.
      IntercomSrv.v: intercom_srv.c and the handlers of server.c.  JsonRpc.v:
      jsonrpc.c.  Control.v: socket.c.  ServerLoop.v: the main loop of server.c.
      ServerMain.v: its main, and the states the server can reach.
    - ServerInv.v, PipeInv.v, ServerClients.v, Pointers.v, TaskSafety.v,
      Registry.v, ServerProofs.v, ControlProofs.v, Sent.v: theorems.

    Both:
    - Repair.v, EndToEnd.v, Transmission.v: what one side sends is given to the
      other.
    - System.v: the two programs side by side, with a network that loses, repeats
      and reorders what the server sends.  It joins the invariants of Sent.v, on
      what the server may send, and of Held.v, on what the client may hold.
    - Tests.v: server-test.c and client-test.c.

    The client's world is the record [client], the server's the record [server];
    a pointer to a stream is its index in [streams], a pointer to a client its
    index in the stream, a pointer to a task its address in [s_tasks].  A function
    and its arguments that the C code posts as a task are a value of [ctask] or
    [stask], which [run_ctask] and [run_stask] execute.  A comment before a
    definition names the file, the lines and the function it models.

    ** What the theorems show

    - Both programs together (System.v, EndToEnd.v, Repair.v, Transmission.v): in
      every state that the two programs reach from their mains, whatever happens to
      either, a chunk in the client's buffer was encoded from bytes that the server
      read from its pipes, each once and in the order of the reads, and was sent
      ([nothing_invented]); and all that the sound device is given is silence or
      such a chunk, decoded, changed in speed or shortened ([only_heard_played], for a
      device with a tape of what was written).  Both rely on [OpusLaws]: libopus
      fills the buffer it is given without changing its size.  A chunk that is sent
      reaches the client's buffer ([audio_delivered]); of a whole run of
      packets those that arrive are buffered in order and exactly the lost ones
      are asked for ([stream_delivered]); a packet that was lost is asked for and
      sent again ([loss_repaired]); a hello registers the client
      ([hello_registers]).
    - Every reachable state (rule induction over the events of the main loops):
      the tasks are in order and the timer is armed ([server_timer_armed],
      [client_loop_in_order]); the pipes and the epoll set agree ([server_pipes]);
      no two clients have the same id ([server_clients_unique]); a task that was
      freed is not used ([server_tasks_live]); the streams' vectors of clients
      implement a map from ids to streams ([registry_refines]).  One sweep over
      the handlers serves all invariants of a program: [server_invariant] in
      ServerInv.v and [client_invariant] in ClientInv.v say what a predicate has
      to be kept by, and [base_invariant] and [pipeless_invariant] reduce this for
      predicates that are not about the clients or not about the pipes.  Pointers.v
      says which tasks the pointers of the streams and clients name, and
      TaskSafety.v that every handler keeps this.
    - Lost packets (ClientGaps.v): every number of a gap that is shorter than the
      buffer and below 2^31 is requested, repeatedly, until it arrives or the
      attempts are used up; late packets end the requests for older ones.
      [handle_gap_silent] has the cases in which nothing is requested.
    - Buffer and player (ClientBuffer.v, PlayerProofs.v, PQueue.v): for packets in
      play order the buffer is a bounded queue without the chunks whose time has
      passed; a stopped player starts in time; the factor of a chunk's speed has
      the bounds it is meant to have ([speed_limited] in Speed.v, over binary
      floating point with rounding).
    - Server (ServerProofs.v): a chunk goes to every client that is not muted and
      is kept; a request is answered with the packet as it was sent; the segments of
      a datagram are handled one after the other, or without end ([datagram_loop]);
      how old packets leave the buffer; throttling of a pipe; the first hello of a
      client.
    - Control connections and options (ControlProofs.v, Stream.v): lines are put
      together from pieces, a volume request is obeyed, a stream's description is
      read as it is written.
    - Wire (Intercom.v): what one side writes is what the other side reads.
    - Tasks (TaskSched.v, TaskQueue.v): a run ends, whatever the callbacks post,
      drop or reschedule for later: it takes the due tasks one after the other,
      calls them and frees them; with callbacks that only post, the tasks that
      were due run once and in order; and the pointer code implements the heap.
    - Data (Timespec.v, Vector.v, PcmChunk.v): arithmetic on times, lists, chunks.
    - Memory and printing (Memory.v, Ownership.v, Util.v, Tests.v): freeing a request
      frees what it owns but its first parameter ([request_leaks_parameter]); however
      often a request for a packet is copied, nothing of it is lost or freed twice
      ([request_owned]); a log line shows
      its arguments ([log_shows]); the test programs pass.
    - Where the code does not do what it means to, a theorem says what it does
      instead: [dequeue_not_highest], [timeAdd_negative_nsec], [doubled_size_wraps],
      [add_after_free_faults], [recently_seen_spec], [get_nonce_spec],
      [handle_gap_silent], [second_command_dropped], [eof_then_reconnect_exits],
      [close_task_dangling], [sop_loop_spec], [drop_old_packets_spec],
      [stale_line_end], [no_method_use_after_free], [stale_event_stops_stream],
      [closed_pipe_takes_connection], [end_of_file_crash] with the run
      [end_of_file_run] that gets there, [seconds_underrated],
      [chunk_read_garbled], [print_packet_stamped], [request_leaks_parameter],
      [datagram_loop], [audio_size_unchecked], [stop_leaks_chunks].

    ** Fuel

    A run of the task queue needs one unit more than there are due tasks
    ([taskqueue_run_terminates]); removing old chunks one more than there are
    chunks; the segments of a packet one more than its length, as no segment but
    a faulty one is empty; the options of a stream one more than the length of
    their text.  Where the number of rounds is bounded by a machine integer
    (vectors, the priority queue, the carry of [timeAdd]) the fuel is [fuel64],
    and theorems show that it is not used up.  The theorems on reachable states
    hold for every fuel.

    ** What is not modelled

    The handlers of signals other than the call of [sig_term_handler] that a
    failing [poll] stands for, and how they are installed; the texts of usage and
    version; the variant of the speed adjustment with librubberband, which is
    built only with that library; what the test programs print on stderr when a
    test fails.  The handlers are modelled without their log lines, except where a
    line changes what is printed otherwise (Util.v has the functions that print
    them).  The world of the model is single threaded, as the
    programs are, except that the C library resolves names in the background,
    which the oracle [dns] stands for. *)
From stdpp Require Export base tactics option list list_numbers numbers sorting gmap.
From Stdlib Require Export ZArith Lia.

#[global] Open Scope Z_scope.

(** ** Machine integers

    A C integer of width [w] is a [Z].  [uN] reduces a mathematical integer to
    the range of the unsigned type, [sN] to that of the signed one (two's
    complement); a model writes them where the C expression converts. *)

Definition u8 (z : Z) : Z := z mod 2 ^ 8.
Definition u16 (z : Z) : Z := z mod 2 ^ 16.
Definition u32 (z : Z) : Z := z mod 2 ^ 32.
Definition u64 (z : Z) : Z := z mod 2 ^ 64.
Definition s32 (z : Z) : Z := (z + 2 ^ 31) mod 2 ^ 32 - 2 ^ 31.
Definition s64 (z : Z) : Z := (z + 2 ^ 63) mod 2 ^ 64 - 2 ^ 63.

#[global] Arguments u8 : simpl never.
#[global] Arguments u16 : simpl never.
#[global] Arguments u32 : simpl never.
#[global] Arguments u64 : simpl never.
#[global] Arguments s32 : simpl never.
#[global] Arguments s64 : simpl never.

Lemma u8_small z : 0 <= z < 256 -> u8 z = z.
Proof. intros. unfold u8. apply Z.mod_small. lia. Qed.
Lemma u16_small z : 0 <= z < 65536 -> u16 z = z.
Proof. intros. unfold u16. apply Z.mod_small. lia. Qed.
Lemma u32_small z : 0 <= z < 4294967296 -> u32 z = z.
Proof. intros. unfold u32. apply Z.mod_small. lia. Qed.
Lemma u64_small z : 0 <= z < 18446744073709551616 -> u64 z = z.
Proof. intros. unfold u64. apply Z.mod_small. lia. Qed.
Lemma s32_small z : -2147483648 <= z < 2147483648 -> s32 z = z.
Proof. intros. unfold s32. rewrite Z.mod_small; lia. Qed.
Lemma s64_small z : -9223372036854775808 <= z < 9223372036854775808 -> s64 z = z.
Proof. intros. unfold s64. rewrite Z.mod_small; lia. Qed.

Lemma u8_range z : 0 <= u8 z < 256.
Proof. unfold u8. apply Z.mod_pos_bound. lia. Qed.
Lemma u16_range z : 0 <= u16 z < 65536.
Proof. unfold u16. apply Z.mod_pos_bound. lia. Qed.
Lemma u32_range z : 0 <= u32 z < 4294967296.
Proof. unfold u32. apply Z.mod_pos_bound. lia. Qed.
Lemma u64_range z : 0 <= u64 z < 18446744073709551616.
Proof. unfold u64. apply Z.mod_pos_bound. lia. Qed.

Lemma s64_range z : -9223372036854775808 <= s64 z < 9223372036854775808.
Proof. unfold s64. pose proof (Z.mod_pos_bound (z + 2 ^ 63) (2 ^ 64)). lia. Qed.
Lemma s32_range z : -2147483648 <= s32 z < 2147483648.
Proof. unfold s32. pose proof (Z.mod_pos_bound (z + 2 ^ 31) (2 ^ 32)). lia. Qed.
Lemma u64_opp k : 0 < k <= 2 ^ 64 -> u64 (- k) = 2 ^ 64 - k.
Proof.
  intros. unfold u64. replace (- k) with ((2 ^ 64 - k) + (-1) * 2 ^ 64) by lia.
  rewrite Z.mod_add, Z.mod_small; lia.
Qed.
Lemma u64_low z : -9223372036854775808 <= z < 9223372036854775808 ->
  u64 z < 9223372036854775808 -> u64 z = z.
Proof.
  intros. destruct (Z.ltb_spec z 0); [|apply u64_small; lia].
  pose proof (u64_opp (- z)) as E. rewrite Z.opp_involutive in E. lia.
Qed.

Lemma u64_s64 z : u64 (s64 z) = u64 z.
Proof.
  unfold u64, s64. rewrite Zminus_mod_idemp_l.
  by replace (z + 2 ^ 63 - 2 ^ 63) with z by lia.
Qed.

Lemma s32_high z : 2147483648 <= z < 4294967296 -> s32 z = z - 2 ^ 32.
Proof.
  intros. unfold s32. replace (z + 2 ^ 31) with (z - 2 ^ 31 + 1 * 2 ^ 32) by lia.
  rewrite Z.mod_add, Z.mod_small by lia. lia.
Qed.
Lemma s32_u64 z : s32 (u64 z) = s32 z.
Proof.
  unfold s32, u64. f_equal. rewrite (Z.add_mod (z mod 2 ^ 64)), (Z.add_mod z) by lia. do 2 f_equal.
  apply Z.mod_mod_divide. by exists (2 ^ 32).
Qed.

Create HintDb snap discriminated.
Create Rewrite HintDb snap.
#[export] Hint Rewrite u8_small u16_small u32_small u64_small s32_small s64_small
  using lia : snap.
#[export] Hint Resolve u8_range u16_range u32_range u64_range : snap.

(** [cases_lt] splits on every integer comparison of the goal. *)
Ltac cases_lt :=
  rewrite ?Z.gtb_ltb, ?Z.geb_leb;
  repeat match goal with
  | |- context [?x <? ?y] => destruct (Z.ltb_spec x y)
  | |- context [?x <=? ?y] => destruct (Z.leb_spec x y)
  | |- context [?x =? ?y] => destruct (Z.eqb_spec x y)
  end.

(** [unwrap] drops the conversions whose operand [lia] shows to be in range. *)
Ltac unwrap := autorewrite with snap in *.

(** ** Lists *)

Lemma filter_all {A} (P : A -> Prop) `{forall x, Decision (P x)} l : Forall P l -> filter P l = l.
Proof. induction 1 as [|x l Hx _ IH]; [done|]. by rewrite filter_cons_True, IH. Qed.

Lemma filter_none {A} (P : A -> Prop) `{forall x, Decision (P x)} l :
  Forall (fun x => ~ P x) l -> filter P l = [].
Proof. induction 1 as [|x l Hx _ IH]; [done|]. by rewrite filter_cons_False, IH. Qed.

Lemma filter_ext_in {A} (P R : A -> Prop) `{forall x, Decision (P x)} `{forall x, Decision (R x)} (l : list A) :
  (forall x, x ∈ l -> P x <-> R x) -> filter P l = filter R l.
Proof.
  induction l as [|x l IH]; intros Hl; [done|]. rewrite !filter_cons, IH by (intros; apply Hl; by right).
  pose proof (Hl x ltac:(left)). do 2 case_decide; tauto.
Qed.

(** ** Faults and the error monad

    A C function can leave the ordinary course of execution: the program calls
    [exit_error]/[exit_errno]/[exit_bug] (error.h), or runs into behaviour the
    language leaves undefined.  [res] is the result of a fragment of code. *)

Inductive fault :=
  | ExitError      (** [exit_error], [exit_errno] or [exit(..)]: status 1 *)
  | ExitBug        (** [exit_bug]: abort *)
  | ExitSuccess    (** [_exit(EXIT_SUCCESS)] *)
  | NullDeref      (** a null pointer is dereferenced *)
  | UseAfterFree   (** memory that was freed (or never allocated) is accessed *)
  | OutOfBounds    (** an access outside of its buffer *)
  | DivByZero      (** integer division by zero *)
  | BadConversion  (** a floating point number that does not fit is converted to an integer *)
  | Diverges.      (** the fuel of a loop ran out *)

#[export] Instance fault_eq_dec : EqDecision fault.
Proof. solve_decision. Defined.

Inductive res (A : Type) : Type :=
  | Ok (a : A)
  | Fault (f : fault).
Arguments Ok {A} a.
Arguments Fault {A} f.

#[export] Instance res_ret : MRet res := fun A a => Ok a.
#[export] Instance res_bind : MBind res := fun A B k m =>
  match m with Ok a => k a | Fault f => Fault f end.

Definition is_Ok {A} (r : res A) : Prop := exists a, r = Ok a.

(** A state monad over [res]: the shape of code that mutates shared state. *)
Definition M (S A : Type) : Type := S -> res (A * S).
#[export] Instance M_ret {S} : MRet (M S) := fun A a s => Ok (a, s).
#[export] Instance M_bind {S} : MBind (M S) := fun A B k m s =>
  match m s with Ok (a, s') => k a s' | Fault f => Fault f end.

Definition fail {S A} (f : fault) : M S A := fun _ => Fault f.
Definition gets {S A} (f : S -> A) : M S A := fun s => Ok (f s, s).
Definition modify {S} (f : S -> S) : M S unit := fun s => Ok (tt, f s).
Definition lift {S A} (r : res A) : M S A := fun s =>
  match r with Ok a => Ok (a, s) | Fault f => Fault f end.
Definition skip {S} : M S unit := fun s => Ok (tt, s).

Lemma res_bind_inv {A B} (m : res A) (k : A -> res B) b : m ≫= k = Ok b -> exists a, m = Ok a /\ k a = Ok b.
Proof. unfold mbind, res_bind. destruct m as [a|]; [by exists a|done]. Qed.

Lemma M_bind_Ok {S A B} (m : M S A) (k : A -> M S B) s a s' :
  m s = Ok (a, s') -> (m ≫= k) s = k a s'.
Proof. intros E. unfold mbind, M_bind. by rewrite E. Qed.

Lemma M_bind_inv {S A B} (m : M S A) (k : A -> M S B) s r s' :
  (m ≫= k) s = Ok (r, s') -> exists a s1, m s = Ok (a, s1) /\ k a s1 = Ok (r, s').
Proof.
  unfold mbind, M_bind. destruct (m s) as [[a s1]|]; [|discriminate]. eauto.
Qed.

Lemma lift_inv {S A} (r : res A) (s : S) a s' : lift r s = Ok (a, s') -> r = Ok a /\ s' = s.
Proof. unfold lift. destruct r; [by intros [= -> ->]|done]. Qed.

(** Run-to-the-end combinator: [mfor xs f] executes [f] on each element. *)
Fixpoint mfor {S A} (xs : list A) (f : A -> M S unit) : M S unit :=
  match xs with
  | [] => skip
  | x :: xs' => f x ;; mfor xs' f
  end.

Lemma mfor_app {S A} (xs ys : list A) (f : A -> M S unit) s : mfor (xs ++ ys) f s = (mfor xs f ;; mfor ys f) s.
Proof.
  revert s. induction xs as [|x xs IH]; intros s; [done|]. simpl. unfold mbind, M_bind in *.
  destruct (f x s) as [[[] s1]|]; [apply IH|done].
Qed.

(** A loop in the state monad: the body tells whether to go on. *)
Fixpoint mwhile {S} (fuel : nat) (body : M S bool) : M S unit :=
  match fuel with
  | O => fail Diverges
  | Datatypes.S fuel => b ← body; if b : bool then mwhile fuel body else skip
  end.

(** ** Loops

    A C loop is a [body] which either continues with a new state or leaves the
    loop with a value.  [loop_pos] iterates it at most [p] times; the fuel is a
    binary number, so that it can be as large as the range of the counter
    ([2^64]) and evaluation still costs only the iterations that happen. *)

Section loop.
Context {A B : Type} (body : A -> A + B).

Fixpoint loop_nat (n : nat) (a : A) : A + B :=
  match n with
  | O => inl a
  | S n' => match body a with inl a' => loop_nat n' a' | inr b => inr b end
  end.

Fixpoint loop_pos (p : positive) (a : A) : A + B :=
  match p with
  | xH => body a
  | xO q => match loop_pos q a with inl a' => loop_pos q a' | inr b => inr b end
  | xI q => match body a with
            | inl a1 => match loop_pos q a1 with
                        | inl a2 => loop_pos q a2
                        | inr b => inr b
                        end
            | inr b => inr b
            end
  end.

Lemma loop_nat_add n m a :
  loop_nat (n + m) a =
  match loop_nat n a with inl a' => loop_nat m a' | inr b => inr b end.
Proof.
  revert a. induction n as [|n IH]; intros a; simpl; [done|].
  destruct (body a); [apply IH | done].
Qed.

Lemma loop_pos_nat p a : loop_pos p a = loop_nat (Pos.to_nat p) a.
Proof.
  revert a. induction p as [q IH|q IH|]; intros a.
  - rewrite Pos2Nat.inj_xI.
    replace (S (2 * Pos.to_nat q))%nat with (S (Pos.to_nat q + Pos.to_nat q)) by lia.
    simpl. destruct (body a) as [a1|b]; [|done].
    rewrite loop_nat_add, IH. by destruct (loop_nat (Pos.to_nat q) a1).
  - rewrite Pos2Nat.inj_xO.
    replace (2 * Pos.to_nat q)%nat with (Pos.to_nat q + Pos.to_nat q)%nat by lia.
    simpl. rewrite loop_nat_add, IH. by destruct (loop_nat (Pos.to_nat q) a).
  - simpl. by destruct (body a).
Qed.

(** Total correctness: an invariant [I], a measure [m] that decreases and a
    fuel above the initial measure give termination in a value satisfying [Q]. *)
Lemma loop_nat_rule (I : A -> Prop) (Q : B -> Prop) (m : A -> Z) :
  (forall a, I a -> match body a with
                    | inl a' => I a' /\ 0 <= m a' < m a
                    | inr b => Q b
                    end) ->
  forall n a, I a -> m a < Z.of_nat n -> (0 < n)%nat ->
  exists b, loop_nat n a = inr b /\ Q b.
Proof.
  intros Hbody n. induction n as [|n IH]; intros a Ha Hm Hn; [lia|].
  simpl. specialize (Hbody a Ha). destruct (body a) as [a'|b]; [|eauto].
  destruct Hbody as [Ha' Hm']. apply IH; [done|lia|lia].
Qed.

Lemma loop_rule (I : A -> Prop) (Q : B -> Prop) (m : A -> Z) p a :
  I a -> m a < Zpos p ->
  (forall a, I a -> match body a with
                    | inl a' => I a' /\ 0 <= m a' < m a
                    | inr b => Q b
                    end) ->
  exists b, loop_pos p a = inr b /\ Q b.
Proof.
  intros Ha Hm Hbody. rewrite loop_pos_nat.
  apply (loop_nat_rule I Q m); [done|done| |]; lia.
Qed.

(** A body that never leaves an invariant exhausts every fuel. *)
Lemma loop_diverges (I : A -> Prop) p a :
  I a -> (forall a, I a -> exists a', body a = inl a' /\ I a') ->
  exists a', loop_pos p a = inl a' /\ I a'.
Proof.
  intros Ha Hbody. rewrite loop_pos_nat. generalize (Pos.to_nat p) as n.
  intros n. revert a Ha. induction n as [|n IH]; intros a Ha; simpl; [eauto|].
  destruct (Hbody a Ha) as (a' & -> & Ha'). by apply IH.
Qed.
End loop.

(** Running a loop whose exits are results; running out of fuel is a fault. *)
Definition run_loop {A B} (body : A -> A + res B) (p : positive) (a : A) : res B :=
  match loop_pos body p a with inr r => r | inl _ => Fault Diverges end.

Definition fuel64 : positive := 18446744073709551616.

Definition res_map {A B} (f : A -> B) (r : res A) : res B :=
  match r with Ok a => Ok (f a) | Fault e => Fault e end.

(** Two loops whose bodies do the same on related states. *)
Lemma run_loop_map {A A' B B'} (f : A -> A') (g : B -> B') (body : A -> A + res B) (body' : A' -> A' + res B') p a :
  (forall a, body' (f a) = sum_map f (res_map g) (body a)) ->
  run_loop body' p (f a) = res_map g (run_loop body p a).
Proof.
  intros Hb. unfold run_loop.
  assert (forall p a, loop_pos body' p (f a) = sum_map f (res_map g) (loop_pos body p a)) as H.
  { clear p a. intros p. induction p as [q IH|q IH|]; intros a; simpl; [| |apply Hb].
    - rewrite Hb. destruct (body a) as [a1|]; simpl; [|done]. rewrite IH. by destruct (loop_pos body q a1); simpl.
    - rewrite IH. by destruct (loop_pos body q a); simpl. }
  rewrite H. by destruct (loop_pos body p a).
Qed.
