(* ===== verification/Timespec.v ===== *)
(** * timespec.c: points in time and their arithmetic

    [struct timespec] is a pair of 64-bit integers; the operations are those of
    timespec.c with the widths of the C expressions.  The theorems relate them
    to the number of nanoseconds a normalised timespec denotes. *)
From S2P Require Import Prelude.

(** ** Data *)

(** [struct timespec]: [time_t tv_sec; long tv_nsec], both 64 bits wide. *)
Record timespec := mkTime { tv_sec : Z; tv_nsec : Z }.

(** timespec.h:4-7 timediff *)
Record timediff := mkDiff { td_time : timespec; td_sign : Z }.

(** timespec.c:6-6 BILLION *)
Definition BILLION : Z := 1000000000.

#[export] Instance timespec_eq_dec : EqDecision timespec.
Proof. solve_decision. Defined.

Definition zero_time : timespec := mkTime 0 0.

(** ** Operations *)

(** timespec.c:85-96 timespec_cmp *)
Definition timespec_cmp (a b : timespec) : Z :=
  if tv_sec a <? tv_sec b then -1
  else if tv_sec a >? tv_sec b then 1
  else if tv_nsec a <? tv_nsec b then -1
  else if tv_nsec a >? tv_nsec b then 1
  else 0.

(** timespec.c:11-14 timeAdd: the body of the carry loop.  [BILLION] is an
    [unsigned long], so [nsec] is converted to unsigned for both the comparison
    and the subtraction. *)
Definition carry_body (st : Z * Z) : (Z * Z) + res timespec :=
  let '(sec, nsec) := st in
  if u64 nsec >=? BILLION then inl (s64 (sec + 1), s64 (u64 nsec - BILLION))
  else inr (Ok (mkTime sec nsec)).

(** timespec.c:8-16 timeAdd *)
Definition timeAdd (t1 t2 : timespec) : res timespec :=
  let sec := s64 (tv_sec t2 + tv_sec t1) in
  let nsec := s64 (tv_nsec t2 + tv_nsec t1) in
  run_loop carry_body fuel64 (sec, nsec).

(** timespec.c:41-69 timeSub *)
Definition timeSub (t1 t2 : timespec) : timediff :=
  let '(it1, it2, sign) :=
    if timespec_cmp t1 t2 <? 0 then (t2, t1, -1) else (t1, t2, 1) in
  let tdiff_sec := u64 (tv_sec it1 - tv_sec it2) in
  let '(tdiff_sec, tdiff_nsec) :=
    if tv_nsec it1 >=? tv_nsec it2
    then (tdiff_sec, u64 (tv_nsec it1 - tv_nsec it2))
    else (u64 (tdiff_sec - 1), u64 (BILLION - tv_nsec it2 + tv_nsec it1)) in
  mkDiff (mkTime (s64 tdiff_sec) (s64 tdiff_nsec)) sign.

(** timespec.c:72-74 timeSubMs: the milliseconds as a timespec; the division
    truncates towards zero. *)
Definition ms_time (ms : Z) : timespec :=
  mkTime (Z.quot ms 1000) (Z.rem ms 1000 * 1000000).

(** timespec.c:71-76 timeSubMs *)
Definition timeSubMs (t1 : timespec) (ms : Z) : timespec := td_time (timeSub t1 (ms_time ms)).

(** timespec.c:78-83 timeAddMs *)
Definition timeAddMs (t1 : timespec) (ms : Z) : res timespec := timeAdd t1 (ms_time ms).

(** timespec.c:18-39 timespec_isnear *)
Definition timespec_isnear (t1 t2 : timespec) (chunkms : Z) : res bool :=
  tmp ← timeAddMs t1 chunkms;
  if (timespec_cmp t2 tmp <=? 0) && (timespec_cmp t2 t1 >=? 0) then mret true
  else
    let tmp := timeSubMs t1 chunkms in
    if (timespec_cmp t2 tmp >=? 0) && (timespec_cmp t2 t1 <=? 0) then mret true
    else mret false.

(** ** Specification *)

(** The nanoseconds since the epoch that a timespec denotes. *)
Definition ns (t : timespec) : Z := tv_sec t * BILLION + tv_nsec t.

(** The nanosecond part is below one second. *)
Definition norm_ns (t : timespec) : Prop := 0 <= tv_nsec t < BILLION.

(** A normalised point in time whose seconds are far away from the limits of
    [time_t] (2^60 seconds are 36 billion years). *)
Definition sane (t : timespec) : Prop := 0 <= tv_sec t < 2 ^ 60 /\ norm_ns t.

#[export] Instance norm_ns_dec t : Decision (norm_ns t).
Proof. unfold norm_ns. apply _. Defined.
#[export] Instance sane_dec t : Decision (sane t).
Proof. unfold sane. apply _. Defined.

Ltac time_lia := unfold sane, norm_ns, ns, BILLION in *; simpl in *; lia.

Lemma sane_norm t : sane t -> norm_ns t.
Proof. by intros [_ ?]. Qed.
#[export] Hint Resolve sane_norm : snap.

(** *** Comparison *)

Lemma timespec_cmp_ns a b : norm_ns a -> norm_ns b ->
  timespec_cmp a b = (if ns a <? ns b then -1 else if ns a >? ns b then 1 else 0).
Proof. unfold timespec_cmp. intros. cases_lt; time_lia. Qed.

Lemma timespec_cmp_antisym a b : timespec_cmp b a = - timespec_cmp a b.
Proof. unfold timespec_cmp. cases_lt; lia. Qed.

Lemma timespec_cmp_refl a : timespec_cmp a a = 0.
Proof. unfold timespec_cmp. cases_lt; lia. Qed.

Lemma timespec_cmp_le_trans a b c :
  timespec_cmp a b <= 0 -> timespec_cmp b c <= 0 -> timespec_cmp a c <= 0.
Proof. unfold timespec_cmp. cases_lt; lia. Qed.

Lemma timespec_cmp_eq a b : timespec_cmp a b = 0 -> a = b.
Proof.
  destruct a, b. unfold timespec_cmp; simpl. cases_lt; try lia. intros _. f_equal; lia.
Qed.

Lemma timespec_cmp_le_ns a b : norm_ns a -> norm_ns b ->
  timespec_cmp a b <= 0 <-> ns a <= ns b.
Proof. intros. rewrite timespec_cmp_ns by done. cases_lt; lia. Qed.

Lemma timespec_cmp_ge_ns a b : norm_ns a -> norm_ns b ->
  timespec_cmp a b >= 0 <-> ns b <= ns a.
Proof. intros. rewrite timespec_cmp_ns by done. cases_lt; lia. Qed.

(** *** Addition *)

Lemma carry_loop sec nsec :
  0 <= nsec < 2 ^ 63 -> - 2 ^ 62 <= sec < 2 ^ 62 ->
  exists c, run_loop carry_body fuel64 (sec, nsec) = Ok c /\
            norm_ns c /\ ns c = sec * BILLION + nsec.
Proof.
  intros Hn Hs.
  destruct (loop_rule carry_body
    (fun '(s, n) => s * BILLION + n = sec * BILLION + nsec /\ 0 <= n < 2 ^ 63 /\ sec <= s)
    (fun r => exists c, r = Ok c /\ norm_ns c /\ ns c = sec * BILLION + nsec)
    (fun '(_, n) => n) fuel64 (sec, nsec)) as (r & E & c & -> & Hc).
  - lia.
  - unfold fuel64. lia.
  - intros [s n] (E & Hr & Hle). unfold carry_body, BILLION in *. rewrite u64_small by lia.
    rewrite Z.geb_leb. destruct (Z.leb_spec 1000000000 n).
    + rewrite !s64_small by lia. lia.
    + eexists. split; [done|]. unfold norm_ns, ns, BILLION; simpl. lia.
  - exists c. unfold run_loop. rewrite E. done.
Qed.

Lemma timeAdd_total a b :
  0 <= tv_nsec a < 2 ^ 62 -> 0 <= tv_nsec b < 2 ^ 62 ->
  - 2 ^ 61 <= tv_sec a < 2 ^ 61 -> - 2 ^ 61 <= tv_sec b < 2 ^ 61 ->
  exists c, timeAdd a b = Ok c /\ norm_ns c /\ ns c = ns a + ns b.
Proof.
  intros. unfold timeAdd. rewrite !s64_small by lia.
  destruct (carry_loop (tv_sec b + tv_sec a) (tv_nsec b + tv_nsec a)) as (c & E & Hc & Hn);
    [lia|lia|]. exists c. split; [done|]. split; [done|]. rewrite Hn. unfold ns. lia.
Qed.

(** Adding two points in time whose nanoseconds are not negative (they may
    exceed a second, as in a received packet) terminates within the fuel and
    yields a normalised timespec that denotes the sum. *)
Theorem timeAdd_spec a b :
  0 <= tv_nsec a < 2 ^ 62 -> 0 <= tv_nsec b < 2 ^ 62 ->
  - 2 ^ 61 <= tv_sec a < 2 ^ 61 -> - 2 ^ 61 <= tv_sec b < 2 ^ 61 ->
  exists c, timeAdd a b = Ok c /\ norm_ns c /\ ns c = ns a + ns b.
Proof. apply timeAdd_total. Qed.

Lemma timeAdd_spec_witness :
  exists c, timeAdd (mkTime 5 700000000) (mkTime 1 3400000000) = Ok c /\ norm_ns c /\
            ns c = ns (mkTime 5 700000000) + ns (mkTime 1 3400000000).
Proof. apply (timeAdd_spec (mkTime 5 700000000) (mkTime 1 3400000000)); simpl; lia. Defined.

(** A negative nanosecond sum is not borrowed from the seconds: the carry
    loop reads it as an unsigned number and moves the result about 584 years
    into the future. *)
Theorem timeAdd_negative_nsec a b k :
  tv_nsec b + tv_nsec a = - k -> 0 < k <= BILLION ->
  0 <= tv_sec a < 2 ^ 60 -> 0 <= tv_sec b < 2 ^ 60 ->
  exists c, timeAdd a b = Ok c /\ norm_ns c /\
            ns c = (tv_sec a + tv_sec b) * BILLION + (2 ^ 64 - k).
Proof.
  intros Hk ???. unfold timeAdd. rewrite Hk. unfold BILLION in *. rewrite !s64_small by lia.
  set (sec := tv_sec b + tv_sec a).
  destruct (loop_rule carry_body
    (fun '(s, n) => s * BILLION + u64 n = sec * BILLION + (2 ^ 64 - k) /\ sec <= s /\
                    - 2 ^ 63 <= n < 2 ^ 63)
    (fun r => exists c, r = Ok c /\ norm_ns c /\ ns c = sec * BILLION + (2 ^ 64 - k))
    (fun '(_, n) => u64 n) fuel64 (sec, - k)) as (r & E & c & -> & Hc & Hn).
  - rewrite u64_opp by lia. lia.
  - pose proof (u64_range (- k)). unfold fuel64. lia.
  - intros [s n] (E & Hle & Hn). unfold carry_body. rewrite Z.geb_leb.
    pose proof (u64_range n). unfold BILLION in *.
    destruct (Z.leb_spec 1000000000 (u64 n)).
    + pose proof (s64_range (u64 n - 1000000000)).
      rewrite u64_s64, (s64_small (s + 1)) by lia. rewrite (u64_small (u64 n - 1000000000)) by lia.
      lia.
    + pose proof (u64_low n). eexists. split; [done|]. time_lia.
  - exists c. unfold run_loop. rewrite E. split; [done|]. split; [done|]. rewrite Hn. subst sec. unfold BILLION. lia.
Qed.

Lemma timeAdd_negative_nsec_witness :
  exists c, timeAdd (mkTime 100 0) (mkTime 0 (-1000000)) = Ok c /\ norm_ns c /\
            ns c = (100 + 0) * BILLION + (2 ^ 64 - 1000000).
Proof.
  apply (timeAdd_negative_nsec (mkTime 100 0) (mkTime 0 (-1000000)) 1000000);
    unfold BILLION; simpl; lia.
Defined.

(** *** Milliseconds *)

Lemma ms_time_nonneg ms : 0 <= ms < 2 ^ 31 ->
  0 <= tv_sec (ms_time ms) <= ms /\ norm_ns (ms_time ms) /\ ns (ms_time ms) = ms * 1000000.
Proof.
  intros. unfold ms_time, ns, norm_ns, BILLION; simpl.
  rewrite Z.quot_div_nonneg, Z.rem_mod_nonneg by lia.
  pose proof (Z.div_mod ms 1000). pose proof (Z.mod_pos_bound ms 1000).
  pose proof (Z.div_pos ms 1000). lia.
Qed.

Lemma timeAddMs_spec t ms : sane t -> 0 <= ms < 2 ^ 31 ->
  exists c, timeAddMs t ms = Ok c /\ norm_ns c /\ ns c = ns t + ms * 1000000.
Proof.
  intros Ht Hms. destruct (ms_time_nonneg ms Hms) as (? & ? & <-).
  apply timeAdd_total; time_lia.
Qed.

(** *** Subtraction *)

Lemma timeSub_magnitude x y : sane x -> sane y -> ns y <= ns x ->
  let r := (let tdiff_sec := u64 (tv_sec x - tv_sec y) in
    if tv_nsec x >=? tv_nsec y then (tdiff_sec, u64 (tv_nsec x - tv_nsec y))
    else (u64 (tdiff_sec - 1), u64 (BILLION - tv_nsec y + tv_nsec x))) in
  let t := mkTime (s64 r.1) (s64 r.2) in
  norm_ns t /\ 0 <= tv_sec t /\ ns t = ns x - ns y.
Proof.
  intros Hx Hy Hle. unfold sane, norm_ns, ns, BILLION in *. rewrite Z.geb_leb.
  destruct (Z.leb_spec (tv_nsec y) (tv_nsec x)); simpl.
  - rewrite !u64_small, !s64_small by lia. lia.
  - rewrite (u64_small (tv_sec x - tv_sec y)) by lia.
    rewrite !u64_small, !s64_small by lia. lia.
Qed.

Lemma timeSub_total a b : sane a -> sane b ->
  norm_ns (td_time (timeSub a b)) /\ 0 <= tv_sec (td_time (timeSub a b)) /\
  ns (td_time (timeSub a b)) = Z.abs (ns a - ns b) /\
  td_sign (timeSub a b) = (if ns a <? ns b then -1 else 1).
Proof.
  intros Ha Hb. unfold timeSub. rewrite timespec_cmp_ns by auto with snap.
  destruct (Z.ltb_spec (ns a) (ns b)); simpl.
  - destruct (timeSub_magnitude b a) as (? & ? & E); [done|done|lia|].
    case_match; simpl in *; rewrite E; split_and!; first [done | lia].
  - rewrite Z.gtb_ltb.
    destruct (timeSub_magnitude a b) as (? & ? & E); [done|done|lia|].
    destruct (Z.ltb_spec (ns b) (ns a)); simpl;
      case_match; simpl in *; rewrite E; split_and!; first [done | lia].
Qed.

(** [timeSub] is subtraction in sign-magnitude form: the sign tells which
    argument is earlier and the magnitude is the normalised distance. *)
Theorem timeSub_spec a b : sane a -> sane b ->
  norm_ns (td_time (timeSub a b)) /\ 0 <= tv_sec (td_time (timeSub a b)) /\
  ns (td_time (timeSub a b)) = Z.abs (ns a - ns b) /\
  td_sign (timeSub a b) = (if ns a <? ns b then -1 else 1).
Proof. apply timeSub_total. Qed.

Lemma timeSub_spec_witness :
  norm_ns (td_time (timeSub (mkTime 1 5) (mkTime 3 2))) /\
  0 <= tv_sec (td_time (timeSub (mkTime 1 5) (mkTime 3 2))) /\
  ns (td_time (timeSub (mkTime 1 5) (mkTime 3 2))) = Z.abs (ns (mkTime 1 5) - ns (mkTime 3 2)) /\
  td_sign (timeSub (mkTime 1 5) (mkTime 3 2)) =
    (if ns (mkTime 1 5) <? ns (mkTime 3 2) then -1 else 1).
Proof. apply (timeSub_spec (mkTime 1 5) (mkTime 3 2)); time_lia. Defined.

Lemma timeSubMs_spec t ms : sane t -> 0 <= ms < 2 ^ 31 ->
  norm_ns (timeSubMs t ms) /\ ns (timeSubMs t ms) = Z.abs (ns t - ms * 1000000).
Proof.
  intros Ht Hms. destruct (ms_time_nonneg ms Hms) as (? & ? & <-).
  unfold timeSubMs. destruct (timeSub_total t (ms_time ms)) as (? & ? & -> & _); [done|time_lia|done].
Qed.

(** *** Nearness *)

Lemma timespec_isnear_total t1 t2 ms :
  sane t1 -> norm_ns t2 -> 0 <= ms < 2 ^ 31 -> ms * 1000000 <= ns t1 ->
  timespec_isnear t1 t2 ms = Ok (bool_decide (Z.abs (ns t1 - ns t2) <= ms * 1000000)).
Proof.
  intros H1 H2 Hms Hlate. unfold timespec_isnear.
  destruct (timeAddMs_spec t1 ms H1 Hms) as (c & -> & Hc & Ec). simpl.
  destruct (timeSubMs_spec t1 ms H1 Hms) as (Hd & Ed).
  rewrite !timespec_cmp_ns by auto with snap. rewrite Ec, Ed.
  cases_lt; simpl; unfold mret, res_ret; f_equal; symmetry;
    (apply bool_decide_true || apply bool_decide_false); lia.
Qed.

(** [timespec_isnear] decides whether two points in time are at most
    [chunkms] apart, provided the first one is later than [chunkms] after the
    epoch (the subtraction drops its sign before that). *)
Theorem timespec_isnear_spec t1 t2 ms :
  sane t1 -> norm_ns t2 -> 0 <= ms < 2 ^ 31 -> ms * 1000000 <= ns t1 ->
  timespec_isnear t1 t2 ms = Ok (bool_decide (Z.abs (ns t1 - ns t2) <= ms * 1000000)).
Proof. apply timespec_isnear_total. Qed.

Lemma timespec_isnear_spec_witness :
  timespec_isnear (mkTime 10 0) (mkTime 9 995000000) 5 = Ok true.
Proof.
  rewrite (timespec_isnear_spec (mkTime 10 0) (mkTime 9 995000000) 5);
    [reflexivity|time_lia|time_lia|lia|time_lia].
Defined.
