(* ===== verification/Vector.v ===== *)
(** * vector.h, vector.c: dynamically sized arrays

    A vector is a descriptor ([allocated], [length]) and a block of [allocated]
    element slots.  A slot is [None] while it holds no value.  Sizes are
    [size_t]; the byte counts passed to [realloc] are computed in 64 bits.  The
    theorems show that the operations are the list operations on the elements,
    which is how the other files use vectors. *)
From S2P Require Import Prelude.

(** ** Data *)

(** vector.h:38-41 snap_vector_desc_t *)
Record snap_vector_desc_t := mkDesc { allocated : Z; vlength : Z }.

(** vector.h:48-52 VECTOR: [vdata] is the block behind the [data] pointer, empty
    for a null pointer. *)
Record vector (A : Type) := mkVec { desc : snap_vector_desc_t; vdata : list (option A) }.
Arguments mkVec {A} desc vdata.
Arguments desc {A} v.
Arguments vdata {A} v.

(** vector.c:39-39 MIN_VECTOR_ALLOC *)
Definition MIN_VECTOR_ALLOC : Z := 4.

Section vector.
Context {A : Type}.
Implicit Types (v : vector A) (l : list A) (slots : list (option A)).

(** ** Memory primitives on slots *)

(** alloc.h:88-95 snap_realloc: a block of [bytes] bytes that keeps the
    contents of the old one. *)
Definition snap_realloc slots (bytes elemsize : Z) : list (option A) :=
  resize (Z.to_nat (bytes / elemsize)) None slots.

Definition memmove slots (dst src n : Z) : res (list (option A)) :=
  if n =? 0 then Ok slots
  else if (dst + n <=? Z.of_nat (length slots)) && (src + n <=? Z.of_nat (length slots))
  then Ok (take (Z.to_nat dst) slots ++ take (Z.to_nat n) (drop (Z.to_nat src) slots) ++
           drop (Z.to_nat (dst + n)) slots)
  else Fault OutOfBounds.

Definition store slots (i : Z) (x : A) : res (list (option A)) :=
  match slots with
  | [] => Fault NullDeref
  | _ => if i <? Z.of_nat (length slots) then Ok (<[Z.to_nat i := Some x]> slots)
         else Fault OutOfBounds
  end.

(** ** Operations *)

(** vector.c:58-58 _snap_vector_resize: [while (alloc < n) alloc <<= 1;] *)
Definition grow_body (n alloc : Z) : Z + res Z :=
  if alloc <? n then inl (u64 (Z.shiftl alloc 1)) else inr (Ok alloc).

(** vector.c:48-64 _snap_vector_resize *)
Definition _snap_vector_resize v (n elemsize : Z) : res (vector A) :=
  let len := n in
  let alloc := allocated (desc v) in
  let '(alloc, n) :=
    if alloc =? 0 then (MIN_VECTOR_ALLOC, u64 (n * 3) / 2) else (alloc, n) in
  alloc ← run_loop (grow_body n) fuel64 alloc;
  if alloc =? allocated (desc v) then mret (mkVec (mkDesc alloc len) (vdata v))
  else mret (mkVec (mkDesc alloc len) (snap_realloc (vdata v) (u64 (alloc * elemsize)) elemsize)).

(** vector.c:71-79 _snap_vector_insert *)
Definition _snap_vector_insert v (element : A) (pos elemsize : Z) : res (vector A) :=
  v ← _snap_vector_resize v (u64 (vlength (desc v) + 1)) elemsize;
  slots ← memmove (vdata v) (pos + 1) pos (u64 (vlength (desc v) - pos - 1));
  slots ← store slots pos element;
  mret (mkVec (desc v) slots).

(** vector.c:86-91 _snap_vector_delete *)
Definition _snap_vector_delete v (pos elemsize : Z) : res (vector A) :=
  slots ← memmove (vdata v) pos (pos + 1) (u64 (vlength (desc v) - pos - 1));
  _snap_vector_resize (mkVec (desc v) slots) (u64 (vlength (desc v) - 1)) elemsize.

(** vector.h:121-126 VECTOR_ADD *)
Definition VECTOR_ADD v (elem : A) (elemsize : Z) : res (vector A) :=
  _snap_vector_insert v elem (vlength (desc v)) elemsize.

(** vector.h:133-137 VECTOR_DELETE *)
Definition VECTOR_DELETE v (pos elemsize : Z) : res (vector A) :=
  _snap_vector_delete v pos elemsize.

(** vector.h:143-148 VECTOR_INIT *)
Definition VECTOR_INIT : vector A := mkVec (mkDesc 0 0) [].

(** vector.h:74-74 VECTOR_FREE: the length is reset, [allocated] is not. *)
Definition VECTOR_FREE v : vector A := mkVec (mkDesc (allocated (desc v)) 0) [].

(** vector.h:81-81 VECTOR_LEN *)
Definition VECTOR_LEN v : Z := vlength (desc v).

(** vector.h:88-88 VECTOR_INDEX *)
Definition VECTOR_INDEX v (i : Z) : res A :=
  match vdata v !! Z.to_nat i with
  | Some (Some x) => if 0 <=? i then Ok x else Fault OutOfBounds
  | _ => Fault OutOfBounds
  end.

(** vector.h:170-176 VECTOR_LSEARCH: [lfind] returns the first element that
    compares equal, here with its index (which [VECTOR_GETINDEX] recovers). *)
Fixpoint VECTOR_LSEARCH (cmp : A -> A -> Z) (key : A) (l : list A) : option (nat * A) :=
  match l with
  | [] => None
  | x :: l' => if cmp key x =? 0 then Some (O, x)
               else match VECTOR_LSEARCH cmp key l' with
                    | Some (i, y) => Some (S i, y)
                    | None => None
                    end
  end.

(** ** Specification: a vector holds a list *)

(** [alloc] is zero or a power of two of at least four slots. *)
Definition alloc_ok (alloc : Z) : Prop := alloc = 0 \/ exists k, 2 <= k < 62 /\ alloc = 2 ^ k.

Definition vec_rep v l : Prop :=
  vlength (desc v) = Z.of_nat (length l) /\
  allocated (desc v) = Z.of_nat (length (vdata v)) /\
  alloc_ok (allocated (desc v)) /\
  (exists junk, vdata v = (Some <$> l) ++ junk).

(** The vector can still grow without overflowing a size computation. *)
Definition room (n elemsize : Z) : Prop := 0 < elemsize < 2 ^ 20 /\ 0 <= n < 2 ^ 40.

(** *** Growing *)

Lemma grow_spec n alloc : 0 <= n < 2 ^ 42 -> (exists k, 2 <= k < 62 /\ alloc = 2 ^ k) ->
  exists alloc', run_loop (grow_body n) fuel64 alloc = Ok alloc' /\ n <= alloc' /\
    alloc <= alloc' /\ (alloc' = alloc \/ alloc' <= 2 ^ 42) /\
    (exists k, 2 <= k < 62 /\ alloc' = 2 ^ k).
Proof.
  intros Hn (k & Hk & ->).
  destruct (loop_rule (grow_body n)
    (fun a => 2 ^ k <= a /\ (a = 2 ^ k \/ a <= 2 ^ 42) /\ exists k', 2 <= k' < 62 /\ a = 2 ^ k')
    (fun r => exists a, r = Ok a /\ n <= a /\ 2 ^ k <= a /\ (a = 2 ^ k \/ a <= 2 ^ 42) /\
                        exists k', 2 <= k' < 62 /\ a = 2 ^ k')
    (fun a => 2 ^ 62 - a) fuel64 (2 ^ k)) as (r & E & a & -> & Ha).
  - eauto with lia.
  - unfold fuel64. assert (0 < 2 ^ k) by (apply Z.pow_pos_nonneg; lia). lia.
  - intros a (Hle & Hcap & k' & Hk' & Ea). unfold grow_body.
    destruct (Z.ltb_spec a n); [|eauto 10].
    assert (k' < 42) by (apply (Z.pow_lt_mono_r_iff 2); lia).
    assert (2 ^ (k' + 1) = 2 * a) as Ep by (rewrite Ea, Z.pow_add_r; lia).
    assert (2 ^ (k' + 1) <= 2 ^ 42) by (apply Z.pow_le_mono_r; lia).
    rewrite Z.shiftl_mul_pow2, u64_small by lia. change (2 ^ 1) with 2.
    split; [|lia]. split; [lia|]. split; [lia|]. exists (k' + 1). lia.
  - exists a. unfold run_loop. by rewrite E.
Qed.

Lemma realloc_grow slots (alloc elemsize : Z) :
  0 < elemsize < 2 ^ 20 -> Z.of_nat (length slots) <= alloc <= 2 ^ 42 ->
  snap_realloc slots (u64 (alloc * elemsize)) elemsize =
  slots ++ replicate (Z.to_nat alloc - length slots) None.
Proof.
  intros. unfold snap_realloc. rewrite u64_small by nia. rewrite Z.div_mul by lia.
  apply resize_ge. lia.
Qed.

Lemma resize_spec v (n elemsize : Z) :
  alloc_ok (allocated (desc v)) -> allocated (desc v) = Z.of_nat (length (vdata v)) ->
  room n elemsize ->
  exists v' k, _snap_vector_resize v n elemsize = Ok v' /\
    vlength (desc v') = n /\ alloc_ok (allocated (desc v')) /\
    allocated (desc v') = Z.of_nat (length (vdata v')) /\
    n <= allocated (desc v') /\ allocated (desc v) <= allocated (desc v') /\
    vdata v' = vdata v ++ replicate k None.
Proof.
  intros Hok Hlen [Hes Hn]. unfold _snap_vector_resize.
  assert (exists alloc0 n0, (if allocated (desc v) =? 0 then (MIN_VECTOR_ALLOC, u64 (n * 3) / 2)
     else (allocated (desc v), n)) = (alloc0, n0) /\ n <= n0 < 2 ^ 42 /\
     (exists k, 2 <= k < 62 /\ alloc0 = 2 ^ k) /\ allocated (desc v) <= alloc0 /\
     (alloc0 = allocated (desc v) \/ alloc0 = 4)) as (a0 & n0 & -> & Hn0 & Hpow & Hle & Heq).
  { destruct (Z.eqb_spec (allocated (desc v)) 0) as [E|E].
    - exists 4, (n * 3 / 2). rewrite u64_small by lia. rewrite E.
      split; [done|]. split; [split|]. { apply Z.div_le_lower_bound; lia. }
      { apply Z.div_lt_upper_bound; lia. }
      split; [exists 2; lia|]. split; [lia|by right].
    - exists (allocated (desc v)), n. destruct Hok; [done|]. eauto 10 with lia. }
  destruct (grow_spec n0 a0) as (a & -> & Hna & Hle' & Hcap & Hpow'); [lia|done|]. simpl.
  destruct (Z.eqb_spec a (allocated (desc v))) as [E|E].
  - eexists _, O. split; [done|]. simpl. rewrite app_nil_r, <- E.
    split; [done|]. split; [by right|]. split; [congruence|]. split; [lia|]. split; [lia|done].
  - eexists _, _. split; [done|]. simpl.
    rewrite realloc_grow by lia. rewrite length_app, length_replicate.
    split; [done|]. split; [by right|]. split; [lia|]. split; [lia|]. split; [lia|done].
Qed.

Lemma vec_rep_room v l : vec_rep v l -> (length l <= length (vdata v))%nat.
Proof. intros (_ & _ & _ & junk & ->). rewrite length_app, length_fmap. lia. Qed.

Lemma memmove_right l junk pos : (pos <= length l)%nat -> (1 <= length junk)%nat ->
  memmove ((Some <$> l) ++ junk) (Z.of_nat pos + 1) (Z.of_nat pos)
    (Z.of_nat (length l) - Z.of_nat pos) =
  Ok (take (S pos) ((Some <$> l) ++ junk) ++ (Some <$> drop pos l) ++ drop 1 junk).
Proof.
  intros Hp Hj. unfold memmove. destruct (Z.eqb_spec (Z.of_nat (length l) - Z.of_nat pos) 0).
  - assert (pos = length l) as -> by lia. rewrite drop_ge by lia. simpl.
    destruct junk as [|j junk]; [simpl in Hj; lia|]. simpl. rewrite drop_0.
    rewrite (take_app_ge _ _ (S _)) by (rewrite length_fmap; lia). rewrite length_fmap.
    replace (S (length l) - length l)%nat with 1%nat by lia. by rewrite <- (assoc _).
  - rewrite length_app, length_fmap.
    rewrite !(proj2 (Z.leb_le _ _)) by lia. simpl. f_equal. f_equal.
    { f_equal. lia. }
    rewrite Nat2Z.id. rewrite drop_app_le by (rewrite length_fmap; lia).
    replace (Z.to_nat (Z.of_nat (length l) - Z.of_nat pos)) with (length l - pos)%nat by lia.
    rewrite take_app_length' by (rewrite length_drop, length_fmap; lia).
    rewrite fmap_drop. f_equal.
    replace (Z.to_nat (Z.of_nat pos + 1 + (Z.of_nat (length l) - Z.of_nat pos)))
      with (length (Some <$> l) + 1)%nat by (rewrite length_fmap; lia).
    by rewrite drop_app_add.
Qed.

Lemma memmove_left l junk pos : (pos < length l)%nat ->
  exists junk', memmove ((Some <$> l) ++ junk) (Z.of_nat pos) (Z.of_nat pos + 1)
    (Z.of_nat (length l) - Z.of_nat pos - 1) =
  Ok ((Some <$> delete pos l) ++ junk').
Proof.
  intros Hp. unfold memmove. rewrite delete_take_drop.
  destruct (Z.eqb_spec (Z.of_nat (length l) - Z.of_nat pos - 1) 0).
  - exists ((Some <$> drop pos l) ++ junk). rewrite (drop_ge _ (S pos)) by lia.
    rewrite app_nil_r. by rewrite (assoc (++)), <- fmap_app, take_drop.
  - rewrite length_app, length_fmap, !(proj2 (Z.leb_le _ _)) by lia. simpl.
    eexists. f_equal. rewrite Nat2Z.id, fmap_app, <- (assoc (++)). f_equal.
    { rewrite take_app_le by (rewrite length_fmap; lia). by rewrite fmap_take. }
    replace (Z.to_nat (Z.of_nat pos + 1)) with (S pos) by lia. f_equal.
    rewrite drop_app_le by (rewrite length_fmap; lia).
    rewrite take_app_length' by (rewrite length_drop, length_fmap; lia).
    by rewrite fmap_drop.
Qed.

Lemma memmove_length slots dst src n slots' :
  memmove slots dst src n = Ok slots' -> 0 <= dst -> 0 <= src -> 0 <= n ->
  length slots' = length slots.
Proof.
  unfold memmove. repeat case_match; intros [= <-] ???; [done|].
  rewrite !length_app, !length_take, !length_drop. lia.
Qed.

Lemma store_shift slots rest (pos : nat) (e : A) : (pos < length slots)%nat ->
  store (take (S pos) slots ++ rest) (Z.of_nat pos) e =
  Ok (take pos slots ++ Some e :: rest).
Proof.
  intros Hp. destruct (lookup_lt_is_Some_2 slots pos Hp) as [x Hx].
  rewrite (take_S_r _ _ x), <- (assoc (++)) by done. simpl. unfold store.
  case_match eqn:E; [by apply app_nil in E as [_ ?]|]. rewrite <- E.
  rewrite length_app, length_take, Nat2Z.id. simpl.
  rewrite (proj2 (Z.ltb_lt _ _)) by lia.
  rewrite insert_app_r_alt by (rewrite length_take; lia).
  rewrite length_take, Nat.min_l by lia. by rewrite Nat.sub_diag.
Qed.

Lemma resize_keeps v (n elemsize : Z) v' : 0 <= n <= allocated (desc v) -> 0 < allocated (desc v) ->
  _snap_vector_resize v n elemsize = Ok v' -> allocated (desc v') = allocated (desc v).
Proof.
  intros Hn Ha. unfold _snap_vector_resize. rewrite (proj2 (Z.eqb_neq _ _)) by lia.
  unfold run_loop, grow_body. rewrite loop_pos_nat.
  destruct (Pos2Nat.is_succ fuel64) as [f ->]. simpl.
  rewrite (proj2 (Z.ltb_ge _ _)) by lia. simpl. rewrite Z.eqb_refl. by intros [= <-].
Qed.

(** Inserting into a vector that holds [l] at a position within it
    succeeds, and the vector then holds [l] with the element inserted: the
    elements from that position on are shifted, none is lost.  [VECTOR_ADD] is
    the case [pos = length l]. *)
Theorem insert_refines v l (e : A) (pos : nat) (elemsize : Z) :
  vec_rep v l -> (pos <= length l)%nat -> room (Z.of_nat (length l) + 1) elemsize ->
  exists v', _snap_vector_insert v e (Z.of_nat pos) elemsize = Ok v' /\
             vec_rep v' (take pos l ++ e :: drop pos l).
Proof.
  intros (Hlen & Hall & Hok & junk & Hd) Hp Hroom. unfold _snap_vector_insert.
  pose proof Hroom as [_ Hr]. rewrite Hlen, (u64_small (Z.of_nat _ + 1)) by lia.
  destruct (resize_spec v (Z.of_nat (length l) + 1) elemsize Hok Hall Hroom)
    as (v1 & k & -> & Hl1 & Hok1 & Hall1 & Hn1 & _ & Hd1). simpl.
  rewrite Hd, <- (assoc (++)) in Hd1. set (junk1 := junk ++ replicate k None) in Hd1.
  assert (1 <= length junk1)%nat as Hj.
  { rewrite Hall1, Hd1, length_app, length_fmap in Hn1. lia. }
  rewrite Hl1, u64_small by lia.
  replace (Z.of_nat (length l) + 1 - Z.of_nat pos - 1)
    with (Z.of_nat (length l) - Z.of_nat pos) by lia.
  rewrite Hd1, memmove_right by done. simpl.
  exists (mkVec (desc v1) ((Some <$> take pos l ++ e :: drop pos l) ++ drop 1 junk1)). split.
  - rewrite store_shift by (rewrite length_app, length_fmap; lia). simpl.
    rewrite take_app_le by (rewrite length_fmap; lia).
    by rewrite fmap_app, fmap_cons, fmap_take, <- (assoc (++)).
  - rewrite Hd1, length_app, length_fmap in Hall1. unfold vec_rep; simpl.
    rewrite Hl1, !length_app, !length_fmap, length_app. simpl. rewrite length_take, !length_drop.
    split; [lia|]. split; [lia|]. split; [done|eauto].
Qed.

(** Deleting an element of a vector that holds [l] succeeds and removes
    exactly that element; the block does not shrink. *)
Theorem delete_refines v l (pos : nat) (elemsize : Z) :
  vec_rep v l -> (pos < length l)%nat -> room (Z.of_nat (length l)) elemsize ->
  exists v', _snap_vector_delete v (Z.of_nat pos) elemsize = Ok v' /\
             vec_rep v' (delete pos l) /\ allocated (desc v') = allocated (desc v).
Proof.
  intros Hrep Hp Hroom. pose proof (vec_rep_room _ _ Hrep) as Hcap.
  destruct Hrep as (Hlen & Hall & Hok & junk & Hd). pose proof Hroom as [Hes Hr].
  unfold _snap_vector_delete. rewrite Hlen, !u64_small by lia.
  destruct (memmove_left l junk pos Hp) as (junk' & E). rewrite Hd, E. simpl.
  assert (length ((Some <$> delete pos l) ++ junk') = length (vdata v)) as Hsame.
  { apply memmove_length in E; [|lia..]. by rewrite E, Hd. }
  destruct (resize_spec (mkVec (desc v) ((Some <$> delete pos l) ++ junk'))
    (Z.of_nat (length l) - 1) elemsize) as (v' & k & E' & Hl' & Hok' & Hall' & Hn' & Hle & Hd');
    simpl; [done|by rewrite Hsame|split; lia|].
  simpl in *. rewrite E'. exists v'. split; [done|].
  split; [|by apply resize_keeps in E'; simpl in *; lia].
  unfold vec_rep. rewrite Hl', length_delete by (by apply lookup_lt_is_Some).
  split; [lia|]. split; [done|]. split; [done|].
  exists (junk' ++ replicate k None). by rewrite Hd', (assoc (++)).
Qed.

(** [VECTOR_FREE] keeps the recorded allocation, so that adding to a freed
    vector that ever held an element does not allocate: the element is written
    through the null pointer. *)
Theorem add_after_free_faults v l (e : A) (elemsize : Z) :
  vec_rep v l -> 0 < allocated (desc v) ->
  VECTOR_ADD (VECTOR_FREE v) e elemsize = Fault NullDeref.
Proof.
  intros (_ & _ & Hok & _) Ha. unfold VECTOR_ADD, VECTOR_FREE, _snap_vector_insert. simpl.
  rewrite (u64_small (0 + 1)) by lia. unfold _snap_vector_resize. simpl.
  rewrite (proj2 (Z.eqb_neq _ _)) by lia.
  unfold run_loop, grow_body. rewrite loop_pos_nat.
  destruct (Pos2Nat.is_succ fuel64) as [f ->]. simpl.
  rewrite (proj2 (Z.ltb_ge _ _)) by lia. simpl. by rewrite Z.eqb_refl.
Qed.

(** [VECTOR_INIT] gives the empty list, whatever the fields held before. *)
Lemma init_rep : vec_rep VECTOR_INIT [].
Proof. unfold vec_rep; simpl. split; [done|]. split; [done|]. split; [by left|by exists []]. Qed.

(** Reading an index of a vector that holds [l]. *)
Lemma index_rep v l (i : nat) x : vec_rep v l -> l !! i = Some x ->
  VECTOR_INDEX v (Z.of_nat i) = Ok x.
Proof.
  intros (_ & _ & _ & junk & Hd) Hi. unfold VECTOR_INDEX. rewrite Hd, Nat2Z.id.
  rewrite lookup_app_l by (rewrite length_fmap; by eapply lookup_lt_Some).
  rewrite list_lookup_fmap, Hi. simpl. by rewrite (proj2 (Z.leb_le _ _)) by lia.
Qed.

(** [lfind] finds the first element that compares equal. *)
Lemma vector_lsearch_Some cmp key l i x :
  VECTOR_LSEARCH cmp key l = Some (i, x) <->
  l !! i = Some x /\ cmp key x = 0 /\ forall j y, (j < i)%nat -> l !! j = Some y -> cmp key y <> 0.
Proof.
  revert i. induction l as [|z l IH]; intros i; simpl; [by split; [|intros [? _]]|].
  destruct (Z.eqb_spec (cmp key z) 0) as [E|E].
  - split.
    + intros [= <- <-]. split; [done|]. split; [done|]. lia.
    + intros (Hi & Hx & Hfirst). destruct i as [|i]; [by simplify_eq/=|].
      exfalso. by apply (Hfirst O z); [lia|..].
  - destruct i as [|i]; simpl.
    + split; [by destruct (VECTOR_LSEARCH cmp key l) as [[]|]|]. intros ([= ->] & ? & _). done.
    + trans (VECTOR_LSEARCH cmp key l = Some (i, x)).
      { destruct (VECTOR_LSEARCH cmp key l) as [[]|]; split; congruence. }
      rewrite IH. split.
      * intros (? & ? & Hf). split; [done|]. split; [done|].
        intros [|j] y ? Hj; simplify_eq/=; [done|]. by apply (Hf j); [lia|].
      * intros (? & ? & Hf). split; [done|]. split; [done|].
        intros j y ? Hj. by apply (Hf (S j)); [lia|].
Qed.

Lemma vector_lsearch_None cmp key l :
  VECTOR_LSEARCH cmp key l = None <-> Forall (fun x => cmp key x <> 0) l.
Proof.
  induction l as [|z l IH]; simpl; [by split|].
  destruct (Z.eqb_spec (cmp key z) 0) as [E|E].
  - split; [done|]. inversion 1; subst; done.
  - rewrite Forall_cons, <- IH. by destruct (VECTOR_LSEARCH cmp key l) as [[]|]; split; try intros [??].
Qed.
End vector.

(** A vector of four slots after three insertions (server-test.c:77 and on). *)
Definition demo_vector : res (vector Z) :=
  v ← VECTOR_ADD VECTOR_INIT 12 4;
  v ← VECTOR_ADD v 13 4;
  _snap_vector_insert v 14 0 4.

Example demo_vector_value :
  demo_vector = Ok (mkVec (mkDesc 4 3) [Some 14; Some 12; Some 13; None]).
Proof. vm_compute. reflexivity. Qed.

Lemma demo_rep : vec_rep (mkVec (mkDesc 4 3) [Some 14; Some 12; Some 13; None]) [14; 12; 13].
Proof.
  split; [done|]. split; [done|]. split; [right; exists 2; simpl; lia|by exists [None]].
Qed.

Lemma insert_refines_witness :
  exists v', _snap_vector_insert (mkVec (mkDesc 4 3) [Some 14; Some 12; Some 13; None]) 15 1 4
             = Ok v' /\ vec_rep v' [14; 15; 12; 13].
Proof.
  apply (insert_refines _ [14; 12; 13] 15 1%nat 4); [apply demo_rep|simpl; lia|].
  unfold room. simpl. lia.
Defined.

Lemma delete_refines_witness :
  exists v', _snap_vector_delete (mkVec (mkDesc 4 3) [Some 14; Some 12; Some 13; None]) 1 4
             = Ok v' /\ vec_rep v' [14; 13] /\ allocated (desc v') = 4.
Proof.
  refine (delete_refines (mkVec (mkDesc 4 3) [Some 14; Some 12; Some 13; None])
            [14; 12; 13] 1%nat 4 demo_rep _ _); unfold room; simpl; lia.
Defined.

Lemma add_after_free_faults_witness :
  VECTOR_ADD (VECTOR_FREE (mkVec (mkDesc 4 3) [Some 14; Some 12; Some 13; None])) 1 4
  = Fault NullDeref.
Proof. apply (add_after_free_faults _ [14; 12; 13]); [apply demo_rep|simpl; lia]. Defined.
