(* ===== verification/PQueue.v ===== *)
(** * pqueue.h, pqueue.c: the priority queue of received chunks

    The queue is an array of pointers kept as an implicit binary heap.  [qdata]
    holds the elements at the indices below [size]; the cells from [size] up to
    [capacity] are never read.  [qcmp a b > 0] means that [a] has the higher
    priority.

    The children of index [x] are [2x+1] and [2x+2], but the parent of [x] is
    computed as [x/2].  [half_heap] is the order that sifting up maintains and
    [std_heap] the one that sifting down maintains; they agree only on the
    root's left spine.  The theorems show what the queue still guarantees, and
    that a dequeue need not return the element of the highest priority. *)
From S2P Require Import Prelude.

(** ** Data *)

(** pqueue.h:23-32 PQueue *)
Record PQueue (A : Type) := mkPQueue {
  capacity : Z;
  qdata : list A;
  qcmp : A -> A -> Z;
}.
Arguments mkPQueue {A} capacity qdata qcmp.
Arguments capacity {A} p.
Arguments qdata {A} p.
Arguments qcmp {A} p.

(** pqueue.c:8-8 LEFT *)
Definition LEFT (x : nat) : nat := 2 * x + 1.
(** pqueue.c:9-9 RIGHT *)
Definition RIGHT (x : nat) : nat := 2 * x + 2.
(** pqueue.c:10-10 PARENT *)
Definition PARENT (x : nat) : nat := x / 2.

Section pqueue.
Context {A : Type}.
Implicit Types (q : PQueue A) (d : list A) (cmp : A -> A -> Z).

Definition qsize q : Z := Z.of_nat (length (qdata q)).

(** ** Operations *)

(** pqueue.c:22-34 pqueue_new *)
Definition pqueue_new (cmp : option (A -> A -> Z)) (capacity : Z) : res (PQueue A) :=
  match cmp with
  | None => Fault ExitError
  | Some cmp => Ok (mkPQueue capacity [] cmp)
  end.

(** Exchange the elements at two indices: the [tmp] idiom of the source. *)
Definition swap d (i j : nat) : list A :=
  match d !! i, d !! j with
  | Some x, Some y => <[j := x]> (<[i := y]> d)
  | _, _ => d
  end.

(** pqueue.c:68-73 pqueue_enqueue: one round of sifting up; [i / 2] is the
    index the new element is compared with. *)
Definition sift_up_body cmp (st : list A * nat) : (list A * nat) + res (list A) :=
  let '(d, i) := st in
  if decide (i = 0%nat) then inr (Ok d)
  else match d !! i, d !! PARENT i with
       | Some x, Some p => if cmp x p >? 0 then inl (swap d i (PARENT i), PARENT i)
                           else inr (Ok d)
       | _, _ => inr (Fault OutOfBounds)
       end.

(** pqueue.c:54-74 pqueue_enqueue: a full queue silently ignores the element. *)
Definition pqueue_enqueue (q : option (PQueue A)) (x : A) : res (PQueue A) :=
  match q with
  | None => Fault NullDeref
  | Some q =>
      if qsize q >=? capacity q then Ok q
      else
        d ← run_loop (sift_up_body (qcmp q)) fuel64 (qdata q ++ [x], length (qdata q));
        mret (mkPQueue (capacity q) d (qcmp q))
  end.

(** pqueue.c:76-82 pqueue_peek *)
Definition pqueue_peek (q : option (PQueue A)) : option A :=
  match q with None => None | Some q => head (qdata q) end.

(** pqueue.c:111-122 pqueue_heapify: the index of the largest of a node and
    its children *)
Definition largest cmp d (idx : nat) : nat :=
  let gt i j := match d !! i, d !! j with
                | Some x, Some y => cmp x y >? 0
                | _, _ => false
                end in
  let lrg := if decide (LEFT idx < length d)%nat then
               if gt (LEFT idx) idx then LEFT idx else idx
             else idx in
  if decide (RIGHT idx < length d)%nat then
    if gt (RIGHT idx) lrg then RIGHT idx else lrg
  else lrg.

(** pqueue.c:102-132 pqueue_heapify: the function calls itself in tail
    position, one call is one round of the loop. *)
Definition heapify_body cmp (st : list A * nat) : (list A * nat) + res (list A) :=
  let '(d, idx) := st in
  let lrg := largest cmp d idx in
  if decide (lrg = idx) then inr (Ok d) else inl (swap d lrg idx, lrg).

(** pqueue.c:102-132 pqueue_heapify *)
Definition pqueue_heapify cmp d (idx : nat) : res (list A) :=
  run_loop (heapify_body cmp) fuel64 (d, idx).

(** pqueue.c:86-97 pqueue_dequeue: the last element takes the place of the
    first one. *)
Definition pqueue_dequeue (q : option (PQueue A)) : res (option A * option (PQueue A)) :=
  match q, pqueue_peek q with
  | Some q, Some x =>
      let d := match last (qdata q) with
               | Some y => removelast (<[0%nat := y]> (qdata q))
               | None => []
               end in
      d ← pqueue_heapify (qcmp q) d 0;
      mret (Some x, Some (mkPQueue (capacity q) d (qcmp q)))
  | q, _ => mret (None, q)
  end.
End pqueue.
#[global] Arguments pqueue_enqueue : simpl never.
#[global] Arguments pqueue_dequeue : simpl never.
#[global] Arguments pqueue_heapify : simpl never.

(** ** Specification *)

(** A comparator orders its arguments totally: the sign of [cmp a b]. *)
Class Comparator {A} (cmp : A -> A -> Z) : Prop := {
  cmp_anti a b : cmp a b > 0 -> cmp b a < 0;
  cmp_anti' a b : cmp a b < 0 -> cmp b a > 0;
  cmp_trans a b c : cmp a b <= 0 -> cmp b c <= 0 -> cmp a c <= 0;
}.

Section spec.
Context {A : Type} (cmp : A -> A -> Z) `{!Comparator cmp}.
Implicit Types (d : list A) (i j : nat).

(** [sift_up]'s order: against [PARENT]. *)
Definition half_heap d : Prop :=
  forall i x p, i <> 0%nat -> d !! i = Some x -> d !! PARENT i = Some p -> cmp x p <= 0.

(** [heapify]'s order: against [LEFT] and [RIGHT]. *)
Definition std_heap d : Prop :=
  forall i c x y, c = LEFT i \/ c = RIGHT i ->
    d !! i = Some x -> d !! c = Some y -> cmp y x <= 0.

Lemma cmp_refl a : cmp a a = 0.
Proof.
  destruct (Z.lt_trichotomy (cmp a a) 0) as [H|[H|H]]; [|done|].
  - pose proof (cmp_anti' a a H). lia.
  - pose proof (cmp_anti a a (Z.lt_gt _ _ H)). lia.
Qed.

Lemma cmp_flip a b : cmp a b >= 0 -> cmp b a <= 0.
Proof.
  intros H. destruct (Z.le_gt_cases (cmp b a) 0) as [|H']; [done|].
  pose proof (cmp_anti b a (Z.lt_gt _ _ H')). lia.
Qed.

(** *** Exchanging two elements *)

Lemma length_swap d i j : length (swap d i j) = length d.
Proof. unfold swap. repeat case_match; by rewrite ?length_insert. Qed.

Lemma swap_lookup d i j x y k : d !! i = Some x -> d !! j = Some y ->
  swap d i j !! k = if decide (k = j) then Some x else if decide (k = i) then Some y else d !! k.
Proof.
  intros Hi Hj. unfold swap. rewrite Hi, Hj.
  pose proof (lookup_lt_Some _ _ _ Hi). pose proof (lookup_lt_Some _ _ _ Hj).
  destruct (decide (k = j)) as [->|].
  { apply list_lookup_insert_eq. by rewrite length_insert. }
  rewrite list_lookup_insert_ne by done.
  destruct (decide (k = i)) as [->|]; [by apply list_lookup_insert_eq|].
  by apply list_lookup_insert_ne.
Qed.

Lemma insert_perm d i x y : d !! i = Some x -> y :: d ≡ₚ x :: <[i := y]> d.
Proof.
  intros Hi. rewrite insert_take_drop by (by eapply lookup_lt_Some).
  rewrite <- (take_drop_middle d i x) at 1 by done.
  rewrite <- !Permutation_middle. by apply Permutation_swap.
Qed.

Lemma swap_perm d i j : swap d i j ≡ₚ d.
Proof.
  unfold swap. destruct (d !! i) as [x|] eqn:Hi; [|done].
  destruct (d !! j) as [y|] eqn:Hj; [|done].
  destruct (decide (i = j)) as [->|Hne].
  { simplify_eq. by rewrite list_insert_insert_eq, list_insert_id. }
  apply (Permutation_cons_inv (a := y)). rewrite <- (insert_perm (<[i := y]> d) j y x).
  - by rewrite <- insert_perm.
  - by rewrite list_lookup_insert_ne.
Qed.

(** *** Sifting up *)

Lemma PARENT_lt i : i <> 0%nat -> (PARENT i < i)%nat.
Proof. intros. unfold PARENT. apply Nat.div_lt; lia. Qed.

(** Every edge of the half tree is ordered except the one above [i]. *)
Definition half_except d i : Prop :=
  (forall k x p, k <> 0%nat -> k <> i -> d !! k = Some x -> d !! PARENT k = Some p -> cmp x p <= 0) /\
  (forall k x g, k <> 0%nat -> i <> 0%nat -> PARENT k = i -> d !! k = Some x ->
                 d !! PARENT i = Some g -> cmp x g <= 0).

Lemma half_except_swap d i x p : i <> 0%nat ->
  d !! i = Some x -> d !! PARENT i = Some p -> cmp x p > 0 ->
  half_except d i -> half_except (swap d i (PARENT i)) (PARENT i).
Proof.
  intros Hi0 Hx Hp Hgt [He Hg]. pose proof (cmp_anti _ _ Hgt). pose proof (PARENT_lt i Hi0).
  split.
  - intros k y z Hk0 Hki. rewrite !(swap_lookup _ _ _ x p) by done.
    destruct (decide (k = PARENT i)) as [|_]; [done|].
    destruct (decide (k = i)) as [->|Hk].
    { rewrite decide_True by done. intros [= <-] [= <-]. lia. }
    destruct (decide (PARENT k = PARENT i)) as [E|_].
    { intros Hy [= <-]. apply (cmp_trans y p x); [|lia]. apply (He k); by rewrite ?E. }
    destruct (decide (PARENT k = i)) as [E|_]; [|eauto].
    intros Hy [= <-]. by apply (Hg k).
  - intros k y g Hk0 Hp0 Hpk. rewrite !(swap_lookup _ _ _ x p) by done.
    pose proof (PARENT_lt _ Hp0). pose proof (PARENT_lt _ Hk0).
    rewrite (decide_False (P := PARENT (PARENT i) = PARENT i)) by lia.
    rewrite (decide_False (P := PARENT (PARENT i) = i)) by lia.
    rewrite (decide_False (P := k = PARENT i)) by lia.
    assert (forall g, d !! PARENT (PARENT i) = Some g -> cmp p g <= 0) as Hpg.
    { intros g' Hg'. apply (He (PARENT i)); [done|lia|done|done]. }
    destruct (decide (k = i)) as [->|Hk]; [intros [= <-]; eauto|].
    intros Hy Hgg. apply (cmp_trans y p g); [|eauto].
    apply (He k); [done|done|done|]. by rewrite Hpk.
Qed.

Lemma half_except_done d i : half_except d i ->
  (i = 0%nat \/ exists x p, d !! i = Some x /\ d !! PARENT i = Some p /\ cmp x p <= 0) ->
  half_heap d.
Proof.
  intros [He _] Hi k x p Hk0 Hx Hp. destruct (decide (k = i)) as [->|]; [|eauto].
  destruct Hi as [->|(x' & p' & ? & ? & ?)]; [done|]. by simplify_eq.
Qed.

Lemma half_snoc d x : half_heap d -> half_except (d ++ [x]) (length d).
Proof.
  intros Hd. split.
  - intros k y p Hk0 Hk Hy Hp. pose proof (PARENT_lt k Hk0).
    assert (k < length d)%nat.
    { apply lookup_lt_Some in Hy. rewrite length_app in Hy. simpl in Hy. lia. }
    rewrite lookup_app_l in Hy, Hp by lia. eauto.
  - intros k y g Hk0 _ Hpk Hy _. pose proof (PARENT_lt k Hk0).
    apply lookup_lt_Some in Hy. rewrite length_app in Hy. simpl in Hy. lia.
Qed.

Lemma sift_up_spec d i : (i < length d)%nat -> Z.of_nat i < Zpos fuel64 ->
  exists d', run_loop (sift_up_body cmp) fuel64 (d, i) = Ok d' /\ d' ≡ₚ d /\
             (half_except d i -> half_heap d').
Proof.
  intros Hi Hf.
  destruct (loop_rule (sift_up_body cmp)
    (fun '(e, j) => e ≡ₚ d /\ (j < length e)%nat /\ (half_except d i -> half_except e j))
    (fun r => exists e, r = Ok e /\ e ≡ₚ d /\ (half_except d i -> half_heap e))
    (fun '(_, j) => Z.of_nat j) fuel64 (d, i)) as (r & E & e & -> & He); [done|done| |].
  - intros [e j] (Hp & Hj & Hh). unfold sift_up_body.
    destruct (decide (j = 0%nat)) as [->|Hj0].
    { exists e. split; [done|]. split; [done|]. intros ?. apply (half_except_done e 0); auto. }
    destruct (lookup_lt_is_Some_2 e j Hj) as [x Hx]. rewrite Hx.
    pose proof (PARENT_lt j Hj0) as Hlt.
    destruct (lookup_lt_is_Some_2 e (PARENT j)) as [p Hpp]; [lia|]. rewrite Hpp.
    rewrite Z.gtb_ltb. destruct (Z.ltb_spec 0 (cmp x p)).
    + split; [|lia]. rewrite length_swap. split; [by rewrite swap_perm|]. split; [lia|].
      intros ?. apply (half_except_swap e j x p); auto with lia.
    + exists e. split; [done|]. split; [done|]. intros ?.
      apply (half_except_done e j); [auto|]. right. eauto.
  - exists e. unfold run_loop. by rewrite E.
Qed.

(** *** Sifting down *)

Lemma LEFT_gt i : (i < LEFT i)%nat.
Proof. unfold LEFT. lia. Qed.
Lemma RIGHT_gt i : (i < RIGHT i)%nat.
Proof. unfold RIGHT. lia. Qed.
Lemma child_inj i j c : (c = LEFT i \/ c = RIGHT i) -> (c = LEFT j \/ c = RIGHT j) -> i = j.
Proof. unfold LEFT, RIGHT. lia. Qed.

(** [largest] is the node or one of its children, and none of the three has a
    higher priority. *)
Lemma largest_spec d i x : d !! i = Some x ->
  exists y, d !! largest cmp d i = Some y /\
    (largest cmp d i = i \/
     (largest cmp d i = LEFT i \/ largest cmp d i = RIGHT i) /\ cmp y x > 0) /\
    cmp x y <= 0 /\
    (forall c z, c = LEFT i \/ c = RIGHT i -> d !! c = Some z -> cmp z y <= 0).
Proof.
  intros Hx. unfold largest. rewrite Hx.
  set (lrg := if decide (LEFT i < length d)%nat then _ else i).
  assert (exists y, d !! lrg = Some y /\ (lrg = i \/ lrg = LEFT i /\ cmp y x > 0) /\ cmp x y <= 0 /\
    (forall z, d !! LEFT i = Some z -> cmp z y <= 0)) as (y & Hy & Hor & Hxy & Hl).
  { unfold lrg. case_decide as Hlt.
    - destruct (lookup_lt_is_Some_2 d (LEFT i) Hlt) as [z Hz]. rewrite Hz, Z.gtb_ltb.
      destruct (Z.ltb_spec 0 (cmp z x)) as [H|H].
      + exists z. pose proof (cmp_anti z x (Z.lt_gt _ _ H)).
        split; [done|]. split; [right; split; [done|lia]|]. split; [lia|].
        intros ? [= <-]. by rewrite cmp_refl.
      + exists x. rewrite cmp_refl. split; [done|]. split; [by left|]. split; [lia|].
        intros ? [= <-]. lia.
    - exists x. rewrite cmp_refl. split; [done|]. split; [by left|]. split; [lia|].
      intros ? Hz. by apply lookup_lt_Some in Hz. }
  rewrite Hy. case_decide as Hlt.
  - destruct (lookup_lt_is_Some_2 d (RIGHT i) Hlt) as [z Hz]. rewrite Hz, Z.gtb_ltb.
    destruct (Z.ltb_spec 0 (cmp z y)) as [H|H].
    + exists z. pose proof (cmp_anti z y (Z.lt_gt _ _ H)). split; [done|].
      assert (cmp x z <= 0) by (apply (cmp_trans x y z); lia).
      split; [right; split; [by right|]|].
      { destruct (Z.lt_trichotomy (cmp z x) 0) as [|[|]]; [| |lia].
        - pose proof (cmp_trans z x y). lia.
        - pose proof (cmp_trans z x y). lia. }
      split; [done|]. intros c w [->| ->]; [intros Hw; apply (cmp_trans w y z); [eauto|lia]|].
      intros [= <-]%(eq_trans (eq_sym Hz)). by rewrite cmp_refl.
    + exists y. split; [done|]. split; [destruct Hor as [|[]]; auto|]. split; [done|].
      intros c w [->| ->]; [eauto|]. intros [= <-]%(eq_trans (eq_sym Hz)). lia.
  - exists y. split; [done|]. split; [destruct Hor as [|[]]; auto|]. split; [done|].
    intros c w [->| ->]; [eauto|]. intros Hw. by apply lookup_lt_Some in Hw.
Qed.

(** Every edge of the standard tree is ordered except those below [i]. *)
Definition std_except d i : Prop :=
  (forall k c x y, k <> i -> c = LEFT k \/ c = RIGHT k ->
     d !! k = Some x -> d !! c = Some y -> cmp y x <= 0) /\
  (forall g c x y, i = LEFT g \/ i = RIGHT g -> c = LEFT i \/ c = RIGHT i ->
     d !! g = Some x -> d !! c = Some y -> cmp y x <= 0).

Lemma std_except_swap d i l x y :
  l = LEFT i \/ l = RIGHT i -> d !! i = Some x -> d !! l = Some y -> cmp y x > 0 ->
  (forall c z, c = LEFT i \/ c = RIGHT i -> d !! c = Some z -> cmp z y <= 0) ->
  std_except d i -> std_except (swap d l i) l.
Proof.
  intros Hl Hx Hy Hgt Hmax [He Hg]. pose proof (cmp_anti _ _ Hgt).
  assert (i < l)%nat by (pose proof (LEFT_gt i); pose proof (RIGHT_gt i); destruct Hl; lia).
  split.
  - intros k c u v Hk Hc. rewrite !(swap_lookup _ _ _ y x) by done.
    assert (k < c)%nat by (pose proof (LEFT_gt k); pose proof (RIGHT_gt k); destruct Hc; lia).
    destruct (decide (k = i)) as [->|Hki].
    + intros [= <-]. rewrite (decide_False (P := c = i)) by lia.
      destruct (decide (c = l)) as [->|]; [intros [= <-]; lia|]. by apply Hmax.
    + rewrite (decide_False (P := k = l)) by done.
      destruct (decide (c = i)) as [->|Hci].
      { intros Hu [= <-]. by apply (Hg k l). }
      destruct (decide (c = l)) as [->|]; [|eauto].
      exfalso. apply Hki. by apply (child_inj k i l).
  - intros g c u v Hlg Hc. assert (g = i) as -> by (by apply (child_inj g i l)).
    rewrite !(swap_lookup _ _ _ y x) by done. rewrite decide_True by done. intros [= <-].
    assert (l < c)%nat by (pose proof (LEFT_gt l); pose proof (RIGHT_gt l); destruct Hc; lia).
    rewrite !decide_False by lia. intros Hv. apply (He l c); [lia|done..].
Qed.

Lemma std_except_done d i x : d !! i = Some x ->
  (forall c z, c = LEFT i \/ c = RIGHT i -> d !! c = Some z -> cmp z x <= 0) ->
  std_except d i -> std_heap d.
Proof.
  intros Hx Hmax [He _] k c u v Hc Hu Hv.
  destruct (decide (k = i)) as [->|]; [|eauto]. simplify_eq. eauto.
Qed.

Lemma heapify_spec d i : (i < length d)%nat -> Z.of_nat (length d) < Zpos fuel64 ->
  exists d', pqueue_heapify cmp d i = Ok d' /\ d' ≡ₚ d /\ (std_except d i -> std_heap d').
Proof.
  intros Hi Hf.
  destruct (loop_rule (heapify_body cmp)
    (fun '(e, j) => e ≡ₚ d /\ (j < length e)%nat /\ length e = length d /\
                    (std_except d i -> std_except e j))
    (fun r => exists e, r = Ok e /\ e ≡ₚ d /\ (std_except d i -> std_heap e))
    (fun '(_, j) => Z.of_nat (length d - j)) fuel64 (d, i)) as (r & E & e & -> & He); [done|lia| |].
  - intros [e j] (Hp & Hj & Hlen & Hh). unfold heapify_body.
    destruct (lookup_lt_is_Some_2 e j Hj) as [x Hx].
    destruct (largest_spec e j x Hx) as (y & Hy & Hor & Hxy & Hmax).
    case_decide as Hd.
    + exists e. split; [done|]. split; [done|]. intros ?. rewrite Hd, Hx in Hy. simplify_eq.
      apply (std_except_done e j y); auto.
    + destruct Hor as [|[Hc Hgt]]; [done|]. pose proof (lookup_lt_Some _ _ _ Hy).
      pose proof (LEFT_gt j). pose proof (RIGHT_gt j). rewrite !length_swap.
      split; [|lia]. split; [by rewrite swap_perm|]. split; [done|]. split; [done|].
      intros ?. apply (std_except_swap e j _ x y); auto.
  - exists e. unfold pqueue_heapify, run_loop. by rewrite E.
Qed.

(** The root of a standard heap has the highest priority. *)
Lemma std_heap_root d x : std_heap d -> d !! 0%nat = Some x ->
  forall i y, d !! i = Some y -> cmp y x <= 0.
Proof.
  intros Hd Hx i. induction i as [i IH] using lt_wf_ind. intros y Hy.
  destruct i as [|i]; [simplify_eq; by rewrite cmp_refl|].
  assert (exists p, (p < S i)%nat /\ (S i = LEFT p \/ S i = RIGHT p)) as (p & Hp & Hc).
  { exists (i / 2)%nat. pose proof (Nat.div_mod_eq i 2). pose proof (Nat.mod_upper_bound i 2).
    unfold LEFT, RIGHT. lia. }
  destruct (lookup_lt_is_Some_2 d p) as [z Hz]; [apply lookup_lt_Some in Hy; lia|].
  apply (cmp_trans y z x); [eauto|]. by apply (IH p).
Qed.

(** The root of a half heap has the highest priority too. *)
Lemma half_heap_root d x : half_heap d -> d !! 0%nat = Some x ->
  forall i y, d !! i = Some y -> cmp y x <= 0.
Proof.
  intros Hd Hx i. induction i as [i IH] using lt_wf_ind. intros y Hy.
  destruct (decide (i = 0%nat)) as [->|Hi]; [simplify_eq; by rewrite cmp_refl|].
  pose proof (PARENT_lt i Hi).
  destruct (lookup_lt_is_Some_2 d (PARENT i)) as [z Hz]; [apply lookup_lt_Some in Hy; lia|].
  apply (cmp_trans y z x); [eauto|]. by apply (IH (PARENT i)).
Qed.
End spec.

(** ** What the queue guarantees *)

Section theorems.
Context {A : Type} (cmp : A -> A -> Z) `{!Comparator cmp}.
Implicit Types (d : list A) (cap : Z).

(** The whole array can be indexed with [size_t]. *)
Definition cap_ok (cap : Z) : Prop := 0 <= cap < 2 ^ 63.

Lemma enqueue_total cap d x : cap_ok cap -> Z.of_nat (length d) <= cap ->
  exists d', pqueue_enqueue (Some (mkPQueue cap d cmp)) x = Ok (mkPQueue cap d' cmp) /\
    (Z.of_nat (length d) < cap -> d' ≡ₚ x :: d /\ (half_heap cmp d -> half_heap cmp d')) /\
    (Z.of_nat (length d) = cap -> d' = d).
Proof.
  intros [? Hcap] Hle. unfold pqueue_enqueue, qsize; simpl. rewrite Z.geb_leb.
  destruct (Z.leb_spec cap (Z.of_nat (length d))); [exists d; split; [done|split; [intros; lia|done]]|].
  destruct (sift_up_spec cmp (d ++ [x]) (length d)) as (d' & -> & Hp & Hh);
    [rewrite length_app; simpl; lia|unfold fuel64; lia|].
  exists d'. split; [done|]. split; [|lia]. intros _. split.
  - rewrite Hp. by rewrite Permutation_app_comm.
  - intros Hd. by apply Hh, half_snoc.
Qed.

(** Enqueueing never loses or duplicates an element: while the queue is
    not full the new element is added and the order sifting up relies on is
    kept; a full queue is left as it is, the element is dropped. *)
Theorem enqueue_spec cap d x : cap_ok cap -> Z.of_nat (length d) <= cap ->
  exists d', pqueue_enqueue (Some (mkPQueue cap d cmp)) x = Ok (mkPQueue cap d' cmp) /\
    (Z.of_nat (length d) < cap -> d' ≡ₚ x :: d /\ (half_heap cmp d -> half_heap cmp d')) /\
    (Z.of_nat (length d) = cap -> d' = d).
Proof. apply enqueue_total. Qed.

Lemma refill_perm x rest : exists d, 
  match last (x :: rest) with
  | Some y => removelast (<[0%nat := y]> (x :: rest)) | None => [] end = d /\
  d ≡ₚ rest /\ (forall i z, i <> 0%nat -> d !! i = Some z -> (x :: rest) !! i = Some z).
Proof.
  destruct rest as [|r rest _] using rev_ind; [by exists []|].
  exists (r :: rest). rewrite app_comm_cons, last_snoc.
  change (<[0%nat := r]> ((x :: rest) ++ [r])) with ((r :: rest) ++ [r]).
  rewrite removelast_last. split; [done|]. split.
  - rewrite Permutation_app_comm. done.
  - intros [|i] z Hi Hz; [done|]. simpl in *. rewrite lookup_app_l; [done|].
    by eapply lookup_lt_Some.
Qed.

Lemma dequeue_total cap x rest : cap_ok cap -> Z.of_nat (length (x :: rest)) <= cap ->
  std_heap cmp (x :: rest) ->
  exists d', pqueue_dequeue (Some (mkPQueue cap (x :: rest) cmp)) =
             Ok (Some x, Some (mkPQueue cap d' cmp)) /\
    d' ≡ₚ rest /\ std_heap cmp d' /\ Forall (fun y => cmp y x <= 0) rest.
Proof.
  intros [? Hcap] Hle Hstd. unfold pqueue_dequeue, pqueue_peek. cbn [qdata head capacity qcmp].
  destruct (refill_perm x rest) as (d & -> & Hp & Hsub).
  assert (Forall (fun y => cmp y x <= 0) rest) as Hall.
  { apply Forall_lookup. intros i y Hy. by apply (std_heap_root cmp (x :: rest) x Hstd eq_refl (S i)). }
  pose proof (Permutation_length Hp). simpl in Hle.
  destruct d as [|z d].
  { exists []. unfold pqueue_heapify, run_loop. rewrite loop_pos_nat.
    destruct (Pos2Nat.is_succ fuel64) as [f ->]. simpl. by split; [|split; [|split]]. }
  destruct (heapify_spec cmp (z :: d) 0) as (d' & -> & Hp' & Hh); [simpl; lia|unfold fuel64; lia|].
  exists d'. split; [done|]. split; [by rewrite Hp'|]. split; [|done]. apply Hh. split.
  - intros k c u v Hk Hc Hu Hv. apply (Hstd k c); [done|by apply Hsub|].
    apply Hsub; [|done]. unfold LEFT, RIGHT in Hc. lia.
  - intros g c u v Hg. unfold LEFT, RIGHT in Hg. lia.
Qed.

(** From a standard heap the element of the highest priority is dequeued,
    and what remains is a standard heap of the other elements. *)
Theorem dequeue_spec cap x rest : cap_ok cap -> Z.of_nat (length (x :: rest)) <= cap ->
  std_heap cmp (x :: rest) ->
  exists d', pqueue_dequeue (Some (mkPQueue cap (x :: rest) cmp)) =
             Ok (Some x, Some (mkPQueue cap d' cmp)) /\
    d' ≡ₚ rest /\ std_heap cmp d' /\ Forall (fun y => cmp y x <= 0) rest.
Proof. apply dequeue_total. Qed.

(** Elements that arrive in order of priority: the array stays sorted at the
    end, nothing is sifted. *)
Lemma enqueue_last cap d x : cap_ok cap -> Z.of_nat (length d) < cap ->
  Forall (fun y => cmp x y <= 0) d ->
  pqueue_enqueue (Some (mkPQueue cap d cmp)) x = Ok (mkPQueue cap (d ++ [x]) cmp).
Proof.
  intros [? Hcap] Hlt Hall. unfold pqueue_enqueue, qsize; simpl. rewrite Z.geb_leb.
  rewrite (proj2 (Z.leb_gt _ _)) by lia.
  unfold run_loop. rewrite loop_pos_nat. destruct (Pos2Nat.is_succ fuel64) as [f ->]. simpl.
  case_decide as H0; [done|]. rewrite lookup_app_r, Nat.sub_diag by lia. simpl.
  pose proof (PARENT_lt (length d) H0) as Hp. rewrite lookup_app_l by done.
  destruct (lookup_lt_is_Some_2 d _ Hp) as [p Hpp]. rewrite Hpp, Z.gtb_ltb.
  rewrite Forall_lookup in Hall. by rewrite (proj2 (Z.ltb_ge _ _)) by (eapply Hall; eauto).
Qed.

Lemma std_heap_snoc d x : std_heap cmp d -> Forall (fun y => cmp x y <= 0) d ->
  std_heap cmp (d ++ [x]).
Proof.
  intros Hd Hall k c u v Hc Hu Hv. rewrite Forall_lookup in Hall.
  assert (k < c)%nat by (unfold LEFT, RIGHT in Hc; lia).
  pose proof (lookup_lt_Some _ _ _ Hv) as Hl. rewrite length_app in Hl. simpl in Hl.
  rewrite lookup_app_l in Hu by lia.
  destruct (decide (c < length d)%nat).
  - rewrite lookup_app_l in Hv by done. eauto.
  - rewrite lookup_app_r in Hv by lia. replace (c - length d)%nat with O in Hv by lia.
    simplify_eq/=. eauto.
Qed.

(** *** Refinement of a first-in first-out queue

    [fifo q l]: the queue holds the elements [l], which arrived in this order
    and have strictly decreasing priority. *)
Definition later : A -> A -> Prop := fun a b => cmp b a < 0.
Definition fifo (q : PQueue A) (l : list A) : Prop :=
  cap_ok (capacity q) /\ Z.of_nat (length l) <= capacity q /\ qcmp q = cmp /\
  qdata q ≡ₚ l /\ std_heap cmp (qdata q) /\ StronglySorted later l.

Lemma fifo_empty cap : cap_ok cap -> 0 <= cap -> fifo (mkPQueue cap [] cmp) [].
Proof.
  intros Hcap H0. split; [done|]. split; [simpl; lia|]. split; [done|]. split; [done|].
  split; [intros [|i] k x y Hk Hx; by rewrite ?lookup_nil in Hx|constructor].
Qed.

Lemma fifo_enqueue q l x : fifo q l -> Z.of_nat (length l) < capacity q ->
  Forall (fun y => later y x) l ->
  exists q', pqueue_enqueue (Some q) x = Ok q' /\ fifo q' (l ++ [x]) /\ capacity q' = capacity q.
Proof.
  destruct q as [cap d c]. unfold fifo; cbn [capacity qdata qcmp]. intros (Hcap & Hle & -> & Hp & Hstd & Hs) Hlt Hl.
  assert (Forall (fun y => cmp x y <= 0) d) as Hall.
  { rewrite Hp. eapply Forall_impl; [done|]. unfold later. simpl. lia. }
  pose proof (Permutation_length Hp). rewrite enqueue_last by (done || lia).
  eexists. split; [done|]. cbn [capacity qdata qcmp]. split; [|done]. rewrite length_app. simpl.
  split; [done|]. split; [lia|]. split; [done|]. split; [by rewrite Hp|].
  split; [by apply std_heap_snoc|]. apply StronglySorted_app_2; [|done|by repeat constructor].
  intros a b Ha Hb%list_elem_of_singleton. subst. rewrite Forall_forall in Hl. by apply Hl.
Qed.

Lemma fifo_dequeue q x l : fifo q (x :: l) ->
  exists q', pqueue_dequeue (Some q) = Ok (Some x, Some q') /\ fifo q' l /\ capacity q' = capacity q.
Proof.
  destruct q as [cap d c]. unfold fifo; cbn [capacity qdata qcmp]. intros (Hcap & Hle & -> & Hp & Hstd & Hs).
  pose proof (Permutation_length Hp) as Hlen. destruct d as [|y d]; [done|].
  inversion Hs as [|? ? Hs' Hl]; subst.
  destruct (dequeue_total cap y d) as (d' & E & Hp' & Hstd' & Hmax); [done|simpl in *; lia|done|].
  assert (y = x) as ->.
  { assert (y ∈ x :: l) as Hy by (rewrite <- Hp; left). apply elem_of_cons in Hy as [|Hy]; [done|].
    assert (x ∈ y :: d) as Hx by (rewrite Hp; left). apply elem_of_cons in Hx as [|Hx]; [done|].
    rewrite Forall_forall in Hl, Hmax. specialize (Hl y Hy). specialize (Hmax x Hx).
    unfold later in Hl. pose proof (cmp_anti' y x). lia. }
  rewrite E. eexists. split; [done|]. cbn [capacity qdata qcmp]. apply Permutation_cons_inv in Hp.
  split; [|done]. split; [done|]. split; [simpl in *; lia|]. split; [done|].
  split; [by rewrite Hp'|]. done.
Qed.

(** *** Sequences of operations *)

Inductive qop := Enq (x : A) | Deq.

(** The queue's answers to a sequence of operations. *)
Fixpoint run_ops (q : PQueue A) (ops : list qop) : res (list (option A)) :=
  match ops with
  | [] => mret []
  | Enq x :: ops => q ← pqueue_enqueue (Some q) x; run_ops q ops
  | Deq :: ops =>
      r ← pqueue_dequeue (Some q);
      match r with
      | (x, Some q) => out ← run_ops q ops; mret (x :: out)
      | (_, None) => Fault NullDeref
      end
  end.

(** A first-in first-out queue of bounded capacity that drops what does not fit. *)
Fixpoint fifo_ops (cap : Z) (l : list A) (ops : list qop) : list (option A) :=
  match ops with
  | [] => []
  | Enq x :: ops => fifo_ops cap (if Z.of_nat (length l) <? cap then l ++ [x] else l) ops
  | Deq :: ops => head l :: fifo_ops cap (tail l) ops
  end.

Definition enqs (ops : list qop) : list A := omap (fun o => match o with Enq x => Some x | Deq => None end) ops.

Lemma run_ops_fifo q l ops : fifo q l -> StronglySorted later (l ++ enqs ops) ->
  run_ops q ops = Ok (fifo_ops (capacity q) l ops).
Proof.
  revert q l. induction ops as [|[x|] ops IH]; intros q l Hq Hs; simpl; [done| |].
  - apply StronglySorted_app in Hs as (Hlx & Hl & Hops).
    inversion Hops as [|? ? Hops' Hx]; subst.
    destruct (Z.ltb_spec (Z.of_nat (length l)) (capacity q)) as [Hlt|Hge].
    + destruct (fifo_enqueue q l x) as (q' & -> & Hq' & <-); [done|done| |].
      { apply Forall_forall. intros y Hy. apply Hlx; [done|left]. }
      simpl. apply IH; [done|]. rewrite <- (assoc (++)). apply StronglySorted_app_2; [|done|done].
      intros y z Hy Hz. by apply Hlx.
    + destruct q as [cap d c]. destruct Hq as (Hcap & Hle & Hc & Hp & ?). simpl in *. subst c.
      destruct (enqueue_total cap d x) as (d' & -> & _ & Hd'); [done|by rewrite Hp|].
      rewrite Hd' by (rewrite Hp; lia). simpl. apply (IH (mkPQueue cap d cmp)); [done|].
      apply StronglySorted_app_2; [|done|done]. intros y z Hy Hz. apply Hlx; [done|by right].
  - destruct l as [|x l].
    + destruct q as [cap d c]. pose proof Hq as (_ & _ & _ & Hp & _). simpl in Hp.
      apply Permutation_nil_r in Hp as ->. unfold pqueue_dequeue at 1. simpl.
      by rewrite (IH (mkPQueue cap [] c) []).
    + destruct (fifo_dequeue q x l Hq) as (q' & -> & Hq' & <-). simpl.
      rewrite (IH q' l); [done|done|]. by inversion Hs.
Qed.

(** C26: for traffic that arrives in play order (each new element has a lower
    priority than every earlier one) the queue created by [pqueue_new] answers
    every sequence of operations like a bounded first-in first-out queue. *)
Theorem in_order_traffic cap ops : cap_ok cap -> StronglySorted later (enqs ops) ->
  (q ← pqueue_new (Some cmp) cap; run_ops q ops) = Ok (fifo_ops cap [] ops).
Proof.
  intros Hcap Hs. simpl. apply (run_ops_fifo (mkPQueue cap [] cmp) []); [|done].
  unfold fifo, cap_ok in *. simpl. split; [done|]. split; [lia|]. split; [done|]. split; [done|].
  split; [|constructor]. intros k c x y _ Hx. by rewrite lookup_nil in Hx.
Qed.
End theorems.
Arguments Enq {A} x.
Arguments Deq {A}.

(** ** Only the comparator looks at the elements

    A queue of [f]-images does what the queue of the originals does, if the
    comparators say the same. *)
Section map.
Context {A B : Type} (f : A -> B) (cmp : A -> A -> Z) (cmp' : B -> B -> Z)
  (Hcmp : forall x y, (cmp' (f x) (f y) >? 0) = (cmp x y >? 0)).

Definition map_queue (q : PQueue A) : PQueue B := mkPQueue (capacity q) (f <$> qdata q) cmp'.

Lemma swap_map d i j : swap (f <$> d) i j = f <$> swap d i j.
Proof.
  unfold swap. rewrite !list_lookup_fmap. destruct (d !! i), (d !! j); simpl; [|done..].
  by rewrite !list_fmap_insert.
Qed.

Lemma enqueue_map q x : qcmp q = cmp ->
  pqueue_enqueue (Some (map_queue q)) (f x) = res_map map_queue (pqueue_enqueue (Some q) x).
Proof.
  intros <-. unfold pqueue_enqueue, qsize, map_queue. simpl. rewrite length_fmap.
  destruct (_ >=? capacity q); [done|].
  assert (run_loop (sift_up_body cmp') fuel64 (prod_map (fmap f) id (qdata q ++ [x], length (qdata q))) =
    res_map (fmap f) (run_loop (sift_up_body (qcmp q)) fuel64 (qdata q ++ [x], length (qdata q)))) as E.
  { apply run_loop_map. intros [d i]. unfold sift_up_body. simpl. destruct (decide (i = 0%nat)); [done|].
    rewrite !list_lookup_fmap. destruct (d !! i), (d !! PARENT i); simpl; try done.
    rewrite Hcmp. destruct (_ >? 0); simpl; [|done]. by rewrite swap_map. }
  simpl in E. rewrite fmap_app in E. simpl in E. rewrite E.
  generalize (run_loop (sift_up_body (qcmp q)) fuel64 (qdata q ++ [x], length (qdata q))).
  intros [d|e]; reflexivity.
Qed.

Lemma dequeue_map q : qcmp q = cmp ->
  pqueue_dequeue (Some (map_queue q)) = res_map (prod_map (fmap f) (fmap map_queue)) (pqueue_dequeue (Some q)).
Proof.
  intros <-. unfold pqueue_dequeue, pqueue_peek, map_queue. simpl.
  assert (head (f <$> qdata q) = f <$> head (qdata q)) as -> by by destruct (qdata q).
  destruct (head (qdata q)) as [x|] eqn:Eh; simpl; [|done].
  rewrite fmap_last. destruct (last (qdata q)) as [y|] eqn:El; simpl; [|by rewrite (proj1 (last_None _) El) in Eh].
  set (d := <[0%nat := y]> (qdata q)).
  assert (forall l : list A, removelast (f <$> l) = f <$> removelast l) as Hr.
  { intros l. induction l as [|a [|b l] IH]; [done..|]. simpl in *. by rewrite IH. }
  rewrite <- list_fmap_insert. fold d. rewrite Hr. unfold pqueue_heapify.
  assert (run_loop (heapify_body cmp') fuel64 (prod_map (fmap f) id (removelast d, 0%nat)) =
    res_map (fmap f) (run_loop (heapify_body (qcmp q)) fuel64 (removelast d, 0%nat))) as E.
  { apply run_loop_map. intros [d' i]. unfold heapify_body. simpl.
    assert (largest cmp' (f <$> d') i = largest (qcmp q) d' i) as ->.
    { unfold largest. rewrite length_fmap, !list_lookup_fmap.
      assert (forall a b, match f <$> d' !! a, f <$> d' !! b with Some x, Some y => cmp' x y >? 0 | _, _ => false end =
        match d' !! a, d' !! b with Some x, Some y => qcmp q x y >? 0 | _, _ => false end) as Hm.
      { intros a b. destruct (d' !! a), (d' !! b); simpl; done. }
      by rewrite !Hm. }
    destruct (decide _); simpl; [done|]. by rewrite swap_map. }
  simpl in E. rewrite E.
  generalize (run_loop (heapify_body (qcmp q)) fuel64 (removelast d, 0%nat)).
  intros [d'|e]; reflexivity.
Qed.
End map.

(** ** Concrete queues of numbers, a greater number having the higher priority *)

Definition z_cmp (a b : Z) : Z := a - b.
#[export] Instance z_cmp_comparator : Comparator z_cmp.
Proof. split; unfold z_cmp; lia. Qed.

(** The parent index is wrong, so arrivals out of order can be dequeued out
    of order: after these operations the queue holds 4 and 3 and returns 3. *)
Theorem dequeue_not_highest :
  (q ← pqueue_new (Some z_cmp) 40;
   run_ops q [Enq 7; Enq 6; Enq 5; Enq 0; Enq 1; Deq; Enq 4; Enq 2; Enq 3; Deq; Deq; Deq; Deq])
  = Ok [Some 7; Some 6; Some 5; Some 3; Some 4].
Proof. vm_compute. reflexivity. Qed.

Lemma enqueue_spec_witness :
  exists d', pqueue_enqueue (Some (mkPQueue 4 [3; 1] z_cmp)) 2 = Ok (mkPQueue 4 d' z_cmp) /\
    (Z.of_nat (length [3; 1]) < 4 -> d' ≡ₚ [2; 3; 1] /\ (half_heap z_cmp [3; 1] -> half_heap z_cmp d')) /\
    (Z.of_nat (length [3; 1]) = 4 -> d' = [3; 1]).
Proof. apply (enqueue_spec z_cmp 4 [3; 1] 2); unfold cap_ok; simpl; lia. Defined.

Lemma std_heap_demo : std_heap z_cmp [3; 1; 2].
Proof.
  intros [|[|k]] c x y Hc Hx Hy; [| |by destruct k; destruct Hc as [-> | ->]].
  - destruct Hc as [-> | ->]; simplify_eq/=; unfold z_cmp; lia.
  - by destruct Hc as [-> | ->].
Qed.

Lemma dequeue_spec_witness :
  exists d', pqueue_dequeue (Some (mkPQueue 4 [3; 1; 2] z_cmp)) =
             Ok (Some 3, Some (mkPQueue 4 d' z_cmp)) /\
    d' ≡ₚ [1; 2] /\ std_heap z_cmp d' /\ Forall (fun y => z_cmp y 3 <= 0) [1; 2].
Proof. apply (dequeue_spec z_cmp 4 3 [1; 2]); [unfold cap_ok; lia|simpl; lia|apply std_heap_demo]. Defined.

Lemma in_order_traffic_witness :
  (q ← pqueue_new (Some z_cmp) 2; run_ops q [Enq 9; Enq 8; Deq; Enq 5; Enq 3; Deq; Deq; Deq])
  = Ok [Some 9; Some 8; Some 5; None].
Proof.
  rewrite (in_order_traffic z_cmp 2); [reflexivity|unfold cap_ok; lia|].
  repeat constructor; unfold later, z_cmp; lia.
Defined.
