(* ===== verification/TaskHeap.v ===== *)
(** * The task heap of taskqueue.c as a pure data structure

    taskqueue.c keeps the pending tasks in a pairing heap whose nodes are linked
    by their first child and their next sibling.  That is a binary tree, here
    [forest]: a node with the forest of its children and the forest of its later
    siblings.  This file holds the heap operations on forests, their order and
    content invariants, and the interface [TimerQueue] which the scheduler
    ([TaskSched.v]) is written against.  [TaskQueue.v] models the pointer code
    and proves that it implements these functions. *)
From S2P Require Import Prelude.
From S2P Require Import Timespec.

(** The address of a task. *)
Abbreviation addr := positive.

(** ** Data *)

Inductive forest :=
  | Nil
  | Cons (p : addr) (d : timespec) (kids sibs : forest).

(** A queue detached from any list: a node without siblings. *)
Record tree := mkTree { t_id : addr; t_due : timespec; t_kids : forest }.

Definition single (t : tree) : forest := Cons (t_id t) (t_due t) (t_kids t) Nil.

Definition fhead (f : forest) : option addr :=
  match f with Nil => None | Cons p _ _ _ => Some p end.

(** The tasks of a forest with their due times. *)
Fixpoint elems (f : forest) : list (addr * timespec) :=
  match f with
  | Nil => []
  | Cons p d k s => (p, d) :: elems k ++ elems s
  end.

Definition addrs (f : forest) : list addr := (elems f).*1.

(** ** Operations *)

(** taskqueue.c:187-198 taskqueue_merge: on a tie the second queue wins. *)
Definition fmerge2 (t1 t2 : tree) : tree :=
  let '(lo, hi) := if timespec_cmp (t_due t1) (t_due t2) <? 0 then (t1, t2) else (t2, t1) in
  mkTree (t_id lo) (t_due lo) (Cons (t_id hi) (t_due hi) (t_kids hi) (t_kids lo)).

(** taskqueue.c:178-201 taskqueue_merge *)
Definition fmerge (t1 : tree) (t2 : option tree) : tree :=
  match t2 with None => t1 | Some t2 => fmerge2 t1 t2 end.

(** taskqueue.c:204-221 taskqueue_merge_pairs *)
Fixpoint fmerge_pairs (f : forest) : option tree :=
  match f with
  | Nil => None
  | Cons p0 d0 k0 Nil => Some (mkTree p0 d0 k0)
  | Cons p0 d0 k0 (Cons p1 d1 k1 rest) =>
      Some (fmerge (fmerge2 (mkTree p0 d0 k0) (mkTree p1 d1 k1)) (fmerge_pairs rest))
  end.

(** taskqueue.c:224-230 taskqueue_insert: the root list of a queue has at most
    one node. *)
Definition finsert (p : addr) (d : timespec) (f : forest) : forest :=
  match f with
  | Nil => single (mkTree p d Nil)
  | Cons q e k _ => single (fmerge2 (mkTree p d Nil) (mkTree q e k))
  end.

(** What takes the place of a removed node: its merged children, in front of its
    later siblings. *)
Definition fsplice (k s : forest) : forest :=
  match fmerge_pairs k with
  | None => s
  | Some t => Cons (t_id t) (t_due t) (t_kids t) s
  end.

(** taskqueue.c:233-251 taskqueue_remove *)
Fixpoint fremove (p : addr) (f : forest) : forest :=
  match f with
  | Nil => Nil
  | Cons q d k s =>
      if decide (q = p) then fsplice k s else Cons q d (fremove p k) (fremove p s)
  end.

(** ** Invariants *)

Definition not_before (d : timespec) (f : forest) : Prop :=
  Forall (fun e => timespec_cmp d e.2 <= 0) (elems f).

(** No task is due before its parent in the heap. *)
Fixpoint ordered (f : forest) : Prop :=
  match f with
  | Nil => True
  | Cons _ d k s => not_before d k /\ ordered k /\ ordered s
  end.

Definition rooted (f : forest) : Prop := match f with Cons _ _ _ (Cons _ _ _ _) => False | _ => True end.

(** Induction two siblings at a time, the recursion of [fmerge_pairs]. *)
Lemma pairs_ind (P : forest -> Prop) :
  P Nil -> (forall p d k, P (Cons p d k Nil)) ->
  (forall p0 d0 k0 p1 d1 k1 s, P s -> P (Cons p0 d0 k0 (Cons p1 d1 k1 s))) ->
  forall f, P f.
Proof.
  intros H0 H1 H2. fix IH 1. intros [|p0 d0 k0 [|p1 d1 k1 s]]; [done|done|]. apply H2, IH.
Qed.

(** *** Content *)

Lemma fmerge2_elems t1 t2 :
  elems (single (fmerge2 t1 t2)) ≡ₚ elems (single t1) ++ elems (single t2).
Proof.
  unfold fmerge2, single. destruct (_ <? 0); simpl; rewrite !app_nil_r.
  - constructor. rewrite <- Permutation_middle. constructor. apply Permutation_app_comm.
  - rewrite <- Permutation_middle. apply Permutation_swap.
Qed.

Lemma fmerge_elems t1 t2 :
  elems (single (fmerge t1 t2)) ≡ₚ elems (single t1) ++ from_option (fun t => elems (single t)) [] t2.
Proof. destruct t2; cbn [fmerge from_option]; [apply fmerge2_elems|by rewrite app_nil_r]. Qed.

Lemma fmerge_pairs_elems f :
  from_option (fun t => elems (single t)) [] (fmerge_pairs f) ≡ₚ elems f.
Proof.
  induction f as [| |p0 d0 k0 p1 d1 k1 s IH] using pairs_ind; [done|done|].
  cbn [fmerge_pairs from_option]. rewrite fmerge_elems, fmerge2_elems, IH. simpl.
  rewrite !app_nil_r. constructor. rewrite <- (assoc (++)). done.
Qed.

Lemma fsplice_elems k s : elems (fsplice k s) ≡ₚ elems k ++ elems s.
Proof.
  unfold fsplice. rewrite <- (fmerge_pairs_elems k). destruct (fmerge_pairs k); simpl; [|done].
  by rewrite app_nil_r.
Qed.

Lemma finsert_elems p d f : rooted f -> elems (finsert p d f) ≡ₚ (p, d) :: elems f.
Proof.
  destruct f as [|q e k [|]]; [done| |done]. intros _. cbn [finsert]. by rewrite fmerge2_elems.
Qed.

Lemma fremove_notin p f : p ∉ addrs f -> fremove p f = f.
Proof.
  induction f as [|q d k IHk s IHs]; simpl; [done|]. unfold addrs. simpl.
  rewrite fmap_app, not_elem_of_cons, not_elem_of_app. intros (? & ? & ?).
  rewrite decide_False by done. by rewrite IHk, IHs.
Qed.

Lemma addrs_cons q d k s : addrs (Cons q d k s) = q :: addrs k ++ addrs s.
Proof. unfold addrs. simpl. by rewrite fmap_app. Qed.

Lemma fremove_elems p d f : NoDup (addrs f) -> (p, d) ∈ elems f ->
  elems f ≡ₚ (p, d) :: elems (fremove p f).
Proof.
  induction f as [|q e k IHk s IHs]; simpl; [by intros _ ?%elem_of_nil|].
  rewrite addrs_cons, NoDup_cons, NoDup_app, not_elem_of_app.
  intros ([Hqk Hqs] & Hk & Hdisj & Hs) Hin.
  assert (forall f, (p, d) ∈ elems f -> p ∈ addrs f) as Haddr.
  { intros f Hf. unfold addrs. apply (list_elem_of_fmap_2 fst _ _ Hf). }
  destruct (decide (q = p)) as [->|Hne].
  - apply elem_of_cons in Hin as [[= ->]|Hin]; [by rewrite fsplice_elems|].
    apply elem_of_app in Hin as [Hin|Hin]; apply Haddr in Hin; contradiction.
  - apply elem_of_cons in Hin as [[= ->]|Hin]; [done|]. cbn [elems].
    rewrite Permutation_swap. constructor. apply elem_of_app in Hin as [Hin|Hin].
    + rewrite (fremove_notin p s) by (intros ?; by apply (Hdisj p); [apply Haddr|]).
      by rewrite IHk.
    + rewrite (fremove_notin p k) by (intros ?; by apply (Hdisj p); [|apply Haddr]).
      rewrite IHs by done. by rewrite Permutation_middle.
Qed.

(** *** Order *)

#[export] Instance not_before_proper d : Proper ((≡ₚ) ==> iff)
  (fun l : list (addr * timespec) => Forall (fun e => timespec_cmp d e.2 <= 0) l).
Proof. intros l1 l2 H. by rewrite H. Qed.

Lemma not_before_tree e t : timespec_cmp e (t_due t) <= 0 -> ordered (single t) ->
  not_before e (single t).
Proof.
  unfold not_before, single; simpl. rewrite app_nil_r. intros He (Hk & _).
  constructor; [done|]. eapply Forall_impl; [done|]. intros x Hx.
  by apply (timespec_cmp_le_trans _ (t_due t)).
Qed.

Lemma fmerge2_ordered t1 t2 : ordered (single t1) -> ordered (single t2) ->
  ordered (single (fmerge2 t1 t2)).
Proof.
  assert (forall lo hi, timespec_cmp (t_due lo) (t_due hi) <= 0 ->
    ordered (single lo) -> ordered (single hi) ->
    ordered (Cons (t_id lo) (t_due lo) (Cons (t_id hi) (t_due hi) (t_kids hi) (t_kids lo)) Nil)) as Hlink.
  { intros lo hi Hle Hlo Hhi. pose proof (not_before_tree _ _ Hle Hhi) as Hnb.
    unfold not_before, single in *; simpl in *. rewrite app_nil_r in Hnb.
    destruct Hlo as (? & ? & _), Hhi as (? & ? & _).
    split; [|done]. inversion Hnb; subst. constructor; [done|]. by apply Forall_app. }
  intros H1 H2. unfold fmerge2. destruct (Z.ltb_spec (timespec_cmp (t_due t1) (t_due t2)) 0).
  - apply (Hlink t1 t2); [lia|done|done].
  - apply (Hlink t2 t1); [|done|done]. rewrite timespec_cmp_antisym. lia.
Qed.

Lemma fmerge_pairs_ordered f : ordered f ->
  match fmerge_pairs f with Some t => ordered (single t) | None => True end.
Proof.
  induction f as [| |p0 d0 k0 p1 d1 k1 s IH] using pairs_ind; simpl; [done|naive_solver|].
  intros (? & ? & ? & ? & Hs). specialize (IH Hs).
  assert (ordered (single (fmerge2 (mkTree p0 d0 k0) (mkTree p1 d1 k1)))) as Hm
    by (by apply fmerge2_ordered).
  destruct (fmerge_pairs s) as [t|]; simpl; [by apply fmerge2_ordered|done].
Qed.

Lemma fsplice_ordered k s : ordered k -> ordered s -> ordered (fsplice k s).
Proof.
  intros Hk Hs. pose proof (fmerge_pairs_ordered k Hk) as H. unfold fsplice.
  destruct (fmerge_pairs k) as [t|]; [|done]. destruct H as (? & ? & _). by split.
Qed.

Lemma finsert_ordered p d f : ordered f -> ordered (finsert p d f).
Proof.
  destruct f as [|q e k s]; simpl; [by intros _; split; [constructor|]|].
  intros (? & ? & _). apply fmerge2_ordered; [|by split]. by split; [constructor|].
Qed.

Lemma finsert_rooted p d f : rooted (finsert p d f).
Proof. by destruct f. Qed.

Lemma not_before_fremove e p f : not_before e f -> not_before e (fremove p f).
Proof.
  unfold not_before. induction f as [|q d k IHk s IHs]; simpl; [done|].
  rewrite Forall_cons, Forall_app. intros (? & ? & ?). case_decide.
  - rewrite fsplice_elems. by apply Forall_app.
  - simpl. rewrite Forall_cons, Forall_app. auto.
Qed.

Lemma fremove_ordered p f : ordered f -> ordered (fremove p f).
Proof.
  induction f as [|q d k IHk s IHs]; simpl; [done|]. intros (? & ? & ?). case_decide.
  - by apply fsplice_ordered.
  - split; [by apply not_before_fremove|auto].
Qed.

Lemma fremove_rooted p f : rooted f -> rooted (fremove p f).
Proof.
  destruct f as [|q d k [|]]; simpl; [done| |done]. case_decide; [|done].
  intros _. unfold fsplice. by destruct (fmerge_pairs k).
Qed.

(** ** The interface of a timer queue

    What the scheduler relies on: a queue is a finite set of tasks with due
    times, of which it can show one that is due first. *)

Class TimerQueue (Q : Type) := {
  tq_empty : Q;
  tq_insert : addr -> timespec -> Q -> Q;
  tq_remove : addr -> Q -> Q;
  tq_first : Q -> option (addr * timespec);
  tq_linked : addr -> Q -> bool;
}.

Class TimerQueueLaws (Q : Type) `{TimerQueue Q} := {
  tq_elems : Q -> list (addr * timespec);
  tq_ok : Q -> Prop;
  tq_empty_ok : tq_ok tq_empty /\ tq_elems tq_empty = [];
  tq_nodup q : tq_ok q -> NoDup (tq_elems q).*1;
  tq_insert_ok p d q : tq_ok q -> p ∉ (tq_elems q).*1 ->
    tq_ok (tq_insert p d q) /\ tq_elems (tq_insert p d q) ≡ₚ (p, d) :: tq_elems q;
  tq_remove_ok p q : tq_ok q -> tq_ok (tq_remove p q);
  tq_remove_in p d q : tq_ok q -> (p, d) ∈ tq_elems q ->
    tq_elems q ≡ₚ (p, d) :: tq_elems (tq_remove p q);
  tq_remove_out p q : tq_ok q -> p ∉ (tq_elems q).*1 -> tq_remove p q = q;
  tq_linked_spec p q : tq_ok q -> tq_linked p q = true <-> p ∈ (tq_elems q).*1;
  tq_first_none q : tq_ok q -> tq_first q = None <-> tq_elems q = [];
  tq_first_some q p d : tq_ok q -> tq_first q = Some (p, d) ->
    (p, d) ∈ tq_elems q /\ Forall (fun e => timespec_cmp d e.2 <= 0) (tq_elems q);
}.

(** ** The pairing heap is a timer queue *)

#[export] Instance forest_queue : TimerQueue forest := {|
  tq_empty := Nil;
  tq_insert := finsert;
  tq_remove := fremove;
  tq_first f := match f with Nil => None | Cons p d _ _ => Some (p, d) end;
  tq_linked p f := bool_decide (p ∈ addrs f);
|}.

Definition forest_ok (f : forest) : Prop := NoDup (addrs f) /\ ordered f /\ rooted f.

Lemma finsert_ok p d f : forest_ok f -> p ∉ addrs f ->
  forest_ok (finsert p d f) /\ elems (finsert p d f) ≡ₚ (p, d) :: elems f.
Proof.
  intros (Hnd & Ho & Hr) Hp. pose proof (finsert_elems p d f Hr) as He.
  split; [|done]. split; [|split; [by apply finsert_ordered|apply finsert_rooted]].
  unfold addrs in *. rewrite He. by constructor.
Qed.

Lemma fremove_ok p f : forest_ok f -> forest_ok (fremove p f).
Proof.
  intros (Hnd & Ho & Hr). split; [|split; [by apply fremove_ordered|by apply fremove_rooted]].
  destruct (decide (p ∈ addrs f)) as [Hp|Hp]; [|by rewrite fremove_notin].
  unfold addrs in Hp. apply list_elem_of_fmap in Hp as ([p' d] & -> & Hp).
  pose proof (fremove_elems _ _ _ Hnd Hp) as He. unfold addrs in *. rewrite He in Hnd.
  by inversion Hnd.
Qed.

#[export] Program Instance forest_queue_laws : TimerQueueLaws forest := {|
  tq_elems := elems;
  tq_ok := forest_ok;
|}.
Next Obligation. split; [|done]. by repeat constructor. Qed.
Next Obligation. by intros q (? & _). Qed.
Next Obligation. intros. by apply finsert_ok. Qed.
Next Obligation. intros. by apply fremove_ok. Qed.
Next Obligation. intros p d q (? & _) ?. by apply fremove_elems. Qed.
Next Obligation. intros p q _ ?. by apply fremove_notin. Qed.
Next Obligation. intros p q _. simpl. by rewrite bool_decide_eq_true. Qed.
Next Obligation. intros [|] _; simpl; by split. Qed.
Next Obligation.
  intros [|q e k s] p d (_ & Ho & Hr) H; simpl in *; [done|]. injection H as -> ->.
  destruct s; [|done]. split; [left|]. rewrite app_nil_r.
  constructor; simpl; [rewrite timespec_cmp_refl; lia|]. apply Ho.
Qed.
