(* ===== verification/TaskQueue.v ===== *)
(** * taskqueue.c: the pointer code of the pairing heap

    A [taskqueue_t **] points to one of three places: the queue's root pointer,
    the [next] field or the [children] field of a task.  [cell] names them.  The
    store holds the root pointer and the tasks that are allocated; reading a task
    that is not allocated is a fault.  [rep] relates the store to a forest of
    [TaskHeap.v], and the refinement theorems show that insertion and removal
    never fault on a well-formed store and compute [finsert] and [fremove]. *)
From S2P Require Import Prelude.
From S2P Require Import Timespec.
From S2P Require Import TaskHeap.

(** ** Data *)

(** What a [taskqueue_t **] points to. *)
Inductive cell :=
  | CQueue
  | CNext (a : addr)
  | CChildren (a : addr).

#[export] Instance cell_eq_dec : EqDecision cell.
Proof. solve_decision. Defined.

(** The task whose field a cell is. *)
Definition owner (c : cell) : option addr :=
  match c with CQueue => None | CNext a | CChildren a => Some a end.

(** taskqueue.h:15-28 taskqueue_t: [function], [cleanup] and [data] are not
    touched by the queue operations and live in [TaskSched.v]. *)
Record task := mkTask {
  pprev : option cell;
  next : option addr;
  children : option addr;
  due : timespec;
  running : bool;
}.

Record store := mkStore { queue : option addr; nodes : gmap addr task }.

Definition set_pprev (v : option cell) (t : task) : task :=
  mkTask v (next t) (children t) (due t) (running t).
Definition set_next (v : option addr) (t : task) : task :=
  mkTask (pprev t) v (children t) (due t) (running t).
Definition set_children (v : option addr) (t : task) : task :=
  mkTask (pprev t) (next t) v (due t) (running t).

(** ** Memory access *)

Definition get (a : addr) : M store task := fun st =>
  match nodes st !! a with Some t => Ok (t, st) | None => Fault UseAfterFree end.

Definition update (a : addr) (f : task -> task) : M store unit := fun st =>
  match nodes st !! a with
  | Some t => Ok (tt, mkStore (queue st) (<[a := f t]> (nodes st)))
  | None => Fault UseAfterFree
  end.

Definition read_cell (c : cell) (st : store) : option (option addr) :=
  match c with
  | CQueue => Some (queue st)
  | CNext a => next <$> nodes st !! a
  | CChildren a => children <$> nodes st !! a
  end.

Definition load (c : cell) : M store (option addr) := fun st =>
  match read_cell c st with Some v => Ok (v, st) | None => Fault UseAfterFree end.

Definition assign (c : cell) (v : option addr) : M store unit :=
  match c with
  | CQueue => fun st => Ok (tt, mkStore v (nodes st))
  | CNext a => update a (set_next v)
  | CChildren a => update a (set_children v)
  end.

(** [if (p) exit_bug(..)] *)
Definition must_be_null {X} (p : option X) : M store unit :=
  match p with None => skip | Some _ => fail ExitBug end.

(** ** Operations *)

(** taskqueue.h:31-31 taskqueue_linked *)
Definition taskqueue_linked (t : task) : bool := bool_decide (is_Some (pprev t)).

(** taskqueue.c:152-162 taskqueue_link *)
Definition taskqueue_link (q : cell) (elem : addr) : M store unit :=
  e ← get elem;
  must_be_null (next e) ;;
  update elem (set_pprev (Some q)) ;;
  n ← load q;
  update elem (set_next n) ;;
  match n with Some n => update n (set_pprev (Some (CNext elem))) | None => skip end ;;
  assign q (Some elem).

(** taskqueue.c:165-171 taskqueue_unlink *)
Definition taskqueue_unlink (elem : addr) : M store unit :=
  e ← get elem;
  match pprev e with
  | None => fail NullDeref
  | Some q =>
      assign q (next e) ;;
      match next e with Some n => update n (set_pprev (Some q)) | None => skip end ;;
      update elem (set_next None)
  end.

(** taskqueue.c:178-201 taskqueue_merge *)
Definition taskqueue_merge (queue1 queue2 : option addr) : M store addr :=
  match queue1 with
  | None => fail ExitBug
  | Some a1 =>
      t1 ← get a1;
      must_be_null (next t1) ;;
      match queue2 with
      | None => mret a1
      | Some a2 =>
          t2 ← get a2;
          must_be_null (next t2) ;;
          let '(lo, hi) := if timespec_cmp (due t1) (due t2) <? 0 then (a1, a2) else (a2, a1) in
          taskqueue_link (CChildren lo) hi ;;
          mret lo
      end
  end.

(** taskqueue.c:204-221 taskqueue_merge_pairs: the recursion is bounded by the
    number of tasks, which the caller passes as fuel. *)
Fixpoint taskqueue_merge_pairs (fuel : nat) (queue0 : option addr) : M store (option addr) :=
  match fuel with
  | O => fail Diverges
  | S fuel =>
      match queue0 with
      | None => mret None
      | Some a0 =>
          t0 ← get a0;
          match pprev t0 with
          | None => fail ExitBug
          | Some _ =>
              match next t0 with
              | None => mret (Some a0)
              | Some a1 =>
                  t1 ← get a1;
                  update a1 (set_next None) ;;
                  update a0 (set_next None) ;;
                  q ← taskqueue_merge (Some a0) (Some a1);
                  r ← taskqueue_merge_pairs fuel (next t1);
                  m ← taskqueue_merge (Some q) r;
                  mret (Some m)
              end
          end
      end
  end.

(** taskqueue.c:224-230 taskqueue_insert *)
Definition taskqueue_insert (q : cell) (elem : addr) : M store unit :=
  e ← get elem;
  must_be_null (pprev e) ;; must_be_null (next e) ;; must_be_null (children e) ;;
  old ← load q;
  m ← taskqueue_merge (Some elem) old;
  assign q (Some m) ;;
  update m (set_pprev (Some q)).

(** taskqueue.c:233-251 taskqueue_remove *)
Definition taskqueue_remove (elem : addr) : M store unit :=
  e ← get elem;
  if taskqueue_linked e then
    match pprev e with
    | None => fail NullDeref
    | Some q =>
        taskqueue_unlink elem ;;
        n ← gets (fun st => S (size (nodes st)));
        e ← get elem;
        merged ← taskqueue_merge_pairs n (children e);
        match merged with Some m => taskqueue_link q m | None => skip end ;;
        update elem (set_pprev None) ;;
        update elem (set_children None)
    end
  else
    must_be_null (children e) ;; must_be_null (next e).

#[global] Arguments taskqueue_link : simpl never.
#[global] Arguments taskqueue_unlink : simpl never.
#[global] Arguments taskqueue_merge : simpl never.
#[global] Arguments taskqueue_insert : simpl never.
#[global] Arguments taskqueue_remove : simpl never.

(** ** Representation of a forest in the store *)

Definition points (h : gmap addr task) (p : addr) (pp : option cell) (n c : option addr)
    (d : timespec) : Prop :=
  exists t, h !! p = Some t /\ pprev t = pp /\ next t = n /\ children t = c /\ due t = d.

(** The siblings [f] hang from the cell [c]. *)
Fixpoint rep (h : gmap addr task) (c : cell) (f : forest) : Prop :=
  match f with
  | Nil => True
  | Cons p d k s =>
      points h p (Some c) (fhead s) (fhead k) d /\ rep h (CChildren p) k /\ rep h (CNext p) s
  end.

(** A detached tree: a node without a successor; its [pprev] may be stale. *)
Definition rep_tree (h : gmap addr task) (t : tree) : Prop :=
  (exists pp, points h (t_id t) pp None (fhead (t_kids t)) (t_due t)) /\
  rep h (CChildren (t_id t)) (t_kids t).

Definition taddrs (t : tree) : list addr := t_id t :: addrs (t_kids t).

(** Two heaps that differ at most in the links of the tasks [X]. *)
Definition relink (X : list addr) (h h' : gmap addr task) : Prop :=
  (forall a, a ∉ X -> h' !! a = h !! a) /\
  (forall a, (fun t => (due t, running t)) <$> h' !! a = (fun t => (due t, running t)) <$> h !! a).

Lemma relink_refl X h : relink X h h.
Proof. done. Qed.

Lemma relink_trans X Y h1 h2 h3 : relink X h1 h2 -> relink Y h2 h3 -> relink (X ++ Y) h1 h3.
Proof.
  intros [H1 E1] [H2 E2]. split.
  - intros a [? ?]%not_elem_of_app. by rewrite H2, H1.
  - intros a. by rewrite E2, E1.
Qed.

Lemma relink_weaken X Y h h' : X ⊆ Y -> relink X h h' -> relink Y h h'.
Proof. intros HXY [H E]. split; [|done]. intros a Ha. apply H. set_solver. Qed.

Lemma relink_insert X h a t t' : a ∈ X -> h !! a = Some t ->
  due t' = due t -> running t' = running t -> relink X h (<[a := t']> h).
Proof.
  intros Ha Ht Hd Hr. split.
  - intros b Hb. apply lookup_insert_ne. by intros ->.
  - intros b. destruct (decide (a = b)) as [<-|].
    + by rewrite lookup_insert_eq, Ht; simpl; rewrite Hd, Hr.
    + by rewrite lookup_insert_ne.
Qed.

Lemma points_frame h h' p pp n c d : h' !! p = h !! p -> points h p pp n c d -> points h' p pp n c d.
Proof. intros E (t & Ht & ?). exists t. by rewrite E. Qed.

Lemma rep_frame h h' c f : (forall a, a ∈ addrs f -> h' !! a = h !! a) -> rep h c f -> rep h' c f.
Proof.
  revert c. induction f as [|p d k IHk s IHs]; intros c Heq; simpl; [done|].
  rewrite addrs_cons in Heq. intros (? & ? & ?). split; [|split].
  - eapply points_frame; [|done]. apply Heq. left.
  - apply IHk; [|done]. intros a Ha. apply Heq. set_solver.
  - apply IHs; [|done]. intros a Ha. apply Heq. set_solver.
Qed.

Lemma rep_relink X h h' c f : relink X h h' -> X ## addrs f -> rep h c f -> rep h' c f.
Proof. intros [H _] Hd. apply rep_frame. intros a Ha. apply H. set_solver. Qed.

Lemma rep_tree_relink X h h' t : relink X h h' -> X ## taddrs t -> rep_tree h t -> rep_tree h' t.
Proof.
  intros Hr Hd [(pp & Hp) Hk]. unfold taddrs in Hd. split.
  - exists pp. eapply points_frame; [|done]. apply Hr. set_solver.
  - eapply rep_relink; [done| |done]. set_solver.
Qed.

Lemma rep_alloc h c f a : rep h c f -> a ∈ addrs f -> is_Some (h !! a).
Proof.
  revert c. induction f as [|p d k IHk s IHs]; intros c; simpl; [by intros _ ?%elem_of_nil|].
  intros ((t & Ht & _) & Hk & Hs). rewrite addrs_cons.
  intros [->|[Ha|Ha]%elem_of_app]%elem_of_cons; eauto.
Qed.

(** *** Writing through a cell *)

Definition put_cell (c : cell) (v : option addr) (st : store) : store :=
  match c with
  | CQueue => mkStore v (nodes st)
  | CNext a => mkStore (queue st) (alter (set_next v) a (nodes st))
  | CChildren a => mkStore (queue st) (alter (set_children v) a (nodes st))
  end.

Lemma assign_ok c v st : is_Some (read_cell c st) -> assign c v st = Ok (tt, put_cell c v st).
Proof.
  destruct c as [|a|a]; simpl; intros [w Hw]; [done| |]; unfold update;
    destruct (nodes st !! a) as [t|] eqn:E; try done; simpl;
    f_equal; f_equal; f_equal; symmetry; apply map_eq; intros b;
    (destruct (decide (a = b)) as [<-|];
     [by rewrite lookup_alter_eq, lookup_insert_eq, E|by rewrite lookup_alter_ne, lookup_insert_ne]).
Qed.

Lemma put_cell_other c v st a : owner c <> Some a -> nodes (put_cell c v st) !! a = nodes st !! a.
Proof. destruct c; simpl; intros ?; [done| |]; apply lookup_alter_ne; congruence. Qed.

Lemma put_cell_cong c v st st' a : nodes st !! a = nodes st' !! a ->
  nodes (put_cell c v st) !! a = nodes (put_cell c v st') !! a.
Proof.
  intros E. destruct c as [|b|b]; simpl; [done| |]; (destruct (decide (b = a)) as [->|];
    [by rewrite !lookup_alter_eq, E|by rewrite !lookup_alter_ne]).
Qed.

Lemma put_cell_core c v st a :
  (fun t => (due t, running t)) <$> nodes (put_cell c v st) !! a =
  (fun t => (due t, running t)) <$> nodes st !! a.
Proof.
  destruct c as [|b|b]; simpl; [done| |]; (destruct (decide (b = a)) as [->|];
    [rewrite lookup_alter_eq; by destruct (_ !! a)|by rewrite lookup_alter_ne]).
Qed.

Lemma put_cell_same c v st : read_cell c st = Some v -> put_cell c v st = st.
Proof.
  destruct st as [q h], c as [|b|b]; simpl; [by intros [= ->]| |];
    destruct (h !! b) as [[pp n ch du ru]|] eqn:E; simpl; try done; intros [= <-]; f_equal;
    apply map_eq; intros a; (destruct (decide (b = a)) as [<-|];
      [by rewrite lookup_alter_eq, E|by rewrite lookup_alter_ne]).
Qed.

Lemma put_cell_read c v st : is_Some (read_cell c st) -> read_cell c (put_cell c v st) = Some v.
Proof.
  destruct c as [|b|b]; simpl; intros [w Hw]; [done| |]; rewrite lookup_alter_eq;
    by destruct (nodes st !! b).
Qed.

Lemma put_cell_put c v w st : put_cell c v (put_cell c w st) = put_cell c v st.
Proof.
  destruct c as [|b|b]; simpl; [done| |]; f_equal; apply map_eq; intros a;
    (destruct (decide (b = a)) as [<-|];
     [rewrite !lookup_alter_eq; by destruct (_ !! b)|by rewrite !lookup_alter_ne]).
Qed.

Lemma put_cell_queue c v st st' : queue st = queue st' ->
  queue (put_cell c v st) = queue (put_cell c v st').
Proof. by destruct c. Qed.

(** [st'] is [st] with [v] written to the cell and the links of [X] changed. *)
Definition wrote (X : list addr) (c : cell) (v : option addr) (st st' : store) : Prop :=
  queue st' = queue (put_cell c v st) /\ relink X (nodes (put_cell c v st)) (nodes st').

Definition outside (c : cell) (X : list addr) : Prop :=
  match owner c with Some a => a ∉ X | None => True end.

Lemma outside_ne c X a : outside c X -> a ∈ X -> owner c <> Some a.
Proof. unfold outside. intros H Ha E. by rewrite E in H. Qed.

Lemma outside_sub c X Y : outside c Y -> X ⊆ Y -> outside c X.
Proof. unfold outside. destruct (owner c); set_solver. Qed.

Lemma wrote_read X c v st st' : wrote X c v st st' -> is_Some (read_cell c st) -> outside c X ->
  read_cell c st' = Some v.
Proof.
  intros [Hq Hr] Hc Hout. pose proof (put_cell_read c v st Hc) as E.
  destruct c as [|a|a]; simpl in *; [congruence| |]; destruct Hr as [Hr _];
    unfold outside in Hout; simpl in Hout; by rewrite (Hr a).
Qed.

Lemma wrote_other X c v st st' a : wrote X c v st st' -> a ∉ X -> owner c <> Some a ->
  nodes st' !! a = nodes st !! a.
Proof. intros [_ [H _]] Ha Hc. by rewrite H, put_cell_other. Qed.

Lemma wrote_frame X c v st st' c' f : wrote X c v st st' -> X ## addrs f -> outside c (addrs f) ->
  rep (nodes st) c' f -> rep (nodes st') c' f.
Proof.
  intros Hw Hd Hout. apply rep_frame. intros a Ha.
  eapply wrote_other; [done|set_solver|by eapply outside_ne].
Qed.

(** *** Linking *)

Lemma rep_relocate h c c' n d k s t :
  h !! n = Some t -> n ∉ addrs k -> n ∉ addrs s -> rep h c (Cons n d k s) ->
  rep (<[n := set_pprev (Some c') t]> h) c' (Cons n d k s).
Proof.
  intros Ht Hk Hs ((t' & Ht' & ? & ? & ? & ?) & Rk & Rs). simplify_eq.
  split; [|split].
  - eexists. split; [by apply lookup_insert_eq|]. done.
  - eapply rep_frame; [|done]. intros a Ha. apply lookup_insert_ne. by intros ->.
  - eapply rep_frame; [|done]. intros a Ha. apply lookup_insert_ne. by intros ->.
Qed.

Lemma get_ok a st t : nodes st !! a = Some t -> get a st = Ok (t, st).
Proof. unfold get. by intros ->. Qed.
Lemma update_ok a f st t : nodes st !! a = Some t ->
  update a f st = Ok (tt, mkStore (queue st) (<[a := f t]> (nodes st))).
Proof. unfold update. by intros ->. Qed.
Lemma load_ok c st v : read_cell c st = Some v -> load c st = Ok (v, st).
Proof. unfold load. by intros ->. Qed.
Lemma read_cell_cong c st st' : queue st = queue st' ->
  (forall a, owner c = Some a -> nodes st !! a = nodes st' !! a) -> read_cell c st = read_cell c st'.
Proof. intros Hq Hn. destruct c; simpl in *; [congruence| |]; by rewrite Hn. Qed.

(** The effect of [taskqueue_link] before the final assignment to the cell. *)
Definition link_nodes (c : cell) (id : addr) (e : task) (s : option (addr * task))
    (h : gmap addr task) : gmap addr task :=
  let h2 := <[id := set_next (fst <$> s) (set_pprev (Some c) e)]> h in
  match s with Some (n, tn) => <[n := set_pprev (Some (CNext id)) tn]> h2 | None => h2 end.

Lemma link_run c id e s st :
  nodes st !! id = Some e -> next e = None -> owner c <> Some id ->
  read_cell c st = Some (fst <$> s) ->
  match s with Some (n, tn) => nodes st !! n = Some tn /\ n <> id /\ owner c <> Some n | None => True end ->
  taskqueue_link c id st =
  Ok (tt, put_cell c (Some id) (mkStore (queue st) (link_nodes c id e s (nodes st)))).
Proof.
  intros He Hn Hown Hread Hs. unfold taskqueue_link.
  erewrite M_bind_Ok by (by apply get_ok). rewrite Hn. cbn [must_be_null].
  erewrite M_bind_Ok by done. erewrite M_bind_Ok by (by apply update_ok).
  erewrite M_bind_Ok.
  2: { apply load_ok. rewrite <- Hread. symmetry. apply read_cell_cong; [done|].
       simpl. intros a Ha. by rewrite lookup_insert_ne by congruence. }
  erewrite M_bind_Ok by (apply update_ok; simpl; apply lookup_insert_eq).
  simpl. rewrite insert_insert_eq. unfold link_nodes.
  destruct s as [[n tn]|]; simpl in *.
  - destruct Hs as (Htn & Hne & Hcn).
    erewrite M_bind_Ok by (apply update_ok; simpl; by rewrite lookup_insert_ne).
    simpl. apply assign_ok. eexists. rewrite <- Hread. symmetry. apply read_cell_cong; [done|].
    simpl. intros a Ha. by rewrite !lookup_insert_ne by congruence.
  - erewrite M_bind_Ok by done. apply assign_ok. eexists. rewrite <- Hread. symmetry.
    apply read_cell_cong; [done|]. simpl. intros a Ha. by rewrite lookup_insert_ne by congruence.
Qed.

(** The first sibling, if there is one. *)
Lemma first_sibling c s st id : rep (nodes st) c s -> id ∉ addrs s -> outside c (addrs s) ->
  exists sib, fst <$> sib = fhead s /\
    match sib with
    | Some (n, tn) => nodes st !! n = Some tn /\ n <> id /\ owner c <> Some n /\ n ∈ addrs s
    | None => True
    end.
Proof.
  intros Hs Hid Hout. destruct s as [|n dn kn sn]; [by exists None|].
  destruct Hs as ((tn & Htn & _) & _). exists (Some (n, tn)). split; [done|].
  rewrite addrs_cons in *. split; [done|]. split; [set_solver|]. split; [|set_solver].
  apply (outside_ne _ _ _ Hout). set_solver.
Qed.

(** Linking changes no due time and runs nothing. *)
Lemma link_nodes_core c id e s h a : h !! id = Some e ->
  match s with Some (n, tn) => h !! n = Some tn | None => True end ->
  (fun t => (due t, running t)) <$> link_nodes c id e s h !! a = (fun t => (due t, running t)) <$> h !! a.
Proof.
  intros He Hs. unfold link_nodes.
  assert ((fun t => (due t, running t)) <$> <[id := set_next (fst <$> s) (set_pprev (Some c) e)]> h !! a =
    (fun t => (due t, running t)) <$> h !! a) as E.
  { destruct (decide (id = a)) as [<-|]; [by rewrite lookup_insert_eq, He|by rewrite lookup_insert_ne]. }
  destruct s as [[n tn]|]; [|done].
  destruct (decide (n = a)) as [<-|]; [by rewrite lookup_insert_eq, Hs|by rewrite lookup_insert_ne].
Qed.

Lemma link_spec c t s st :
  read_cell c st = Some (fhead s) -> rep (nodes st) c s -> rep_tree (nodes st) t ->
  NoDup (taddrs t ++ addrs s) -> outside c (taddrs t ++ addrs s) ->
  exists st', taskqueue_link c (t_id t) st = Ok (tt, st') /\
    rep (nodes st') c (Cons (t_id t) (t_due t) (t_kids t) s) /\
    wrote (taddrs t ++ addrs s) c (Some (t_id t)) st st'.
Proof.
  intros Hread Hs [(pp & e & He & _ & Hen & Hec & Hed) Hk] Hnd Hout.
  set (id := t_id t) in *.
  unfold taddrs in *. fold id in Hnd, Hout |- *.
  rewrite <- app_comm_cons in Hnd, Hout |- *.
  apply NoDup_cons in Hnd as [Hid Hnd]. rewrite not_elem_of_app in Hid. destruct Hid as [Hidk Hids].
  apply NoDup_app in Hnd as (Hndk & Hks & Hnds).
  assert (owner c <> Some id) as Hown by (apply (outside_ne _ _ _ Hout); set_solver).
  destruct (first_sibling c s st id Hs Hids) as (sib & Esib & Hsib).
  { eapply outside_sub; [exact Hout|]. set_solver. }
  eexists. split.
  { apply (link_run c id e sib); [done|done|done|by rewrite Esib|].
    destruct sib as [[n tn]|]; [naive_solver|done]. }
  set (h := nodes st) in *.
  set (h' := link_nodes c id e sib h).
  assert (forall a, a <> id -> a ∉ addrs s -> h' !! a = h !! a) as Hsame.
  { intros a Ha Has. unfold h', link_nodes. destruct sib as [[n tn]|].
    - destruct Hsib as (_ & _ & _ & Hn). rewrite !lookup_insert_ne; [done|congruence|]. by intros ->.
    - by rewrite lookup_insert_ne by congruence. }
  assert (rep h' c (Cons id (t_due t) (t_kids t) s)) as Hrep.
  { split; [|split].
    - exists (set_next (fst <$> sib) (set_pprev (Some c) e)). split.
      + unfold h', link_nodes. destruct sib as [[n tn]|]; [|by rewrite lookup_insert_eq].
        destruct Hsib as (_ & Hne & _). by rewrite lookup_insert_ne, lookup_insert_eq by done.
      + simpl. rewrite Esib, Hec. done.
    - eapply rep_frame; [|done]. intros a Ha. apply Hsame; set_solver.
    - destruct s as [|n dn kn sn]; [done|].
      destruct sib as [[n' tn]|]; [|done]. simpl in Esib. injection Esib as ->.
      destruct Hsib as (Htn & Hne & Hcn & _). rewrite addrs_cons in *.
      unfold h', link_nodes. apply (rep_relocate _ c).
      + by rewrite lookup_insert_ne.
      + apply NoDup_cons in Hnds as [? _]. set_solver.
      + apply NoDup_cons in Hnds as [? _]. set_solver.
      + eapply rep_frame; [|done]. intros a Ha. rewrite addrs_cons in Ha.
        apply lookup_insert_ne. set_solver. }
  split.
  - eapply rep_frame; [|done]. intros a Ha. rewrite addrs_cons in Ha.
    rewrite put_cell_other; [done|]. apply (outside_ne _ _ _ Hout). set_solver.
  - split; [by apply put_cell_queue|]. split.
    + intros a Ha. apply put_cell_cong. simpl. apply Hsame; set_solver.
    + intros a. rewrite !put_cell_core. simpl. apply link_nodes_core; [done|].
      destruct sib as [[n tn]|]; [apply Hsib|done].
Qed.

(** *** Merging *)

Lemma wrote_relink X c v st st' a : owner c = Some a -> wrote X c v st st' ->
  relink (a :: X) (nodes st) (nodes st').
Proof.
  intros Hc Hw. split.
  - intros b Hb. eapply wrote_other; [done|set_solver|]. rewrite Hc. intros [= ->]. set_solver.
  - intros b. destruct Hw as [_ [_ E]]. by rewrite E, put_cell_core.
Qed.

Lemma taddrs_single t : taddrs t = addrs (single t).
Proof. unfold single. rewrite addrs_cons. unfold addrs at 2. simpl. by rewrite app_nil_r. Qed.

Lemma fmerge2_addrs t1 t2 : taddrs (fmerge2 t1 t2) ≡ₚ taddrs t1 ++ taddrs t2.
Proof. rewrite !taddrs_single. unfold addrs. by rewrite fmerge2_elems, fmap_app. Qed.

(** Linking [hi] as the first child of [lo]. *)
Lemma link_child_spec lo hi st :
  rep_tree (nodes st) lo -> rep_tree (nodes st) hi -> NoDup (taddrs lo ++ taddrs hi) ->
  exists st', taskqueue_link (CChildren (t_id lo)) (t_id hi) st = Ok (tt, st') /\
    rep_tree (nodes st')
      (mkTree (t_id lo) (t_due lo) (Cons (t_id hi) (t_due hi) (t_kids hi) (t_kids lo))) /\
    relink (taddrs lo ++ taddrs hi) (nodes st) (nodes st') /\ queue st' = queue st.
Proof.
  intros [(pp & e & He & Hpp & Hn & Hc & Hd) Hk] Hhi Hnd.
  assert (outside (CChildren (t_id lo)) (taddrs hi ++ addrs (t_kids lo))) as Hout.
  { unfold outside. simpl. apply NoDup_cons in Hnd as [Hnd _]. set_solver. }
  destruct (link_spec (CChildren (t_id lo)) hi (t_kids lo) st) as (st' & Hrun & Hrep & Hw);
    [simpl; by rewrite He, <- Hc|done|done| |done|].
  { unfold taddrs at 1 in Hnd. simpl in Hnd. apply NoDup_cons in Hnd as [_ Hnd].
    by rewrite Permutation_app_comm in Hnd. }
  exists st'. split; [done|]. split; [split; [|done]|split].
  - exists pp, (set_children (Some (t_id hi)) e). split; [|done].
    destruct Hw as [_ [Hw _]]. rewrite Hw by apply Hout. simpl. by rewrite lookup_alter_eq, He.
  - apply (relink_weaken (t_id lo :: taddrs hi ++ addrs (t_kids lo))); [unfold taddrs; set_solver|].
    by apply (wrote_relink _ (CChildren (t_id lo)) (Some (t_id hi))). 
  - by destruct Hw as [Hq _].
Qed.

Lemma merge_spec t1 t2 st :
  rep_tree (nodes st) t1 -> rep_tree (nodes st) t2 -> NoDup (taddrs t1 ++ taddrs t2) ->
  exists st', taskqueue_merge (Some (t_id t1)) (Some (t_id t2)) st
              = Ok (t_id (fmerge2 t1 t2), st') /\
    rep_tree (nodes st') (fmerge2 t1 t2) /\
    relink (taddrs t1 ++ taddrs t2) (nodes st) (nodes st') /\ queue st' = queue st.
Proof.
  intros H1 H2 Hnd. unfold taskqueue_merge.
  pose proof H1 as [(? & e1 & He1 & _ & Hn1 & _ & Hd1) _].
  pose proof H2 as [(? & e2 & He2 & _ & Hn2 & _ & Hd2) _].
  erewrite M_bind_Ok by (by apply get_ok). rewrite Hn1. erewrite M_bind_Ok by done.
  erewrite M_bind_Ok by (by apply get_ok). rewrite Hn2. erewrite M_bind_Ok by done.
  rewrite Hd1, Hd2. unfold fmerge2. destruct (timespec_cmp (t_due t1) (t_due t2) <? 0).
  - destruct (link_child_spec t1 t2 st) as (st' & Hrun & ?); [done..|].
    exists st'. by erewrite M_bind_Ok by done.
  - destruct (link_child_spec t2 t1 st) as (st' & Hrun & ? & Hr & ?);
      [done|done|by rewrite Permutation_app_comm|].
    exists st'. erewrite M_bind_Ok by done. split; [done|]. split; [done|]. split; [|done].
    eapply relink_weaken; [|done]. set_solver.
Qed.

Lemma merge_none_spec t st : rep_tree (nodes st) t ->
  taskqueue_merge (Some (t_id t)) None st = Ok (t_id t, st).
Proof.
  intros [(? & e & He & _ & Hn & _) _]. unfold taskqueue_merge.
  erewrite M_bind_Ok by (by apply get_ok). by rewrite Hn.
Qed.

Definition otaddrs (t : option tree) : list addr := from_option taddrs [] t.

Lemma fmerge_pairs_addrs f : otaddrs (fmerge_pairs f) ≡ₚ addrs f.
Proof.
  unfold addrs. rewrite <- (fmerge_pairs_elems f).
  destruct (fmerge_pairs f) as [t|]; [|done].
  change (taddrs t ≡ₚ (elems (single t)).*1). by rewrite taddrs_single.
Qed.

(** [taskqueue_merge] with an optional second queue. *)
Lemma merge_opt_spec t1 t2 st :
  rep_tree (nodes st) t1 -> from_option (rep_tree (nodes st)) True t2 ->
  NoDup (taddrs t1 ++ otaddrs t2) ->
  exists st', taskqueue_merge (Some (t_id t1)) (t_id <$> t2) st
              = Ok (t_id (fmerge t1 t2), st') /\
    rep_tree (nodes st') (fmerge t1 t2) /\
    relink (taddrs t1 ++ otaddrs t2) (nodes st) (nodes st') /\ queue st' = queue st.
Proof.
  destruct t2 as [t2|]; simpl; intros H1 H2 Hnd; [by apply merge_spec|].
  exists st. rewrite merge_none_spec by done. split; [done|]. split; [done|].
  split; [apply relink_refl|done].
Qed.

(** *** Merging a list of trees pairwise *)

Lemma cut_next_points h p pp n c d t : h !! p = Some t -> points h p pp n c d ->
  points (<[p := set_next None t]> h) p pp None c d.
Proof.
  intros Ht (t' & Ht' & ? & ? & ? & ?). simplify_eq.
  eexists. by split; [apply lookup_insert_eq|].
Qed.

(** Cutting the first two nodes off a list leaves two detached trees. *)
Lemma cut_two h c p0 d0 k0 p1 d1 k1 s u0 u1 :
  rep h c (Cons p0 d0 k0 (Cons p1 d1 k1 s)) ->
  NoDup (addrs (Cons p0 d0 k0 (Cons p1 d1 k1 s))) ->
  h !! p0 = Some u0 -> h !! p1 = Some u1 ->
  let h2 := <[p0 := set_next None u0]> (<[p1 := set_next None u1]> h) in
  rep_tree h2 (mkTree p0 d0 k0) /\ rep_tree h2 (mkTree p1 d1 k1) /\ rep h2 (CNext p1) s /\
  relink [p0; p1] h h2.
Proof.
  rewrite !addrs_cons. intros (P0 & R0 & P1 & R1 & Rs) Hnd Hu0 Hu1 h2.
  apply NoDup_cons in Hnd as [Hn0 Hnd]. apply NoDup_app in Hnd as (_ & Hd & Hnd).
  apply NoDup_cons in Hnd as [Hn1 _].
  assert (p0 <> p1) as Hne by set_solver.
  assert (forall c' f, p0 ∉ addrs f -> p1 ∉ addrs f -> rep h c' f -> rep h2 c' f) as Hframe.
  { intros c' f H0 H1. apply rep_frame. intros a Ha. unfold h2. rewrite !lookup_insert_ne; set_solver. }
  split; [|split; [|split]].
  - split; [|apply Hframe; set_solver]. exists (Some c). unfold h2. simpl.
    eapply cut_next_points; [by rewrite lookup_insert_ne|].
    apply (points_frame h); [by rewrite lookup_insert_ne|done].
  - split; [|apply Hframe; set_solver]. exists (Some (CNext p0)). unfold h2. simpl.
    apply (points_frame (<[p1 := set_next None u1]> h)); [by rewrite lookup_insert_ne|].
    by eapply cut_next_points.
  - apply Hframe; set_solver.
  - eapply (relink_weaken ([p1] ++ [p0])); [set_solver|].
    apply (relink_trans _ _ _ (<[p1 := set_next None u1]> h)).
    + by apply (relink_insert _ _ _ u1); [left|..].
    + by apply (relink_insert _ _ _ u0); [left|rewrite lookup_insert_ne|..].
Qed.

Lemma NoDup_pair_parts p0 d0 k0 p1 d1 k1 s :
  NoDup (addrs (Cons p0 d0 k0 (Cons p1 d1 k1 s))) ->
  NoDup (taddrs (mkTree p0 d0 k0) ++ taddrs (mkTree p1 d1 k1)) /\
  (taddrs (mkTree p0 d0 k0) ++ taddrs (mkTree p1 d1 k1)) ## addrs s /\ NoDup (addrs s).
Proof.
  rewrite !addrs_cons. intros Hnd.
  assert (NoDup ((taddrs (mkTree p0 d0 k0) ++ taddrs (mkTree p1 d1 k1)) ++ addrs s)) as Hnd'.
  { unfold taddrs. simpl. rewrite <- !(assoc (++)). simpl. done. }
  apply NoDup_app in Hnd' as (? & Hd & ?). split; [done|]. split; [|done].
  intros a Ha. by apply Hd.
Qed.

Lemma merge_pairs_spec f c st fuel :
  rep (nodes st) c f -> NoDup (addrs f) -> (length (addrs f) < fuel)%nat ->
  exists st', taskqueue_merge_pairs fuel (fhead f) st = Ok (t_id <$> fmerge_pairs f, st') /\
    from_option (rep_tree (nodes st')) True (fmerge_pairs f) /\
    relink (addrs f) (nodes st) (nodes st') /\ queue st' = queue st.
Proof.
  revert c st fuel. induction f as [|p d k|p0 d0 k0 p1 d1 k1 s IH] using pairs_ind;
    intros c st fuel Hrep Hnd Hfuel; (destruct fuel as [|fuel]; [lia|]).
  - exists st. by repeat split.
  - destruct Hrep as ((t & Ht & Hpp & Hn & Hc & Hd) & Hk & _). exists st. simpl.
    erewrite M_bind_Ok by (by apply get_ok). rewrite Hpp, Hn. split; [done|].
    split; [|split; [apply relink_refl|done]]. split; [|done]. exists (Some c), t. done.
  - assert (length (addrs s) < fuel)%nat as Hfuel'.
    { rewrite !addrs_cons in Hfuel. simpl in Hfuel. rewrite !length_app in Hfuel. simpl in Hfuel.
      rewrite length_app in Hfuel. lia. }
    pose proof Hrep as ((u0 & Hu0 & Hpp0 & Hn0 & _ & _) & _ & (u1 & Hu1 & _ & Hn1 & _ & _) & _ & _).
    destruct (cut_two _ _ _ _ _ _ _ _ _ u0 u1 Hrep Hnd Hu0 Hu1) as (T0 & T1 & Rs & Hcut).
    destruct (NoDup_pair_parts _ _ _ _ _ _ _ Hnd) as (Hnd01 & Hdisj & Hnds).
    assert (p0 <> p1) as Hne by (rewrite !addrs_cons in Hnd; apply NoDup_cons in Hnd as [? _]; set_solver).
    simpl taskqueue_merge_pairs. erewrite M_bind_Ok by (by apply get_ok). rewrite Hpp0, Hn0.
    cbn [fhead].
    erewrite M_bind_Ok by (by apply get_ok).
    erewrite M_bind_Ok by (by apply update_ok).
    erewrite M_bind_Ok by (apply update_ok; simpl; by rewrite lookup_insert_ne).
    simpl queue. simpl nodes. set (st2 := mkStore _ _).
    destruct (merge_spec (mkTree p0 d0 k0) (mkTree p1 d1 k1) st2 T0 T1 Hnd01)
      as (st3 & Hrun3 & T01 & Hr3 & Hq3). simpl t_id in Hrun3.
    erewrite M_bind_Ok by done. rewrite Hn1.
    destruct (IH (CNext p1) st3 fuel) as (st4 & Hrun4 & Ts & Hr4 & Hq4);
      [by eapply rep_relink|done|done|].
    erewrite M_bind_Ok by done.
    pose proof (fmerge2_addrs (mkTree p0 d0 k0) (mkTree p1 d1 k1)) as Ha01.
    pose proof (fmerge_pairs_addrs s) as Has.
    destruct (merge_opt_spec (fmerge2 (mkTree p0 d0 k0) (mkTree p1 d1 k1)) (fmerge_pairs s) st4)
      as (st5 & Hrun5 & T & Hr5 & Hq5).
    { eapply rep_tree_relink; [done| |done]. intros a Ha. rewrite Ha01. intros Ha'. by apply (Hdisj a). }
    { done. }
    { rewrite Ha01, Has. apply NoDup_app. split; [done|]. split; [|done]. intros a Ha Ha'. by apply (Hdisj a). }
    erewrite M_bind_Ok by done. exists st5. split; [done|]. split; [done|]. split; [|by rewrite Hq5, Hq4, Hq3].
    eapply relink_weaken; [|eapply relink_trans; [exact Hcut|];
      eapply relink_trans; [exact Hr3|]; eapply relink_trans; [exact Hr4|exact Hr5]].
    intros a. rewrite Ha01, Has, !addrs_cons. unfold taddrs. simpl. set_solver.
Qed.

(** *** Removing *)

Lemma wrote_trans X Y c v w st1 st2 st3 :
  wrote X c v st1 st2 -> wrote Y c w st2 st3 -> wrote (X ++ Y) c w st1 st3.
Proof.
  intros [Q1 [N1 E1]] [Q2 [N2 E2]]. split; [|split].
  - rewrite Q2. rewrite <- (put_cell_put c w v st1). by apply put_cell_queue.
  - intros a [Ha1 Ha2]%not_elem_of_app. rewrite N2 by done.
    rewrite <- (put_cell_put c w v st1). apply put_cell_cong. by apply N1.
  - intros a. by rewrite E2, put_cell_core, E1, !put_cell_core.
Qed.

Lemma wrote_relink_trans X Y c v st1 st2 st3 :
  wrote X c v st1 st2 -> relink Y (nodes st2) (nodes st3) -> queue st3 = queue st2 ->
  wrote (X ++ Y) c v st1 st3.
Proof.
  intros [Q1 R1] R2 Q2. split; [congruence|]. by eapply relink_trans.
Qed.

Lemma wrote_weaken X Y c v st st' : X ⊆ Y -> wrote X c v st st' -> wrote Y c v st st'.
Proof. intros H [? ?]. split; [done|]. by eapply relink_weaken. Qed.

Lemma wrote_update X c v st st' a t f : wrote X c v st st' -> a ∈ X -> nodes st' !! a = Some t ->
  due (f t) = due t -> running (f t) = running t ->
  wrote X c v st (mkStore (queue st') (<[a := f t]> (nodes st'))).
Proof.
  intros Hw Ha Ht Hd Hr. apply (wrote_weaken (X ++ X)); [set_solver|].
  eapply wrote_relink_trans; [done| |done]. by eapply relink_insert.
Qed.

Lemma length_alloc (h : gmap addr task) (l : list addr) :
  NoDup l -> (forall a, a ∈ l -> is_Some (h !! a)) -> (length l <= size h)%nat.
Proof.
  intros Hnd Hl. rewrite <- size_dom, <- (size_list_to_set (C := gset addr) l) by done.
  apply subseteq_size. intros a Ha%elem_of_list_to_set. by apply elem_of_dom, Hl.
Qed.

Lemma unlink_spec c p d k s st :
  rep (nodes st) c (Cons p d k s) -> NoDup (addrs (Cons p d k s)) ->
  is_Some (read_cell c st) -> outside c (addrs (Cons p d k s)) ->
  exists st', taskqueue_unlink p st = Ok (tt, st') /\
    wrote (addrs (Cons p d k s)) c (fhead s) st st' /\ rep (nodes st') c s /\
    rep (nodes st') (CChildren p) k /\ points (nodes st') p (Some c) None (fhead k) d.
Proof.
  intros ((e & He & Hpp & Hn & Hc & Hd) & Hk & Hs) Hnd Hread Hout.
  rewrite addrs_cons in Hnd, Hout |- *.
  apply NoDup_cons in Hnd as [Hp Hnd]. apply NoDup_app in Hnd as (_ & Hks & Hnds).
  assert (owner c <> Some p) as Hcp by (apply (outside_ne _ _ _ Hout); set_solver).
  unfold taskqueue_unlink. erewrite M_bind_Ok by (by apply get_ok). rewrite Hpp, Hn.
  erewrite M_bind_Ok by (by apply assign_ok). set (st1 := put_cell c (fhead s) st).
  assert (wrote [] c (fhead s) st st1) as Hw1 by (split; [done|apply relink_refl]).
  assert (forall c' f, p ∉ addrs f -> outside c (addrs f) -> rep (nodes st) c' f ->
    rep (<[p := set_next None e]> (nodes st1)) c' f) as Hframe.
  { intros c' f Hpf Hof. apply rep_frame. intros a Ha.
    rewrite lookup_insert_ne by (by intros ->). apply put_cell_other. by eapply outside_ne. }
  assert (nodes st1 !! p = Some e) as He1 by (unfold st1; by rewrite put_cell_other).
  assert (points (<[p := set_next None e]> (nodes st1)) p (Some c) None (fhead k) d) as Hpt.
  { eexists. split; [apply lookup_insert_eq|]. done. }
  destruct s as [|n dn kn sn]; simpl.
  - erewrite M_bind_Ok by done. eexists. split; [by apply update_ok|].
    split; [|split; [done|split; [apply Hframe; [set_solver|apply (outside_sub _ _ _ Hout); set_solver|done]|done]]].
    apply (wrote_update _ _ _ _ st1 _ e (set_next None)); [|set_solver|done..].
    apply (wrote_weaken []); [set_solver|done].
  - pose proof Hs as ((tn & Htn & _) & _). rewrite addrs_cons in *.
    assert (n <> p) as Hnp by set_solver.
    assert (owner c <> Some n) as Hcn by (apply (outside_ne _ _ _ Hout); set_solver).
    assert (nodes st1 !! n = Some tn) as Htn1 by (unfold st1; by rewrite put_cell_other).
    erewrite M_bind_Ok by (by apply update_ok).
    eexists. split; [apply update_ok; simpl; by rewrite lookup_insert_ne|]. simpl.
    rewrite insert_insert_ne by done. split; [|split; [|split]].
    + rewrite insert_insert_ne by done.
      pose proof (wrote_update (p :: addrs k ++ n :: addrs kn ++ addrs sn) c (Some n) st st1 n tn
        (set_pprev (Some c))) as Hw2.
      apply (wrote_update _ _ _ _ _ p e (set_next None) (Hw2 ltac:(apply (wrote_weaken []);
        [set_solver|done]) ltac:(set_solver) Htn1 eq_refl eq_refl)); [set_solver| |done..].
      simpl. by rewrite lookup_insert_ne.
    + apply NoDup_cons in Hnds as [Hnk _]. rewrite not_elem_of_app in Hnk. destruct Hnk.
      apply (rep_relocate _ (CNext p)); [by rewrite lookup_insert_ne|done|done|].
      apply Hframe; [rewrite addrs_cons; set_solver| |done].
      apply (outside_sub _ _ _ Hout). rewrite addrs_cons. set_solver.
    + eapply rep_frame; [|apply Hframe; [|apply (outside_sub _ _ _ Hout); set_solver|done]]; [|set_solver].
      intros a Ha. apply lookup_insert_ne. set_solver.
    + eapply points_frame; [|done]. by rewrite lookup_insert_ne.
Qed.

(** A task that is in no queue. *)
Definition detached (h : gmap addr task) (p : addr) : Prop :=
  exists t, h !! p = Some t /\ pprev t = None /\ next t = None /\ children t = None.

Lemma fsplice_addrs k s : addrs (fsplice k s) ≡ₚ addrs k ++ addrs s.
Proof. unfold addrs. by rewrite fsplice_elems, fmap_app. Qed.

(** Splicing the merged children in place of the unlinked node. *)
Lemma splice_spec c p d k s st :
  rep_tree (nodes st) (mkTree p d k) -> rep (nodes st) c s ->
  read_cell c st = Some (fhead s) -> outside c (p :: addrs k ++ addrs s) ->
  NoDup (p :: addrs k ++ addrs s) ->
  exists st',
    (merged ← taskqueue_merge_pairs (S (size (nodes st))) (fhead k);
     match merged with Some m => taskqueue_link c m | None => skip end) st = Ok (tt, st') /\
    rep (nodes st') c (fsplice k s) /\ nodes st' !! p = nodes st !! p /\
    wrote (addrs k ++ addrs s) c (fhead (fsplice k s)) st st'.
Proof.
  intros [_ Hk] Hs Hread Hout Hnd. simpl in Hk.
  apply NoDup_cons in Hnd as [Hp Hnd]. pose proof Hnd as Hnd'.
  apply NoDup_app in Hnd' as (Hndk & Hks & Hnds).
  assert (outside c (addrs k ++ addrs s)) as Hout' by (apply (outside_sub _ _ _ Hout); set_solver).
  destruct (merge_pairs_spec k (CChildren p) st (S (size (nodes st)))) as (st1 & Hrun & Hm & Hr & Hq);
    [done|done| |].
  { apply Nat.lt_succ_r, length_alloc; [done|]. intros a Ha. by apply (rep_alloc _ _ _ _ Hk). }
  erewrite M_bind_Ok by done.
  assert (rep (nodes st1) c s) as Hs1 by (eapply rep_relink; [done| |done]; set_solver).
  assert (read_cell c st1 = Some (fhead s)) as Hread1.
  { rewrite <- Hread. apply read_cell_cong; [done|]. intros a Ha. apply Hr.
    intros Hin. apply (outside_ne _ _ a Hout'); [set_solver|done]. }
  assert (wrote (addrs k) c (fhead s) st st1) as Hw1.
  { split; [by rewrite put_cell_same|]. by rewrite put_cell_same. }
  pose proof (fmerge_pairs_addrs k) as Hak. unfold fsplice.
  destruct (fmerge_pairs k) as [t|]; simpl in Hm, Hak |- *.
  - destruct (link_spec c t s st1) as (st2 & Hrun2 & Hrep & Hw2); [done|done|done| | |].
    { by rewrite Hak. }
    { apply (outside_sub _ _ _ Hout'). rewrite Hak. set_solver. }
    exists st2. split; [done|]. split; [done|]. split.
    + rewrite (wrote_other _ _ _ _ _ _ Hw2); [by apply Hr; set_solver|rewrite Hak; set_solver|].
      apply (outside_ne _ _ _ Hout). set_solver.
    + eapply wrote_weaken; [|eapply wrote_trans; [exact Hw1|exact Hw2]]. rewrite Hak. set_solver.
  - exists st1. split; [done|]. split; [done|]. split; [by apply Hr; set_solver|].
    eapply wrote_weaken; [|exact Hw1]. set_solver.
Qed.

Definition removed (p : addr) (c : cell) (f f' : forest) (st st' : store) : Prop :=
  rep (nodes st') c f' /\ detached (nodes st') p /\ wrote (addrs f) c (fhead f') st st'.

(** [taskqueue_remove] on the first node of a sibling list. *)
Lemma remove_here c p d k s st :
  rep (nodes st) c (Cons p d k s) -> NoDup (addrs (Cons p d k s)) ->
  read_cell c st = Some (Some p) -> outside c (addrs (Cons p d k s)) ->
  exists st', taskqueue_remove p st = Ok (tt, st') /\
    removed p c (Cons p d k s) (fsplice k s) st st'.
Proof.
  intros Hrep Hnd Hread Hout.
  destruct (unlink_spec c p d k s st Hrep Hnd) as (st1 & Hrun1 & Hw1 & Hs1 & Hk1 & Hp1); [by eexists|done|].
  pose proof Hrep as ((e & He & Hpp & _ & Hc & _) & _).
  unfold removed. rewrite addrs_cons in *. unfold taskqueue_remove.
  erewrite M_bind_Ok by (by apply get_ok). unfold taskqueue_linked.
  rewrite bool_decide_true, Hpp by (rewrite Hpp; by eexists).
  erewrite M_bind_Ok by done. erewrite M_bind_Ok by done.
  pose proof Hp1 as (e1 & He1 & _ & Hn1 & Hc1 & _).
  erewrite M_bind_Ok by (by apply get_ok). rewrite Hc1.
  destruct (splice_spec c p d k s st1) as (st2 & Hrun2 & Hrep2 & Hsame & Hw2);
    [by split; [eexists|]|done| |done|done|].
  { eapply wrote_read; [done|by eexists|done]. }
  assert (forall (m : M store unit), (merged ← taskqueue_merge_pairs (S (size (nodes st1))) (fhead k);
     match merged with Some m => taskqueue_link c m | None => skip end ;; m) st1 = m st2) as Hseq.
  { intros m. revert Hrun2. unfold mbind, M_bind. destruct (taskqueue_merge_pairs _ _ st1) as [[o st']|]; [|done].
    by intros ->. }
  rewrite Hseq. rewrite He1 in Hsame.
  erewrite M_bind_Ok by (by apply update_ok).
  eexists. split; [apply update_ok; simpl; apply lookup_insert_eq|]. simpl. rewrite insert_insert_eq.
  pose proof (fsplice_addrs k s) as Ha. apply NoDup_cons in Hnd as [Hp _].
  split; [|split].
  - eapply rep_frame; [|done]. intros a Hin. apply lookup_insert_ne. intros ->. by rewrite Ha in Hin.
  - eexists. split; [apply lookup_insert_eq|]. done.
  - assert (wrote (p :: addrs k ++ addrs s) c (fhead (fsplice k s)) st st2) as Hw.
    { eapply wrote_weaken; [|eapply wrote_trans; [exact Hw1|exact Hw2]]. set_solver. }
    apply (wrote_update _ _ _ _ st2 p e1 (fun t => set_children None (set_pprev None t))); [done|left|done..].
Qed.

(** A change inside the children or the later siblings of the first node leaves
    the head of the list and what lies outside of it alone. *)
Lemma wrote_inner c c' X Y v w a st st' :
  wrote X c' v st st' -> owner c' = Some a -> a ∈ Y -> X ⊆ Y -> read_cell c st = Some w ->
  wrote Y c w st st'.
Proof.
  intros Hw Hc' Ha HXY Hread. pose proof (wrote_relink _ _ _ _ _ _ Hc' Hw) as Hr.
  destruct Hw as [Hq _]. unfold wrote. rewrite put_cell_same by done. split.
  - rewrite Hq. destruct c'; by simplify_eq/=.
  - eapply relink_weaken; [|done]. set_solver.
Qed.

Lemma remove_spec f c p st :
  rep (nodes st) c f -> NoDup (addrs f) -> read_cell c st = Some (fhead f) ->
  outside c (addrs f) -> p ∈ addrs f ->
  exists st', taskqueue_remove p st = Ok (tt, st') /\ removed p c f (fremove p f) st st'.
Proof.
  revert c. induction f as [|q d k IHk s IHs]; intros c Hrep Hnd Hread Hout Hp; simpl fremove.
  { by apply elem_of_nil in Hp. }
  destruct (decide (q = p)) as [->|Hne]; [by apply remove_here|].
  pose proof Hrep as ((e & He & Hpp & Hn & Hc & Hd) & Hk & Hs).
  unfold removed. rewrite addrs_cons in *. apply NoDup_cons in Hnd as [Hq Hnd].
  apply NoDup_app in Hnd as (Hndk & Hks & Hnds). simpl fhead in *.
  assert (owner c <> Some q) as Hcq by (apply (outside_ne _ _ _ Hout); set_solver).
  apply elem_of_cons in Hp as [->|Hp]; [done|]. apply elem_of_app in Hp as [Hp|Hp].
  - rewrite (fremove_notin p s) by (by apply Hks).
    destruct (IHk (CChildren q)) as (st' & Hrun & Hrep' & Hdet & Hw);
      [done|done|simpl; by rewrite He, <- Hc|unfold outside; simpl; set_solver|done|].
    exists st'. split; [done|]. split; [split; [|split]|split]; [|done| |done|].
    + pose proof Hw as [_ [Hw' _]]. eexists. rewrite Hw' by set_solver. simpl.
      rewrite lookup_alter_eq, He. done.
    + eapply wrote_frame; [done|set_solver|unfold outside; simpl; set_solver|done].
    + by eapply wrote_inner; [done|done|left|set_solver|].
  - rewrite (fremove_notin p k) by (intros ?; by apply (Hks p)).
    destruct (IHs (CNext q)) as (st' & Hrun & Hrep' & Hdet & Hw);
      [done|done|simpl; by rewrite He, <- Hn|unfold outside; simpl; set_solver|done|].
    exists st'. split; [done|]. split; [split; [|split]|split]; [| |done|done|].
    + pose proof Hw as [_ [Hw' _]]. eexists. rewrite Hw' by set_solver. simpl.
      rewrite lookup_alter_eq, He. done.
    + eapply wrote_frame; [done| |unfold outside; simpl; set_solver|done]. intros a Ha Ha'. by apply (Hks a).
    + by eapply wrote_inner; [done|done|left|set_solver|].
Qed.

(** ** The queue [ctx->queue] implements the pairing heap *)

(** The store holds the forest [f] in the queue, and every other task that is
    allocated is in no queue. *)
Record queue_rep (st : store) (f : forest) : Prop := {
  qr_rep : rep (nodes st) CQueue f;
  qr_head : queue st = fhead f;
  qr_ok : forest_ok f;
  qr_free : forall a, is_Some (nodes st !! a) -> a ∉ addrs f -> detached (nodes st) a;
}.

(** C24: removing a task that is in the queue runs to completion and leaves the
    queue that the pairing heap's [fremove] computes; the removed task is
    unlinked and no due time or [running] flag changes. *)
Theorem taskqueue_remove_refines st f p :
  queue_rep st f -> p ∈ addrs f ->
  exists st', taskqueue_remove p st = Ok (tt, st') /\ queue_rep st' (fremove p f) /\
    detached (nodes st') p /\
    (forall a, (fun t => (due t, running t)) <$> nodes st' !! a =
               (fun t => (due t, running t)) <$> nodes st !! a).
Proof.
  intros [Hrep Hhead Hok Hfree] Hp. pose proof Hok as (Hnd & _ & _).
  destruct (remove_spec f CQueue p st) as (st' & Hrun & Hrep' & Hdet & Hw);
    [done|done|simpl; by rewrite Hhead|done|done|].
  exists st'. split; [done|]. pose proof Hw as [Hq [Hsame Hcore]]. simpl in Hsame, Hcore.
  split; [|split; [done|done]]. split; [done|done|by apply fremove_ok|].
  intros a Ha Hout. destruct (decide (a = p)) as [->|Hne]; [done|].
  assert (a ∉ addrs f) as Haf.
  { intros Hin. apply Hout. apply list_elem_of_fmap in Hp as ([p' d] & -> & Hp).
    unfold addrs in *. rewrite (fremove_elems _ _ _ Hnd Hp) in Hin.
    apply elem_of_cons in Hin as [Hin|Hin]; [by simpl in *|done]. }
  destruct (Hfree a) as (t & Ht & ?); [by rewrite <- Hsame|done|].
  exists t. by rewrite Hsame.
Qed.

(** Removing a task that is in no queue does nothing. *)
Lemma taskqueue_remove_detached st p : detached (nodes st) p ->
  taskqueue_remove p st = Ok (tt, st).
Proof.
  intros (t & Ht & Hpp & Hn & Hc). unfold taskqueue_remove.
  erewrite M_bind_Ok by (by apply get_ok). unfold taskqueue_linked. rewrite Hpp, Hn, Hc.
  by rewrite bool_decide_false by (by intros []).
Qed.

(** C25: inserting an allocated task that is in no queue runs to completion and
    leaves the queue that the pairing heap's [finsert] computes. *)
Theorem taskqueue_insert_refines st f p t :
  queue_rep st f -> nodes st !! p = Some t -> p ∉ addrs f ->
  exists st', taskqueue_insert CQueue p st = Ok (tt, st') /\
    queue_rep st' (finsert p (due t) f) /\
    (forall a, (fun t => (due t, running t)) <$> nodes st' !! a =
               (fun t => (due t, running t)) <$> nodes st !! a).
Proof.
  intros [Hrep Hhead Hok Hfree] Ht Hp. pose proof Hok as (Hnd & _ & Hroot).
  destruct (Hfree p) as (t' & Ht' & Hpp & Hn & Hc); [by eexists|done|]. simplify_eq.
  set (tp := mkTree p (due t) Nil).
  set (old := match f with Nil => None | Cons q e k _ => Some (mkTree q e k) end).
  assert (finsert p (due t) f = single (fmerge tp old)) as Hins by (by destruct f).
  assert (otaddrs old = addrs f) as Hold.
  { destruct f as [|q e k [|]]; [done| |done]. simpl. by rewrite taddrs_single. }
  destruct (merge_opt_spec tp old st) as (st1 & Hrun & Htree & Hr & Hq).
  { split; [|done]. by exists None, t. }
  { destruct f as [|q e k [|]]; [done| |done]. destruct Hrep as (Hpt & Hk & _).
    split; [by eexists|done]. }
  { rewrite Hold. by apply NoDup_cons. }
  unfold taskqueue_insert. erewrite M_bind_Ok by (by apply get_ok). rewrite Hpp, Hn, Hc.
  erewrite M_bind_Ok by done. erewrite M_bind_Ok by done. erewrite M_bind_Ok by done.
  erewrite M_bind_Ok by done. simpl read_cell.
  replace (queue st) with (t_id <$> old) by (by rewrite Hhead; destruct f as [|? ? ? []]).
  erewrite M_bind_Ok by done. erewrite M_bind_Ok by done.
  destruct Htree as [(pp & u & Hu & Hupp & Hun & Huc & Hud) Hkids].
  eexists. split; [by apply update_ok|]. simpl.
  destruct (finsert_ok p (due t) f Hok Hp) as [Hok' He].
  assert (taddrs (fmerge tp old) ≡ₚ p :: addrs f) as Haddr.
  { rewrite taddrs_single, <- Hins. unfold addrs. by rewrite He. }
  split; [split|]; simpl; rewrite ?Hins; try done.
  - split; [|split; [|done]].
    + eexists. split; [apply lookup_insert_eq|]. done.
    + eapply rep_frame; [|done]. intros a Ha. apply lookup_insert_ne. intros <-.
      assert (NoDup (taddrs (fmerge tp old))) as Hnd' by (rewrite Haddr; by apply NoDup_cons).
      by apply NoDup_cons in Hnd' as [? _].
  - by rewrite <- Hins.
  - intros a Ha Hout. rewrite <- taddrs_single, Haddr in Hout.
    assert (a <> t_id (fmerge tp old)) as Hne.
    { intros ->. apply Hout. rewrite <- Haddr. left. }
    rewrite lookup_insert_ne in Ha by done. rewrite (proj1 Hr) in Ha by (rewrite Hold; simpl; set_solver).
    destruct (Hfree a Ha) as (v & Hv & ?); [set_solver|]. exists v. split; [|done].
    rewrite lookup_insert_ne by done. by rewrite (proj1 Hr) by (rewrite Hold; simpl; set_solver).
  - intros a. rewrite <- (proj2 Hr a). destruct (decide (t_id (fmerge tp old) = a)) as [<-|].
    + by rewrite lookup_insert_eq, Hu.
    + by rewrite lookup_insert_ne.
Qed.

(** ** A concrete queue: task 2 below task 1, task 3 allocated but not queued *)

Definition demo_nodes : gmap addr task :=
  <[1%positive := mkTask (Some CQueue) None (Some 2%positive) (mkTime 10 0) false]>
  (<[2%positive := mkTask (Some (CChildren 1)) None None (mkTime 20 0) false]>
  (<[3%positive := mkTask None None None (mkTime 5 0) false]> ∅)).
Definition demo_store : store := mkStore (Some 1%positive) demo_nodes.
Definition demo_forest : forest :=
  Cons 1 (mkTime 10 0) (Cons 2 (mkTime 20 0) Nil Nil) Nil.

Lemma demo_queue_rep : queue_rep demo_store demo_forest.
Proof.
  split.
  - split; [|split; [split; [|done]|done]]; by eexists.
  - done.
  - split; [|split; [|done]].
    + unfold addrs. simpl. repeat constructor; set_solver.
    + split; [|split; [|done]]; [repeat constructor; vm_compute; discriminate|].
      split; [constructor|done].
  - intros a [t Ht]. unfold demo_store, demo_nodes in *. simpl in *.
    rewrite !lookup_insert_Some, lookup_empty in Ht.
    destruct Ht as [[<- _]|[_ [[<- _]|[_ [[<- <-]|[_ ?]]]]]]; [| | |done].
    + intros []. left.
    + intros []. right. left.
    + intros _. by eexists.
Qed.

Lemma taskqueue_remove_refines_witness :
  exists st', taskqueue_remove 1 demo_store = Ok (tt, st') /\
    queue_rep st' (Cons 2 (mkTime 20 0) Nil Nil) /\ detached (nodes st') 1 /\
    (forall a, (fun t => (due t, running t)) <$> nodes st' !! a =
               (fun t => (due t, running t)) <$> nodes demo_store !! a).
Proof.
  refine (taskqueue_remove_refines demo_store demo_forest 1 demo_queue_rep _). left.
Defined.

Lemma taskqueue_insert_refines_witness :
  exists st', taskqueue_insert CQueue 3 demo_store = Ok (tt, st') /\
    queue_rep st' (Cons 3 (mkTime 5 0) (Cons 1 (mkTime 10 0) (Cons 2 (mkTime 20 0) Nil Nil) Nil) Nil) /\
    (forall a, (fun t => (due t, running t)) <$> nodes st' !! a =
               (fun t => (due t, running t)) <$> nodes demo_store !! a).
Proof.
  refine (taskqueue_insert_refines demo_store demo_forest 3
    (mkTask None None None (mkTime 5 0) false) demo_queue_rep eq_refl _).
  unfold addrs. simpl. set_solver.
Defined.
