(* ===== verification/TaskSched.v ===== *)
(** * taskqueue.c: posting, dropping, rescheduling and running tasks

    The scheduler on top of the task heap, for any timer queue ([TimerQueue] of
    [TaskHeap.v]).  A task's [function], [cleanup] and [data] are a payload [P];
    running one is a computation on the world [W] the scheduler is part of.
    Clock readings are an oracle: the [n]-th call of [clock_gettime] returns
    [clk n], so that time may pass between any two calls. *)
From S2P Require Import Prelude.
From S2P Require Import Timespec.
From S2P Require Import TaskHeap.

(** ** Data *)

(** The fields of a task outside of the heap links (taskqueue.h:23-28). *)
Record trec (P : Type) := mkTrec { tr_due : timespec; tr_running : bool; tr_payload : P }.
Arguments mkTrec {P}.
Arguments tr_due {P} t.
Arguments tr_running {P} t.
Arguments tr_payload {P} t.

(** taskqueue.h:8-12 taskqueue_ctx: the queue, the allocated tasks, the time the
    timerfd is armed for, the monotonic clock. *)
Record sched (Q P : Type) := mkSched {
  s_queue : Q;
  s_tasks : gmap addr (trec P);
  s_timer : option timespec;
  s_clk : nat -> timespec;
  s_ticks : nat;
}.
Arguments mkSched {Q P}.
Arguments s_queue {Q P} s.
Arguments s_tasks {Q P} s.
Arguments s_timer {Q P} s.
Arguments s_clk {Q P} s.
Arguments s_ticks {Q P} s.

Class HasSched (Q P W : Type) := {
  get_sched : W -> sched Q P;
  set_sched : sched Q P -> W -> W;
  get_set s w : get_sched (set_sched s w) = s;
  set_get w : set_sched (get_sched w) w = w;
  set_set s s' w : set_sched s (set_sched s' w) = set_sched s w;
}.

(** An address that is not allocated: the one above the greatest in use. *)
Definition malloc_addr {X} (m : gmap addr X) : addr :=
  map_fold (fun a _ b => Pos.max (Pos.succ a) b) 1%positive m.

Lemma malloc_addr_fresh {X} (m : gmap addr X) : m !! malloc_addr m = None.
Proof.
  assert (forall a, is_Some (m !! a) -> (a < malloc_addr m)%positive) as H.
  { unfold malloc_addr.
    apply (map_fold_weak_ind (fun b m => forall a, is_Some (m !! a) -> (a < b)%positive)).
    - intros a [? Ha]. by rewrite lookup_empty in Ha.
    - intros i x m' r _ IH a. destruct (decide (i = a)) as [<-|Hne]; [lia|].
      rewrite lookup_insert_ne by done. intros Ha%IH. lia. }
  destruct (m !! malloc_addr m) eqn:E; [|done].
  specialize (H (malloc_addr m) ltac:(by eexists)). lia.
Qed.

Section sched.
Context {Q P W : Type} `{!TimerQueue Q} `{!HasSched Q P W}.
Implicit Types (s : sched Q P) (w : W) (p : addr).

(** ** Access to the scheduler's state *)

Definition get_s : M W (sched Q P) := gets get_sched.
Definition upd_s (f : sched Q P -> sched Q P) : M W unit :=
  modify (fun w => set_sched (f (get_sched w)) w).

Definition with_queue (q : Q) s := mkSched q (s_tasks s) (s_timer s) (s_clk s) (s_ticks s).
Definition with_tasks (t : gmap addr (trec P)) s :=
  mkSched (s_queue s) t (s_timer s) (s_clk s) (s_ticks s).
Definition with_timer (t : option timespec) s :=
  mkSched (s_queue s) (s_tasks s) t (s_clk s) (s_ticks s).
Definition tick s := mkSched (s_queue s) (s_tasks s) (s_timer s) (s_clk s) (S (s_ticks s)).

(** [clock_gettime(CLOCK_MONOTONIC, ..)] *)
Definition clock_gettime : M W timespec :=
  s ← get_s; upd_s tick ;; mret (s_clk s (s_ticks s)).

Definition the_task (a : addr) : M W (trec P) := fun w =>
  match s_tasks (get_sched w) !! a with Some t => Ok (t, w) | None => Fault UseAfterFree end.

Definition set_task (a : addr) (t : trec P) : M W unit :=
  upd_s (fun s => with_tasks (<[a := t]> (s_tasks s)) s).

Definition free_task (a : addr) : M W unit :=
  the_task a ;; upd_s (fun s => with_tasks (delete a (s_tasks s)) s).

(** ** Operations *)

(** taskqueue.c:46-53 settime *)
Definition settime (timeout millisecs : Z) : M W timespec :=
  now ← clock_gettime;
  lift (timeAdd now (mkTime timeout (s64 (millisecs * 1000000)))).

(** taskqueue.c:108-120 taskqueue_schedule: arms the timer for the task that is
    due first; the clock is read for a log message only. *)
Definition taskqueue_schedule : M W unit :=
  s ← get_s;
  match tq_first (s_queue s) with
  | None => skip
  | Some (_, d) => clock_gettime ;; upd_s (with_timer (Some d))
  end.

(** taskqueue.c:57-73 post_task *)
Definition post_task (timeout millisecs : Z) (payload : P) : M W addr :=
  s ← get_s;
  let a := malloc_addr (s_tasks s) in
  d ← settime timeout millisecs;
  set_task a (mkTrec d false payload) ;;
  upd_s (fun s => with_queue (tq_insert a d (s_queue s)) s) ;;
  taskqueue_schedule ;;
  mret a.

(** taskqueue.c:75-87 drop_task: a running task is left to [taskqueue_run]. *)
Definition drop_task (cleanup : P -> M W unit) (task : option addr) : M W unit :=
  match task with
  | None => fail NullDeref
  | Some a =>
      t ← the_task a;
      if tr_running t then skip
      else
        upd_s (fun s => with_queue (tq_remove a (s_queue s)) s) ;;
        cleanup (tr_payload t) ;;
        free_task a ;;
        taskqueue_schedule
  end.

(** taskqueue.c:92-106 reschedule_task *)
Definition reschedule_task (task : option addr) (timeout millisecs : Z) : M W bool :=
  match task with
  | None => mret false
  | Some a =>
      t ← the_task a;
      s ← get_s;
      if tq_linked a (s_queue s) then
        d ← settime timeout millisecs;
        (if timespec_cmp d (tr_due t) =? 0 then skip
         else
           set_task a (mkTrec d (tr_running t) (tr_payload t)) ;;
           upd_s (fun s => with_queue (tq_insert a d (tq_remove a (s_queue s))) s) ;;
           taskqueue_schedule) ;;
        mret true
      else mret false
  end.

(** taskqueue.c:135-146 taskqueue_run: one round of the loop. *)
Definition run_round (function cleanup : P -> M W unit) (now : timespec) : M W bool :=
  s ← get_s;
  match tq_first (s_queue s) with
  | None => mret false
  | Some (a, d) =>
      if timespec_cmp d now <=? 0 then
        t ← the_task a;
        upd_s (fun s => with_queue (tq_remove a (s_queue s)) s) ;;
        set_task a (mkTrec (tr_due t) true (tr_payload t)) ;;
        function (tr_payload t) ;;
        cleanup (tr_payload t) ;;
        free_task a ;;
        mret true
      else mret false
  end.

(** taskqueue.c:122-149 taskqueue_run *)
Definition taskqueue_run (fuel : nat) (function cleanup : P -> M W unit) : M W unit :=
  now ← clock_gettime;
  s ← get_s;
  match tq_first (s_queue s) with
  | None => skip
  | Some _ => mwhile fuel (run_round function cleanup now) ;; taskqueue_schedule
  end.
End sched.

(** ** Specification *)

Section spec.
Context {Q P W : Type} `{!TimerQueue Q, !TimerQueueLaws Q, !HasSched Q P W}.
Implicit Types (s : sched Q P) (w : W) (p : addr).

(** A task is in the queue exactly when it is allocated and not running; the
    heap's key is the task's due time. *)
Record sched_ok s : Prop := {
  so_queue : tq_ok (s_queue s);
  so_tasks : forall p d, (p, d) ∈ tq_elems (s_queue s) <->
    exists t, s_tasks s !! p = Some t /\ tr_due t = d /\ tr_running t = false;
}.

(** The timer is armed for a task that is due first. *)
Definition armed s : Prop :=
  match tq_first (s_queue s) with None => True | Some (_, d) => s_timer s = Some d end.

Definition arm s : sched Q P :=
  match tq_first (s_queue s) with
  | None => s
  | Some (_, d) => with_timer (Some d) (tick s)
  end.

Lemma schedule_run w :
  taskqueue_schedule (Q := Q) (P := P) w = Ok (tt, set_sched (arm (get_sched w)) w).
Proof.
  unfold taskqueue_schedule, arm, clock_gettime, get_s, upd_s, gets, modify, mbind, M_bind, mret, M_ret.
  simpl. destruct (tq_first _) as [[? d]|]; simpl; [|unfold skip; by rewrite set_get].
  by rewrite !get_set, set_set.
Qed.

Lemma arm_armed s : armed (arm s).
Proof. unfold arm, armed. destruct (tq_first (s_queue s)) as [[]|] eqn:E; simpl; by rewrite E. Qed.

Lemma arm_queue s : s_queue (arm s) = s_queue s /\ s_tasks (arm s) = s_tasks s.
Proof. unfold arm. by destruct (tq_first _) as [[]|]. Qed.

Lemma arm_ok s : sched_ok s -> sched_ok (arm s).
Proof. intros [H1 H2]. destruct (arm_queue s) as [Eq Et]. by split; rewrite ?Eq, ?Et. Qed.

Lemma queue_keys s p : (p ∈ (tq_elems (s_queue s)).*1) <-> exists d, (p, d) ∈ tq_elems (s_queue s).
Proof.
  rewrite list_elem_of_fmap. split; [intros ([? d] & -> & ?); eauto|].
  intros [d ?]. by exists (p, d).
Qed.

Lemma fresh_not_queued s p : sched_ok s -> s_tasks s !! p = None ->
  p ∉ (tq_elems (s_queue s)).*1.
Proof. intros [_ H] Hp [d Hd]%queue_keys. apply H in Hd as (t & Ht & _). congruence. Qed.

Lemma tick_ok s : sched_ok s -> sched_ok (tick s).
Proof. by intros [? ?]. Qed.

(** The state after [post_task] put the task [p] into the queue. *)
Definition posted s p d (pl : P) : sched Q P :=
  with_queue (tq_insert p d (s_queue s)) (with_tasks (<[p := mkTrec d false pl]> (s_tasks s)) s).

Lemma posted_ok s p d pl : sched_ok s -> s_tasks s !! p = None ->
  sched_ok (posted s p d pl) /\ tq_elems (s_queue (posted s p d pl)) ≡ₚ (p, d) :: tq_elems (s_queue s).
Proof.
  intros Hs Hp. pose proof (fresh_not_queued s p Hs Hp) as Hout. destruct Hs as [Hq Ht].
  destruct (tq_insert_ok p d (s_queue s) Hq Hout) as [Hq' He]. split; [|done].
  split; [done|]. intros p' d'. simpl. rewrite He, elem_of_cons, Ht.
  destruct (decide (p = p')) as [<-|Hne].
  - rewrite lookup_insert_eq, Hp. split.
    + intros [[= ->]|(? & ? & _)]; [by eexists|done].
    + intros (t & [= <-] & <- & _). by left.
  - rewrite lookup_insert_ne by done. split; [intros [[= -> ->]|?]; done|by right].
Qed.

(** [post_task] on a sane clock: also the clock is left alone. *)
Lemma post_task_total w timeout ms pl :
  let s := get_sched (Q := Q) w in
  sched_ok s -> sane (s_clk s (s_ticks s)) -> 0 <= timeout < 2 ^ 60 -> 0 <= ms < 2 ^ 31 ->
  exists a d s', post_task timeout ms pl w = Ok (a, set_sched s' w) /\
    s_tasks s !! a = None /\
    norm_ns d /\ ns d = ns (s_clk s (s_ticks s)) + timeout * BILLION + ms * 1000000 /\
    sched_ok s' /\ armed s' /\ s_tasks s' = <[a := mkTrec d false pl]> (s_tasks s) /\
    tq_elems (s_queue s') ≡ₚ (a, d) :: tq_elems (s_queue s) /\ s_clk s' = s_clk s.
Proof.
  intros s Hs Hclk Ht Hms.
  destruct (timeAdd_total (s_clk s (s_ticks s)) (mkTime timeout (s64 (ms * 1000000)))) as (d & Hd & Hn & Hns);
    [simpl; rewrite ?s64_small by lia; time_lia..|].
  set (a := malloc_addr (s_tasks s)). pose proof (malloc_addr_fresh (s_tasks s)) as Hfresh.
  destruct (posted_ok (tick s) a d pl) as [Hok He]; [by apply tick_ok|done|].
  destruct (arm_queue (posted (tick s) a d pl)) as [Eq Et].
  exists a, d, (arm (posted (tick s) a d pl)). split.
  - unfold post_task, settime, clock_gettime, set_task, get_s, upd_s, gets, modify, lift,
      mbind, M_bind, mret, M_ret. fold s. rewrite Hd. simpl. rewrite schedule_run.
    rewrite !get_set, !set_set. done.
  - split; [done|]. split; [done|]. split.
    { rewrite Hns. rewrite s64_small by lia. unfold ns, BILLION; simpl. lia. }
    split; [by apply arm_ok|]. split; [apply arm_armed|]. rewrite Et, Eq.
    split; [done|]. split; [done|]. unfold arm. by destruct (tq_first _) as [[]|].
Qed.

(** [post_task] allocates a task that was not in use, queues it for the
    current monotonic time plus the offset, and arms the timer for the task
    that is due first; no other task changes. *)
Theorem post_task_spec w timeout ms pl :
  let s := get_sched (Q := Q) w in
  sched_ok s -> sane (s_clk s (s_ticks s)) -> 0 <= timeout < 2 ^ 60 -> 0 <= ms < 2 ^ 31 ->
  exists a d s', post_task timeout ms pl w = Ok (a, set_sched s' w) /\
    s_tasks s !! a = None /\
    norm_ns d /\ ns d = ns (s_clk s (s_ticks s)) + timeout * BILLION + ms * 1000000 /\
    sched_ok s' /\ armed s' /\ s_tasks s' = <[a := mkTrec d false pl]> (s_tasks s) /\
    tq_elems (s_queue s') ≡ₚ (a, d) :: tq_elems (s_queue s).
Proof.
  intros s Hs Hclk Ht Hms. destruct (post_task_total w timeout ms pl Hs Hclk Ht Hms)
    as (a & d & s' & H). exists a, d, s'. naive_solver.
Qed.

(** The state without the task [p]. *)
Definition dropped s p : sched Q P :=
  with_tasks (delete p (s_tasks s)) (with_queue (tq_remove p (s_queue s)) s).

(** The state in which the task [p] was taken from the queue to be run. *)
Definition taken s p (t : trec P) : sched Q P :=
  with_tasks (<[p := mkTrec (tr_due t) true (tr_payload t)]> (s_tasks s))
    (with_queue (tq_remove p (s_queue s)) s).

Lemma remove_keys s p d : sched_ok s -> (p, d) ∈ tq_elems (s_queue s) ->
  forall p' d', (p', d') ∈ tq_elems (tq_remove p (s_queue s)) <->
                p' <> p /\ (p', d') ∈ tq_elems (s_queue s).
Proof.
  intros [Hq _] Hin p' d'. pose proof (tq_remove_in p d (s_queue s) Hq Hin) as He.
  pose proof (tq_nodup _ Hq) as Hnd. rewrite He in Hnd |- *. simpl in Hnd.
  apply NoDup_cons in Hnd as [Hp _]. rewrite elem_of_cons. split.
  - intros H. split; [|by right]. intros ->. apply Hp. by apply (list_elem_of_fmap_2 fst) in H.
  - by intros [Hne [[= -> _]|?]].
Qed.

Lemma dropped_ok s p d : sched_ok s -> (p, d) ∈ tq_elems (s_queue s) ->
  sched_ok (dropped s p) /\ tq_elems (s_queue s) ≡ₚ (p, d) :: tq_elems (s_queue (dropped s p)).
Proof.
  intros Hs Hin. pose proof (remove_keys s p d Hs Hin) as Hk. destruct Hs as [Hq Ht].
  split; [|by apply tq_remove_in]. split; [by apply tq_remove_ok|].
  intros p' d'. simpl. rewrite Hk, Ht. destruct (decide (p = p')) as [<-|Hne].
  - rewrite lookup_delete_eq. split; [by intros [? _]|by intros (? & ? & _)].
  - rewrite lookup_delete_ne by done. naive_solver.
Qed.

Lemma taken_ok s p d t : sched_ok s -> (p, d) ∈ tq_elems (s_queue s) -> sched_ok (taken s p t).
Proof.
  intros Hs Hin. pose proof (remove_keys s p d Hs Hin) as Hk. destruct Hs as [Hq Ht].
  split; [by apply tq_remove_ok|]. intros p' d'. simpl. rewrite Hk, Ht.
  destruct (decide (p = p')) as [<-|Hne].
  - rewrite lookup_insert_eq. split; [by intros [? _]|]. by intros (? & [= <-] & _ & ?).
  - rewrite lookup_insert_ne by done. naive_solver.
Qed.

Lemma free_running_ok s p t : sched_ok s -> s_tasks s !! p = Some t -> tr_running t = true ->
  sched_ok (with_tasks (delete p (s_tasks s)) s).
Proof.
  intros [Hq Ht] Hp Hr. split; [done|]. intros p' d'. simpl. rewrite Ht.
  destruct (decide (p = p')) as [<-|Hne].
  - rewrite lookup_delete_eq, Hp. split; [|by intros (? & ? & _)].
    intros (? & [= <-] & _ & ?). congruence.
  - by rewrite lookup_delete_ne.
Qed.

(** A callback that leaves the scheduler alone. *)
Definition passive (f : P -> M W unit) : Prop :=
  forall pl w, exists w', f pl w = Ok (tt, w') /\ get_sched w' = get_sched (Q := Q) w.

(** Dropping a task that is in the queue removes and frees it and arms the
    timer for what is left; dropping a task that is being run does nothing
    (the scheduler frees it later); a dangling pointer is a use after free. *)
Theorem drop_task_spec (cleanup : P -> M W unit) w p t :
  let s := get_sched (Q := Q) w in
  passive cleanup -> sched_ok s -> s_tasks s !! p = Some t ->
  (tr_running t = true -> drop_task (Q := Q) cleanup (Some p) w = Ok (tt, w)) /\
  (tr_running t = false -> exists w', drop_task (Q := Q) cleanup (Some p) w = Ok (tt, w') /\
     let s' := get_sched (Q := Q) w' in
     sched_ok s' /\ armed s' /\ s_tasks s' = delete p (s_tasks s) /\
     tq_elems (s_queue s) ≡ₚ (p, tr_due t) :: tq_elems (s_queue s')) /\
  (forall a, s_tasks s !! a = None -> drop_task (Q := Q) cleanup (Some a) w = Fault UseAfterFree).
Proof.
  intros s Hclean Hs Ht.
  unfold drop_task, the_task, upd_s, free_task, modify, mbind, M_bind. fold s. rewrite Ht.
  split; [|split].
  - by intros ->.
  - intros Hr. rewrite Hr. unfold upd_s, modify. simpl.
    destruct (Hclean (tr_payload t) (set_sched (with_queue (tq_remove p (s_queue (get_sched w))) (get_sched w)) w))
      as (w' & -> & Hw'). rewrite get_set in Hw'. unfold the_task. rewrite Hw'. simpl.
    fold s. rewrite Ht, schedule_run.
    eexists. split; [done|]. rewrite !get_set, Hw'. fold s. simpl.
    destruct (dropped_ok s p (tr_due t)) as [Hok He]; [done|apply Hs; eauto|].
    destruct (arm_queue (dropped s p)) as [Eq Et].
    unfold dropped, with_tasks, with_queue in *; simpl in *. rewrite Eq, Et.
    split; [by apply arm_ok|]. split; [apply arm_armed|]. done.
  - intros a Ha. by rewrite Ha.
Qed.

(** *** Rescheduling *)

Lemma settime_total w timeout ms :
  let s := get_sched (Q := Q) (P := P) w in
  sane (s_clk s (s_ticks s)) -> 0 <= timeout < 2 ^ 60 -> 0 <= ms < 2 ^ 31 ->
  exists d, settime (Q := Q) (P := P) timeout ms w = Ok (d, set_sched (tick s) w) /\
    norm_ns d /\ ns d = ns (s_clk s (s_ticks s)) + timeout * BILLION + ms * 1000000.
Proof.
  intros s Hclk Ht Hms.
  destruct (timeAdd_total (s_clk s (s_ticks s)) (mkTime timeout (s64 (ms * 1000000)))) as (d & Hd & Hn & Hns);
    [simpl; rewrite ?s64_small by lia; time_lia..|].
  exists d. split; [|split; [done|]].
  - unfold settime, clock_gettime, get_s, upd_s, gets, modify, lift, mbind, M_bind, mret, M_ret.
    fold s. by rewrite Hd.
  - rewrite Hns, s64_small by lia. unfold ns, BILLION; simpl. lia.
Qed.

(** Taking a task out of the queue and putting it back with another due time. *)
Lemma moved_ok s p t d : sched_ok s -> s_tasks s !! p = Some t -> tr_running t = false ->
  let s' := with_queue (tq_insert p d (tq_remove p (s_queue s)))
              (with_tasks (<[p := mkTrec d false (tr_payload t)]> (s_tasks s)) s) in
  sched_ok s' /\ exists l, tq_elems (s_queue s) ≡ₚ (p, tr_due t) :: l /\
                           tq_elems (s_queue s') ≡ₚ (p, d) :: l.
Proof.
  intros Hs Ht Hr s'. assert ((p, tr_due t) ∈ tq_elems (s_queue s)) as Hin by (apply Hs; eauto).
  destruct (dropped_ok s p (tr_due t) Hs Hin) as [Hd He].
  destruct (posted_ok (dropped s p) p d (tr_payload t) Hd) as [Hp He'].
  { apply lookup_delete_eq. }
  assert (s' = posted (dropped s p) p d (tr_payload t)) as ->.
  { unfold s', posted, dropped, with_queue, with_tasks. simpl. f_equal. by rewrite insert_delete_eq. }
  split; [done|]. eexists. split; [exact He|]. by rewrite He'.
Qed.

(** A task is linked exactly when it is not being run. *)
Lemma linked_iff s p t : sched_ok s -> s_tasks s !! p = Some t ->
  tq_linked p (s_queue s) = negb (tr_running t).
Proof.
  intros Hs Hp. pose proof (so_queue s Hs) as Hq. destruct (tr_running t) eqn:Er; simpl.
  - apply not_true_is_false. rewrite (tq_linked_spec p _ Hq). intros [d Hd]%queue_keys.
    apply Hs in Hd as (? & ? & _ & ?). congruence.
  - apply (tq_linked_spec p _ Hq), queue_keys. exists (tr_due t). apply Hs. eauto.
Qed.

Lemma reschedule_total w p t timeout ms :
  let s := get_sched (Q := Q) (P := P) w in
  sched_ok s -> sane (s_clk s (s_ticks s)) -> 0 <= timeout < 2 ^ 60 -> 0 <= ms < 2 ^ 31 ->
  s_tasks s !! p = Some t ->
  (tr_running t = true -> reschedule_task (Q := Q) (P := P) (Some p) timeout ms w = Ok (false, w)) /\
  (tr_running t = false -> exists d s',
     reschedule_task (Q := Q) (P := P) (Some p) timeout ms w = Ok (true, set_sched s' w) /\
     norm_ns d /\ ns d = ns (s_clk s (s_ticks s)) + timeout * BILLION + ms * 1000000 /\
     sched_ok s' /\ (armed s -> armed s') /\
     s_tasks s' = <[p := mkTrec d false (tr_payload t)]> (s_tasks s)).
Proof.
  intros s Hs Hclk Ht Hms Hp. pose proof (linked_iff s p t Hs Hp) as Hlink.
  unfold reschedule_task, the_task, get_s, gets, mbind, M_bind. cbv beta iota. fold s. rewrite Hp.
  cbv beta iota. fold s. rewrite Hlink.
  split; intros Hr; rewrite Hr; simpl negb; cbv iota; [done|].
  destruct (settime_total w timeout ms) as (d & Hset & Hn & Hd); [done..|]. fold s in Hset, Hd.
  cbv beta iota delta [negb mbind M_bind]. rewrite Hset. cbv beta iota.
  destruct (Z.eqb_spec (timespec_cmp d (tr_due t)) 0) as [E|E].
  - apply timespec_cmp_eq in E. subst d. exists (tr_due t), (tick s). split; [done|].
    split; [done|]. split; [done|]. split; [by apply tick_ok|]. split; [done|].
    simpl. symmetry. apply insert_id. rewrite Hp. f_equal. destruct t; simpl in *; by subst.
  - destruct (moved_ok (tick s) p t d) as [Hok _]; [by apply tick_ok|done|done|].
    set (s1 := with_queue _ _) in Hok. exists d, (arm s1). split.
    + unfold set_task, upd_s, modify, mret, M_ret. simpl.
      rewrite schedule_run, !get_set, !set_set. done.
    + split; [done|]. split; [done|]. split; [by apply arm_ok|].
      split; [intros _; apply arm_armed|]. destruct (arm_queue s1) as [_ ->]. done.
Qed.

(** Rescheduling a task that waits in the queue moves it to the current
    monotonic time plus the offset, and changes no other task; a task that is
    being run is not rescheduled, and a null pointer is ignored. *)
Theorem reschedule_task_spec w p t timeout ms :
  let s := get_sched (Q := Q) (P := P) w in
  sched_ok s -> sane (s_clk s (s_ticks s)) -> 0 <= timeout < 2 ^ 60 -> 0 <= ms < 2 ^ 31 ->
  s_tasks s !! p = Some t ->
  (tr_running t = true -> reschedule_task (Q := Q) (P := P) (Some p) timeout ms w = Ok (false, w)) /\
  (tr_running t = false -> exists d s',
     reschedule_task (Q := Q) (P := P) (Some p) timeout ms w = Ok (true, set_sched s' w) /\
     norm_ns d /\ ns d = ns (s_clk s (s_ticks s)) + timeout * BILLION + ms * 1000000 /\
     sched_ok s' /\ (armed s -> armed s') /\
     s_tasks s' = <[p := mkTrec d false (tr_payload t)]> (s_tasks s)) /\
  reschedule_task (Q := Q) (P := P) None timeout ms w = Ok (false, w).
Proof.
  intros s Hs Hclk Ht Hms Hp.
  destruct (reschedule_total w p t timeout ms Hs Hclk Ht Hms Hp) as [H1 H2]. done.
Qed.

(** *** Running the due tasks *)

Definition is_due (now : timespec) (e : addr * timespec) : Prop := timespec_cmp e.2 now <= 0.
#[local] Instance is_due_dec now e : Decision (is_due now e).
Proof. unfold is_due. apply _. Defined.

Definition due now s : list (addr * timespec) := filter (is_due now) (tq_elems (s_queue s)).

(** What [taskqueue_run] relies on: a callback keeps the scheduler in order,
    leaves the tasks being run alone, marks none as being run and queues nothing
    that is due before the end of this run. *)
Record keeps (now : timespec) s s' : Prop := {
  ke_ok : sched_ok s';
  ke_running : forall p t, tr_running t = true ->
    s_tasks s !! p = Some t <-> s_tasks s' !! p = Some t;
  ke_due : forall e, e ∈ due now s' -> e ∈ due now s;
}.

Lemma keeps_refl now s : sched_ok s -> keeps now s s.
Proof. by intros. Qed.

Lemma keeps_trans now s1 s2 s3 : keeps now s1 s2 -> keeps now s2 s3 -> keeps now s1 s3.
Proof.
  intros [_ R1 D1] [Hs R2 D2]. split; [done| |auto].
  intros p t Ht. by rewrite R1, R2.
Qed.

(** The state without the task [p], which was being run. *)
Definition freed p s : sched Q P := with_tasks (delete p (s_tasks s)) s.

(** Posting a task for a time after [now] is what a callback may do. *)
Lemma post_keeps now w timeout ms pl :
  let s := get_sched (Q := Q) w in
  sched_ok s -> sane (s_clk s (s_ticks s)) -> 0 <= timeout < 2 ^ 60 -> 0 <= ms < 2 ^ 31 ->
  norm_ns now -> ns now < ns (s_clk s (s_ticks s)) + timeout * BILLION + ms * 1000000 ->
  exists a s', post_task timeout ms pl w = Ok (a, set_sched s' w) /\ keeps now s s' /\
    s_tasks s ⊆ s_tasks s' /\ s_clk s' = s_clk s.
Proof.
  intros s Hs Hclk Ht Hms Hn Hlater.
  destruct (post_task_total w timeout ms pl Hs Hclk Ht Hms)
    as (a & d & s' & E & Hfresh & Hd & Hns & Hok & _ & Htasks & He & Hc).
  exists a, s'. split; [done|]. fold s in Hfresh, Htasks, He. split_and!; [split|..]; try done.
  - intros p t Hr. rewrite Htasks. destruct (decide (p = a)) as [->|Hne].
    + rewrite lookup_insert_eq, Hfresh. split; [done|]. by intros [= <-].
    + by rewrite lookup_insert_ne.
  - intros e [Hdue Hin]%list_elem_of_filter. rewrite He, elem_of_cons in Hin.
    destruct Hin as [->|Hin]; [|by apply list_elem_of_filter].
    unfold is_due in Hdue. apply (timespec_cmp_le_ns d now) in Hdue; [|done..]. fold s in Hns. lia.
  - rewrite Htasks. by apply insert_subseteq.
Qed.

(** What a run does: as long as a task is due, it takes a task that is due
    first from the queue, calls its function, then its cleanup, and frees it. *)
Inductive runs (f cleanup : P -> M W unit) (now : timespec)
    : W -> list (addr * trec P) -> W -> Prop :=
  | runs_end w : due now (get_sched w) = [] -> runs f cleanup now w [] w
  | runs_task w a t w1 w2 l w' :
      s_tasks (get_sched w) !! a = Some t -> tr_running t = false ->
      timespec_cmp (tr_due t) now <= 0 ->
      Forall (fun e => timespec_cmp (tr_due t) e.2 <= 0) (tq_elems (s_queue (get_sched w))) ->
      f (tr_payload t) (set_sched (taken (get_sched w) a t) w) = Ok (tt, w1) ->
      cleanup (tr_payload t) w1 = Ok (tt, w2) ->
      runs f cleanup now (set_sched (freed a (get_sched w2)) w2) l w' ->
      runs f cleanup now w ((a, t) :: l) w'.

Lemma due_smaller now s s' p d : sched_ok s' -> (p, d) ∈ due now s ->
  (forall e, e ∈ due now s' -> e ∈ due now s /\ e.1 <> p) ->
  (length (due now s') < length (due now s))%nat.
Proof.
  intros [Hq _] Hin Hsub. apply submseteq_length with (l1 := (p, d) :: due now s').
  apply NoDup_submseteq.
  - apply NoDup_cons. split; [intros [_ ?]%Hsub; done|].
    apply NoDup_filter. eapply NoDup_fmap_1, tq_nodup, Hq.
  - intros e [->|[? _]%Hsub]%elem_of_cons; done.
Qed.

Lemma first_task w p d : sched_ok (get_sched w) -> tq_first (s_queue (get_sched w)) = Some (p, d) ->
  exists t, s_tasks (get_sched w) !! p = Some t /\ tr_due t = d /\ tr_running t = false /\
            (p, d) ∈ tq_elems (s_queue (get_sched w)).
Proof.
  intros [Hq Ht] Hf. destruct (tq_first_some _ _ _ Hq Hf) as [Hin _].
  destruct (proj1 (Ht p d) Hin) as (t & ? & ? & ?). eauto.
Qed.

Lemma due_taken now s p d t e : sched_ok s -> (p, d) ∈ tq_elems (s_queue s) ->
  e ∈ due now (taken s p t) <-> e ∈ due now s /\ e.1 <> p.
Proof.
  intros Hs Hin. unfold due. rewrite !list_elem_of_filter. destruct e as [p' d'].
  simpl. rewrite (remove_keys s p d Hs Hin). naive_solver.
Qed.

(** Taking a task, whatever keeps the scheduler in order, and freeing it: the
    task is gone, and the tasks that were being run are those of before. *)
Lemma task_done now s s' p t : sched_ok s -> s_tasks s !! p = Some t -> tr_running t = false ->
  (p, tr_due t) ∈ tq_elems (s_queue s) -> keeps now (taken s p t) s' ->
  s_tasks s' !! p = Some (mkTrec (tr_due t) true (tr_payload t)) /\ keeps now s (freed p s') /\
  (forall e, e ∈ due now (freed p s') -> e.1 <> p).
Proof.
  intros Hs Ht Hr Hin [Hs' Hrun Hdue].
  assert (s_tasks s' !! p = Some (mkTrec (tr_due t) true (tr_payload t))) as Hp'
    by (apply Hrun; [done|]; apply lookup_insert_eq).
  assert (forall e, e ∈ due now (freed p s') -> e ∈ due now s /\ e.1 <> p) as Hd
    by (intros e He%Hdue; by eapply due_taken).
  split; [done|]. split; [|intros e He; by apply Hd].
  split; [by eapply free_running_ok| |intros e He; by apply Hd]. intros a ta Hta. simpl.
  rewrite lookup_delete_Some, <- Hrun by done. simpl. split.
  - intros Ha. assert (p <> a) by congruence. by rewrite lookup_insert_ne.
  - intros [Hne Ha]. by rewrite lookup_insert_ne in Ha.
Qed.

(** *** Callbacks under an invariant of the program

    [I] is what the callbacks need of the rest of the program's state; the
    scheduler's own work does not touch it. *)
Section run.
Context (I : W -> Prop).
Context (I_sched : forall s w, s_clk s = s_clk (get_sched w) -> I w -> I (set_sched s w)).

Definition callback_ok (now : timespec) (f : P -> M W unit) : Prop :=
  forall pl w, I w -> sched_ok (get_sched w) -> exists w', f pl w = Ok (tt, w') /\ I w' /\
    keeps now (get_sched w) (get_sched w').

(** One round of the loop runs a first task, if it is due, and frees it. *)
Lemma run_round_due (f cleanup : P -> M W unit) now w p d :
  callback_ok now f -> callback_ok now cleanup -> I w ->
  sched_ok (get_sched w) -> tq_first (s_queue (get_sched w)) = Some (p, d) ->
  timespec_cmp d now <= 0 ->
  exists t w1 w2, f (tr_payload t) (set_sched (taken (get_sched w) p t) w) = Ok (tt, w1) /\
    cleanup (tr_payload t) w1 = Ok (tt, w2) /\ I w2 /\
    run_round f cleanup now w = Ok (true, set_sched (freed p (get_sched w2)) w2) /\
    s_tasks (get_sched w) !! p = Some t /\ tr_running t = false /\ tr_due t = d /\
    keeps now (get_sched w) (freed p (get_sched w2)) /\
    (forall e, e ∈ due now (freed p (get_sched w2)) -> e.1 <> p).
Proof.
  intros Hf Hc HI Hs Hfirst Hd. destruct (first_task w p d Hs Hfirst) as (t & Ht & <- & Hr & Hin).
  set (w0 := set_sched (taken (get_sched w) p t) w).
  assert (get_sched w0 = taken (get_sched w) p t) as E0 by apply get_set.
  destruct (Hf (tr_payload t) w0) as (w1 & Ef & HI1 & K1); [by apply I_sched|rewrite E0; by eapply taken_ok|].
  destruct (Hc (tr_payload t) w1 HI1) as (w2 & Ec & HI2 & K2); [apply K1|].
  pose proof (keeps_trans _ _ _ _ K1 K2) as K. rewrite E0 in K.
  destruct (task_done now _ _ p t Hs Ht Hr Hin K) as (Hp & Hk & Hd').
  exists t, w1, w2. split_and!; try done.
  unfold run_round, get_s, gets, the_task, free_task, set_task, upd_s, modify, mbind, M_bind.
  rewrite Hfirst. rewrite (proj2 (Z.leb_le _ _) Hd), Ht, !get_set, set_set. simpl.
  change (set_sched _ w) with w0. rewrite Ef, Ec. unfold the_task. by rewrite Hp.
Qed.

Lemma run_round_end (f cleanup : P -> M W unit) now w : sched_ok (get_sched w) ->
  due now (get_sched w) = [] -> run_round f cleanup now w = Ok (false, w).
Proof.
  intros [Hq _] He. unfold run_round, get_s, gets, mbind, M_bind.
  destruct (tq_first _) as [[p d]|] eqn:E; [|done].
  destruct (Z.leb_spec (timespec_cmp d now) 0) as [Hle|]; [|done].
  apply tq_first_some in E as [Hin _]; [|done].
  assert ((p, d) ∈ due now (get_sched w)) as H by by apply list_elem_of_filter.
  rewrite He in H. by apply elem_of_nil in H.
Qed.

Lemma first_due now w e : sched_ok (get_sched w) -> e ∈ due now (get_sched w) ->
  exists p d, tq_first (s_queue (get_sched w)) = Some (p, d) /\ timespec_cmp d now <= 0 /\
    Forall (fun e => timespec_cmp d e.2 <= 0) (tq_elems (s_queue (get_sched w))).
Proof.
  intros Hs [He Hin]%list_elem_of_filter.
  destruct (tq_first (s_queue (get_sched w))) as [[p d]|] eqn:Ef.
  - exists p, d. apply tq_first_some in Ef as [_ Hall]; [|apply Hs]. split_and!; [done| |done].
    rewrite Forall_forall in Hall. apply Hall in Hin. unfold is_due in He.
    by eapply timespec_cmp_le_trans.
  - apply tq_first_none in Ef; [|apply Hs]. rewrite Ef in Hin. by apply elem_of_nil in Hin.
Qed.

Lemma run_rounds (f cleanup : P -> M W unit) now fuel w :
  callback_ok now f -> callback_ok now cleanup -> I w -> sched_ok (get_sched w) ->
  (length (due now (get_sched w)) < fuel)%nat ->
  exists w' l, mwhile fuel (run_round f cleanup now) w = Ok (tt, w') /\
    runs f cleanup now w l w' /\ I w' /\
    keeps now (get_sched w) (get_sched w') /\ due now (get_sched w') = [].
Proof.
  intros Hf Hc. revert w. induction fuel as [|fuel IH]; intros w HI Hs Hlt; [lia|].
  simpl. unfold mbind, M_bind. destruct (due now (get_sched w)) as [|e l] eqn:E.
  { rewrite run_round_end by done. exists w, []. split_and!; eauto using runs_end, keeps_refl. }
  destruct (first_due now w e Hs) as (p & d & Ef & Hd & Hall); [rewrite E; left|].
  destruct (run_round_due f cleanup now w p d Hf Hc HI Hs Ef Hd)
    as (t & w1 & w2 & E1 & E2 & HI2 & -> & Ht & Hr & <- & Hk & Hgone).
  set (w3 := set_sched _ w2). assert (get_sched w3 = freed p (get_sched w2)) as E3 by apply get_set.
  destruct (IH w3) as (w' & l' & -> & Hruns & HI' & Hk' & Hend).
  - by apply I_sched.
  - rewrite E3. apply Hk.
  - rewrite E3. assert ((p, tr_due t) ∈ due now (get_sched w)) as Hin.
    { apply list_elem_of_filter. split; [done|]. apply Hs. eauto. }
    assert (length (due now (freed p (get_sched w2))) < length (due now (get_sched w)))%nat as Hl.
    { eapply due_smaller; [apply Hk|exact Hin|]. intros e' He'. split; [by apply Hk|by apply Hgone]. }
    rewrite E in Hl. simpl in *. lia.
  - rewrite E3 in Hk'. exists w', ((p, t) :: l'). split_and!; try done; [by eapply runs_task|].
    by eapply keeps_trans.
Qed.

Lemma run_unfold (f cleanup : P -> M W unit) fuel w :
  let now := s_clk (get_sched w) (s_ticks (get_sched w)) in
  let w0 := set_sched (tick (get_sched w)) w in
  taskqueue_run fuel f cleanup w =
  match tq_first (s_queue (get_sched w0)) with
  | None => Ok (tt, w0)
  | Some _ => (mwhile fuel (run_round f cleanup now) ;; taskqueue_schedule (Q := Q) (P := P)) w0
  end.
Proof.
  intros now w0.
  unfold taskqueue_run, clock_gettime, get_s, upd_s, gets, modify, mbind, M_bind, mret, M_ret.
  simpl. fold now w0. destruct (tq_first _); done.
Qed.

(** A run in which one task is due, whose callbacks leave the scheduler alone. *)
Lemma run_one (f cleanup : P -> M W unit) fuel w a t w1 :
  let s := get_sched (Q := Q) w in
  sched_ok s -> s_tasks s !! a = Some t -> tr_running t = false ->
  due (s_clk s (s_ticks s)) s = [(a, tr_due t)] ->
  f (tr_payload t) (set_sched (taken (tick s) a t) w) = Ok (tt, w1) ->
  get_sched w1 = taken (tick s) a t -> cleanup (tr_payload t) w1 = Ok (tt, w1) -> (2 <= fuel)%nat ->
  taskqueue_run fuel f cleanup w = Ok (tt, set_sched (arm (dropped (tick s) a)) w1).
Proof.
  intros s Hs Ht Hr Hdue Ef E1 Ec Hfuel. set (now := s_clk s (s_ticks s)) in *.
  assert ((a, tr_due t) ∈ due now s) as Hin by (rewrite Hdue; left).
  destruct (first_due now w _ Hs Hin) as (p & d & Hfirst & Hd & _).
  destruct (tq_first_some _ _ _ (so_queue _ Hs) Hfirst) as [Hp _].
  assert ((p, d) ∈ due now s) as Hpd by by apply list_elem_of_filter.
  rewrite Hdue in Hpd. apply list_elem_of_singleton in Hpd as [= -> ->].
  assert (freed a (taken (tick s) a t) = dropped (tick s) a) as Efreed.
  { unfold freed, taken, dropped, with_tasks. simpl. by rewrite delete_insert_eq. }
  destruct (dropped_ok (tick s) a (tr_due t) (tick_ok s Hs) Hp) as [Hok Hperm].
  change (s_queue (tick s)) with (s_queue s) in Hperm.
  assert (due now (dropped (tick s) a) = []) as Hend.
  { apply Permutation_nil_r. apply (Permutation_cons_inv (a := (a, tr_due t))).
    rewrite <- Hdue. unfold due. rewrite Hperm, filter_cons_True by done. done. }
  rewrite run_unfold. cbv zeta. rewrite get_set. fold s now. change (s_queue (tick s)) with (s_queue s).
  unfold s at 1. rewrite Hfirst. destruct fuel as [|[|fuel]]; [lia|lia|]. cbn [mwhile].
  assert (run_round f cleanup now (set_sched (tick s) w) =
          Ok (true, set_sched (dropped (tick s) a) w1)) as Eround.
  { unfold run_round, get_s, gets, the_task, free_task, set_task, upd_s, modify, mbind, M_bind.
    rewrite !get_set. change (s_queue (tick s)) with (s_queue s). unfold s at 1. rewrite Hfirst.
    rewrite (proj2 (Z.leb_le _ _) Hd). rewrite get_set. change (s_tasks (tick s)) with (s_tasks s).
    rewrite Ht, !get_set, !set_set. simpl. change (mkSched _ _ _ _ _) with (tick s).
    match goal with |- context [f _ (set_sched ?x w)] => change x with (taken (tick s) a t) end.
    rewrite Ef, Ec. unfold the_task. rewrite E1. simpl. rewrite lookup_insert_eq. simpl.
    do 2 f_equal. rewrite <- Efreed. by rewrite E1. }
  unfold mbind, M_bind. rewrite Eround. cbn [mwhile]. unfold mbind, M_bind.
  rewrite run_round_end by (by rewrite get_set). unfold skip. by rewrite schedule_run, get_set, set_set.
Qed.

(** A run: the rounds, then the timer. *)
Lemma run_total (f cleanup : P -> M W unit) fuel w :
  let s := get_sched (Q := Q) w in
  let now := s_clk s (s_ticks s) in
  sched_ok s -> I w -> callback_ok now f -> callback_ok now cleanup ->
  (length (due now s) < fuel)%nat ->
  exists l w', taskqueue_run fuel f cleanup w = Ok (tt, set_sched (arm (get_sched w')) w') /\
    runs f cleanup now (set_sched (tick s) w) l w' /\ I w' /\ keeps now s (get_sched w') /\
    due now (get_sched w') = [].
Proof.
  intros s now Hs HI Hf Hc Hfuel.
  destruct (run_rounds f cleanup now fuel (set_sched (tick s) w))
    as (w' & l & Hw & Hruns & HI' & Hk & Hend); rewrite ?get_set; try done.
  { by apply I_sched. }
  { by apply tick_ok. }
  rewrite get_set in Hk. assert (keeps now s (get_sched w')) as Hk' by (destruct Hk; by split). exists l, w'. split_and!; try done.
  rewrite run_unfold, get_set. fold s now. destruct (tq_first (s_queue (tick s))) as [[p d]|] eqn:E.
  { unfold mbind, M_bind. by rewrite Hw, schedule_run. }
  destruct fuel as [|fuel]; [lia|]. simpl in Hw. unfold mbind, M_bind in Hw.
  rewrite run_round_end in Hw.
  - injection Hw as <-. unfold arm. rewrite !get_set, E, set_set. done.
  - rewrite get_set. by apply tick_ok.
  - rewrite get_set. apply tq_first_none in E; [|apply Hs]. unfold due. by rewrite E.
Qed.

(** C16: a run of the task queue ends, whatever the callbacks post, drop or
    reschedule, as long as they, in states with the program's invariant [I],
    return, keep [I] and the scheduler in order, leave the tasks that are being
    run to it and queue nothing that is due at once. The run is a sequence of
    rounds ([runs]): each takes a task that is due first from the queue, calls
    its function and then its cleanup, and frees it. At the end nothing is due:
    the queue is well-formed, all of its tasks lie in the future and the timer
    is armed for the first of them; the tasks that are marked as being run are
    those that were before; and where a task was due there is no task any more,
    or one that waits for a later time (posted into the memory of the freed one,
    or the task itself when a callback rescheduled it before its turn). The fuel
    needed is one more than the number of tasks that are due. *)
Theorem taskqueue_run_terminates (f cleanup : P -> M W unit) fuel w :
  let s := get_sched (Q := Q) w in
  let now := s_clk s (s_ticks s) in
  sched_ok s -> I w -> callback_ok now f -> callback_ok now cleanup ->
  (length (due now s) < fuel)%nat ->
  exists l w1, taskqueue_run fuel f cleanup w = Ok (tt, set_sched (arm (get_sched w1)) w1) /\
    runs f cleanup now (set_sched (tick s) w) l w1 /\
    let s' := arm (get_sched w1) in
    sched_ok s' /\ armed s' /\
    Forall (fun e => timespec_cmp e.2 now > 0) (tq_elems (s_queue s')) /\
    (forall a t, tr_running t = true -> s_tasks s !! a = Some t <-> s_tasks s' !! a = Some t) /\
    (forall a d, (a, d) ∈ due now s -> s_tasks s' !! a = None \/
       exists t, s_tasks s' !! a = Some t /\ (a, tr_due t) ∈ tq_elems (s_queue s') /\
                 timespec_cmp (tr_due t) now > 0).
Proof.
  intros s now Hs HI Hf Hc Hfuel.
  destruct (run_total f cleanup fuel w Hs HI Hf Hc Hfuel)
    as (l & w' & E & Hruns & _ & [Hs' Hrun _] & Hend). fold s now in Hruns, Hrun, Hend.
  assert (Forall (fun e => timespec_cmp e.2 now > 0) (tq_elems (s_queue (get_sched w')))) as Hlater.
  { apply Forall_forall. intros e Hin.
    destruct (decide (is_due now e)) as [Hd|Hd]; [|unfold is_due in Hd; lia].
    assert (e ∈ due now (get_sched w')) as H by by apply list_elem_of_filter.
    rewrite Hend in H. by apply elem_of_nil in H. }
  exists l, w'. split; [done|]. split; [done|]. destruct (arm_queue (get_sched w')) as [Eq Et].
  cbv zeta. rewrite Eq, Et. split_and!; [by apply arm_ok|apply arm_armed|done|done|].
  intros a d [_ Hin]%list_elem_of_filter. apply Hs in Hin as (t0 & Ht0 & _ & Hr0).
  destruct (s_tasks (get_sched w') !! a) as [t|] eqn:Ea; [|by left]. right. exists t.
  destruct (tr_running t) eqn:Hr; [apply Hrun in Ea; congruence|].
  assert ((a, tr_due t) ∈ tq_elems (s_queue (get_sched w'))) as Hq by (apply Hs'; eauto).
  split_and!; [done|done|]. rewrite Forall_forall in Hlater. by apply (Hlater _ Hq).
Qed.

(** *** The order of execution *)

(** Callbacks that touch no task that is there, but may post new ones, and
    whose runs are recorded. *)
Section order.
Context (obs : W -> list P) (obs_set : forall s w, obs (set_sched s w) = obs w).
Context (f cleanup : P -> M W unit) (now : timespec).

Definition recorded (g : P -> M W unit) (entry : P -> list P) : Prop :=
  forall pl w, I w -> sched_ok (get_sched w) -> exists w', g pl w = Ok (tt, w') /\ I w' /\
    keeps now (get_sched w) (get_sched w') /\
    s_tasks (get_sched w) ⊆ s_tasks (get_sched w') /\ obs w' = obs w ++ entry pl.

Lemma recorded_ok g entry : recorded g entry -> callback_ok now g.
Proof. intros H pl w HI Hs. destruct (H pl w HI Hs) as (w' & ? & ? & ? & _). eauto. Qed.

Context (Hf : recorded f (fun pl => [pl])) (Hc : recorded cleanup (fun _ => [])).

Definition earlier (a b : addr * trec P) : Prop := timespec_cmp (tr_due a.2) (tr_due b.2) <= 0.

(** The tasks [l] ran between [w] and [w']: in the order of their due times,
    they are the tasks that were due, and the others are still there. *)
Record ran (w w' : W) (l : list (addr * trec P)) : Prop := {
  ran_sorted : StronglySorted earlier l;
  ran_obs : obs w' = obs w ++ (tr_payload ∘ snd <$> l);
  ran_tasks : Forall (fun e => s_tasks (get_sched w) !! e.1 = Some e.2) l;
  ran_due : (prod_map id tr_due <$> l) ≡ₚ due now (get_sched w);
  ran_others : forall a t, s_tasks (get_sched w) !! a = Some t ->
    (a, t) ∉ l -> s_tasks (get_sched w') !! a = Some t;
}.

(** What one round leaves for the next. *)
Lemma due_rest s s' p t : sched_ok s -> s_tasks s !! p = Some t -> tr_running t = false ->
  timespec_cmp (tr_due t) now <= 0 ->
  keeps now (taken s p t) s' -> s_tasks (taken s p t) ⊆ s_tasks s' ->
  due now s ≡ₚ (p, tr_due t) :: due now (freed p s') /\
  (forall a ta, s_tasks s !! a = Some ta -> a <> p -> s_tasks (freed p s') !! a = Some ta) /\
  (forall a ta, s_tasks (freed p s') !! a = Some ta -> (a, tr_due ta) ∈ due now (freed p s') ->
     s_tasks s !! a = Some ta).
Proof.
  intros Hs Hp Hr Hd Hk Hsub.
  assert ((p, tr_due t) ∈ tq_elems (s_queue s)) as Hin by (apply Hs; eauto).
  destruct (task_done now s s' p t Hs Hp Hr Hin Hk) as (Hp' & Hk' & Hgone).
  assert (forall a ta, s_tasks s !! a = Some ta -> a <> p -> s_tasks (freed p s') !! a = Some ta) as Hkeep.
  { intros a ta Ha Hne. simpl. rewrite lookup_delete_ne by done.
    eapply lookup_weaken; [|exact Hsub]. simpl. by rewrite lookup_insert_ne. }
  split_and!; [|done|].
  - apply NoDup_Permutation.
    + apply NoDup_filter. eapply NoDup_fmap_1, tq_nodup, Hs.
    + apply NoDup_cons. split; [intros H%Hgone; by apply H|].
      apply NoDup_filter. eapply NoDup_fmap_1, tq_nodup. apply Hk'.
    + intros [a d]. rewrite elem_of_cons. destruct (decide (a = p)) as [->|Hne].
      * split; [|intros [[= ->]|H%Hgone]; [by apply list_elem_of_filter|done]].
        intros [_ H]%list_elem_of_filter. apply Hs in H as (? & ? & <- & _). left. congruence.
      * split; [|intros [[= -> ->]|H]; [done|by apply Hk']]. right.
        apply list_elem_of_filter in H as [Hda H]. apply list_elem_of_filter. split; [done|].
        apply Hs in H as (ta & Ha & <- & Hra). apply Hk'. exists ta. eauto.
  - intros a ta Ha Hda. pose proof (ke_due _ _ _ Hk' _ Hda) as Hin'.
    pose proof (Hgone _ Hda) as Hne. simpl in Hne.
    apply list_elem_of_filter in Hin' as [_ Hin']. apply Hs in Hin' as (t0 & H0 & _).
    pose proof (Hkeep a t0 H0 Hne). congruence.
Qed.

Lemma runs_ran w l w' : runs f cleanup now w l w' -> I w -> sched_ok (get_sched w) -> ran w w' l.
Proof.
  induction 1 as [w Hend|w p t w1 w2 l w' Hp Hr Hd Hall E1 E2 Hruns IH]; intros HI Hs.
  { split; [constructor|by rewrite app_nil_r|constructor|by rewrite Hend|done]. }
  set (w0 := set_sched (taken (get_sched w) p t) w) in *.
  assert (get_sched w0 = taken (get_sched w) p t) as E0 by apply get_set.
  assert ((p, tr_due t) ∈ tq_elems (s_queue (get_sched w))) as Hin by (apply Hs; eauto).
  destruct (Hf (tr_payload t) w0) as (w1' & E1' & HI1 & K1 & S1 & O1);
    [by apply I_sched|rewrite E0; by eapply taken_ok|]. rewrite E1 in E1'. simplify_eq.
  destruct (Hc (tr_payload t) w1' HI1) as (w2' & E2' & HI2 & K2 & S2 & O2); [apply K1|].
  rewrite E2 in E2'. simplify_eq. rewrite E0 in K1, S1.
  destruct (due_rest (get_sched w) (get_sched w2') p t Hs Hp Hr Hd) as (Hdue & Hkeep & Hback);
    [by eapply keeps_trans|by transitivity (s_tasks (get_sched w1'))|].
  destruct (task_done now _ (get_sched w2') p t Hs Hp Hr Hin) as (_ & Hk & Hgone); [by eapply keeps_trans|].
  destruct IH as [L1 L2 L3 L4 L5]; [by apply I_sched|rewrite get_set; apply Hk|].
  rewrite get_set in L3, L4, L5.
  assert (Forall (fun e => (e.1, tr_due e.2) ∈ due now (freed p (get_sched w2'))) l) as Ldue.
  { apply Forall_forall. intros [a ta] Ha. rewrite <- L4. exact (list_elem_of_fmap_2 (prod_map id tr_due) l (a, ta) Ha). }
  rewrite Forall_forall in L3, Ldue. split.
  - constructor; [done|]. apply Forall_forall. intros e He. rewrite Forall_forall in Hall.
    unfold earlier. simpl. apply Ldue, Hk, list_elem_of_filter in He as [_ He].
    by apply (Hall (e.1, tr_due e.2)).
  - rewrite L2, obs_set, O2, O1, app_nil_r. unfold w0. rewrite obs_set. simpl. by rewrite <- app_assoc.
  - constructor; [done|]. apply Forall_forall. intros e He. apply Hback; [by apply L3|by apply Ldue].
  - simpl. by rewrite L4, Hdue.
  - intros a ta Ha Hnot. rewrite not_elem_of_cons in Hnot. destruct Hnot as [Hne Hnot].
    apply L5; [|done]. apply Hkeep; [done|]. intros ->. apply Hne. congruence.
Qed.

(** C15: a run executes exactly the tasks that were due when it started, each
    once and in the order of their due times, and keeps the others as they are;
    nothing is due afterwards. This is for callbacks that, in states with the
    program's invariant [I], return, keep [I] and the scheduler in order and
    leave the tasks that are there alone; they may post new ones for a later
    time. [obs] is a log of the program to which the function of a task adds the
    task and which nothing else changes. *)
Theorem taskqueue_run_order fuel w :
  let s := get_sched (Q := Q) w in
  now = s_clk s (s_ticks s) ->
  sched_ok s -> I w -> (length (due now s) < fuel)%nat ->
  exists w' l, taskqueue_run fuel f cleanup w = Ok (tt, w') /\
    ran w w' l /\ sched_ok (get_sched w') /\ due now (get_sched w') = [].
Proof.
  intros s Hnow Hs HI Hfuel. pose proof (run_total f cleanup fuel w Hs HI) as H. cbv zeta in H.
  fold s in H. rewrite <- Hnow in H.
  destruct H as (l & w' & E & Hruns & _ & [Hs' _ _] & Hend); [by eapply recorded_ok..|done|].
  eexists _, l. split; [done|]. rewrite get_set. destruct (arm_queue (get_sched w')) as [Eq Et].
  split; [|split; [by apply arm_ok|unfold due; by rewrite Eq]].
  apply runs_ran in Hruns; [|by apply I_sched|rewrite get_set; by apply tick_ok].
  destruct Hruns as [L1 L2 L3 L4 L5]. rewrite get_set in L3, L4, L5. rewrite obs_set in L2.
  split; rewrite ?obs_set, ?get_set, ?Et; done.
Qed.
End order.
End run.
End spec.

(** ** Concrete schedulers *)

(** A world of a scheduler and a log of what ran. *)
Definition demo_world : Type := sched forest nat * list nat.

#[export] Program Instance demo_has : HasSched forest nat demo_world := {|
  get_sched := fst;
  set_sched s w := (s, w.2);
|}.
Next Obligation. done. Qed.
Next Obligation. by intros [? ?]. Qed.
Next Obligation. done. Qed.

(** Task 1 is due at 5s, task 2 at 9s; task 3 is being run; the clock shows 7s. *)
Definition demo_sched : sched forest nat :=
  mkSched (Cons 1 (mkTime 5 0) (Cons 2 (mkTime 9 0) Nil Nil) Nil)
    {[ 1%positive := mkTrec (mkTime 5 0) false 10%nat;
       2%positive := mkTrec (mkTime 9 0) false 20%nat;
       3%positive := mkTrec (mkTime 4 0) true 30%nat ]}
    None (fun _ => mkTime 7 0) 0.

Definition demo_w : demo_world := (demo_sched, []).

Lemma demo_sched_ok : sched_ok demo_sched.
Proof.
  split.
  - split; [|split; [|done]].
    + unfold addrs. simpl. repeat constructor; set_solver.
    + split; [|split; [|done]]; [repeat constructor; vm_compute; discriminate|].
      split; [constructor|done].
  - intros p d. simpl. rewrite !elem_of_cons, elem_of_nil. split.
    + intros [[= -> ->]|[[= -> ->]|[]]]; eexists; split; by vm_compute.
    + intros (t & Ht & <- & Hr). rewrite !lookup_insert_Some, lookup_singleton_Some in Ht.
      naive_solver.
Qed.

Lemma single_sched_ok {P} a d (pl : P) timer clk n :
  sched_ok (mkSched (Cons a d Nil Nil) {[a := mkTrec d false pl]} timer clk n).
Proof.
  split.
  - split; [|split; [|done]]; [unfold addrs; simpl; repeat constructor; set_solver|].
    split; [constructor|]. split; [done|]. split; constructor.
  - intros p d'. simpl. rewrite !elem_of_cons, elem_of_nil. split.
    + intros [[= -> ->]|[]]. eexists. by rewrite lookup_singleton_eq.
    + intros (t & Ht & <- & _). rewrite lookup_singleton_Some in Ht. destruct Ht as [-> <-]. by left.
Qed.

(** Each run of a task is logged; the task posts its successor a minute later. *)
Definition demo_run (n : nat) : M demo_world unit :=
  post_task 60 0 (S n) ;; modify (fun w => (w.1, w.2 ++ [n])).
Definition demo_clean (n : nat) : M demo_world unit := skip.

(** The clock shows 7s. *)
Definition demo_inv (w : demo_world) : Prop := s_clk w.1 = fun _ => mkTime 7 0.

Lemma demo_inv_sched (s : sched forest nat) (w : demo_world) :
  s_clk s = s_clk (get_sched w) -> demo_inv w -> demo_inv (set_sched s w).
Proof. unfold demo_inv. simpl. by intros ->. Qed.
Lemma demo_obs_set (s : sched forest nat) (w : demo_world) : (set_sched s w).2 = w.2.
Proof. done. Qed.
Lemma demo_run_recorded : recorded demo_inv snd (mkTime 7 0) demo_run (fun n => [n]).
Proof.
  intros n w HI Hs. unfold demo_inv in HI.
  destruct (post_keeps (mkTime 7 0) w 60 0 (S n) Hs) as (a & s' & E & Hk & Hsub & Hc).
  - simpl. rewrite HI. by vm_compute.
  - lia.
  - lia.
  - by vm_compute.
  - simpl. rewrite HI. by vm_compute.
  - exists (s', w.2 ++ [n]). simpl in Hc. split_and!; try done.
    + unfold demo_run. rewrite (M_bind_Ok _ _ _ _ _ E). done.
    + unfold demo_inv. simpl. by rewrite Hc.
Qed.
Lemma demo_clean_recorded : recorded demo_inv snd (mkTime 7 0) demo_clean (fun _ => []).
Proof. intros n w HI Hs. exists w. rewrite app_nil_r. auto using keeps_refl. Qed.

Lemma post_task_spec_witness :
  exists a d s', post_task 2 100 40%nat demo_w = Ok (a, (s', [])) /\ ns d = 9100000000 /\ armed s'.
Proof.
  destruct (post_task_spec demo_w 2 100 40%nat) as (a & d & s' & H & _ & _ & Hd & _ & Ha & _).
  - exact demo_sched_ok.
  - by vm_compute.
  - lia.
  - lia.
  - exists a, d, s'. split; [exact H|]. split; [rewrite Hd; by vm_compute|exact Ha].
Defined.

Lemma drop_task_spec_witness :
  exists w', drop_task demo_clean (Some 1%positive) demo_w = Ok (tt, w') /\ armed w'.1.
Proof.
  destruct (drop_task_spec demo_clean demo_w 1 (mkTrec (mkTime 5 0) false 10%nat)) as (_ & H & _).
  - intros n w. by exists w.
  - exact demo_sched_ok.
  - by vm_compute.
  - destruct (H eq_refl) as (w' & E & _ & Ha & _). by exists w'.
Defined.

Lemma taskqueue_run_terminates_witness :
  exists w1, taskqueue_run 2 demo_run demo_clean demo_w = Ok (tt, set_sched (arm (get_sched w1)) w1) /\
    (s_tasks (get_sched w1) !! 1%positive = None \/
     exists t, s_tasks (get_sched w1) !! 1%positive = Some t /\
               timespec_cmp (tr_due t) (mkTime 7 0) > 0).
Proof.
  destruct (taskqueue_run_terminates demo_inv demo_inv_sched demo_run demo_clean 2 demo_w)
    as (l & w1 & E & _ & _ & _ & _ & _ & H).
  - exact demo_sched_ok.
  - reflexivity.
  - exact (recorded_ok _ _ _ _ _ demo_run_recorded).
  - exact (recorded_ok _ _ _ _ _ demo_clean_recorded).
  - vm_compute. lia.
  - exists w1. split; [exact E|]. destruct (arm_queue (get_sched w1)) as [_ Et].
    destruct (H 1%positive (mkTime 5 0)) as [H1|(t & Ht & _ & Hl)].
    + apply list_elem_of_filter. split; [by vm_compute|left].
    + left. by rewrite <- Et.
    + right. exists t. by rewrite <- Et.
Defined.

Lemma taskqueue_run_order_witness :
  exists w', taskqueue_run 2 demo_run demo_clean demo_w = Ok (tt, w') /\ w'.2 = [10%nat] /\
    s_tasks w'.1 !! 2%positive = Some (mkTrec (mkTime 9 0) false 20%nat).
Proof.
  destruct (taskqueue_run_order demo_inv demo_inv_sched snd demo_obs_set demo_run demo_clean
    (mkTime 7 0) demo_run_recorded demo_clean_recorded 2 demo_w) as (w' & l & E & Hr & _ & _).
  - reflexivity.
  - exact demo_sched_ok.
  - reflexivity.
  - vm_compute. lia.
  - exists w'. split; [exact E|]. revert E. vm_compute. intros [= <-]. done.
Defined.

Lemma reschedule_task_spec_witness :
  exists s', reschedule_task (Some 2%positive) 3 0 demo_w = Ok (true, (s', [])) /\ armed s'.
Proof.
  destruct (reschedule_task_spec demo_w 2 (mkTrec (mkTime 9 0) false 20%nat) 3 0) as (_ & H & _).
  - exact demo_sched_ok.
  - by vm_compute.
  - lia.
  - lia.
  - by vm_compute.
  - destruct (H eq_refl) as (d & s' & E & _ & _ & Hok & _ & Ht). exists s'. split; [exact E|].
    revert E. vm_compute. intros [= <-]. reflexivity.
Defined.
