(* ===== verification/Invariant.v ===== *)
(** * Invariants of computations

    A predicate on the state is an invariant of a computation when every result
    of it satisfies the predicate again.  [preserve] proves this for a handler
    from the invariance of the operations it is composed of.  The second part
    gives what every handler of the client and of the server keeps, whatever it
    does with its tasks: the scheduler stays in order, its timer armed, and the
    tasks being run are left alone ([sched_invariant]); with this, a run of the
    task queue keeps the scheduler in order, too. *)
From S2P Require Import Prelude.
From S2P Require Import Timespec.
From S2P Require Import TaskHeap.
From S2P Require Import TaskSched.

Definition preserves {W A} (I : W -> Prop) (m : M W A) : Prop :=
  forall w a w', I w -> m w = Ok (a, w') -> I w'.

Section preserves.
Context {W : Type} (I : W -> Prop).

Lemma preserves_bind {A B} (m : M W A) (k : A -> M W B) :
  preserves I m -> (forall a, preserves I (k a)) -> preserves I (m ≫= k).
Proof. intros Hm Hk w b w' Hw (a & w1 & E & E')%M_bind_inv. eapply Hk, E'. by eapply Hm. Qed.

(** A value read from the state may be used to prove the rest. *)
Lemma preserves_gets {A B} (f : W -> A) (k : A -> M W B) :
  (forall w b w', I w -> k (f w) w = Ok (b, w') -> I w') -> preserves I (gets f ≫= k).
Proof. intros Hk w b w' Hw E. by eapply Hk. Qed.

Lemma preserves_ret {A} (a : A) : preserves I (mret a : M W A).
Proof. by intros w a' w' Hw [= _ <-]. Qed.
Lemma preserves_skip : preserves I skip.
Proof. by intros w a w' Hw [= _ <-]. Qed.
Lemma preserves_fail {A} f : preserves I (fail f : M W A).
Proof. by intros w a w' Hw [=]. Qed.
Lemma preserves_get {A} (f : W -> A) : preserves I (gets f).
Proof. by intros w a w' Hw [= _ <-]. Qed.
Lemma preserves_lift {A} (r : res A) : preserves I (lift r : M W A).
Proof. intros w a w' Hw. unfold lift. destruct r; intros [=]; by subst. Qed.
Lemma preserves_modify (f : W -> W) : (forall w, I w -> I (f w)) -> preserves I (modify f).
Proof. intros Hf w a w' Hw [= _ <-]. by apply Hf. Qed.

Lemma preserves_mfor {A} (xs : list A) (f : A -> M W unit) :
  (forall x, preserves I (f x)) -> preserves I (mfor xs f).
Proof.
  intros Hf. induction xs as [|x xs IH]; [apply preserves_skip|].
  simpl. apply preserves_bind; [apply Hf|]. by intros _.
Qed.

Lemma preserves_mwhile fuel (body : M W bool) : preserves I body -> preserves I (mwhile fuel body).
Proof.
  intros Hb. induction fuel as [|fuel IH]; [apply preserves_fail|].
  simpl. apply preserves_bind; [done|]. intros [|]; [done|apply preserves_skip].
Qed.

Lemma preserves_weaken {A} (J : W -> Prop) (m : M W A) :
  (forall w, J w <-> I w) -> preserves I m -> preserves J m.
Proof. intros HJ Hm w a w' Hw E. apply HJ. by eapply Hm, E; apply HJ. Qed.
End preserves.

(** Two invariants together. *)
Lemma preserves_and {W A} (I J : W -> Prop) (m : M W A) :
  preserves I m -> preserves J m -> preserves (fun w => I w /\ J w) m.
Proof. intros HI HJ w a w' [Hi Hj] E. split; [by eapply HI|by eapply HJ]. Qed.

Create HintDb preserve discriminated.
#[export] Hint Resolve preserves_ret preserves_skip preserves_fail preserves_get preserves_lift : preserve.

(** [preserve] goes through a handler: binds, loops, branches, and the operations
    whose invariance is a hypothesis or in the hint database. *)
Ltac preserve :=
  repeat match goal with
  | |- forall _, preserves _ _ => intro
  | |- preserves _ _ => solve [eauto 3 with preserve nocore]
  | H : forall _, preserves _ _ |- preserves _ _ => solve [apply H]
  | |- preserves _ (_ ≫= _) => apply preserves_bind
  | |- preserves _ (mfor _ _) => apply preserves_mfor
  | |- preserves _ (mwhile _ _) => apply preserves_mwhile
  | |- preserves _ (match ?x with _ => _ end) => destruct x
  | |- preserves _ (let _ := _ in _) => cbv zeta
  end.

(** ** What handlers do to the scheduler *)

Section sched.
Context {Q P W : Type} `{!TimerQueue Q, !TimerQueueLaws Q, !HasSched Q P W}.
Implicit Types (s : sched Q P) (w : W).

(** An invariant that posting, dropping and rescheduling tasks keeps, and that
    says nothing about the rest of the state. *)
Record sched_invariant (I : W -> Prop) : Prop := {
  si_post : forall timeout ms pl, preserves I (post_task (Q := Q) timeout ms pl);
  si_drop : forall (cleanup : P -> M W unit) p, passive cleanup -> preserves I (drop_task cleanup p);
  si_reschedule : forall p timeout ms, preserves I (reschedule_task (Q := Q) (P := P) p timeout ms);
  si_frame : forall w w', get_sched w' = get_sched w -> I w -> I w';
}.

(** A computation that changes nothing but the scheduler keeps whatever does not
    depend on it. *)
Definition apart_from_sched (J : W -> Prop) : Prop := forall s w, J w -> J (set_sched s w).

Section apart.
Context (J : W -> Prop) (HJ : apart_from_sched J).

Lemma apart_upd (f : sched Q P -> sched Q P) : preserves J (upd_s f).
Proof. apply preserves_modify. intros w. apply HJ. Qed.
Lemma apart_clock : preserves J (clock_gettime (Q := Q) (P := P)).
Proof.
  unfold clock_gettime, get_s. pose proof apart_upd. preserve.
Qed.
Lemma apart_the_task a : preserves J (the_task (Q := Q) (P := P) a).
Proof. intros w t w' Hw. unfold the_task. destruct (_ !! _); intros [=]; by subst. Qed.
#[local] Hint Resolve apart_upd apart_clock apart_the_task : preserve.
Lemma apart_set_task a (t : trec P) : preserves J (set_task (Q := Q) a t).
Proof. unfold set_task. preserve. Qed.
Lemma apart_free a : preserves J (free_task (Q := Q) (P := P) a).
Proof. unfold free_task. preserve. Qed.
Lemma apart_settime timeout ms : preserves J (settime (Q := Q) (P := P) timeout ms).
Proof. unfold settime. preserve. Qed.
Lemma apart_schedule : preserves J (taskqueue_schedule (Q := Q) (P := P)).
Proof. unfold taskqueue_schedule, get_s. preserve. Qed.
#[local] Hint Resolve apart_set_task apart_free apart_settime apart_schedule : preserve.

Lemma apart_post timeout ms (pl : P) : preserves J (post_task (Q := Q) timeout ms pl).
Proof. unfold post_task, get_s. preserve. Qed.
Lemma apart_drop (cleanup : P -> M W unit) p : (forall pl, preserves J (cleanup pl)) ->
  preserves J (drop_task cleanup p).
Proof. intros Hc. unfold drop_task. preserve. Qed.
Lemma apart_reschedule p timeout ms : preserves J (reschedule_task (Q := Q) (P := P) p timeout ms).
Proof. unfold reschedule_task, get_s. preserve. Qed.
End apart.

(** Not a fault of [post_task]: what it did, whatever the clock shows. *)
Lemma post_task_inv w timeout ms pl a w' :
  let s := get_sched (Q := Q) w in
  post_task timeout ms pl w = Ok (a, w') ->
  exists d, s_tasks s !! a = None /\ w' = set_sched (arm (posted (tick s) a d pl)) w.
Proof.
  intros s. unfold post_task, settime, clock_gettime, set_task, get_s, upd_s, gets, modify, lift,
    mbind, M_bind, mret, M_ret. fold s. destruct (timeAdd _ _) as [d|]; [|done]. simpl.
  rewrite schedule_run, !get_set, !set_set. intros [= <- <-].
  exists d. split; [apply malloc_addr_fresh|done].
Qed.

Lemma reschedule_inv w p timeout ms b w' :
  let s := get_sched (Q := Q) (P := P) w in
  sched_ok s -> reschedule_task (Q := Q) (P := P) p timeout ms w = Ok (b, w') ->
  w' = w \/ w' = set_sched (tick s) w \/
  exists a t d, p = Some a /\ s_tasks s !! a = Some t /\ tr_running t = false /\
    w' = set_sched (arm (with_queue (tq_insert a d (tq_remove a (s_queue s)))
           (with_tasks (<[a := mkTrec d false (tr_payload t)]> (s_tasks s)) (tick s)))) w.
Proof.
  intros s Hs. unfold reschedule_task. destruct p as [a|]; [|intros [= _ <-]; by left].
  unfold the_task, get_s, gets, mbind, M_bind. cbv beta iota. fold s.
  destruct (s_tasks s !! a) as [t|] eqn:Ht; [|done]. cbv beta iota. fold s.
  rewrite (linked_iff s a t Hs Ht). destruct (tr_running t) eqn:Er; cbv beta iota delta [negb].
  { intros [= _ <-]. by left. }
  unfold settime, clock_gettime, get_s, upd_s, gets, modify, lift, mbind, M_bind, mret, M_ret.
  cbv beta iota. fold s. destruct (timeAdd _ _) as [d|]; [|done]. cbv beta iota.
  destruct (timespec_cmp d (tr_due t) =? 0).
  - intros [= _ <-]. right. by left.
  - unfold set_task, upd_s, modify. cbv beta iota. rewrite schedule_run, !get_set, !set_set.
    intros [= _ <-]. right. right. by exists a, t, d.
Qed.
Lemma drop_inv (cleanup : P -> M W unit) w p u w' :
  let s := get_sched (Q := Q) w in
  passive cleanup -> drop_task cleanup p w = Ok (u, w') ->
  w' = w \/ exists a t, p = Some a /\ s_tasks s !! a = Some t /\ tr_running t = false /\
                        get_sched w' = arm (dropped s a).
Proof.
  intros s Hclean. unfold drop_task. destruct p as [a|]; [|done].
  unfold the_task, upd_s, free_task, modify, mbind, M_bind. fold s.
  destruct (s_tasks s !! a) as [t|] eqn:Ht; [|done].
  destruct (tr_running t) eqn:Er; [intros [= _ <-]; by left|]. cbv beta iota. fold s.
  destruct (Hclean (tr_payload t) (set_sched (with_queue (tq_remove a (s_queue s)) s) w))
    as (w1 & -> & Hw1). rewrite get_set in Hw1. unfold the_task. rewrite Hw1. simpl. rewrite Ht.
  unfold upd_s, modify. rewrite schedule_run. intros [= _ <-]. right. exists a, t.
  by rewrite !get_set, Hw1.
Qed.

(** A property of the scheduler that its steps keep is an invariant. *)
Lemma sched_step_invariant (J : sched Q P -> Prop) :
  (forall s, sched_ok s -> J s -> J (tick s)) ->
  (forall s a d pl, sched_ok s -> J s -> s_tasks s !! a = None -> J (arm (posted (tick s) a d pl))) ->
  (forall s a t, sched_ok s -> J s -> s_tasks s !! a = Some t -> tr_running t = false ->
     J (arm (dropped s a))) ->
  (forall s a t d, sched_ok s -> J s -> s_tasks s !! a = Some t -> tr_running t = false ->
     J (arm (with_queue (tq_insert a d (tq_remove a (s_queue s)))
           (with_tasks (<[a := mkTrec d false (tr_payload t)]> (s_tasks s)) (tick s))))) ->
  sched_invariant (fun w => sched_ok (get_sched w) /\ J (get_sched w)).
Proof.
  intros Htick Hpost Hdrop Hmove. split.
  - intros timeout ms pl w a w' [Hs Hj] (d & Ha & ->)%post_task_inv. rewrite get_set.
    split; [|by apply Hpost]. apply arm_ok, posted_ok; [by apply tick_ok|done].
  - intros cleanup p Hclean w u w' [Hs Hj] E. apply drop_inv in E as [->|(a & t & -> & Ha & Hr & ->)]; [done| |done].
    split; [|by eapply Hdrop]. apply arm_ok, (dropped_ok _ a (tr_due t)); [done|]. apply Hs. eauto.
  - intros p timeout ms w b w' [Hs Hj] E.
    apply reschedule_inv in E as [->|[->|(a & t & d & -> & Ha & Hr & ->)]]; [done| | |done]; rewrite get_set.
    + split; [by apply tick_ok|by apply Htick].
    + split; [|by apply Hmove]. apply arm_ok. by apply (moved_ok (tick (get_sched w)) a t d); [apply tick_ok|..].
  - intros w w' E [Hs Hj]. by rewrite E.
Qed.

Lemma armed_invariant : sched_invariant (fun w => sched_ok (get_sched w) /\ armed (get_sched w)).
Proof. apply sched_step_invariant; intros; first [done | apply arm_armed]. Qed.

Lemma running_invariant p t : tr_running t = true ->
  sched_invariant (fun w => sched_ok (get_sched w) /\ s_tasks (get_sched w) !! p = Some t).
Proof.
  intros Hr. apply (sched_step_invariant (fun s => s_tasks s !! p = Some t)).
  - done.
  - intros s a d pl _ Hp Ha. destruct (arm_queue (posted (tick s) a d pl)) as [_ ->].
    simpl. by rewrite lookup_insert_ne by congruence.
  - intros s a t' _ Hp Ha Hr'. destruct (arm_queue (dropped s a)) as [_ ->].
    simpl. rewrite lookup_delete_ne; [done|]. intros ->. congruence.
  - intros s a t' d _ Hp Ha Hr'. destruct (arm_queue (with_queue (tq_insert a d (tq_remove a (s_queue s)))
      (with_tasks (<[a := mkTrec d false (tr_payload t')]> (s_tasks s)) (tick s)))) as [_ ->].
    simpl. rewrite lookup_insert_ne; [done|]. intros ->. congruence.
Qed.

Lemma sched_ok_invariant : sched_invariant (fun w => sched_ok (get_sched w)).
Proof.
  pose proof (sched_step_invariant (fun _ => True)) as [Hp Hd Hr Hf]; [done..|].
  assert (forall w : W, sched_ok (get_sched w) <-> sched_ok (get_sched w) /\ True) as E by tauto.
  split; intros; try (eapply preserves_weaken; [exact E|by auto]). congruence.
Qed.

(** ** A run of the task queue *)

(** The callbacks keep the invariant [J] of the rest of the state and leave the
    scheduler in order, and the tasks that are being run alone. *)
Definition keeps (J : W -> Prop) (f : P -> M W unit) : Prop :=
  forall pl I, sched_invariant I -> preserves (fun w => J w /\ I w) (f pl).

Lemma run_round_keeps J (f cleanup : P -> M W unit) now :
  apart_from_sched J ->
  keeps J f -> keeps J cleanup ->
  preserves (fun w => J w /\ sched_ok (get_sched w)) (run_round f cleanup now).
Proof.
  intros HJ Hf Hc w b w' [Hj Hs]. unfold run_round.
  unfold get_s, gets, the_task, set_task, upd_s, modify, mbind, M_bind.
  destruct (tq_first (s_queue (get_sched w))) as [[p d]|] eqn:Efirst; [|intros [= _ <-]; done].
  destruct (timespec_cmp d now <=? 0); [|intros [= _ <-]; done].
  destruct (first_task w p d Hs Efirst) as (t & Ht & <- & Hr & Hin). rewrite Ht, !get_set, set_set. simpl.
  set (w1 := set_sched _ w). pose proof (taken_ok _ p (tr_due t) t Hs Hin) as Hs1.
  assert (get_sched w1 = taken (get_sched w) p t) as E1 by apply get_set.
  rewrite <- E1 in Hs1. set (t' := mkTrec (tr_due t) true (tr_payload t)).
  assert (s_tasks (get_sched w1) !! p = Some t') as Hp1 by (rewrite E1; apply lookup_insert_eq).
  pose proof (running_invariant p t' eq_refl) as Hrun.
  assert (J w1) as Hj1 by (by apply HJ).
  destruct (f (tr_payload t) w1) as [[[] w2]|] eqn:Ef; [|done].
  destruct (Hf (tr_payload t) _ Hrun w1 tt w2 (conj Hj1 (conj Hs1 Hp1)) Ef) as (Hj2 & Hs2 & Hp2).
  destruct (cleanup (tr_payload t) w2) as [[[] w3]|] eqn:Ec; [|done].
  destruct (Hc (tr_payload t) _ Hrun w2 tt w3 (conj Hj2 (conj Hs2 Hp2)) Ec) as (Hj3 & Hs3 & Hp3).
  unfold free_task, the_task, upd_s, modify, mbind, M_bind. rewrite Hp3. intros [= _ <-].
  split; [by apply HJ|]. rewrite get_set. by eapply free_running_ok.
Qed.

(** A run of the task queue keeps what its callbacks keep, and leaves the timer
    armed: no task that waits is forgotten. *)
Lemma run_keeps J (f cleanup : P -> M W unit) fuel :
  apart_from_sched J ->
  keeps J f -> keeps J cleanup ->
  preserves (fun w => J w /\ sched_ok (get_sched w) /\ armed (get_sched w)) (taskqueue_run fuel f cleanup).
Proof.
  intros HJ Hf Hc w u w' (Hj & Hs & Ha). rewrite run_unfold.
  set (w0 := set_sched (tick (get_sched w)) w). assert (get_sched w0 = tick (get_sched w)) as E0 by apply get_set.
  assert (J w0) as Hj0 by (by apply HJ).
  destruct (tq_first (s_queue (get_sched w0))) as [e|] eqn:Efirst.
  - intros ([] & w1 & E1 & E2)%M_bind_inv.
    destruct (preserves_mwhile _ fuel _ (run_round_keeps J f cleanup
      (s_clk (get_sched w) (s_ticks (get_sched w))) HJ Hf Hc) w0 tt w1) as [Hj1 Hs1]; [|done|].
    { split; [done|]. rewrite E0. by apply tick_ok. }
    rewrite schedule_run in E2. injection E2 as _ <-. rewrite get_set.
    split; [by apply HJ|]. split; [by apply arm_ok|apply arm_armed].
  - intros [= _ <-]. rewrite E0. split; [done|]. split; [by apply tick_ok|done].
Qed.
End sched.
