(* ===== verification/Safety.v ===== *)
(** * Computations that do not fault in certain ways

    [wp m Q w] says of the computation [m] in the state [w] that its result
    satisfies [Q], and that a fault it ends in is among those that [F] allows.
    [safe] says this of an invariant for all states; the tactic [safe] proves it
    for a handler from the operations it is composed of, as [preserve] of
    Invariant.v does for the results only. *)
From S2P Require Import Prelude.
From S2P Require Import Timespec.
From S2P Require Import TaskHeap.
From S2P Require Import TaskSched.
From S2P Require Import Invariant.

(** A pure function that does not end in the fault [f]. *)
Definition never {A} (f : fault) (r : res A) : Prop := r <> Fault f.

Lemma never_bind {A B} f (r : res A) (k : A -> res B) :
  never f r -> (forall a, never f (k a)) -> never f (r ≫= k).
Proof. intros Hr Hk. unfold mbind, res_bind. destruct r; [apply Hk|]. congruence. Qed.
Lemma never_ok {A} f (a : A) : never f (Ok a).
Proof. done. Qed.
Lemma never_ret {A} f (a : A) : never f (mret a).
Proof. done. Qed.


Lemma never_run_loop {A B} f (body : A -> A + res B) p a :
  f <> Diverges -> (forall a, match body a with inl _ => True | inr r => never f r end) -> never f (run_loop body p a).
Proof.
  intros Hf Hb. unfold run_loop. rewrite loop_pos_nat. generalize (Pos.to_nat p) as n. intros n. revert a.
  induction n as [|n IH]; intros a; simpl; [unfold never; congruence|].
  pose proof (Hb a) as H. destruct (body a); [apply IH|done].
Qed.

Create HintDb never discriminated.
#[export] Hint Resolve never_ok never_ret : never.

(** [never] goes through a pure function. *)
Ltac never :=
  repeat match goal with
  | |- forall _, never _ _ => intro
  | |- never _ _ => solve [eauto 2 with never nocore]
  | |- never _ (Fault _) => solve [discriminate]
  | |- never _ (_ ≫= _) => apply never_bind
  | |- never _ (match ?x with _ => _ end) => destruct x
  | |- never _ (let _ := _ in _) => cbv zeta
  end.

Lemma timeAdd_never t1 t2 : never UseAfterFree (timeAdd t1 t2).
Proof.
  apply never_run_loop; [done|]. intros [sec nsec]. unfold carry_body. by destruct (_ >=? _).
Qed.
Lemma timeAddMs_never t ms : never UseAfterFree (timeAddMs t ms).
Proof. apply timeAdd_never. Qed.
#[export] Hint Resolve timeAdd_never timeAddMs_never : never.

Section wp.
Context {W : Type} (F : fault -> Prop).

Definition wp {A} (m : M W A) (Q : A -> W -> Prop) (w : W) : Prop :=
  match m w with Ok (a, w') => Q a w' | Fault f => F f end.

Lemma wp_bind {A B} (m : M W A) (k : A -> M W B) Q w :
  wp m (fun a => wp (k a) Q) w -> wp (m ≫= k) Q w.
Proof. unfold wp, mbind, M_bind. by destruct (m w) as [[a w1]|]. Qed.

Lemma wp_mono {A} (m : M W A) (Q Q' : A -> W -> Prop) w :
  wp m Q w -> (forall a w', m w = Ok (a, w') -> Q a w' -> Q' a w') -> wp m Q' w.
Proof. unfold wp. destruct (m w) as [[a w1]|]; eauto. Qed.

Lemma wp_ret {A} (a : A) (Q : A -> W -> Prop) w : Q a w -> wp (mret a) Q w.
Proof. done. Qed.
Lemma wp_skip (Q : unit -> W -> Prop) w : Q tt w -> wp skip Q w.
Proof. done. Qed.
Lemma wp_lift {A} (r : res A) (Q : A -> W -> Prop) w :
  (forall f, r = Fault f -> F f) -> (forall a, r = Ok a -> Q a w) -> wp (lift r) Q w.
Proof. unfold wp, lift. destruct r; eauto. Qed.

Lemma wp_and {A} (m : M W A) (Q Q' : A -> W -> Prop) w : wp m Q w -> wp m Q' w -> wp m (fun a w' => Q a w' /\ Q' a w') w.
Proof. unfold wp. by destruct (m w) as [[a w1]|]. Qed.

(** What is known of the results may be used. *)
Lemma wp_and_preserves {A} (I : W -> Prop) (m : M W A) Q w :
  preserves I m -> I w -> wp m Q w -> wp m (fun a w' => I w' /\ Q a w') w.
Proof. intros Hm Hw H. eapply wp_mono; [exact H|]. intros a w' E Hq. split; [by eapply Hm|done]. Qed.

(** ** Invariants *)

Definition safe {A} (I : W -> Prop) (m : M W A) : Prop := forall w, I w -> wp m (fun _ => I) w.

Section invariant.
Context (I : W -> Prop).

Lemma safe_bind {A B} (m : M W A) (k : A -> M W B) : safe I m -> (forall a, safe I (k a)) -> safe I (m ≫= k).
Proof. intros Hm Hk w Hw. apply wp_bind. eapply wp_mono; [by apply Hm|]. intros a w' _ Hw'. by apply Hk. Qed.
Lemma safe_ret {A} (a : A) : safe I (mret a : M W A).
Proof. by intros w Hw. Qed.
Lemma safe_skip : safe I skip.
Proof. by intros w Hw. Qed.
Lemma safe_get {A} (f : W -> A) : safe I (gets f).
Proof. by intros w Hw. Qed.
Lemma safe_fail {A} f : F f -> safe I (fail f : M W A).
Proof. by intros Hf w Hw. Qed.
Lemma safe_lift {A} (r : res A) : (forall f, r = Fault f -> F f) -> safe I (lift r : M W A).
Proof. intros Hr w Hw. apply wp_lift; auto. Qed.
Lemma safe_modify f : (forall w, I w -> I (f w)) -> safe I (modify f).
Proof. intros Hf w Hw. by apply Hf. Qed.
Lemma safe_mfor {A} (xs : list A) (f : A -> M W unit) : (forall x, safe I (f x)) -> safe I (mfor xs f).
Proof.
  intros Hf. induction xs as [|x xs IH]; [apply safe_skip|]. simpl. apply safe_bind; [apply Hf|]. by intros _.
Qed.
Lemma safe_mwhile fuel (body : M W bool) : F Diverges -> safe I body -> safe I (mwhile fuel body).
Proof.
  intros HD Hb. induction fuel as [|fuel IH]; [by apply safe_fail|].
  simpl. apply safe_bind; [done|]. intros [|]; [done|apply safe_skip].
Qed.
End invariant.
End wp.

Create HintDb safe discriminated.
#[export] Hint Resolve safe_ret safe_skip safe_get : safe.

Ltac safe :=
  repeat match goal with
  | |- forall _, safe _ _ _ => intro
  | |- safe _ _ _ => solve [eauto 3 with safe nocore]
  | H : forall _, safe _ _ _ |- safe _ _ _ => solve [apply H]
  | |- safe _ _ (_ ≫= _) => apply safe_bind
  | |- safe _ _ (mfor _ _) => apply safe_mfor
  | |- safe _ _ (match ?x with _ => _ end) => destruct x
  | |- safe _ _ (let _ := _ in _) => cbv zeta
  end.

(** ** Tasks *)

Section sched.
Context {Q P W : Type} `{!TimerQueue Q, !TimerQueueLaws Q, !HasSched Q P W}.
Implicit Types (w : W).

(** What the tasks that are allocated are there for. *)
Definition payloads w : gmap addr P := tr_payload <$> s_tasks (get_sched (Q := Q) w).

Lemma payloads_set s w : payloads (set_sched s w) = tr_payload <$> s_tasks s.
Proof. unfold payloads. by rewrite get_set. Qed.

Lemma payloads_arm s w : payloads (set_sched (arm s) w) = tr_payload <$> s_tasks s.
Proof. rewrite payloads_set. by destruct (arm_queue s) as [_ ->]. Qed.

(** Posting a task can only fail to add the times. *)
Lemma post_cases w timeout ms (pl : P) :
  match post_task (Q := Q) timeout ms pl w with
  | Ok (a, w') => payloads w !! a = None /\ payloads w' = <[a := pl]> (payloads w)
  | Fault f => f <> UseAfterFree
  end.
Proof.
  destruct (post_task (Q := Q) timeout ms pl w) as [[a w']|f] eqn:E.
  - apply post_task_inv in E as (d & Ha & ->). split.
    + unfold payloads. by rewrite lookup_fmap, Ha.
    + rewrite payloads_arm. simpl. apply fmap_insert.
  - revert E. unfold post_task, settime, clock_gettime, set_task, get_s, upd_s, gets, modify, lift,
      mbind, M_bind, mret, M_ret.
    pose proof (timeAdd_never (s_clk (get_sched (Q := Q) (P := P) w) (s_ticks (get_sched (Q := Q) (P := P) w)))
      (mkTime timeout (s64 (ms * 1000000)))) as Hn.
    destruct (timeAdd _ _) as [d|g]; [by rewrite schedule_run|]. intros [= <-] ->. by apply Hn.
Qed.

(** Dropping a task that is allocated succeeds. *)
Lemma drop_cases (cleanup : P -> M W unit) w p : passive (Q := Q) cleanup -> is_Some (payloads w !! p) ->
  exists w', drop_task (Q := Q) cleanup (Some p) w = Ok (tt, w') /\
    (payloads w' = payloads w \/ payloads w' = delete p (payloads w)).
Proof.
  unfold payloads at 1. rewrite lookup_fmap. intros Hc [t Hp].
  destruct (drop_task cleanup (Some p) w) as [[[] w']|f] eqn:E.
  - exists w'. split; [done|]. apply drop_inv in E as [->|(a & t' & [= <-] & _ & _ & Eg)]; [by left| |done].
    right. unfold payloads. rewrite Eg. destruct (arm_queue (dropped (get_sched (Q := Q) (P := P) w) p)) as [_ ->].
    simpl. apply fmap_delete.
  - exfalso. revert E. unfold drop_task, free_task, the_task, upd_s, modify, mbind, M_bind.
    destruct (s_tasks (get_sched w) !! p) as [r|] eqn:Er; [|done]. destruct (tr_running r); [done|].
    destruct (Hc (tr_payload r) (set_sched (with_queue (tq_remove p (s_queue (get_sched w))) (get_sched w)) w))
      as (w1 & -> & Eg). rewrite Eg, get_set. simpl. rewrite Er. by rewrite schedule_run.
Qed.

(** Rescheduling does not change what a task is there for. *)
Lemma reschedule_cases w p timeout ms : (forall a, p = Some a -> is_Some (payloads w !! a)) ->
  match reschedule_task (Q := Q) (P := P) p timeout ms w with
  | Ok (_, w') => payloads w' = payloads w
  | Fault f => f <> UseAfterFree
  end.
Proof.
  intros Hp. unfold reschedule_task. destruct p as [a|]; [|done].
  specialize (Hp a eq_refl). unfold payloads in Hp. rewrite lookup_fmap in Hp.
  unfold the_task, get_s, gets, settime, clock_gettime, get_s, upd_s, gets, modify, lift, mbind, M_bind, mret, M_ret.
  destruct (s_tasks (get_sched w) !! a) as [t|] eqn:Et; [|by destruct Hp].
  destruct (tq_linked a _); [|done].
  pose proof (timeAdd_never (s_clk (get_sched (Q := Q) (P := P) w) (s_ticks (get_sched (Q := Q) (P := P) w)))
    (mkTime timeout (s64 (ms * 1000000)))) as Hn.
  destruct (timeAdd _ _) as [d|g]; [|by intros ->; apply Hn].
  destruct (_ =? 0); simpl; [by rewrite payloads_set|].
  unfold set_task, upd_s, modify. rewrite schedule_run, !get_set, !set_set, payloads_arm. simpl.
  unfold payloads. rewrite fmap_insert. apply insert_id. by rewrite lookup_fmap, Et.
Qed.

(** ** A run of the task queue *)

(** [G] depends on the scheduler only by what the tasks are there for; running a
    task keeps it and leaves [D] so that the task can be freed. *)
Section run.
Context (F : fault -> Prop) (HF : forall f, f <> UseAfterFree -> F f) (G : W -> Prop) (D : P -> W -> Prop)
  (f cleanup : P -> M W unit).
Context (HG : forall s w, tr_payload <$> s_tasks s = payloads w -> G w -> G (set_sched s w)).
Context (Hfree : forall a pl s w, G w -> payloads w !! a = Some pl -> D pl w ->
  tr_payload <$> s_tasks s = delete a (payloads w) -> G (set_sched s w)).
Context (Hf : forall pl a w, G w -> payloads w !! a = Some pl -> wp F (f pl) (fun _ w' => G w' /\ D pl w') w).
Context (Hkeep : forall pl I, sched_invariant (Q := Q) I -> preserves I (f pl)).
Context (Hc : forall pl w, cleanup pl w = Ok (tt, w)).

Lemma run_round_safe now : safe F (fun w => G w /\ sched_ok (get_sched (Q := Q) w)) (run_round (Q := Q) f cleanup now).
Proof.
  intros w [Hw Hs]. unfold wp, run_round, get_s, gets, the_task, set_task, upd_s, modify, mbind, M_bind.
  destruct (tq_first (s_queue (get_sched w))) as [[p d]|] eqn:Efirst; [|done].
  destruct (timespec_cmp d now <=? 0); [|done].
  destruct (first_task w p d Hs Efirst) as (t & Ht & <- & Hr & Hin). rewrite Ht, !get_set, set_set. simpl.
  set (w1 := set_sched _ w). pose proof (taken_ok _ p (tr_due t) t Hs Hin) as Hs1.
  assert (get_sched w1 = taken (get_sched w) p t) as E1 by apply get_set.
  rewrite <- E1 in Hs1. set (t' := mkTrec (tr_due t) true (tr_payload t)).
  assert (s_tasks (get_sched w1) !! p = Some t') as Hp1 by (rewrite E1; apply lookup_insert_eq).
  assert (tr_payload <$> s_tasks (taken (get_sched w) p t) = payloads w) as Epay.
  { unfold payloads. simpl. rewrite fmap_insert. apply insert_id. by rewrite lookup_fmap, Ht. }
  assert (G w1) as Hw1 by (by apply HG).
  assert (payloads w1 !! p = Some (tr_payload t)) as Hpay by (unfold payloads; by rewrite lookup_fmap, Hp1).
  pose proof (Hf (tr_payload t) p w1 Hw1 Hpay) as Hrun. unfold wp in Hrun.
  destruct (f (tr_payload t) w1) as [[[] w2]|g] eqn:Ef; [|done]. destruct Hrun as [Hw2 Hd2].
  destruct (Hkeep (tr_payload t) _ (running_invariant p t' eq_refl) w1 tt w2 (conj Hs1 Hp1) Ef) as [Hs2 Hp2].
  rewrite Hc. unfold free_task, the_task, upd_s, modify, mbind, M_bind. rewrite Hp2.
  split; [|rewrite get_set; by eapply free_running_ok].
  eapply Hfree; [exact Hw2| |exact Hd2|simpl; apply fmap_delete].
  unfold payloads. by rewrite lookup_fmap, Hp2.
Qed.

Lemma run_safe fuel :
  safe F (fun w => G w /\ sched_ok (get_sched (Q := Q) w)) (taskqueue_run (Q := Q) fuel f cleanup).
Proof.
  intros w [Hw Hs]. unfold wp. rewrite run_unfold. set (w0 := set_sched (tick (get_sched w)) w).
  assert (get_sched w0 = tick (get_sched w)) as E0 by apply get_set.
  assert (G w0) as Hw0 by (by apply HG). assert (sched_ok (get_sched w0)) as Hs0 by (rewrite E0; by apply tick_ok).
  destruct (tq_first (s_queue (get_sched w0))) as [e|]; [|by split].
  pose proof (safe_mwhile F _ fuel _ (HF Diverges ltac:(done)) (run_round_safe (s_clk (get_sched w) (s_ticks (get_sched w))))
    w0 (conj Hw0 Hs0)) as Hrun. unfold wp in Hrun. unfold mbind, M_bind.
  destruct (mwhile _ _ w0) as [[[] w1]|g]; [|done]. destruct Hrun as [Hw1 Hs1]. rewrite schedule_run.
  split; [|rewrite get_set; by apply arm_ok]. apply HG; [|done]. by destruct (arm_queue (get_sched w1)) as [_ ->].
Qed.
End run.
End sched.
