(* ===== verification/Bytes.v ===== *)
(** * Byte buffers and byte order

    Packets and chunk data are arrays of [uint8_t]: a [list Z] whose elements
    are below 256.  The program runs on a little-endian host, so a multi-byte
    integer in memory is [le_bytes]; [htonl], [htons] and their inverses reverse
    the bytes.  An access outside of a buffer is a fault. *)
From S2P Require Import Prelude.

Abbreviation bytes := (list Z).

Definition is_byte (b : Z) : Prop := 0 <= b < 256.
Definition byteful (l : bytes) : Prop := Forall is_byte l.

(** ** Integers in memory *)

Fixpoint le_bytes (n : nat) (x : Z) : bytes :=
  match n with O => [] | S n => x mod 256 :: le_bytes n (x / 256) end.

Fixpoint le_val (l : bytes) : Z :=
  match l with [] => 0 | b :: l => b + 256 * le_val l end.

Definition bswap (n : nat) (x : Z) : Z := le_val (rev (le_bytes n x)).

(** [htonl], [ntohl], [htons], [ntohs] *)
Definition htonl (x : Z) : Z := bswap 4 x.
Definition htons (x : Z) : Z := bswap 2 x.
Definition ntohl (x : Z) : Z := bswap 4 x.
Definition ntohs (x : Z) : Z := bswap 2 x.

#[global] Arguments le_bytes : simpl never.
#[global] Arguments htonl : simpl never.
#[global] Arguments htons : simpl never.
#[global] Arguments ntohl : simpl never.
#[global] Arguments ntohs : simpl never.

Lemma length_le_bytes n x : length (le_bytes n x) = n.
Proof. revert x. induction n as [|n IH]; intros x; [done|]. unfold le_bytes; fold le_bytes. simpl. by rewrite IH. Qed.

Lemma byteful_le_bytes n x : byteful (le_bytes n x).
Proof.
  revert x. induction n as [|n IH]; intros x; constructor; [|apply IH].
  unfold is_byte. apply Z.mod_pos_bound. lia.
Qed.

Lemma le_val_bytes n x : 0 <= x < 256 ^ Z.of_nat n -> le_val (le_bytes n x) = x.
Proof.
  revert x. induction n as [|n IH]; intros x Hx; [simpl in *; lia|].
  change (le_bytes (S n) x) with (x mod 256 :: le_bytes n (x / 256)). simpl.
  rewrite IH; [pose proof (Z.div_mod x 256); lia|].
  rewrite Nat2Z.inj_succ, Z.pow_succ_r in Hx by lia.
  split; [apply Z.div_pos; lia|apply Z.div_lt_upper_bound; lia].
Qed.

Lemma le_bytes_val l : byteful l -> le_bytes (length l) (le_val l) = l.
Proof.
  induction 1 as [|b l Hb _ IH]; [done|]. unfold is_byte in Hb. simpl length. simpl le_val.
  change (le_bytes (S (length l)) ?x) with (x mod 256 :: le_bytes (length l) (x / 256)).
  assert ((b + 256 * le_val l) mod 256 = b) as ->.
  { rewrite Z.mul_comm, Z.mod_add by lia. apply Z.mod_small. lia. }
  assert ((b + 256 * le_val l) / 256 = le_val l) as ->.
  { rewrite Z.mul_comm, Z.div_add, Z.div_small by lia. lia. }
  by rewrite IH.
Qed.

Lemma le_val_range l : byteful l -> 0 <= le_val l < 256 ^ Z.of_nat (length l).
Proof.
  induction 1 as [|b l Hb _ IH]; simpl length; simpl le_val; [lia|].
  unfold is_byte in Hb. rewrite Nat2Z.inj_succ, Z.pow_succ_r by lia. lia.
Qed.

Lemma byteful_rev l : byteful l -> byteful (rev l).
Proof. apply List.Forall_rev. Qed.

Lemma bswap_bytes n x : le_bytes n (bswap n x) = rev (le_bytes n x).
Proof.
  assert (length (rev (le_bytes n x)) = n) as E by by rewrite length_rev, length_le_bytes.
  unfold bswap. rewrite <- E at 1. apply le_bytes_val, byteful_rev, byteful_le_bytes.
Qed.

Lemma bswap_range n x : 0 <= bswap n x < 256 ^ Z.of_nat n.
Proof.
  assert (length (rev (le_bytes n x)) = n) as E by by rewrite length_rev, length_le_bytes.
  unfold bswap. rewrite <- E at 3. apply le_val_range, byteful_rev, byteful_le_bytes.
Qed.

Lemma bswap_involutive n x : 0 <= x < 256 ^ Z.of_nat n -> bswap n (bswap n x) = x.
Proof.
  intros Hx. unfold bswap at 1. rewrite bswap_bytes, rev_involutive. by apply le_val_bytes.
Qed.

Lemma ntohl_htonl x : 0 <= x < 4294967296 -> ntohl (htonl x) = x.
Proof. apply (bswap_involutive 4). Qed.
Lemma ntohs_htons x : 0 <= x < 65536 -> ntohs (htons x) = x.
Proof. apply (bswap_involutive 2). Qed.
Lemma htonl_range x : 0 <= htonl x < 4294967296.
Proof. apply (bswap_range 4). Qed.
Lemma htons_range x : 0 <= htons x < 65536.
Proof. apply (bswap_range 2). Qed.
Lemma htonl_inj x y : 0 <= x < 4294967296 -> 0 <= y < 4294967296 -> htonl x = htonl y -> x = y.
Proof. intros Hx Hy E. rewrite <- (ntohl_htonl x), <- (ntohl_htonl y) by done. by rewrite E. Qed.

#[export] Hint Rewrite ntohl_htonl ntohs_htons using lia : snap.

(** ** Buffers *)

(** [n] bytes at an offset *)
Definition rd (b : bytes) (off : Z) (n : nat) : res bytes :=
  if (0 <=? off) && (off + Z.of_nat n <=? Z.of_nat (length b))
  then Ok (take n (drop (Z.to_nat off) b)) else Fault OutOfBounds.

(** Overwriting the bytes at an offset: [memcpy], or an assignment. *)
Definition wr (b : bytes) (off : Z) (v : bytes) : res bytes :=
  if (0 <=? off) && (off + Z.of_nat (length v) <=? Z.of_nat (length b))
  then Ok (take (Z.to_nat off) b ++ v ++ drop (Z.to_nat off + length v) b) else Fault OutOfBounds.

Definition rd8 (b : bytes) (off : Z) : res Z := v ← rd b off 1; mret (le_val v).
Definition rd16 (b : bytes) (off : Z) : res Z := v ← rd b off 2; mret (le_val v).
Definition rd32 (b : bytes) (off : Z) : res Z := v ← rd b off 4; mret (le_val v).
Definition wr8 (b : bytes) (off x : Z) : res bytes := wr b off (le_bytes 1 x).
Definition wr16 (b : bytes) (off x : Z) : res bytes := wr b off (le_bytes 2 x).
Definition wr32 (b : bytes) (off x : Z) : res bytes := wr b off (le_bytes 4 x).

(** [snap_alloc0(n)]; the model takes fresh memory to be zeroed. *)
Definition zeros (n : Z) : bytes := replicate (Z.to_nat n) 0.

Lemma length_zeros n : 0 <= n -> Z.of_nat (length (zeros n)) = n.
Proof. intros. unfold zeros. rewrite length_replicate. lia. Qed.

Lemma rd_app pre v post off : off = Z.of_nat (length pre) ->
  rd (pre ++ v ++ post) off (length v) = Ok v.
Proof.
  intros ->. unfold rd. rewrite !length_app. destruct (_ && _) eqn:E.
  - by rewrite Nat2Z.id, drop_app_length, take_app_length.
  - apply andb_false_iff in E as [E|E]; [apply Z.leb_gt in E|apply Z.leb_gt in E]; lia.
Qed.

Lemma wr_app pre old v post off : off = Z.of_nat (length pre) -> length old = length v ->
  wr (pre ++ old ++ post) off v = Ok (pre ++ v ++ post).
Proof.
  intros -> Hl. unfold wr. rewrite !length_app. destruct (_ && _) eqn:E.
  - rewrite Nat2Z.id, take_app_length. do 3 f_equal.
    by rewrite <- Hl, <- length_app, (assoc_L (++)), drop_app_length.
  - apply andb_false_iff in E as [E|E]; apply Z.leb_gt in E; lia.
Qed.

Lemma wr_fits b off v : 0 <= off -> off + Z.of_nat (length v) <= Z.of_nat (length b) ->
  exists b', wr b off v = Ok b' /\ length b' = length b.
Proof.
  intros. unfold wr. destruct (_ && _) eqn:E.
  - eexists. split; [done|]. rewrite !length_app, length_take, length_drop. lia.
  - apply andb_false_iff in E as [E|E]; apply Z.leb_gt in E; lia.
Qed.

Lemma rd_fits b off n : 0 <= off -> off + Z.of_nat n <= Z.of_nat (length b) ->
  rd b off n = Ok (take n (drop (Z.to_nat off) b)).
Proof.
  intros. unfold rd. destruct (_ && _) eqn:E; [done|].
  apply andb_false_iff in E as [E|E]; apply Z.leb_gt in E; lia.
Qed.

Lemma rd_out b off n : Z.of_nat (length b) < off + Z.of_nat n -> rd b off n = Fault OutOfBounds.
Proof.
  intros. unfold rd. by rewrite (proj2 (Z.leb_gt (off + _) _)), andb_false_r by lia.
Qed.

(** Writing a buffer front to back. *)
Lemma wr_next pre rest off v : off = Z.of_nat (length pre) -> (length v <= length rest)%nat ->
  wr (pre ++ rest) off v = Ok ((pre ++ v) ++ drop (length v) rest).
Proof.
  intros Hoff Hl. rewrite <- (take_drop (length v) rest) at 1.
  rewrite wr_app; [|done|rewrite length_take; lia]. by rewrite <- app_assoc.
Qed.

(** Reading the field [v] of a packet made of fields. *)
Lemma rd_concat pre v post off : off = Z.of_nat (length (concat pre)) ->
  rd (concat (pre ++ v :: post)) off (length v) = Ok v.
Proof. intros Hoff. rewrite concat_app. simpl. by apply rd_app. Qed.

Lemma rd_field pre v post b off n :
  b = concat (pre ++ v :: post) -> off = Z.of_nat (length (concat pre)) -> n = length v ->
  rd b off n = Ok v.
Proof. intros -> Hoff ->. by apply rd_concat. Qed.

Lemma rd32_field pre x post b off :
  b = concat (pre ++ le_bytes 4 x :: post) -> off = Z.of_nat (length (concat pre)) -> 0 <= x < 4294967296 ->
  rd32 b off = Ok x.
Proof.
  intros -> Hoff Hx. unfold rd32. rewrite (rd_concat pre (le_bytes 4 x) post) by done.
  unfold mbind, res_bind, mret, res_ret. by rewrite le_val_bytes.
Qed.
Lemma rd16_field pre x post b off :
  b = concat (pre ++ le_bytes 2 x :: post) -> off = Z.of_nat (length (concat pre)) -> 0 <= x < 65536 ->
  rd16 b off = Ok x.
Proof.
  intros -> Hoff Hx. unfold rd16. rewrite (rd_concat pre (le_bytes 2 x) post) by done.
  unfold mbind, res_bind, mret, res_ret. by rewrite le_val_bytes.
Qed.
Lemma rd8_field pre x post b off :
  b = concat (pre ++ le_bytes 1 x :: post) -> off = Z.of_nat (length (concat pre)) -> is_byte x ->
  rd8 b off = Ok x.
Proof.
  intros -> Hoff Hx. unfold rd8. rewrite (rd_concat pre (le_bytes 1 x) post) by done.
  unfold mbind, res_bind, mret, res_ret. by rewrite le_val_bytes.
Qed.

(** Lengths of concrete fields. *)
Ltac len_solve :=
  first [ reflexivity
        | cbn [concat app length]; rewrite ?length_app, ?length_drop, ?length_le_bytes;
          simpl; lia ].

(** One more field of a packet that is being written. *)
Ltac wr_step := rewrite wr_next by len_solve.

(** [field pre]: evaluate the read at the head of the goal, of the field of a
    packet whose fields before it are [pre]. *)
Ltac field pre :=
  let go r :=
    match r with
    | rd32 ?b ?o => erewrite (rd32_field pre _ _ b o)
    | rd16 ?b ?o => erewrite (rd16_field pre _ _ b o)
    | rd8 ?b ?o => erewrite (rd8_field pre _ _ b o)
    end in
  match goal with
  | |- match ?r with _ => _ end = _ => go r
  | |- ?r = _ => go r
  end; [| reflexivity | len_solve | solve [done | auto using htonl_range, htons_range]].

(** The place of a segment inside a buffer. *)
Lemma segment_at (p : bytes) off n : 0 <= off -> off + Z.of_nat n <= Z.of_nat (length p) ->
  exists pre rest, p = pre ++ rest /\ off = Z.of_nat (length pre) /\ (n <= length rest)%nat.
Proof.
  intros. exists (take (Z.to_nat off) p), (drop (Z.to_nat off) p).
  rewrite take_drop, length_take, length_drop. split; [done|]. lia.
Qed.

Lemma wr_length b off v b' : wr b off v = Ok b' -> length b' = length b.
Proof.
  unfold wr. destruct (_ && _) eqn:E; [|done]. intros [= <-].
  apply andb_true_iff in E as [?%Z.leb_le ?%Z.leb_le]. rewrite !length_app, length_take, length_drop. lia.
Qed.

(** Writing does not change what lies behind. *)
Lemma wr_rd_after b off v b' o n : wr b off v = Ok b' -> 0 <= off ->
  off + Z.of_nat (length v) <= o -> rd b' o n = rd b o n.
Proof.
  unfold wr. destruct (_ && _) eqn:E; [|done]. intros [= <-] H0 Ho.
  apply andb_true_iff in E as [_ E%Z.leb_le].
  unfold rd. rewrite !length_app, length_take, length_drop. replace (0 <=? o) with true by (symmetry; apply Z.leb_le; lia).
  replace (_ + (_ + _))%nat with (length b) by lia. destruct (_ && _); [|done].
  do 2 f_equal. rewrite (assoc_L (++)), drop_app_ge by (rewrite length_app, length_take; lia).
  rewrite drop_drop, length_app, length_take. f_equal. lia.
Qed.

Lemma rd_all b : rd b 0 (length b) = Ok b.
Proof. rewrite rd_fits by lia. by rewrite drop_0, take_ge by lia. Qed.
