(* ===== verification/CString.v ===== *)
(** * Strings of the C library

    The functions on strings that the program uses, for strings without a 0;
    [strtok_r] with a single delimiter.  A null pointer is [None]. *)
From Stdlib Require Import Ascii String.
From S2P Require Import Prelude.
From S2P Require Import Bytes.

(** A string literal, and the string in a buffer: the bytes before the first 0. *)
Definition str (s : string) : bytes := map (fun c => Z.of_N (N_of_ascii c)) (list_ascii_of_string s).
Definition cstr (b : bytes) : bytes :=
  match list_find (fun x => x = 0) b with Some (i, _) => take i b | None => b end.

(** [!strncmp(a, b, n)] *)
Definition strncmp_eq (n : nat) (a b : bytes) : bool := bool_decide (take n a = take n b).

Fixpoint drop_delims (d : Z) (s : bytes) : bytes :=
  match s with x :: s' => if x =? d then drop_delims d s' else s | [] => [] end.

(** The token at the front of a string and what follows its delimiter. *)
Fixpoint cut (d : Z) (s : bytes) : bytes * bytes :=
  match s with
  | [] => ([], [])
  | x :: s => if x =? d then ([], s) else let '(t, r) := cut d s in (x :: t, r)
  end.

(** [strtok_r(s, d, &ctx)]: the token and the new context; a null pointer is
    [None]. *)
Definition strtok_r (s : option bytes) (d : Z) (ctx : option bytes) : res (option bytes * option bytes) :=
  match (match s with Some s => Some s | None => ctx end) with
  | None => Fault NullDeref
  | Some s =>
      match drop_delims d s with
      | [] => Ok (None, Some [])
      | s => let '(t, r) := cut d s in Ok (Some t, Some r)
      end
  end.

(** What the string [s] is after [strtok_r] put a 0 behind its first token. *)
Definition cut_at (d : Z) (s : bytes) : bytes :=
  let s' := drop_delims d s in take (length s - length s') s ++ (cut d s').1.

(** [strstr(s, t)]: the rest of [s] from the first [t] on *)
Fixpoint strstr (s t : bytes) : option bytes :=
  if bool_decide (t `prefix_of` s) then Some s
  else match s with [] => None | _ :: s => strstr s t end.

Definition is_space (x : Z) : bool := (x =? 32) || ((9 <=? x) && (x <=? 13)).

Fixpoint drop_spaces (s : bytes) : bytes :=
  match s with x :: s' => if is_space x then drop_spaces s' else s | [] => [] end.

Fixpoint read_digits (acc : Z) (s : bytes) : Z :=
  match s with
  | x :: s => if (48 <=? x) && (x <=? 57) then read_digits (acc * 10 + (x - 48)) s else acc
  | [] => acc
  end.

(** [atol(s)]: a number that does not fit is the nearest one that does. *)
Definition atol (s : option bytes) : res Z :=
  match s with
  | None => Fault NullDeref
  | Some s =>
      let n := match drop_spaces s with
               | 43 :: s => read_digits 0 s
               | 45 :: s => - read_digits 0 s
               | s => read_digits 0 s
               end in
      Ok (Z.max (- 2 ^ 63) (Z.min (2 ^ 63 - 1) n))
  end.

(** [atoi(s)]: the C library cuts down what [strtol] returns. *)
Definition atoi (s : bytes) : Z := match atol (Some s) with Ok n => s32 n | Fault _ => 0 end.

(** [strtoul(s, NULL, 10)]: the number, and whether it was out of range; a
    number with a sign is negated in 64 bits. *)
Definition strtoul (s : bytes) : Z * bool :=
  let '(neg, n) := match drop_spaces s with
                   | 43 :: s => (false, read_digits 0 s)
                   | 45 :: s => (true, read_digits 0 s)
                   | s => (false, read_digits 0 s)
                   end in
  if n >? 2 ^ 64 - 1 then (2 ^ 64 - 1, true) else (if neg : bool then u64 (- n) else n, false).

(** util.h:8-8 INTERCOM_PORT *)
Definition INTERCOM_PORT : Z := 1704.
