(* ===== verification/Binary64.v ===== *)
(** * The floating point numbers of type [double]

    IEEE 754 binary64 with rounding to the nearest, as the Standard Library
    specifies it (SpecFloat).  An expression is evaluated operation by operation,
    without contraction.  The lemmas bound the results of the operations from
    above, which is what conversions to integers need: [below k x] says that the
    number is finite and less than [2 ^ k] in magnitude. *)
From Stdlib Require Import SpecFloat.
From S2P Require Import Prelude.

Definition prec : Z := 53.
Definition emax : Z := 1024.

Abbreviation double := spec_float.
Definition dbl_of (z : Z) : double := binary_normalize prec emax z 0 false.
Definition dadd : double -> double -> double := SFadd prec emax.
Definition dsub : double -> double -> double := SFsub prec emax.
Definition dmul : double -> double -> double := SFmul prec emax.
Definition ddiv : double -> double -> double := SFdiv prec emax.
Definition dlt : double -> double -> bool := SFltb.
Definition half : double := ddiv (dbl_of 1) (dbl_of 2).

(** The conversion to [size_t] drops the fraction; a number that does not fit has
    no result. *)
Definition size_of (x : double) : res Z :=
  match x with
  | S754_zero _ => Ok 0
  | S754_finite s m e =>
      let v := if 0 <=? e then Zpos m * 2 ^ e else Zpos m / 2 ^ (- e) in
      if v =? 0 then Ok 0
      else if s || (2 ^ 64 <=? v) then Fault BadConversion
      else Ok v
  | S754_infinity _ | S754_nan => Fault BadConversion
  end.

(** ** Digits *)

Lemma digits2_size p : digits2_pos p = Pos.size p.
Proof. induction p; simpl; by rewrite ?IHp. Qed.

Lemma Zdigits2_log2 m : 0 < m -> Zdigits2 m = Z.log2 m + 1.
Proof.
  destruct m as [|p|p]; [lia| |lia]. intros _. simpl. rewrite digits2_size.
  destruct p; simpl; lia.
Qed.

Lemma Zdigits2_0 : Zdigits2 0 = 0.
Proof. done. Qed.

Lemma Zdigits2_nonneg m : 0 <= Zdigits2 m.
Proof. by destruct m. Qed.

Lemma Zdigits2_lt m d : 0 <= m -> 0 <= d -> m < 2 ^ d -> Zdigits2 m <= d.
Proof.
  intros Hm Hd Hlt. destruct (decide (m = 0)) as [->|]; [done|]. rewrite Zdigits2_log2 by lia.
  apply Z.log2_lt_pow2 in Hlt; lia.
Qed.

Lemma Zdigits2_pow m : 0 <= m -> m < 2 ^ Zdigits2 m.
Proof.
  intros Hm. destruct (decide (m = 0)) as [->|]; [simpl; lia|]. rewrite Zdigits2_log2 by lia.
  apply Z.log2_spec. lia.
Qed.

Lemma Zdigits2_ge m : 0 < m -> 2 ^ (Zdigits2 m - 1) <= m.
Proof. intros Hm. rewrite Zdigits2_log2 by lia. replace (_ - 1) with (Z.log2 m) by lia. by apply Z.log2_spec. Qed.

(** ** Rounding *)

Lemma iter_pos_iter {A} (f : A -> A) n x : SpecFloat.iter_pos f n x = Pos.iter f x n.
Proof.
  revert x. induction n as [n IH|n IH|]; intros x; simpl; [|by rewrite !IH|done].
  rewrite !IH. by rewrite !Pos.iter_swap.
Qed.

Lemma shr_1_half mrs : 0 <= shr_m mrs -> shr_m (shr_1 mrs) = shr_m mrs / 2.
Proof.
  destruct mrs as [[|[p|p|]|p] r s]; simpl; intros H; try done; try lia.
  - apply (Z.div_unique _ _ _ 1); lia.
  - apply (Z.div_unique _ _ _ 0); lia.
Qed.

Lemma shr_m_iter n mrs : 0 <= shr_m mrs -> shr_m (SpecFloat.iter_pos shr_1 n mrs) = shr_m mrs / 2 ^ Zpos n.
Proof.
  intros H. rewrite iter_pos_iter.
  induction n as [|n IH] using Pos.peano_ind; [by apply shr_1_half|].
  rewrite Pos.iter_succ, shr_1_half; rewrite IH; [|apply Z.div_pos; lia].
  rewrite Z.div_div by lia. f_equal. rewrite Pos2Z.inj_succ, Z.pow_succ_r by lia. lia.
Qed.

(** [m] at the exponent [e] is a mantissa of at most 53 digits, below [2 ^ k]. *)
Record fits (k m e : Z) : Prop := {
  ft_pos : 0 <= m;
  ft_digits : Zdigits2 m <= prec;
  ft_below : Zdigits2 m + e <= k;
}.

Lemma shr_fexp_fits k m e l mrs e' : 0 <= m -> Zdigits2 m + e <= k -> -1074 <= k ->
  shr_fexp prec emax m e l = (mrs, e') -> fits k (shr_m mrs) e'.
Proof.
  intros Hm Hk Hlow. unfold shr_fexp, shr.
  assert (shr_m (shr_record_of_loc m l) = m) as Er by (by destruct l as [|[]]).
  unfold fexp, emin, prec, emax. pose proof (Zdigits2_nonneg m) as Hd0.
  destruct (Z.max _ _ - e) as [|n|n] eqn:En.
  1, 3: intros [= <- <-]; rewrite Er; split; unfold prec; lia.
  intros [= <- <-]. rewrite shr_m_iter by (by rewrite Er). rewrite Er.
  assert (0 <= m / 2 ^ Zpos n) as H0 by (apply Z.div_pos; lia).
  assert (Zdigits2 (m / 2 ^ Zpos n) <= Z.max 0 (Zdigits2 m - Zpos n)) as Hd.
  { apply Zdigits2_lt; [done|lia|]. apply Z.div_lt_upper_bound; [lia|]. rewrite <- Z.pow_add_r by lia.
    eapply Z.lt_le_trans; [by apply Zdigits2_pow|]. apply Z.pow_le_mono_r; lia. }
  split; unfold prec; lia.
Qed.

Lemma round_nearest_even_fits k m e l : fits k m e ->
  0 <= round_nearest_even m l /\ Zdigits2 (round_nearest_even m l) + e <= k + 1.
Proof.
  intros [H0 H1 H2].
  assert (0 <= m + 1 /\ Zdigits2 (m + 1) + e <= k + 1) as Hup.
  { split; [lia|]. pose proof (Zdigits2_nonneg m). assert (Zdigits2 (m + 1) <= Zdigits2 m + 1); [|lia].
    apply Zdigits2_lt; [lia|lia|]. rewrite Z.pow_add_r by lia. pose proof (Zdigits2_pow m H0). simpl. lia. }
  destruct l as [|[]]; simpl; try (split; [done|lia]); [|done]. destruct (Z.even m); [split; [done|lia]|done].
Qed.

(** A finite number with 53 digits that is below [2 ^ k]. *)
Definition below (k : Z) (x : double) : Prop :=
  match x with
  | S754_zero _ => True
  | S754_finite _ m e => Zdigits2 (Zpos m) <= prec /\ Zdigits2 (Zpos m) + e <= k
  | _ => False
  end.
Definition sign_of (x : double) : bool :=
  match x with S754_zero _ | S754_nan => false | S754_infinity s | S754_finite s _ _ => s end.

Lemma below_weaken k k' x : k <= k' -> below k x -> below k' x.
Proof. destruct x; simpl; try done. intros ? [? ?]. split; [done|lia]. Qed.

(** Rounding gives a number of 53 digits or an infinity; it is finite if it is
    small enough. *)
Lemma round_aux_below s m e l k : 0 <= m -> Zdigits2 m + e <= k -> -1074 <= k ->
  let x := binary_round_aux prec emax s m e l in
  (k <= 900 -> below (k + 1) x) /\ x <> S754_nan /\ (forall s' m' e', x = S754_finite s' m' e' -> Zdigits2 (Zpos m') <= prec) /\
  (s = false -> sign_of x = false).
Proof.
  intros Hm Hk Hlow. unfold binary_round_aux.
  destruct (shr_fexp prec emax m e l) as [mrs e1] eqn:E1. apply (shr_fexp_fits k) in E1 as F1; [|done..].
  destruct (round_nearest_even_fits k _ e1 (loc_of_shr_record mrs) F1) as [H0 H1].
  destruct (shr_fexp prec emax (round_nearest_even _ _) e1 loc_Exact) as [mrs2 e2] eqn:E2.
  apply (shr_fexp_fits (k + 1)) in E2 as F2; [|done|lia|lia]. destruct F2 as [G0 G1 G2].
  destruct (shr_m mrs2) as [|p|p]; [|unfold emax; destruct (e2 <=? 1024 - prec) eqn:Eo|lia].
  - split_and!; [done..|by intros [] |done].
  - split_and!; [done..|by intros s' m' e' [= _ <- _]|done].
  - split_and!; [|done..]. intros Hbig. unfold prec in *. apply Z.leb_gt in Eo. simpl in G2.
    pose proof (Pos2Z.is_pos (digits2_pos p)). lia.
Qed.

(** ** The operations *)

Lemma digits_shl q n : Zdigits2 (Zpos (Pos.iter xO q n)) = Zdigits2 (Zpos q) + Zpos n.
Proof. induction n as [|n IH] using Pos.peano_ind; [simpl; lia|]. rewrite Pos.iter_succ. simpl in *. lia. Qed.

Lemma shl_align_digits m e e' mz ez : shl_align m e e' = (mz, ez) ->
  Zdigits2 (Zpos mz) + ez = Zdigits2 (Zpos m) + e.
Proof.
  unfold shl_align. destruct (e' - e) as [|n|n] eqn:En; intros [= <- <-]; [done..|]. rewrite digits_shl. lia.
Qed.

Lemma normalize_below z e k : Zdigits2 z + e <= k -> -1074 <= k ->
  let x := binary_normalize prec emax z e false in
  (k <= 900 -> below (k + 1) x) /\ x <> S754_nan /\ (forall s' m' e', x = S754_finite s' m' e' -> Zdigits2 (Zpos m') <= prec) /\
  (0 <= z -> sign_of x = false).
Proof.
  intros Hk Hlow. destruct z as [|p|p]; [done|..]; unfold binary_normalize, binary_round;
    destruct (shl_align p e _) as [mz ez] eqn:E; apply shl_align_digits in E; simpl Zdigits2 in Hk;
    destruct (round_aux_below false (Zpos mz) ez loc_Exact k) as (H1 & H2 & H3 & H4); simpl in *; try lia; try done.
  - split_and!; try done. intros _. by apply H4.
  - destruct (round_aux_below true (Zpos mz) ez loc_Exact k) as (G1 & G2 & G3 & _); simpl in *; try lia.
    split_and!; done.
Qed.

(** An integer that has 53 digits is represented exactly. *)
Lemma dbl_of_exact n : 0 < n < 2 ^ 53 ->
  exists m e, dbl_of n = S754_finite false m e /\ Zdigits2 (Zpos m) = prec /\ Zdigits2 (Zpos m) + e = Zdigits2 n.
Proof.
  intros Hn. destruct n as [|p|p]; [lia| |lia]. unfold dbl_of, binary_normalize, binary_round.
  assert (1 <= Zdigits2 (Zpos p) <= 53) as Hd by (split; [simpl; lia|apply Zdigits2_lt; lia]).
  replace (fexp prec emax (Zpos (digits2_pos p) + 0)) with (Zdigits2 (Zpos p) - 53)
    by (unfold fexp, emin, prec, emax; change (Zdigits2 (Zpos p)) with (Zpos (digits2_pos p)) in *; lia).
  destruct (shl_align p 0 _) as [mz ez] eqn:E.
  assert (ez = Zdigits2 (Zpos p) - 53) as Hez.
  { unfold shl_align in E. destruct (Zdigits2 (Zpos p) - 53 - 0) eqn:E0; injection E as _ E2; simpl Zdigits2 in *; lia. }
  apply shl_align_digits in E. assert (Zdigits2 (Zpos mz) = 53) as Hmz by lia.
  exists mz, ez. split; [|unfold prec; split; lia].
  assert (shr_fexp prec emax (Zpos mz) ez loc_Exact = (Build_shr_record (Zpos mz) false false, ez)) as Es.
  { unfold shr_fexp. rewrite Hmz. replace (fexp prec emax (53 + ez) - ez) with 0; [done|].
    unfold fexp, emin, prec, emax. lia. }
  unfold binary_round_aux. rewrite Es. simpl. rewrite Es. simpl.
  by replace (ez <=? emax - prec) with true by (symmetry; apply Z.leb_le; unfold emax, prec; lia).
Qed.

Lemma dbl_of_below n k : 0 <= n < 2 ^ k -> 0 <= k <= 900 -> below (k + 1) (dbl_of n) /\ sign_of (dbl_of n) = false.
Proof.
  intros Hn Hk. destruct (normalize_below n 0 k) as (H1 & _ & _ & H4).
  - rewrite Z.add_0_r. apply Zdigits2_lt; lia.
  - lia.
  - split; [apply H1; lia|apply H4; lia].
Qed.

Lemma dmul_below a b x y : below a x -> below b y -> sign_of x = false -> sign_of y = false ->
  -1074 <= a + b <= 900 -> below (a + b + 1) (dmul x y) /\ sign_of (dmul x y) = false.
Proof.
  intros Hx Hy Sx Sy Hab. destruct x as [| | |sx mx ex], y as [| | |sy my ey]; try done.
  simpl in Sx, Sy. subst sx sy. destruct Hx as [_ Hx], Hy as [_ Hy].
  destruct (round_aux_below false (Zpos (mx * my)) (ex + ey) loc_Exact (a + b)) as (H1 & _ & _ & H4); [done|..|].
  - assert (Zdigits2 (Zpos (mx * my)) <= Zdigits2 (Zpos mx) + Zdigits2 (Zpos my)); [|lia].
    pose proof (Zdigits2_nonneg (Zpos mx)). pose proof (Zdigits2_nonneg (Zpos my)).
    apply Zdigits2_lt; [lia|lia|]. rewrite Z.pow_add_r, Pos2Z.inj_mul by lia.
    apply Z.mul_lt_mono_nonneg; [lia|by apply Zdigits2_pow|lia|by apply Zdigits2_pow].
  - lia.
  - split; [apply H1; lia|by apply H4].
Qed.

Lemma dadd_below a b x y : below a x -> below b y -> sign_of x = false -> sign_of y = false ->
  -1074 <= Z.max a b <= 899 -> below (Z.max a b + 2) (dadd x y) /\ sign_of (dadd x y) = false.
Proof.
  intros Hx Hy Sx Sy Hab.
  destruct x as [s1| | |s1 m1 e1], y as [s2| | |s2 m2 e2]; try done; simpl in Sx, Sy; subst.
  - by destruct s1, s2.
  - split; [|done]. eapply below_weaken; [|exact Hy]. lia.
  - split; [|done]. eapply below_weaken; [|exact Hx]. lia.
  - destruct Hx as [_ Hx], Hy as [_ Hy]. unfold dadd, SFadd. set (ez := Z.min e1 e2).
    assert (forall m e, ez <= e -> Zdigits2 (Zpos m) + e <= Z.max a b ->
      exists q, Zpos (shl_align m e ez).1 = Zpos q /\ Zdigits2 (Zpos q) <= Z.max a b - ez) as Hal.
    { intros m e He Hm. destruct (shl_align m e ez) as [q z] eqn:E. exists q. split; [done|].
      assert (z = ez \/ z = e /\ e <= ez) as Hz.
      { unfold shl_align in E. destruct (ez - e) eqn:E0; injection E as <- <-; lia. }
      apply shl_align_digits in E. lia. }
    destruct (Hal m1 e1) as (q1 & E1 & H1); [lia..|]. destruct (Hal m2 e2) as (q2 & E2 & H2); [lia..|].
    simpl cond_Zopp. rewrite E1, E2.
    destruct (normalize_below (Zpos q1 + Zpos q2) ez (Z.max a b + 1)) as (G1 & _ & _ & G4).
    + assert (Zdigits2 (Zpos q1 + Zpos q2) <= Z.max a b - ez + 1); [|lia].
      pose proof (Zdigits2_nonneg (Zpos q1)). pose proof (Zdigits2_pow (Zpos q1) ltac:(lia)).
      pose proof (Zdigits2_pow (Zpos q2) ltac:(lia)).
      apply Zdigits2_lt; [lia|lia|]. rewrite Z.pow_add_r by lia.
      pose proof (Z.pow_le_mono_r 2 _ _ ltac:(lia) H1). pose proof (Z.pow_le_mono_r 2 _ _ ltac:(lia) H2). simpl. lia.
    + lia.
    + replace (Z.max a b + 2) with (Z.max a b + 1 + 1) by lia. split; [apply G1; lia|apply G4; lia].
Qed.

(** Division by a number that is at least 1. *)
Lemma ddiv_below a x my ey : below a x -> sign_of x = false -> 1 <= Zdigits2 (Zpos my) + ey -> -1074 <= a <= 900 ->
  let y := S754_finite false my ey in below (a + 1) (ddiv x y) /\ sign_of (ddiv x y) = false.
Proof.
  intros Hx Sx Hy Ha y. destruct x as [s1| | |s1 m1 e1]; try done. simpl in Sx. subst s1.
  destruct Hx as [_ Hx]. unfold ddiv, y, SFdiv, SFdiv_core_binary.
  set (d1 := Zdigits2 (Zpos m1)) in *. set (d2 := Zdigits2 (Zpos my)) in *.
  assert (1 <= d1) as H1 by (unfold d1; simpl; lia). assert (1 <= d2) as H2 by (unfold d2; simpl; lia).
  set (e' := Z.min _ _). set (sh := e1 - ey - e').
  assert (0 <= sh) as Hsh by (unfold sh, e'; lia).
  assert (exists m', (match sh with Z0 => Zpos m1 | Zpos _ => Z.shiftl (Zpos m1) sh | Zneg _ => 0 end) = m' /\
    0 <= m' < 2 ^ (d1 + sh)) as (m' & -> & Hm').
  { eexists. split; [done|]. rewrite Z.pow_add_r by lia.
    pose proof (Zdigits2_pow (Zpos m1) ltac:(lia)). fold d1 in H.
    destruct sh as [|n|n]; [simpl; lia| |lia]. rewrite Z.shiftl_mul_pow2 by lia. nia. }
  pose proof (Z_div_mod m' (Zpos my) ltac:(lia)) as Hdiv. destruct (Z.div_eucl m' (Zpos my)) as [q r].
  destruct Hdiv as [Eq Hr]. assert (0 <= q) as Hq by nia.
  destruct (round_aux_below false q e' (new_location (Zpos my) r) a) as (G1 & _ & _ & G4); [done|..|].
  - assert (e' <= a).
    { unfold e'. pose proof (Z.le_min_l (fexp prec emax (d1 + e1 - (d2 + ey))) (e1 - ey)).
      unfold fexp, emin, prec, emax in *. lia. }
    assert (Zdigits2 q <= Z.max 0 (d1 + sh - d2 + 1)); [|unfold sh in *; lia].
    apply Zdigits2_lt; [done|lia|].
    pose proof (Zdigits2_ge (Zpos my) ltac:(lia)) as Hge. fold d2 in Hge.
    destruct (Z.max_spec 0 (d1 + sh - d2 + 1)) as [[Hc ->]|[Hc ->]].
    + apply (Z.mul_lt_mono_pos_r (2 ^ (d2 - 1))); [apply Z.pow_pos_nonneg; lia|].
      rewrite <- Z.pow_add_r by lia.
      replace (d1 + sh - d2 + 1 + (d2 - 1)) with (d1 + sh) by lia. nia.
    + assert (m' < Zpos my); [|nia]. eapply Z.lt_le_trans; [apply Hm'|].
      eapply Z.le_trans; [|exact Hge]. apply Z.pow_le_mono_r; lia.
  - lia.
  - split; [apply G1; lia|by apply G4].
Qed.

Lemma size_of_below x : below 64 x -> sign_of x = false -> exists n, size_of x = Ok n /\ 0 <= n < 2 ^ 64.
Proof.
  intros Hx Sx. destruct x as [|? | |s m e]; try done; [by exists 0|]. simpl in Sx. subst s. destruct Hx as [Hd Hk].
  unfold size_of. set (v := if 0 <=? e then _ else _).
  pose proof (Zdigits2_pow (Zpos m) ltac:(lia)) as Hm. unfold prec in *.
  assert (0 <= v < 2 ^ 64) as Hv.
  { unfold v. destruct (Z.leb_spec 0 e).
    - split; [nia|]. eapply Z.lt_le_trans; [apply Z.mul_lt_mono_pos_r; [lia|exact Hm]|].
      rewrite <- Z.pow_add_r by (lia || apply Zdigits2_nonneg). apply Z.pow_le_mono_r; lia.
    - split; [apply Z.div_pos; lia|]. apply Z.div_lt_upper_bound; [lia|].
      assert (2 ^ Zdigits2 (Zpos m) <= 2 ^ 53) by (apply Z.pow_le_mono_r; lia).
      assert (0 < 2 ^ (- e)) by lia. nia. }
  destruct (v =? 0) eqn:E0; [by exists 0|]. exists v. simpl.
  by replace (2 ^ 64 <=? v) with false by (symmetry; apply Z.leb_gt; lia).
Qed.
