(* ===== verification/PcmChunk.v ===== *)
(** * pcmchunk.h, pcmchunk.c, opuscodec.c: chunks of audio data

    A chunk owns the buffer its [data] points to, so the buffer is part of the
    record ([None] is the null pointer).  libopus is not part of the program:
    its functions are the operations of the class [OpusLib]. *)
From S2P Require Import Prelude.
From S2P Require Import Timespec.
From S2P Require Import Bytes.
From S2P Require Import PQueue.

(** ** Data *)

(** pcmchunk.h:8-8 CHUNK_HEADER_SIZE *)
Definition CHUNK_HEADER_SIZE : Z := 17.
(** pcmchunk.h:10-10 CODEC_PCM *)
Definition CODEC_PCM : Z := 0.
(** pcmchunk.h:10-10 CODEC_OPUS *)
Definition CODEC_OPUS : Z := 1.
(** opuscodec.c:11-11 OPUS_MAX_CHUNK_LENGTH_MS *)
Definition OPUS_MAX_CHUNK_LENGTH_MS : Z := 120.

(** pcmchunk.h:12-21 pcmChunk *)
Record pcmChunk := mkChunk {
  play_at_tv_sec : Z;    (** [uint32_t] *)
  play_at_tv_nsec : Z;   (** [uint32_t] *)
  samples : Z;           (** [uint32_t]: frames per second *)
  frame_size : Z;        (** [uint8_t]: bytes per sample and channel *)
  channels : Z;          (** [uint8_t] *)
  size : Z;              (** [uint16_t]: bytes in [data] *)
  codec : Z;             (** [uint8_t] *)
  data : option bytes;
}.

#[export] Instance pcmChunk_eq_dec : EqDecision pcmChunk.
Proof. solve_decision. Defined.

Definition with_data (d : option bytes) c :=
  mkChunk (play_at_tv_sec c) (play_at_tv_nsec c) (samples c) (frame_size c) (channels c) (size c) (codec c) d.
Definition with_play_at (sec nsec : Z) c :=
  mkChunk sec nsec (samples c) (frame_size c) (channels c) (size c) (codec c) (data c).
Definition with_size (n : Z) c :=
  mkChunk (play_at_tv_sec c) (play_at_tv_nsec c) (samples c) (frame_size c) (channels c) n (codec c) (data c).
Definition with_codec (k : Z) c :=
  mkChunk (play_at_tv_sec c) (play_at_tv_nsec c) (samples c) (frame_size c) (channels c) (size c) k (data c).

(** C's division of non-negative integers; dividing by zero is a fault. *)
Definition cdiv (a b : Z) : res Z := if b =? 0 then Fault DivByZero else Ok (Z.quot a b).

(** ** Operations *)

(** pcmchunk.c:13-22 get_emptychunk *)
Definition get_emptychunk (c : pcmChunk) (length_ms : Z) : pcmChunk :=
  let sz := u16 (u32 (u32 (u32 (samples c * length_ms) * channels c) * frame_size c) / 1000) in
  with_codec CODEC_PCM (with_data (Some (zeros sz)) (with_play_at 0 0 (with_size sz c))).

(** pcmchunk.c:24-26 chunk_get_play_at *)
Definition chunk_get_play_at (c : option pcmChunk) : timespec :=
  match c with
  | Some c => mkTime (play_at_tv_sec c) (play_at_tv_nsec c)
  | None => zero_time
  end.

(** pcmchunk.c:34-34 chunk_is_empty *)
Definition chunk_is_empty (c : option pcmChunk) : bool :=
  match c with Some c => play_at_tv_sec c =? 0 | None => true end.

(** pcmchunk.c:46-51 chunk_ntoh *)
Definition chunk_ntoh (c : pcmChunk) : pcmChunk :=
  mkChunk (ntohl (play_at_tv_sec c)) (ntohl (play_at_tv_nsec c)) (ntohl (samples c))
    (frame_size c) (channels c) (ntohs (size c)) (codec c) (data c).

(** pcmchunk.c:79-84 chunk_hton *)
Definition chunk_hton (c : pcmChunk) : pcmChunk :=
  mkChunk (htonl (play_at_tv_sec c)) (htonl (play_at_tv_nsec c)) (htonl (samples c))
    (frame_size c) (channels c) (htons (size c)) (codec c) (data c).

(** pcmchunk.c:53-60 chunk_free_members *)
Definition chunk_free_members (c : option pcmChunk) : option pcmChunk :=
  (fun c => with_size 0 (with_data None (with_play_at 0 (play_at_tv_nsec c) c))) <$> c.

(** pcmchunk.c:86-97 chunk_cmp *)
Definition chunk_cmp (c1 c2 : pcmChunk) : Z :=
  if play_at_tv_sec c1 >? play_at_tv_sec c2 then 1
  else if play_at_tv_sec c1 <? play_at_tv_sec c2 then -1
  else if play_at_tv_nsec c1 >? play_at_tv_nsec c2 then 1
  else if play_at_tv_nsec c1 <? play_at_tv_nsec c2 then -1
  else 0.

(** pcmchunk.c:99-107 chunk_copy_meta *)
Definition chunk_copy_meta (dest src : pcmChunk) : pcmChunk :=
  mkChunk (play_at_tv_sec src) (play_at_tv_nsec src) (samples src) (frame_size src)
    (channels src) (size src) (codec src) (data dest).

(** pcmchunk.c:62-77 pcmchunk_shaveoff *)
Definition pcmchunk_shaveoff (c : pcmChunk) (frames : Z) : res pcmChunk :=
  let removebytes := s32 (channels c * frame_size c * frames) in
  let rest := size c - removebytes in
  if rest <? 0 then Fault ExitError   (* snap_alloc of a huge size *)
  else
    match data c with
    | None => Fault NullDeref
    | Some d =>
        ndata ← rd d removebytes (Z.to_nat rest);
        ms ← cdiv (u32 (s32 (frames * 1000))) (samples c);
        play_at ← timeAddMs (mkTime (play_at_tv_sec c) (play_at_tv_nsec c)) (s32 ms);
        mret (with_play_at (u32 (tv_sec play_at)) (u32 (tv_nsec play_at))
                (with_size (u16 rest) (with_data (Some ndata) c)))
    end.

(** ** The codec *)

(** libopus: [opus_decode] and [opus_encode] take the output buffer and return
    it filled; the first result is the number of frames or bytes, or an error. *)
Class OpusLib (Dec Enc : Type) := {
  opus_decoder_create : Z -> Z -> Z * option Dec;
  opus_encoder_create : Z -> Z -> Z * option Enc;
  opus_set_bitrate : Enc -> Z -> Z * Enc;
  opus_decode : Dec -> bytes -> bytes -> Z -> Z * bytes * Dec;
  opus_encode : Enc -> bytes -> Z -> bytes -> Z -> Z * bytes * Enc;
}.

Section codec.
Context {Dec Enc : Type} `{!OpusLib Dec Enc}.

(** opuscodec.h:8-15 opuscodec_ctx *)
Record opuscodec_ctx := mkOpus {
  decoder : option Dec;
  encoder : option Enc;
  bitrate : Z;
  mss : Z;
}.

(** opuscodec.c:71-77 opus_init_decoder *)
Definition opus_init_decoder (ctx : opuscodec_ctx) (samples channels : Z) : res opuscodec_ctx :=
  let '(err, d) := opus_decoder_create samples channels in
  if err <? 0 then Fault ExitError
  else Ok (mkOpus d (encoder ctx) (bitrate ctx) (mss ctx)).

(** opuscodec.c:79-90 opus_init_encoder *)
Definition opus_init_encoder (ctx : opuscodec_ctx) (mss samples channels : Z) : res opuscodec_ctx :=
  let '(err, e) := opus_encoder_create samples channels in
  if err <? 0 then Fault ExitError
  else match e with
       | None => Fault NullDeref
       | Some e =>
           let '(rc, e) := opus_set_bitrate e (bitrate ctx) in
           if rc <? 0 then Fault ExitError else Ok (mkOpus (decoder ctx) (Some e) (bitrate ctx) mss)
       end.

(** opuscodec.c:13-51 decode_opus_handle: a negative size of the memory for the
    output is one that no allocation can serve. *)
Definition decode_opus_handle (ctx : opuscodec_ctx) (c : pcmChunk) : res (pcmChunk * opuscodec_ctx) :=
  ctx ← match decoder ctx with
        | None => opus_init_decoder ctx (samples c) (channels c)
        | Some _ => mret ctx
        end;
  match data c, decoder ctx with
  | None, _ => Fault ExitError
  | Some _, None => Fault NullDeref
  | Some d, Some dec =>
      if (channels c =? 0) || (frame_size c =? 0) || (size c =? 0) then Fault ExitError
      else
        let MAX_FRAMES := s32 (u32 (samples c * OPUS_MAX_CHUNK_LENGTH_MS) / 1000) in
        let room := s32 (MAX_FRAMES * channels c * frame_size c) in
        if room <? 0 then Fault ExitError else
        let out := zeros room in
        input ← rd d 0 (Z.to_nat (size c));
        let '(frames, out, dec) := opus_decode dec input out MAX_FRAMES in
        let ctx := mkOpus (Some dec) (encoder ctx) (bitrate ctx) (mss ctx) in
        if frames <=? 0 then
          let empty := get_emptychunk (mkChunk 0 0 (samples c) (frame_size c) (channels c) 0 0 None) 5 in
          mret (with_codec CODEC_PCM (with_size (size empty) (with_data (data empty) c)), ctx)
        else
          let sz := u16 (frames * channels c * frame_size c) in
          let out := if frames <? MAX_FRAMES then take (Z.to_nat sz) out else out in
          mret (with_data (Some out) (with_codec CODEC_PCM (with_size sz c)), ctx)
  end.

(** pcmchunk.c:36-44 chunk_decode *)
Definition chunk_decode (ctx : opuscodec_ctx) (c : option pcmChunk)
    : res (bool * option pcmChunk * opuscodec_ctx) :=
  match c with
  | Some ch =>
      if codec ch =? CODEC_OPUS then
        '(ch, ctx) ← decode_opus_handle ctx ch; mret (true, Some ch, ctx)
      else mret (false, c, ctx)
  | None => mret (false, c, ctx)
  end.

(** pcmchunk.c:28-32 chunk_getduration_ms: decodes the chunk on the way. *)
Definition chunk_getduration_ms (ctx : opuscodec_ctx) (c : option pcmChunk)
    : res (Z * option pcmChunk * opuscodec_ctx) :=
  '(_, c, ctx) ← chunk_decode ctx c;
  match c with
  | None => Fault NullDeref
  | Some ch =>
      let ms := if (channels ch =? 0) || (frame_size ch =? 0) || (samples ch =? 0) then 0
                else Z.quot (Z.quot (Z.quot (1000 * size ch) (channels ch)) (frame_size ch)) (samples ch) in
      mret (ms, c, ctx)
  end.

(** opuscodec.c:53-69 encode_opus_handle: [sizeof(intercom_packet_audio)] is 10;
    a negative result of the encoder is logged and then used as a size. *)
Definition encode_opus_handle (mtu : Z) (ctx : opuscodec_ctx) (c : pcmChunk)
    : res (pcmChunk * opuscodec_ctx) :=
  let out := zeros (mtu - 10) in
  f ← cdiv (size c) (frame_size c);
  frames ← cdiv f (channels c);
  match encoder ctx, data c with
  | Some enc, Some d =>
      let '(nbBytes, out, enc) := opus_encode enc d frames out (mss ctx) in
      let ctx := mkOpus (decoder ctx) (Some enc) (bitrate ctx) (mss ctx) in
      let c := with_size (u16 nbBytes) c in
      if nbBytes <? 0 then Fault OutOfBounds
      else
        encoded ← rd out 0 (Z.to_nat nbBytes);
        d ← wr d 0 encoded;
        mret (with_codec CODEC_OPUS (with_data (Some d) c), ctx)
  | _, _ => Fault NullDeref
  end.

(** opuscodec.c:92-97 uninit *)
Definition uninit (ctx : opuscodec_ctx) : opuscodec_ctx :=
  mkOpus None None (bitrate ctx) (mss ctx).
End codec.
#[global] Arguments opuscodec_ctx : clear implicits.

(** intercom_client.c:18-23 receivebuffer_cmp: the earliest chunk first. *)
Definition receivebuffer_cmp (c1 c2 : pcmChunk) : Z := chunk_cmp c2 c1.

(** ** Specification *)

(** The fields are within their types and the buffer has [size] bytes. *)
Record chunk_ok (c : pcmChunk) : Prop := {
  co_sec : 0 <= play_at_tv_sec c < 4294967296;
  co_nsec : 0 <= play_at_tv_nsec c < 4294967296;
  co_samples : 0 <= samples c < 4294967296;
  co_frame : is_byte (frame_size c);
  co_channels : is_byte (channels c);
  co_size : 0 <= size c < 65536;
  co_codec : is_byte (codec c);
  co_data : exists d, data c = Some d /\ Z.of_nat (length d) = size c;
}.

Lemma chunk_cmp_timespec c1 c2 :
  chunk_cmp c1 c2 = timespec_cmp (chunk_get_play_at (Some c1)) (chunk_get_play_at (Some c2)).
Proof. unfold chunk_cmp, timespec_cmp; simpl. cases_lt; lia. Qed.

(** The receive buffer's comparator is an order. *)
#[export] Instance receivebuffer_comparator : Comparator receivebuffer_cmp.
Proof.
  unfold receivebuffer_cmp. split; intros *; rewrite !chunk_cmp_timespec.
  - rewrite timespec_cmp_antisym. lia.
  - rewrite timespec_cmp_antisym. lia.
  - intros H1 H2. by eapply timespec_cmp_le_trans.
Qed.

Lemma chunk_hton_ntoh c : chunk_ok c -> chunk_ntoh (chunk_hton c) = c.
Proof.
  intros []. destruct c. unfold chunk_ntoh, chunk_hton; simpl in *.
  by rewrite !ntohl_htonl, ntohs_htons by done.
Qed.

Lemma chunk_free_empty c : chunk_is_empty (chunk_free_members c) = true.
Proof. by destruct c. Qed.

(** Dividing in three steps is dividing once. *)
Lemma quot3 a b c d : 0 <= a -> 0 < b -> 0 < c -> 0 < d ->
  Z.quot (Z.quot (Z.quot a b) c) d = a / (b * c * d).
Proof.
  intros. rewrite (Z.quot_div_nonneg a) by lia.
  rewrite (Z.quot_div_nonneg (a / b)) by (try lia; apply Z.div_pos; lia).
  rewrite (Z.quot_div_nonneg (a / b / c)) by (try lia; apply Z.div_pos; try lia; apply Z.div_pos; lia).
  rewrite !Z.div_div by nia. f_equal. lia.
Qed.

Section theorems.
Context {Dec Enc : Type} `{!OpusLib Dec Enc}.

Lemma pcm_duration (ctx : opuscodec_ctx Dec Enc) c : codec c = CODEC_PCM ->
  0 <= size c -> 0 < channels c -> 0 < frame_size c -> 0 < samples c ->
  chunk_getduration_ms ctx (Some c) =
    Ok (1000 * size c / (channels c * frame_size c * samples c), Some c, ctx).
Proof.
  intros Hcod ????. unfold chunk_getduration_ms, chunk_decode. rewrite Hcod.
  unfold mbind, res_bind, mret, res_ret. simpl negb.
  change (CODEC_PCM =? CODEC_OPUS) with false. cbv iota beta.
  rewrite !(proj2 (Z.eqb_neq _ 0)) by lia. simpl orb. cbv iota. by rewrite quot3 by lia.
Qed.

(** An empty chunk made for [ms] milliseconds is a zeroed PCM buffer of
    the announced size that [chunk_getduration_ms] measures as [ms], when a
    millisecond is a whole number of frames; it takes no decoder for that. *)
Theorem empty_chunk_duration (ctx : opuscodec_ctx Dec Enc) c ms :
  0 < samples c -> 0 < channels c -> 0 < frame_size c -> 0 <= ms ->
  samples c * ms * channels c * frame_size c < 65536 * 1000 ->
  (samples c * ms) mod 1000 = 0 ->
  let e := get_emptychunk c ms in
  data e = Some (zeros (size e)) /\ 0 <= size e < 65536 /\
  chunk_is_empty (Some e) = true /\
  chunk_getduration_ms ctx (Some e) = Ok (ms, Some e, ctx).
Proof.
  intros Hs Hc Hf Hms Hfit Hmod e.
  assert (0 <= samples c * ms) by nia. assert (0 <= samples c * ms * channels c) by nia.
  assert (samples c * ms <= samples c * ms * channels c) by nia.
  assert (samples c * ms * channels c <= samples c * ms * channels c * frame_size c) by nia.
  apply Z_div_exact_full_2 in Hmod; [|lia]. set (k := samples c * ms / 1000) in *.
  assert (size e = k * channels c * frame_size c) as Hsize.
  { unfold e, get_emptychunk; simpl. rewrite (u32_small (samples c * ms)) by lia.
    rewrite (u32_small (_ * channels c)) by lia. rewrite (u32_small (_ * frame_size c)) by lia. rewrite Hmod.
    replace (1000 * k * channels c * frame_size c) with (k * channels c * frame_size c * 1000) by lia.
    rewrite Z.div_mul by lia. apply u16_small. nia. }
  assert (0 <= size e < 65536) as Hrange by nia.
  split; [done|]. split; [done|]. split; [done|].
  rewrite pcm_duration by first [done|lia]. rewrite Hsize. simpl channels. simpl frame_size. simpl samples.
  replace (1000 * (k * channels c * frame_size c)) with (ms * (channels c * frame_size c * samples c)) by nia.
  rewrite Z.div_mul by nia. done.
Qed.

(** Shaving [frames] frames off a chunk drops exactly their bytes from the
    front, keeps the rest, and moves the play time forward by the duration of
    the dropped frames in whole milliseconds. *)
Theorem shaveoff_spec c d frames :
  chunk_ok c -> data c = Some d -> 0 < samples c -> play_at_tv_nsec c < BILLION ->
  play_at_tv_sec c < 4294967296 - 2147484 ->
  0 <= frames -> frames * 1000 < 2 ^ 31 -> channels c * frame_size c * frames <= size c ->
  exists c', pcmchunk_shaveoff c frames = Ok c' /\
    data c' = Some (drop (Z.to_nat (channels c * frame_size c * frames)) d) /\
    size c' = size c - channels c * frame_size c * frames /\
    norm_ns (chunk_get_play_at (Some c')) /\
    ns (chunk_get_play_at (Some c')) =
      ns (chunk_get_play_at (Some c)) + frames * 1000 / samples c * 1000000 /\
    chunk_ok c'.
Proof.
  intros [Hsec Hnsec Hsam Hfs Hch Hsz Hco (d' & Hd' & Hlen)] Hd Hs Hn Hfar Hf Hms Hle.
  assert (d' = d) as -> by congruence. unfold is_byte, BILLION in *.
  set (rb := channels c * frame_size c * frames) in *. assert (0 <= rb) as Hrb by (unfold rb; nia).
  assert (0 <= frames * 1000 / samples c <= frames * 1000) as Hq.
  { split; [apply Z.div_pos; lia|apply Z.div_le_upper_bound; nia]. }
  unfold pcmchunk_shaveoff. fold rb. rewrite (s32_small rb) by lia.
  rewrite (proj2 (Z.ltb_ge _ 0)) by lia. rewrite Hd, rd_fits by lia.
  rewrite (s32_small (frames * 1000)), (u32_small (frames * 1000)) by lia. unfold cdiv.
  rewrite (proj2 (Z.eqb_neq (samples c) 0)), Z.quot_div_nonneg by lia.
  unfold mbind, res_bind, mret, res_ret. rewrite (s32_small (_ / _)) by lia.
  destruct (timeAddMs_spec (mkTime (play_at_tv_sec c) (play_at_tv_nsec c)) (frames * 1000 / samples c))
    as (p & -> & Hp & Ep); [time_lia|lia|].
  assert (take (Z.to_nat (size c - rb)) (drop (Z.to_nat rb) d) = drop (Z.to_nat rb) d) as Etake.
  { apply take_ge. rewrite length_drop. lia. }
  eexists. split; [done|]. unfold ns, norm_ns, BILLION in *. simpl in *.
  rewrite (u32_small (tv_sec p)), (u32_small (tv_nsec p)), (u16_small (size c - rb)), Etake by lia.
  split; [done|]. split; [done|]. split; [done|]. split; [lia|]. split; simpl; try done; try lia.
  eexists. split; [done|]. rewrite length_drop. lia.
Qed.
End theorems.

(** A codec that answers every call with an error, for the examples. *)
#[export] Instance no_opus : OpusLib unit unit := {|
  opus_decoder_create _ _ := (0, Some tt);
  opus_encoder_create _ _ := (0, Some tt);
  opus_set_bitrate e _ := (0, e);
  opus_decode d _ out _ := (-1, out, d);
  opus_encode e _ _ out _ := (-1, out, e);
|}.
Definition no_ctx : opuscodec_ctx unit unit := mkOpus None None 0 0.

Definition demo_chunk : pcmChunk := mkChunk 1000 999000000 1000 2 2 8 CODEC_PCM (Some [1; 2; 3; 4; 5; 6; 7; 8]).

Lemma demo_chunk_ok : chunk_ok demo_chunk.
Proof.
  split; unfold is_byte; simpl; unfold CODEC_PCM; try lia.
  eexists. split; [done|]. reflexivity.
Qed.

Lemma empty_chunk_duration_witness :
  chunk_getduration_ms no_ctx (Some (get_emptychunk demo_chunk 5)) = Ok (5, Some (get_emptychunk demo_chunk 5), no_ctx).
Proof.
  apply (empty_chunk_duration no_ctx demo_chunk 5); first [reflexivity | simpl; lia].
Defined.

Lemma shaveoff_spec_witness :
  exists c', pcmchunk_shaveoff demo_chunk 1 = Ok c' /\ data c' = Some [5; 6; 7; 8] /\
    ns (chunk_get_play_at (Some c')) = 1001 * BILLION.
Proof.
  destruct (shaveoff_spec demo_chunk [1; 2; 3; 4; 5; 6; 7; 8] 1) as (c' & E & Hd & _ & _ & Hn & _).
  - exact demo_chunk_ok.
  - done.
  - simpl. lia.
  - simpl. unfold BILLION. lia.
  - simpl. lia.
  - lia.
  - lia.
  - simpl. lia.
  - exists c'. split; [exact E|]. split; [exact Hd|]. rewrite Hn. reflexivity.
Defined.
