(* ===== verification/Speed.v ===== *)
(** * alsaplayer.c: changing the speed of a chunk

    A chunk that is not played in time is stretched or compressed by a factor
    that is computed in floating point (Binary64.v).  libsoxr, which does it, is
    not part of the program: [soxr_oneshot] gives what the output buffer holds
    afterwards, whatever it was allocated with included. *)
From Stdlib Require Import SpecFloat.
From S2P Require Import Prelude.
From S2P Require Import Timespec.
From S2P Require Import Bytes.
From S2P Require Import PcmChunk.
From S2P Require Import Binary64.

(** [soxr_oneshot(irate, orate, channels, in, ilen, .., out, olen, ..)] with an
    output buffer of so many bytes. *)
Class SoxrLib := {
  soxr_oneshot (irate : Z) (orate : double) (channels : Z) (input : option bytes) (ilen olen capacity : Z) : bytes;
}.

Definition two : double := dbl_of 2.

(** alsaplayer.c:84-88 adjust_speed: the factor; [ms] is the duration of the chunk *)
Definition speed_factor (tdiff : timediff) (ms : Z) : double :=
  let t := s64 (s64 (tv_sec (td_time tdiff) * 100) + Z.quot (tv_nsec (td_time tdiff)) 100000) in
  let factor := dsub (dbl_of 1) (dmul (dbl_of (td_sign tdiff)) (ddiv (ddiv (dbl_of t) (dbl_of ms)) (dbl_of 10))) in
  let factor := if dlt two factor then two else factor in
  if dlt factor half then half else factor.

(** alsaplayer.c:41-58 adjust_speed_soxr *)
Definition adjust_speed_soxr `{!SoxrLib} (chunk : pcmChunk) (factor : double) : res pcmChunk :=
  let orate := dmul (dbl_of (samples chunk)) factor in
  olen ← size_of (dadd (ddiv (dmul (dbl_of (size chunk)) orate) (dbl_of (samples chunk))) half);
  capacity ← size_of (dadd (dmul (dbl_of (size chunk)) factor) (dbl_of (size chunk)));
  n ← cdiv (size chunk) (channels chunk);
  ilen ← cdiv n (frame_size chunk);
  let out := soxr_oneshot (samples chunk) orate (channels chunk) (data chunk) ilen olen capacity in
  mret (with_size (u16 olen) (with_data (Some out) chunk)).

(** ** The factor *)

(** Numbers and infinities. *)
Definition not_nan (x : double) : Prop := x <> S754_nan.

Lemma dbl_of_number z : not_nan (dbl_of z).
Proof. destruct (normalize_below z 0 (Z.max (Zdigits2 z) 0)) as (_ & H & _); [lia|lia|done]. Qed.

Lemma rounded_number s m e l : 0 <= m -> not_nan (binary_round_aux prec emax s m e l).
Proof. intros Hm. destruct (round_aux_below s m e l (Z.max (Zdigits2 m + e) 0)) as (_ & H & _); [done|lia|lia|done]. Qed.

Lemma dmul_number x y : not_nan x -> not_nan y ->
  match x, y with S754_infinity _, S754_zero _ | S754_zero _, S754_infinity _ => False | _, _ => True end ->
  not_nan (dmul x y).
Proof. intros Hx Hy. destruct x, y; try done. intros _. by apply rounded_number. Qed.

Lemma ddiv_number x s m e : not_nan x -> not_nan (ddiv x (S754_finite s m e)).
Proof.
  intros Hx. destruct x as [| | |s' m' e']; try done. unfold ddiv, SFdiv, SFdiv_core_binary.
  set (n := match _ with Z0 => _ | Zpos _ => _ | Zneg _ => _ end).
  assert (0 <= n) as Hn by (unfold n; destruct (_ - _); [lia|apply Z.shiftl_nonneg; lia|lia]).
  pose proof (Z_div_mod n (Zpos m) ltac:(lia)) as Hd. destruct (Z.div_eucl n (Zpos m)) as [q r].
  apply rounded_number. nia.
Qed.

Lemma dsub_number x y : match x with S754_finite _ _ _ | S754_zero _ => True | _ => False end -> not_nan y ->
  not_nan (dsub x y).
Proof.
  intros Hx Hy. destruct x as [[]| | |s m e], y as [[]| | |s' m' e']; try done. unfold dsub, SFsub.
  set (z := _ - _). set (ez := Z.min e e').
  by destruct (normalize_below z ez (Z.max (Zdigits2 z + ez) 0)) as (_ & H & _); [lia|lia|].
Qed.

Lemma dlt_total x y : not_nan x -> not_nan y -> dlt y x = false -> SFleb x y = true.
Proof.
  intros Hx Hy. unfold dlt, SFltb, SFleb.
  assert (SFcompare y x = CompOpp <$> SFcompare x y) as ->.
  { destruct x as [[]|[]| |[] m e], y as [[]|[]| |[] m' e']; try done; simpl; f_equal;
      rewrite (Z.compare_antisym e e'); destruct (e ?= e'); try done; simpl;
      rewrite <- (Pos.compare_cont_antisym m m' Eq : _ = Pos.compare_cont Eq m' m); by destruct (Pos.compare_cont Eq m m'). }
  destruct x as [[]|[]| |[] m e], y as [[]|[]| |[] m' e']; try done; simpl;
    destruct (e ?= e'); try done; simpl; destruct (Pos.compare_cont Eq m m'); done.
Qed.

Lemma speed_of_number tdiff ms : 0 < ms < 2 ^ 31 -> td_sign tdiff = 1 \/ td_sign tdiff = -1 ->
  not_nan (dsub (dbl_of 1) (dmul (dbl_of (td_sign tdiff)) (ddiv (ddiv (dbl_of
    (s64 (s64 (tv_sec (td_time tdiff) * 100) + Z.quot (tv_nsec (td_time tdiff)) 100000))) (dbl_of ms)) (dbl_of 10)))).
Proof.
  intros Hms Hs. set (t := s64 _). apply dsub_number; [done|].
  destruct (dbl_of_exact ms ltac:(lia)) as (m & e & -> & _).
  assert (not_nan (ddiv (ddiv (dbl_of t) (S754_finite false m e)) (dbl_of 10))) as Hq.
  { apply (ddiv_number _ false). by apply ddiv_number, dbl_of_number. }
  apply dmul_number; [apply dbl_of_number|done|]. by destruct Hs as [-> | ->].
Qed.
(** The factor as it is before and after it is limited. *)
Lemma clamp_range f : not_nan f ->
  let f := if dlt two f then two else f in
  let f := if dlt f half then half else f in
  SFleb half f = true /\ SFleb f two = true.
Proof.
  intros Hf. destruct (dlt two f) eqn:E2; [done|]. cbv zeta.
  destruct (dlt f half) eqn:E1; [done|]. split; by apply dlt_total.
Qed.

Definition has_digits (x : double) : Prop :=
  match x with S754_finite _ m _ => Zdigits2 (Zpos m) <= prec | _ => True end.

Lemma dsub_digits x y : has_digits x -> match x with S754_finite _ _ _ => True | _ => False end ->
  has_digits (dsub x y).
Proof.
  intros Hx Hf. destruct x as [| | |s m e], y as [| | |s' m' e']; try done. unfold dsub, SFsub.
  set (z := _ - _). set (ez := Z.min e e').
  destruct (normalize_below z ez (Z.max (Zdigits2 z + ez) 0)) as (_ & _ & H & _); [lia|lia|].
  unfold has_digits. destruct (binary_normalize _ _ z ez false) eqn:E; try done. by eapply H.
Qed.

Lemma two_value : two = S754_finite false 4503599627370496 (-51).
Proof. by vm_compute. Qed.

(** Within the limits a number is positive and below 4. *)
Lemma limited_below f : has_digits f -> SFleb half f = true -> SFleb f two = true -> below 2 f /\ sign_of f = false.
Proof.
  intros Hd H1 H2. destruct f as [[]|[]| |[] m e]; try done. split; [|done]. split; [exact Hd|].
  revert H2. rewrite two_value. unfold SFleb, SFcompare. unfold has_digits, prec in Hd.
  destruct (Z.compare_spec e (-51)); try done; lia.
Qed.

Lemma speed_factor_limits tdiff ms : 0 < ms < 2 ^ 31 -> td_sign tdiff = 1 \/ td_sign tdiff = -1 ->
  let f := speed_factor tdiff ms in
  SFleb half f = true /\ SFleb f two = true /\ below 2 f /\ sign_of f = false.
Proof.
  intros Hms Hs f. pose proof (speed_of_number tdiff ms Hms Hs) as Hn.
  destruct (clamp_range _ Hn) as [H1 H2]. split; [exact H1|]. split; [exact H2|].
  apply limited_below; [|exact H1|exact H2]. unfold f, speed_factor.
  destruct (dlt two _); [done|]. destruct (dlt _ half); [done|]. by apply dsub_digits.
Qed.

(** What libsoxr is asked for and what becomes of the chunk: [olen] is the length
    of the output, [room] the size of its memory. *)
Record resampled `{!SoxrLib} (ch : pcmChunk) (f : double) (olen room : Z) : Prop := {
  re_olen : size_of (dadd (ddiv (dmul (dbl_of (size ch)) (dmul (dbl_of (samples ch)) f))
                                (dbl_of (samples ch))) half) = Ok olen;
  re_room : size_of (dadd (dmul (dbl_of (size ch)) f) (dbl_of (size ch))) = Ok room;
  re_fits : 0 <= olen < 2 ^ 64 /\ 0 <= room < 2 ^ 64;
  re_chunk : adjust_speed_soxr ch f =
    Ok (with_size (u16 olen) (with_data (Some (soxr_oneshot (samples ch) (dmul (dbl_of (samples ch)) f)
      (channels ch) (data ch) (Z.quot (Z.quot (size ch) (channels ch)) (frame_size ch)) olen room)) ch));
}.

Lemma speed_resampled `{!SoxrLib} ch tdiff ms :
  0 < ms < 2 ^ 31 -> td_sign tdiff = 1 \/ td_sign tdiff = -1 ->
  0 <= size ch < 65536 -> 0 < samples ch < 2 ^ 32 -> channels ch <> 0 -> frame_size ch <> 0 ->
  exists olen room, resampled ch (speed_factor tdiff ms) olen room.
Proof.
  intros Hms Hs Hsz Hsm Hc Hf. destruct (speed_factor_limits tdiff ms Hms Hs) as (_ & _ & Hb & Hsg).
  set (f := speed_factor tdiff ms) in *.
  destruct (dbl_of_below (samples ch) 32 ltac:(lia) ltac:(lia)) as [Hb1 Hs1].
  destruct (dbl_of_below (size ch) 16 ltac:(lia) ltac:(lia)) as [Hb2 Hs2].
  destruct (dmul_below _ _ _ _ Hb1 Hb Hs1 Hsg ltac:(lia)) as [Hb3 Hs3].
  destruct (dmul_below _ _ _ _ Hb2 Hb3 Hs2 Hs3 ltac:(lia)) as [Hb4 Hs4].
  destruct (dbl_of_exact (samples ch) ltac:(lia)) as (m & e & Es & _ & Hme).
  assert (1 <= Zdigits2 (Zpos m) + e) as Hge by (rewrite Hme, Zdigits2_log2 by lia; pose proof (Z.log2_nonneg (samples ch)); lia).
  destruct (ddiv_below _ _ m e Hb4 Hs4 Hge ltac:(lia)) as [Hb5 Hs5]. rewrite <- Es in Hb5, Hs5.
  destruct (dadd_below _ 0 _ half Hb5 ltac:(by vm_compute) Hs5 eq_refl ltac:(lia)) as [Hb6 Hs6].
  destruct (dmul_below _ _ _ _ Hb2 Hb Hs2 Hsg ltac:(lia)) as [Hb7 Hs7].
  destruct (dadd_below _ _ _ _ Hb7 Hb2 Hs7 Hs2 ltac:(lia)) as [Hb8 Hs8].
  apply (below_weaken _ 64) in Hb6, Hb8; [|lia..].
  destruct (size_of_below _ Hb6 Hs6) as (olen & E1 & Ho). destruct (size_of_below _ Hb8 Hs8) as (room & E2 & Hr).
  exists olen, room. split; [exact E1|exact E2|done|].
  unfold adjust_speed_soxr, mbind, res_bind, mret, res_ret, cdiv. rewrite E1, E2.
  by rewrite !(proj2 (Z.eqb_neq _ 0)) by done.
Qed.

Lemma speed_total `{!SoxrLib} ch tdiff ms :
  0 < ms < 2 ^ 31 -> td_sign tdiff = 1 \/ td_sign tdiff = -1 ->
  0 <= size ch < 65536 -> 0 < samples ch < 2 ^ 32 -> channels ch <> 0 -> frame_size ch <> 0 ->
  exists n out, adjust_speed_soxr ch (speed_factor tdiff ms) = Ok (with_size n (with_data (Some out) ch)) /\
    0 <= n < 65536.
Proof.
  intros Hms Hs Hsz Hsm Hc Hf. destruct (speed_resampled ch tdiff ms) as (olen & room & []); [done..|].
  eexists _, _. split; [done|]. apply u16_range.
Qed.

(** C18: a chunk's speed is changed by a factor between 1/2 and 2, and the
    change always goes through. For every time difference with a sign of 1 or -1
    and every duration from 1 ms to below 2^31 ms the factor is a number within
    these limits, and it is 1 without a difference of at least 0.1 ms. For every
    chunk with a sample rate of 32 bits, channels and a frame size that are not
    0, and a size of 16 bits, the length of the output and the size of the
    memory for it, which are computed in floating point, are in the range of
    size_t; libsoxr gets the number of whole frames of the chunk, that length
    and that memory; and the result is the chunk with the new data, all other
    fields as they were, and the length for its size. The size is cut to 16
    bits: a chunk of 40000 bytes that is played at half speed claims to have
    14464 ([doubled_size_wraps]). *)
Theorem speed_limited `{!SoxrLib} ch tdiff ms :
  0 < ms < 2 ^ 31 -> td_sign tdiff = 1 \/ td_sign tdiff = -1 ->
  0 <= size ch < 65536 -> 0 < samples ch < 2 ^ 32 -> channels ch <> 0 -> frame_size ch <> 0 ->
  let f := speed_factor tdiff ms in
  SFleb half f = true /\ SFleb f two = true /\
  (0 <= tv_nsec (td_time tdiff) < 100000 -> tv_sec (td_time tdiff) = 0 -> f = dbl_of 1) /\
  exists olen room, resampled ch f olen room.
Proof.
  intros Hms Hs Hsz Hsm Hc Hf f. destruct (speed_factor_limits tdiff ms Hms Hs) as (H1 & H2 & Hb & Hsg).
  fold f in H1, H2, Hb, Hsg. do 2 (split; [done|]). split.
  { intros Hn Hz. unfold f, speed_factor. rewrite Hz. rewrite Z.quot_small by lia.
    change (s64 (s64 (0 * 100) + 0)) with 0.
    destruct (dbl_of_exact ms ltac:(lia)) as (m & e & -> & _). by destruct Hs as [-> | ->]. }
  by apply speed_resampled.
Qed.

(** The size of a longer chunk is computed modulo 2^16. *)
Lemma doubled_size_wraps `{!SoxrLib} ch : size ch = 40000 -> samples ch = 48000 -> channels ch = 2 ->
  frame_size ch = 2 ->
  exists out, adjust_speed_soxr ch two = Ok (with_size 14464 (with_data (Some out) ch)).
Proof.
  intros H1 H2 H3 H4. unfold adjust_speed_soxr. rewrite H1, H2, H3, H4.
  assert (size_of (dadd (ddiv (dmul (dbl_of 40000) (dmul (dbl_of 48000) two)) (dbl_of 48000)) half) = Ok 80000)
    as -> by (vm_compute; reflexivity).
  assert (size_of (dadd (dmul (dbl_of 40000) two) (dbl_of 40000)) = Ok 120000) as -> by (vm_compute; reflexivity).
  by eexists.
Qed.

(** The seconds of the difference are taken for hundredths of one and added to
    tenths of milliseconds: a chunk of 100 ms that would end 999 ms late is
    halved, one that would end a second late is shortened by a tenth. *)
Lemma seconds_underrated :
  speed_factor (mkDiff (mkTime 0 999000000) 1) 100 = half /\
  speed_factor (mkDiff (mkTime 1 0) 1) 100 = dsub (dbl_of 1) (ddiv (dbl_of 1) (dbl_of 10)).
Proof. split; vm_compute; reflexivity. Qed.

Definition echo : SoxrLib := {| soxr_oneshot _ _ _ input _ _ _ := default [] input |}.

(** A chunk of 10 ms that is 1 ms early, and one that is in time. *)
Lemma speed_limited_witness :
  SFleb half (speed_factor (mkDiff (mkTime 0 1000000) (-1)) 10) = true /\
  SFleb (speed_factor (mkDiff (mkTime 0 1000000) (-1)) 10) two = true /\
  speed_factor (mkDiff (mkTime 0 99999) 1) 10 = dbl_of 1.
Proof.
  destruct (@speed_limited echo (mkChunk 0 0 48000 2 2 1920 CODEC_PCM (Some (zeros 1920)))
    (mkDiff (mkTime 0 1000000) (-1)) 10) as (H1 & H2 & _); simpl; try lia.
  destruct (@speed_limited echo (mkChunk 0 0 48000 2 2 1920 CODEC_PCM (Some (zeros 1920)))
    (mkDiff (mkTime 0 99999) 1) 10) as (_ & _ & H3 & _); simpl; try lia.
  split; [exact H1|]. split; [exact H2|]. apply H3; simpl; lia.
Defined.
