(* ===== verification/Intercom.v ===== *)
(** * intercom_common.h, intercom.c and the wire format of the intercom protocol

    The header of a packet, nonces, the memory of recent packets, and the
    functions of intercom_client.c and intercom_srv.c that write and read
    packets.  A received packet is the whole receive buffer of [mtu] bytes
    together with the number of bytes that arrived; what lies behind them is
    whatever was received before. *)
From S2P Require Import Prelude.
From S2P Require Import Bytes.
From S2P Require Import PcmChunk.

(** ** Data *)

(** intercom_common.h:16-16 PACKET_FORMAT_VERSION *)
Definition PACKET_FORMAT_VERSION : Z := 1.
(** intercom_common.h:18-18 INTERCOM_MAX_RECENT *)
Definition INTERCOM_MAX_RECENT : Z := 1000.
(** intercom_common.h:19-19 NONCE_MAX *)
Definition NONCE_MAX : Z := 4294967295.
(** intercom_common.h:21-21 CLIENT_OPERATION: the packet types *)
Definition CLIENT_OPERATION : Z := 0.
(** intercom_common.h:21-21 AUDIO_DATA *)
Definition AUDIO_DATA : Z := 1.
(** intercom_common.h:21-21 SERVER_OPERATION *)
Definition SERVER_OPERATION : Z := 2.
(** intercom_common.h:22-22 REQUEST: the segments of a client operation *)
Definition REQUEST : Z := 0.
(** intercom_common.h:22-22 HELLO *)
Definition HELLO : Z := 1.
(** intercom_common.h:28-28 CLIENT_STOP: the segments of a server operation *)
Definition CLIENT_STOP : Z := 1.
(** intercom_common.h:28-28 CLIENT_VOLUME *)
Definition CLIENT_VOLUME : Z := 2.

(** intercom_common.h:30-35 intercom_packet_hdr: [clientid] and [nonce] are in
    network byte order. *)
Record intercom_packet_hdr := mkHdr { version : Z; type : Z; clientid : Z; hnonce : Z }.

(** [sizeof(intercom_packet_hdr)] and [sizeof(intercom_packet_audio)] *)
Definition HDR_SIZE : Z := 8.
Definition AUDIO_HDR_SIZE : Z := 10.

(** packet_types.h:3-7 audio_packet *)
Record audio_packet := mkAp { ap_data : option bytes; ap_len : Z; ap_nonce : Z }.

(** [{.nonce = n}] *)
Definition ap_key (n : Z) : audio_packet := mkAp None 0 n.

(** The header as it lies in memory, and read from a buffer. *)
Definition hdr_bytes (h : intercom_packet_hdr) : bytes :=
  le_bytes 1 (version h) ++ le_bytes 1 (type h) ++ le_bytes 2 (clientid h) ++ le_bytes 4 (hnonce h).

Definition hdr_at (packet : bytes) : res intercom_packet_hdr :=
  v ← rd8 packet 0; t ← rd8 packet 1; c ← rd16 packet 2; n ← rd32 packet 4; mret (mkHdr v t c n).

(** ** intercom.c *)

(** intercom.c:8-8 get_nonce: the nonce in network byte order, and the counter
    it was taken from. *)
Definition get_nonce (nonce : option Z) : Z * option Z :=
  match nonce with
  | Some n => (htonl (n mod NONCE_MAX), Some (u32 (n + 1)))
  | None => (htonl 0, None)
  end.

(** intercom.c:10-16 cmp_audiopacket *)
Definition cmp_audiopacket (ap1 ap2 : audio_packet) : Z :=
  if ap_nonce ap1 >? ap_nonce ap2 then 1 else if ap_nonce ap1 <? ap_nonce ap2 then -1 else 0.

(** intercom.c:18-24 assemble_header: the header, its size, and the counter. *)
Definition assemble_header (ty : Z) (nonce : option Z) (cid : Z) : intercom_packet_hdr * Z * option Z :=
  let '(n, nonce) := get_nonce nonce in
  (mkHdr PACKET_FORMAT_VERSION ty (htons cid) n, HDR_SIZE, nonce).

(** What [recvfrom] returns: the receive buffer, of [mtu] bytes, the number of
    bytes received, the sender's address and port. *)
Inductive received :=
  | RecvError
  | Received (buf : bytes) (count peer port : Z).

(** intercom.c:38-46 intercom_recently_seen: the index starts at the last packet. *)
Definition intercom_recently_seen (recent : list intercom_packet_hdr) (h : intercom_packet_hdr) : bool :=
  existsb (fun r => (hnonce r =? hnonce h) && (type r =? type h)) (drop (length recent - 1) recent).

(** intercom.c:50-50 intercom_recently_seen_add: the loop *)
Fixpoint trim_recent (recent : list intercom_packet_hdr) : list intercom_packet_hdr :=
  if Z.of_nat (length recent) >? INTERCOM_MAX_RECENT then
    match recent with [] => [] | _ :: recent => trim_recent recent end
  else recent.

(** intercom.c:48-53 intercom_recently_seen_add *)
Definition intercom_recently_seen_add (recent : list intercom_packet_hdr) (h : intercom_packet_hdr)
  : list intercom_packet_hdr := trim_recent recent ++ [h].

(** The datagram handed to [sendto]; whether it arrives is not known to the
    sender. *)
Record datagram := mkDgram { dg_to : Z; dg_port : Z; dg_data : bytes }.

(** vector.h:170-176 VECTOR_LSEARCH, for the vectors of audio packets: the index
    of the first element that compares equal. *)
Definition lsearch (key : audio_packet) (v : list audio_packet) : option (nat * audio_packet) :=
  list_find (fun a => cmp_audiopacket key a = 0) v.

(** ** Client operations: written by intercom_client.c, read by intercom_srv.c *)

(** intercom_client.c:309-315 assemble_request *)
Definition assemble_request (packet : bytes) (off nonce : Z) : res (bytes * Z) :=
  p ← wr8 packet off REQUEST;
  p ← wr8 p (off + 1) 6;
  p ← wr32 p (off + 2) (htonl nonce);
  mret (p, 6).

(** intercom_client.c:69-79 assemble_hello *)
Definition assemble_hello (packet : bytes) (off nodeid latency_ms volume : Z) : res (bytes * Z) :=
  p ← wr8 packet off HELLO;
  p ← wr8 p (off + 1) 9;
  p ← wr16 p (off + 2) (htons nodeid);
  p ← wr32 p (off + 4) (htonl latency_ms);
  p ← wr8 p (off + 8) volume;
  mret (p, 9).

(** intercom_srv.c:11-16 parse_request: the nonce, and the length of the segment *)
Definition parse_request (packet : bytes) (off : Z) : res (Z * Z) :=
  n ← rd32 packet (off + 2); l ← rd8 packet (off + 1); mret (ntohl n, l).

(** intercom_srv.c:18-27 parse_hello: the client's id, latency and volume, and
    the length of the segment *)
Definition parse_hello (packet : bytes) (off : Z) : res (Z * Z * Z * Z) :=
  i ← rd16 packet (off + 2); t ← rd32 packet (off + 4); v ← rd8 packet (off + 8);
  l ← rd8 packet (off + 1); mret (ntohs i, ntohl t, v, l).

(** intercom_client.c:233-238 get_nonce_from_tlv *)
Definition get_nonce_from_tlv (packet : bytes) (off : Z) : res Z :=
  n ← rd32 packet (off + 2); mret (ntohl n).

(** ** Server operations: written by intercom_srv.c, read by intercom_client.c *)

(** intercom_srv.c:73-78 assemble_volume *)
Definition assemble_volume (packet : bytes) (off volume : Z) : res (bytes * Z) :=
  p ← wr8 packet off CLIENT_VOLUME; p ← wr8 p (off + 1) 3; p ← wr8 p (off + 2) volume; mret (p, 3).

(** intercom_srv.c:80-84 assemble_stop *)
Definition assemble_stop (packet : bytes) (off : Z) : res (bytes * Z) :=
  p ← wr8 packet off CLIENT_STOP; p ← wr8 p (off + 1) 2; mret (p, 2).

(** intercom_client.c:41-44 parse_volume *)
Definition parse_volume (packet : bytes) (off : Z) : res (Z * Z) :=
  v ← rd8 packet (off + 2); l ← rd8 packet (off + 1); mret (v, l).

(** intercom_client.c:271-271 tlv_get_length *)
Definition tlv_get_length (packet : bytes) (off : Z) : res Z := rd8 packet (off + 1).

(** ** Audio packets *)

(** intercom_srv.c:29-34 assemble16 *)
Definition assemble16 (packet : bytes) (off src : Z) : res (bytes * Z) :=
  p ← wr16 packet off (htons src); mret (p, off + 2).

(** intercom_srv.c:36-41 assemble32 *)
Definition assemble32 (packet : bytes) (off src : Z) : res (bytes * Z) :=
  p ← wr32 packet off (htonl src); mret (p, off + 4).

(** intercom_srv.c:111-129 intercom_send_audio: the packet for a chunk. *)
Definition assemble_audio (chunk : pcmChunk) (nonce bufferms : Z) : res (bytes * Z * option Z) :=
  let packet := zeros (AUDIO_HDR_SIZE + CHUNK_HEADER_SIZE + size chunk) in
  let '(h, off, nonce) := assemble_header AUDIO_DATA (Some nonce) 0 in
  p ← wr packet 0 (hdr_bytes h);
  p ← wr16 p 8 (htons bufferms);
  let off := off + 2 in
  '(p, off) ← assemble32 p off (play_at_tv_sec chunk);
  '(p, off) ← assemble32 p off (play_at_tv_nsec chunk);
  '(p, off) ← assemble32 p off (samples chunk);
  p ← wr8 p off (frame_size chunk);
  p ← wr8 p (off + 1) (channels chunk);
  '(p, off) ← assemble16 p (off + 2) (size chunk);
  p ← wr8 p off (codec chunk);
  match data chunk with
  | None => Fault NullDeref
  | Some d =>
      d ← rd d 0 (Z.to_nat (size chunk));
      p ← wr p (off + 1) d;
      mret (p, off + 1 + size chunk, nonce)
  end.

(** The metadata of a chunk that lies in a packet, as the cast of a pointer into
    the packet to [pcmChunk] reads it. *)
Definition chunk_at (packet : bytes) (off : Z) : res pcmChunk :=
  sec ← rd32 packet off; nsec ← rd32 packet (off + 4); smp ← rd32 packet (off + 8);
  fs ← rd8 packet (off + 12); ch ← rd8 packet (off + 13); sz ← rd16 packet (off + 14);
  co ← rd8 packet (off + 16);
  mret (mkChunk sec nsec smp fs ch sz co None).

(** intercom_client.c:378-388 intercom_handle_audio: the chunk of a packet. *)
Definition parse_audio (packet : bytes) : res pcmChunk :=
  meta ← chunk_at packet AUDIO_HDR_SIZE;
  let chunk := chunk_ntoh (chunk_copy_meta (mkChunk 0 0 0 0 0 0 0 None) meta) in
  d ← rd packet (CHUNK_HEADER_SIZE + AUDIO_HDR_SIZE) (Z.to_nat (size chunk));
  mret (with_data (Some d) chunk).

(** ** Recent packets *)

Lemma trim_recent_suffix l : exists k, trim_recent l = drop k l /\ Z.of_nat (length (trim_recent l)) <= INTERCOM_MAX_RECENT.
Proof.
  induction l as [|x l (k & E & Hl)]; [by exists 0%nat|].
  simpl. rewrite Z.gtb_ltb. destruct (Z.ltb_spec INTERCOM_MAX_RECENT (Z.of_nat (S (length l)))).
  - exists (S k). done.
  - exists 0%nat. split; [done|]. simpl. lia.
Qed.

Lemma recently_seen_snoc l r h :
  intercom_recently_seen (l ++ [r]) h = (hnonce r =? hnonce h) && (type r =? type h).
Proof.
  unfold intercom_recently_seen. rewrite length_app. simpl.
  replace (length l + 1 - 1)%nat with (length l) by lia.
  rewrite drop_app_length. simpl. by rewrite orb_false_r.
Qed.

(** C36: the memory of recent packets keeps at most 1001 headers, the newest
    last, but a packet is recognised as seen only when it repeats the packet
    remembered last: any other packet in between makes it look new. *)
Theorem recently_seen_spec l h :
  Z.of_nat (length (intercom_recently_seen_add l h)) <= INTERCOM_MAX_RECENT + 1 /\
  (exists k, intercom_recently_seen_add l h = drop k l ++ [h]) /\
  (forall h', intercom_recently_seen (intercom_recently_seen_add l h) h' = true <->
              hnonce h' = hnonce h /\ type h' = type h) /\
  (forall h', hnonce h' <> hnonce h ->
     intercom_recently_seen (intercom_recently_seen_add (intercom_recently_seen_add l h) h') h = false).
Proof.
  unfold intercom_recently_seen_add at 1 2. destruct (trim_recent_suffix l) as (k & E & Hl).
  split; [rewrite length_app; simpl; lia|]. split; [exists k; by rewrite E|]. split.
  - intros h'. unfold intercom_recently_seen_add. rewrite recently_seen_snoc, andb_true_iff, !Z.eqb_eq. naive_solver.
  - intros h' Hne. unfold intercom_recently_seen_add. rewrite recently_seen_snoc.
    by rewrite (proj2 (Z.eqb_neq _ _)).
Qed.

(** ** Nonces *)

(** The nonces a counter hands out are its successive values, except at the
    end of its range: the remainder is taken by [NONCE_MAX] itself, so
    [NONCE_MAX] is never sent and 0 is sent twice in a row. *)
Theorem get_nonce_spec n :
  0 <= n < 4294967296 ->
  let sent n := ntohl (get_nonce (Some n)).1 in
  (n < NONCE_MAX -> sent n = n /\ (get_nonce (Some n)).2 = Some (n + 1)) /\
  sent n <> NONCE_MAX /\
  (n = NONCE_MAX -> sent n = 0 /\ (get_nonce (Some n)).2 = Some 0 /\ sent 0 = 0).
Proof.
  intros Hn sent. unfold sent, get_nonce, NONCE_MAX in *; simpl fst; simpl snd.
  pose proof (Z.mod_pos_bound n 4294967295). rewrite !ntohl_htonl by lia.
  split; [|split].
  - intros Hlt. rewrite Z.mod_small, u32_small by lia. done.
  - lia.
  - intros ->. by vm_compute.
Qed.

(** ** The wire format *)

Definition audio_fields (c : pcmChunk) (nonce bufferms : Z) (d : bytes) : list bytes :=
  [le_bytes 1 PACKET_FORMAT_VERSION; le_bytes 1 AUDIO_DATA; le_bytes 2 (htons 0);
   le_bytes 4 (htonl (nonce mod NONCE_MAX)); le_bytes 2 (htons bufferms);
   le_bytes 4 (htonl (play_at_tv_sec c)); le_bytes 4 (htonl (play_at_tv_nsec c));
   le_bytes 4 (htonl (samples c)); le_bytes 1 (frame_size c); le_bytes 1 (channels c);
   le_bytes 2 (htons (size c)); le_bytes 1 (codec c); d].

Lemma assemble_audio_take c nonce bufferms d : data c = Some d -> 0 <= size c <= Z.of_nat (length d) ->
  assemble_audio c nonce bufferms =
    Ok (concat (audio_fields c nonce bufferms (take (Z.to_nat (size c)) d)), 27 + size c, Some (u32 (nonce + 1))).
Proof.
  intros Hd Hl. unfold assemble_audio, assemble_header, get_nonce, AUDIO_HDR_SIZE, CHUNK_HEADER_SIZE, HDR_SIZE.
  set (z := zeros _). assert (length z = 27 + Z.to_nat (size c))%nat as Hz.
  { pose proof (length_zeros (10 + 17 + size c)). unfold z. lia. }
  unfold assemble32, assemble16, wr32, wr16, wr8, mbind, res_bind, mret, res_ret.
  change z with ([] ++ z). repeat wr_step.
  rewrite Hd, rd_fits, drop_0 by lia. set (d' := take _ d).
  assert (length d' = Z.to_nat (size c)) as Hd' by (unfold d'; rewrite length_take; lia). repeat wr_step.
  rewrite drop_ge by (rewrite !length_drop, !length_le_bytes; simpl; lia).
  replace (8 + 2 + 4 + 4 + 4 + 2 + 2 + 1 + size c) with (27 + size c) by lia.
  reflexivity.
Qed.

Lemma assemble_audio_fields c nonce bufferms d : chunk_ok c -> data c = Some d ->
  assemble_audio c nonce bufferms =
    Ok (concat (audio_fields c nonce bufferms d), 27 + size c, Some (u32 (nonce + 1))).
Proof.
  intros [] Hd. destruct co_data as (d' & Hd' & Hl). assert (d' = d) as -> by congruence.
  rewrite (assemble_audio_take c nonce bufferms d), take_ge by (done || lia). done.
Qed.

Lemma concat_tail l (tail : bytes) : concat l ++ tail = concat (l ++ [tail]).
Proof. by rewrite concat_app; simpl; rewrite app_nil_r. Qed.

Lemma hdr_at_fields v t c n rest : is_byte v -> is_byte t -> 0 <= c < 65536 -> 0 <= n < 4294967296 ->
  hdr_at (concat (le_bytes 1 v :: le_bytes 1 t :: le_bytes 2 c :: le_bytes 4 n :: rest)) =
    Ok (mkHdr v t c n).
Proof.
  intros. unfold hdr_at, mbind, res_bind.
  field (@nil bytes). field [le_bytes 1 v]. field [le_bytes 1 v; le_bytes 1 t].
  by field [le_bytes 1 v; le_bytes 1 t; le_bytes 2 c].
Qed.

(** The metadata of the chunk in an audio packet. *)
Lemma chunk_at_audio c nonce bufferms d tail : chunk_ok c ->
  chunk_at (concat (audio_fields c nonce bufferms d ++ tail)) AUDIO_HDR_SIZE =
    Ok (with_data None (chunk_hton c)).
Proof.
  intros []. unfold chunk_at, mbind, res_bind, AUDIO_HDR_SIZE.
  pose (F := audio_fields c nonce bufferms d).
  field (take 5 F). field (take 6 F). field (take 7 F). field (take 8 F). field (take 9 F).
  field (take 10 F). by field (take 11 F).
Qed.

Lemma audio_wire c nonce bufferms tail :
  chunk_ok c -> 0 <= nonce < 4294967296 -> 0 <= bufferms < 65536 ->
  exists p, assemble_audio c nonce bufferms = Ok (p, 27 + size c, Some (u32 (nonce + 1))) /\
    Z.of_nat (length p) = 27 + size c /\
    parse_audio (p ++ tail) = Ok c /\
    hdr_at (p ++ tail) = Ok (mkHdr PACKET_FORMAT_VERSION AUDIO_DATA 0 (htonl (nonce mod NONCE_MAX))) /\
    rd16 (p ++ tail) 8 = Ok (htons bufferms).
Proof.
  intros Hc Hn Hb. pose proof Hc as []. destruct co_data as (d & Hd & Hl).
  exists (concat (audio_fields c nonce bufferms d)).
  rewrite (assemble_audio_fields c nonce bufferms d) by done. rewrite concat_tail.
  split; [done|]. split; [|split; [|split]].
  - unfold audio_fields. cbn [concat]. rewrite !length_app, !length_le_bytes. simpl. lia.
  - unfold parse_audio. rewrite chunk_at_audio by done. unfold mbind, res_bind, mret, res_ret.
    assert (chunk_ntoh (chunk_copy_meta (mkChunk 0 0 0 0 0 0 0 None) (with_data None (chunk_hton c)))
      = with_data None c) as ->.
    { destruct c. unfold chunk_hton, chunk_ntoh, chunk_copy_meta, with_data; simpl in *.
      by rewrite !ntohl_htonl, !ntohs_htons by done. }
    erewrite (rd_field (take 12 (audio_fields c nonce bufferms d)) d [tail]);
      [|reflexivity|reflexivity|simpl; lia]. destruct c. unfold with_data. simpl in *. by rewrite Hd.
  - apply hdr_at_fields; [done|done|done|apply htonl_range].
  - by field (take 4 (audio_fields c nonce bufferms d)).
Qed.

(** C22: an audio packet survives the wire.  For every well-formed chunk the
    server's packet is [27 + size] bytes long, and the client, reading it from
    the front of its receive buffer whatever lies behind it, gets the same chunk
    back, with the header's type and nonce and the server's buffer length. *)
Theorem audio_roundtrip c nonce bufferms tail :
  chunk_ok c -> 0 <= nonce < 4294967296 -> 0 <= bufferms < 65536 ->
  exists p, assemble_audio c nonce bufferms = Ok (p, 27 + size c, Some (u32 (nonce + 1))) /\
    Z.of_nat (length p) = 27 + size c /\
    parse_audio (p ++ tail) = Ok c /\
    hdr_at (p ++ tail) = Ok (mkHdr PACKET_FORMAT_VERSION AUDIO_DATA 0 (htonl (nonce mod NONCE_MAX))) /\
    rd16 (p ++ tail) 8 = Ok (htons bufferms).
Proof. apply audio_wire. Qed.

(** *** Segments *)

(** The buffer after writing a segment at the end of [pre], as fields. *)
Ltac segment_written fs :=
  eexists (concat fs); split;
  [repeat f_equal; cbn [concat]; by rewrite ?app_nil_r, <- ?app_assoc|];
  split; [len_solve|].

Lemma request_segment p off nonce : 0 <= off -> off + 6 <= Z.of_nat (length p) ->
  0 <= nonce < 4294967296 ->
  exists p', assemble_request p off nonce = Ok (p', 6) /\ length p' = length p /\
    rd8 p' off = Ok REQUEST /\ parse_request p' off = Ok (nonce, 6) /\
    get_nonce_from_tlv p' off = Ok nonce.
Proof.
  intros H0 Hl Hn. destruct (segment_at p off 6) as (pre & rest & -> & -> & Hr); [done|lia|].
  unfold assemble_request, wr8, wr32, mbind, res_bind, mret, res_ret. repeat wr_step.
  segment_written [pre; le_bytes 1 REQUEST; le_bytes 1 6; le_bytes 4 (htonl nonce);
                   drop 4 (drop 1 (drop 1 rest))].
  unfold parse_request, get_nonce_from_tlv, mbind, res_bind, mret, res_ret.
  split; [by field [pre]|].
  split; field [pre; le_bytes 1 REQUEST; le_bytes 1 6]; [field [pre; le_bytes 1 REQUEST]|];
    by rewrite ntohl_htonl.
Qed.

Lemma hello_segment p off nodeid latency volume : 0 <= off -> off + 9 <= Z.of_nat (length p) ->
  0 <= nodeid < 65536 -> 0 <= latency < 4294967296 -> is_byte volume ->
  exists p', assemble_hello p off nodeid latency volume = Ok (p', 9) /\ length p' = length p /\
    rd8 p' off = Ok HELLO /\ parse_hello p' off = Ok (nodeid, latency, volume, 9).
Proof.
  intros H0 Hl Hi Ht Hv. destruct (segment_at p off 9) as (pre & rest & -> & -> & Hr); [done|lia|].
  unfold assemble_hello, wr8, wr16, wr32, mbind, res_bind, mret, res_ret. repeat wr_step.
  segment_written [pre; le_bytes 1 HELLO; le_bytes 1 9; le_bytes 2 (htons nodeid);
    le_bytes 4 (htonl latency); le_bytes 1 volume; drop 1 (drop 4 (drop 2 (drop 1 (drop 1 rest))))].
  unfold parse_hello, mbind, res_bind, mret, res_ret. split; [by field [pre]|].
  field [pre; le_bytes 1 HELLO; le_bytes 1 9].
  field [pre; le_bytes 1 HELLO; le_bytes 1 9; le_bytes 2 (htons nodeid)].
  field [pre; le_bytes 1 HELLO; le_bytes 1 9; le_bytes 2 (htons nodeid); le_bytes 4 (htonl latency)].
  field [pre; le_bytes 1 HELLO]. by rewrite ntohl_htonl, ntohs_htons.
Qed.

Lemma volume_segment p off volume : 0 <= off -> off + 3 <= Z.of_nat (length p) -> is_byte volume ->
  exists p', assemble_volume p off volume = Ok (p', 3) /\ length p' = length p /\
    rd8 p' off = Ok CLIENT_VOLUME /\ parse_volume p' off = Ok (volume, 3).
Proof.
  intros H0 Hl Hv. destruct (segment_at p off 3) as (pre & rest & -> & -> & Hr); [done|lia|].
  unfold assemble_volume, wr8, mbind, res_bind, mret, res_ret. repeat wr_step.
  segment_written [pre; le_bytes 1 CLIENT_VOLUME; le_bytes 1 3; le_bytes 1 volume;
    drop 1 (drop 1 (drop 1 rest))].
  unfold parse_volume, mbind, res_bind, mret, res_ret. split; [by field [pre]|].
  field [pre; le_bytes 1 CLIENT_VOLUME; le_bytes 1 3]. by field [pre; le_bytes 1 CLIENT_VOLUME].
Qed.

Lemma stop_segment p off : 0 <= off -> off + 2 <= Z.of_nat (length p) ->
  exists p', assemble_stop p off = Ok (p', 2) /\ length p' = length p /\
    rd8 p' off = Ok CLIENT_STOP /\ tlv_get_length p' off = Ok 2.
Proof.
  intros H0 Hl. destruct (segment_at p off 2) as (pre & rest & -> & -> & Hr); [done|lia|].
  unfold assemble_stop, wr8, mbind, res_bind, mret, res_ret. repeat wr_step.
  segment_written [pre; le_bytes 1 CLIENT_STOP; le_bytes 1 2; drop 1 (drop 1 rest)].
  unfold tlv_get_length. split; [by field [pre]|]. by field [pre; le_bytes 1 CLIENT_STOP].
Qed.

(** C23: every segment one side writes is read back by the other: written into
    any buffer with room for it, at any offset, a request, a hello, a volume
    change and a stop keep their type, their fields and their length. *)
Theorem segment_roundtrip p off nonce nodeid latency volume :
  0 <= off -> off + 9 <= Z.of_nat (length p) ->
  0 <= nonce < 4294967296 -> 0 <= nodeid < 65536 -> 0 <= latency < 4294967296 -> is_byte volume ->
  (exists p', assemble_request p off nonce = Ok (p', 6) /\ length p' = length p /\
    rd8 p' off = Ok REQUEST /\ parse_request p' off = Ok (nonce, 6) /\
    get_nonce_from_tlv p' off = Ok nonce) /\
  (exists p', assemble_hello p off nodeid latency volume = Ok (p', 9) /\ length p' = length p /\
    rd8 p' off = Ok HELLO /\ parse_hello p' off = Ok (nodeid, latency, volume, 9)) /\
  (exists p', assemble_volume p off volume = Ok (p', 3) /\ length p' = length p /\
    rd8 p' off = Ok CLIENT_VOLUME /\ parse_volume p' off = Ok (volume, 3)) /\
  (exists p', assemble_stop p off = Ok (p', 2) /\ length p' = length p /\
    rd8 p' off = Ok CLIENT_STOP /\ tlv_get_length p' off = Ok 2).
Proof.
  intros. split; [apply request_segment; lia|]. split; [apply hello_segment; done|].
  split; [apply volume_segment; [done|lia|done]|apply stop_segment; lia].
Qed.

(** ** Concrete packets *)

Lemma get_nonce_spec_witness : ntohl (get_nonce (Some NONCE_MAX)).1 = 0.
Proof.
  destruct (get_nonce_spec NONCE_MAX) as (_ & _ & H); [unfold NONCE_MAX; lia|].
  by destruct (H eq_refl) as [H' _].
Defined.

Lemma audio_roundtrip_witness :
  exists p, assemble_audio demo_chunk 41 500 = Ok (p, 35, Some 42) /\
    parse_audio (p ++ [9; 9; 9]) = Ok demo_chunk.
Proof.
  destruct (audio_roundtrip demo_chunk 41 500 [9; 9; 9]) as (p & E & _ & H & _);
    [apply demo_chunk_ok|lia|lia|]. by exists p.
Defined.

Lemma segment_roundtrip_witness :
  exists p', assemble_request (zeros 17) 8 77 = Ok (p', 6) /\ parse_request p' 8 = Ok (77, 6).
Proof.
  destruct (segment_roundtrip (zeros 17) 8 77 3 100 55) as ((p' & E & _ & _ & H & _) & _);
    [lia|simpl; lia|lia|lia|lia|unfold is_byte; lia|]. by exists p'.
Defined.
