(* ===== verification/ClientState.v ===== *)
(** * The state of the client (snapcast.h, intercom_common.h, alsaplayer.h)

    The client is one process with global state [snapctx]; every handler is a
    computation of [M client].  This file holds the records, the accessors and
    the world the outside is seen through: the system clock, the results of name
    resolution, the sound device and the datagrams sent. *)
From S2P Require Import Prelude.
From S2P Require Import Timespec.
From S2P Require Import Bytes.
From S2P Require Import PQueue.
From S2P Require Import PcmChunk.
From S2P Require Import TaskHeap.
From S2P Require Import TaskSched.
From S2P Require Import Intercom.

(** ** Data *)

(** An IPv6 address, as a number. *)
Definition in6_addr := Z.

(** alsaplayer.h:43-79 alsaplayer_ctx: the handles of the ALSA library are part
    of the device. *)
Record alsaplayer_ctx := mkAlsa {
  mixer_max : Z;
  rate : Z;
  a_channels : Z;
  a_frame_size : Z;
  frames : Z;
  pollfd_count : Z;
  ufds : list Z;
  main_poll_fd : option (list Z);
  latency_ms : Z;
  overflow : option pcmChunk;
  initialized : bool;
  playing : bool;
  is_softvol : bool;
  softvol_level : Z;
  empty_chunks_in_row : Z;
  close_task : option addr;
}.

(** intercom_client.h:5-11 intercom_task: the owner of a packet that is sent
    repeatedly. *)
Record intercom_task := mkItask { it_packet : bytes; it_recipient : option in6_addr; it_retries_left : Z }.

(** The functions the client posts, with their data. *)
Inductive ctask :=
  | HelloTask (d : intercom_task)       (** hello_task, no cleanup *)
  | RequestTask (d : intercom_task)     (** request_task, free_intercom_task *)
  | UninitTask                          (** alsaplayer_uninit_task *)
  | DecodeFirst                         (** decode_first_input *)
  | ReinitTask                          (** intercom_reinit *)
  | ResumePolling (i : nat).            (** resume_polling, of the entry [i] of the poll set *)

(** intercom_common.h:77-91 intercom_ctx: the fields the client uses. *)
Record intercom_ctx := mkIctx {
  serverip : in6_addr;
  recent_packets : list intercom_packet_hdr;
  missing_packets : list audio_packet;
  i_fd : Z;
  port : Z;
  nodeid : Z;
  mtu : Z;
  lastreceviedseqno : Z;
  receivebuffer : option (PQueue pcmChunk);
  hello : option addr;
}.

(** What [gai_error] says about the resolution of the server's name. *)
Inductive dns_status := DnsInProgress | DnsCanceled | DnsDone (ip : in6_addr) | DnsError.

Section client.
Context {Q Dec Enc Dev : Type}.

(** snapcast.h:30-47 snapctx: with the globals [nonce] and [underrun] of the
    client and the world around it. *)
Record client := mkClient {
  ictx : intercom_ctx;
  alsa : alsaplayer_ctx;
  tasks : sched Q ctask;
  c_nonce : Z;
  bufferms : Z;
  underrun : bool;
  opuscodec : opuscodec_ctx Dec Enc;
  device : Dev;
  sent : list datagram;
  sysclk : nat -> timespec;
  systicks : nat;
  dns : nat -> dns_status;
  dnsticks : nat;
  sockets : nat -> Z;
}.

Definition set_ictx (x : intercom_ctx) (c : client) : client :=
  mkClient x (alsa c) (tasks c) (c_nonce c) (bufferms c) (underrun c) (opuscodec c) (device c)
    (sent c) (sysclk c) (systicks c) (dns c) (dnsticks c) (sockets c).
Definition set_alsa (x : alsaplayer_ctx) (c : client) : client :=
  mkClient (ictx c) x (tasks c) (c_nonce c) (bufferms c) (underrun c) (opuscodec c) (device c)
    (sent c) (sysclk c) (systicks c) (dns c) (dnsticks c) (sockets c).
Definition set_tasks (x : sched Q ctask) (c : client) : client :=
  mkClient (ictx c) (alsa c) x (c_nonce c) (bufferms c) (underrun c) (opuscodec c) (device c)
    (sent c) (sysclk c) (systicks c) (dns c) (dnsticks c) (sockets c).
Definition set_nonce (x : Z) (c : client) : client :=
  mkClient (ictx c) (alsa c) (tasks c) x (bufferms c) (underrun c) (opuscodec c) (device c)
    (sent c) (sysclk c) (systicks c) (dns c) (dnsticks c) (sockets c).
Definition set_bufferms (x : Z) (c : client) : client :=
  mkClient (ictx c) (alsa c) (tasks c) (c_nonce c) x (underrun c) (opuscodec c) (device c)
    (sent c) (sysclk c) (systicks c) (dns c) (dnsticks c) (sockets c).
Definition set_underrun (x : bool) (c : client) : client :=
  mkClient (ictx c) (alsa c) (tasks c) (c_nonce c) (bufferms c) x (opuscodec c) (device c)
    (sent c) (sysclk c) (systicks c) (dns c) (dnsticks c) (sockets c).
Definition set_opus (x : opuscodec_ctx Dec Enc) (c : client) : client :=
  mkClient (ictx c) (alsa c) (tasks c) (c_nonce c) (bufferms c) (underrun c) x (device c)
    (sent c) (sysclk c) (systicks c) (dns c) (dnsticks c) (sockets c).
Definition set_device (x : Dev) (c : client) : client :=
  mkClient (ictx c) (alsa c) (tasks c) (c_nonce c) (bufferms c) (underrun c) (opuscodec c) x
    (sent c) (sysclk c) (systicks c) (dns c) (dnsticks c) (sockets c).
Definition set_sent (x : list datagram) (c : client) : client :=
  mkClient (ictx c) (alsa c) (tasks c) (c_nonce c) (bufferms c) (underrun c) (opuscodec c) (device c)
    x (sysclk c) (systicks c) (dns c) (dnsticks c) (sockets c).
Definition systick (c : client) : client :=
  mkClient (ictx c) (alsa c) (tasks c) (c_nonce c) (bufferms c) (underrun c) (opuscodec c) (device c)
    (sent c) (sysclk c) (S (systicks c)) (dns c) (dnsticks c) (sockets c).
Definition dnstick (c : client) : client :=
  mkClient (ictx c) (alsa c) (tasks c) (c_nonce c) (bufferms c) (underrun c) (opuscodec c) (device c)
    (sent c) (sysclk c) (systicks c) (dns c) (S (dnsticks c)) (sockets c).

#[export] Instance client_sched : HasSched Q ctask client.
Proof. refine {| get_sched := tasks; set_sched := set_tasks |}; by intros; try destruct w. Defined.

(** ** The fields of the contexts *)

Definition upd_ictx (f : intercom_ctx -> intercom_ctx) : M client unit :=
  modify (fun c => set_ictx (f (ictx c)) c).
Definition upd_alsa (f : alsaplayer_ctx -> alsaplayer_ctx) : M client unit :=
  modify (fun c => set_alsa (f (alsa c)) c).

Definition with_recent r x := mkIctx (serverip x) r (missing_packets x) (i_fd x) (port x) (nodeid x)
  (mtu x) (lastreceviedseqno x) (receivebuffer x) (hello x).
Definition with_missing m x := mkIctx (serverip x) (recent_packets x) m (i_fd x) (port x) (nodeid x)
  (mtu x) (lastreceviedseqno x) (receivebuffer x) (hello x).
Definition with_lastseqno n x := mkIctx (serverip x) (recent_packets x) (missing_packets x) (i_fd x)
  (port x) (nodeid x) (mtu x) n (receivebuffer x) (hello x).
Definition with_receivebuffer b x := mkIctx (serverip x) (recent_packets x) (missing_packets x) (i_fd x)
  (port x) (nodeid x) (mtu x) (lastreceviedseqno x) b (hello x).
Definition with_hello t x := mkIctx (serverip x) (recent_packets x) (missing_packets x) (i_fd x)
  (port x) (nodeid x) (mtu x) (lastreceviedseqno x) (receivebuffer x) t.
Definition with_fd f x := mkIctx (serverip x) (recent_packets x) (missing_packets x) f
  (port x) (nodeid x) (mtu x) (lastreceviedseqno x) (receivebuffer x) (hello x).
Definition with_serverip i x := mkIctx i (recent_packets x) (missing_packets x) (i_fd x)
  (port x) (nodeid x) (mtu x) (lastreceviedseqno x) (receivebuffer x) (hello x).

(** [obtainsystime]: the [n]-th reading of the system clock. *)
Definition obtainsystime : M client timespec := fun c => Ok (sysclk c (systicks c), systick c).

(** [gai_error(dns_req[0])] *)
Definition gai_error : M client dns_status := fun c => Ok (dns c (dnsticks c), dnstick c).

(** [socket]: the descriptor of the socket that is opened after the [n]-th
    question to the resolver. *)
Definition new_socket : M client Z := fun c => Ok (sockets c (dnsticks c), c).

(** A computation on the codec. *)
Definition with_codec_ctx {A} (f : opuscodec_ctx Dec Enc -> res (A * opuscodec_ctx Dec Enc)) : M client A :=
  fun c => match f (opuscodec c) with
           | Ok (a, ctx) => Ok (a, set_opus ctx c)
           | Fault e => Fault e
           end.

(** intercom.c:26-36 intercom_send_packet_unicast *)
Definition intercom_send_packet_unicast (recipient : option in6_addr) (packet : bytes)
    (packet_len port : Z) : M client unit :=
  match recipient with
  | None => fail NullDeref
  | Some r =>
      d ← lift (rd packet 0 (Z.to_nat packet_len));
      modify (fun c => set_sent (sent c ++ [mkDgram r (u16 port) d]) c)
  end.
End client.
#[global] Arguments client : clear implicits.
