(* ===== verification/AlsaDevice.v ===== *)
(** * alsaplayer.c: opening and closing the sound device, volume

    libasound is not part of the program: a call is a value of [alsa_call] and
    the class [AlsaLib] gives its return code, its out parameter and the new
    state of the device.  The functions take the player's context as the source
    does, because client.c also runs them on a context of its own. *)
From Stdlib Require Import Ascii String.
From S2P Require Import Prelude.
From S2P Require Import Timespec.
From S2P Require Import Bytes.
From S2P Require Import CString.
From S2P Require Import PQueue.
From S2P Require Import PcmChunk.
From S2P Require Import TaskHeap.
From S2P Require Import TaskSched.
From S2P Require Import Intercom.
From S2P Require Import ClientState.

(** ** ALSA *)

Inductive alsa_call :=
  | PcmOpen | HwParamsMalloc | HwParamsAny | SetAccess | SetFormat (bytes_per_sample : Z)
  | SetChannels (n : Z) | SetRateNear (rate : Z) | GetPeriodTimeMax | SetPeriodTimeNear (us : Z)
  | SetBufferTimeNear (us : Z) | HwParams | GetPeriodSize | GetBufferSize | PollDescriptorsCount
  | SwParamsCurrent | SwSetAvailMin (n : Z) | SwSetStartThreshold (n : Z) | SwParams
  | PcmDelay | PcmWritei (data : bytes) (frames : Z) | PcmPrepare | PcmRecover (err : Z)
  | PcmNonblock | PcmDrain | PcmHwFree | PcmClose | ConfigFree
  | MixerOpen | MixerFindSelem | MixerGetMin | MixerGetMax | MixerGetVolume | MixerSetVolume (v : Z)
  | MixerClose.

Class AlsaLib (Dev : Type) := {
  alsa_do : alsa_call -> Dev -> Z * Z * Dev;
  snd_pcm_poll_descriptors : Dev -> Z -> Z * list Z;
}.

(** ** The time after which an unused device is closed

    [1.2 * bufferms] is computed in double precision.  The constant is below 1.2
    by less than one part in 2^54, so for a 16-bit [bufferms] the product rounds
    to the exact multiple of 0.2 when it is an integer, and is at least 0.19 away
    from any other integer: truncating it truncates [12 * bufferms / 10]. *)

(** alsaplayer.c:485-485 alsaplayer_init: [(snapctx.bufferms * 1.2) / 1000] *)
Definition close_timeout_s (bufferms : Z) : Z := 12 * bufferms / 10000.

(** alsaplayer.c:485-485 alsaplayer_init: [(int)(snapctx.bufferms * 1.2) % 1000] *)
Definition close_timeout_ms (bufferms : Z) : Z := (12 * bufferms / 10) mod 1000.

(** [round] of a quotient: half away from zero.  The double quotient of the
    source is off by less than the distance to the next half. *)
Definition round_quot (a b : Z) : Z :=
  Z.sgn a * Z.sgn b * ((2 * Z.abs a + Z.abs b) / (2 * Z.abs b)).

(** alsaplayer.c:17-17 PERIOD_TIME *)
Definition PERIOD_TIME : Z := 30000.

(** ** The devices *)

(** alsaplayer.h:37-41 pcm *)
Record pcm := mkPcm { pcm_name : option bytes; pcm_id : Z; pcm_description : bytes }.

(** What libasound says of one device: its name, description, and direction. *)
Record pcm_hint := mkHint { hint_name : option bytes; hint_descr : option bytes; hint_ioid : option bytes }.

(** alsaplayer.c:261-281 alsaplayer_pcm_list: the loop over the hints *)
Fixpoint list_outputs (idx : Z) (hints : list pcm_hint) : list pcm :=
  match hints with
  | [] => []
  | n :: hints =>
      if (if hint_ioid n is Some io then negb (bool_decide (io = str "Output")) else false)
      then list_outputs idx hints
      else mkPcm (hint_name n) idx (default [] (hint_descr n)) :: list_outputs (idx + 1) hints
  end.

(** alsaplayer.c:250-284 alsaplayer_pcm_list: the devices it lists; [None] when
    [snd_device_name_hint] fails *)
Definition alsaplayer_pcm_list (hints : option (list pcm_hint)) : list pcm :=
  match hints with None => [] | Some hints => list_outputs 0 hints end.

(** ** The player's context *)

Definition with_device (x : alsaplayer_ctx) (rate frames pollfd_count : Z) (ufds : list Z) :=
  mkAlsa (mixer_max x) rate (a_channels x) (a_frame_size x) frames pollfd_count ufds (main_poll_fd x)
    (latency_ms x) (overflow x) (initialized x) (playing x) (is_softvol x) (softvol_level x)
    (empty_chunks_in_row x) (close_task x).
Definition with_format (r c f : Z) (x : alsaplayer_ctx) :=
  mkAlsa (mixer_max x) r c f (frames x) (pollfd_count x) (ufds x) (main_poll_fd x)
    (latency_ms x) (overflow x) (initialized x) (playing x) (is_softvol x) (softvol_level x)
    (empty_chunks_in_row x) (close_task x).
Definition with_close_task (t : option addr) (x : alsaplayer_ctx) :=
  mkAlsa (mixer_max x) (rate x) (a_channels x) (a_frame_size x) (frames x) (pollfd_count x) (ufds x)
    (main_poll_fd x) (latency_ms x) (overflow x) (initialized x) (playing x) (is_softvol x)
    (softvol_level x) (empty_chunks_in_row x) t.
Definition with_main_fds (fds : option (list Z)) (x : alsaplayer_ctx) :=
  mkAlsa (mixer_max x) (rate x) (a_channels x) (a_frame_size x) (frames x) (pollfd_count x) (ufds x)
    fds (latency_ms x) (overflow x) (initialized x) (playing x) (is_softvol x)
    (softvol_level x) (empty_chunks_in_row x) (close_task x).
Definition with_initialized (i p : bool) (x : alsaplayer_ctx) :=
  mkAlsa (mixer_max x) (rate x) (a_channels x) (a_frame_size x) (frames x) (pollfd_count x) (ufds x)
    (main_poll_fd x) (latency_ms x) (overflow x) i p (is_softvol x) (softvol_level x)
    (empty_chunks_in_row x) (close_task x).
Definition with_overflow (o : option pcmChunk) (x : alsaplayer_ctx) :=
  mkAlsa (mixer_max x) (rate x) (a_channels x) (a_frame_size x) (frames x) (pollfd_count x) (ufds x)
    (main_poll_fd x) (latency_ms x) o (initialized x) (playing x) (is_softvol x) (softvol_level x)
    (empty_chunks_in_row x) (close_task x).
Definition with_playing (p : bool) (n : Z) (x : alsaplayer_ctx) :=
  mkAlsa (mixer_max x) (rate x) (a_channels x) (a_frame_size x) (frames x) (pollfd_count x) (ufds x)
    (main_poll_fd x) (latency_ms x) (overflow x) (initialized x) p (is_softvol x) (softvol_level x)
    n (close_task x).
Definition with_mixer (m : Z) (soft : bool) (l : Z) (x : alsaplayer_ctx) :=
  mkAlsa m (rate x) (a_channels x) (a_frame_size x) (frames x) (pollfd_count x) (ufds x)
    (main_poll_fd x) (latency_ms x) (overflow x) (initialized x) (playing x) soft l
    (empty_chunks_in_row x) (close_task x).

(** The addresses in the poll set of the main loop with the sign changed. *)
Fixpoint negate_fds (n : nat) (fds : list Z) : res (list Z) :=
  match n, fds with
  | O, _ => Ok fds
  | S n, fd :: fds => r ← negate_fds n fds; mret (- fd :: r)
  | S _, [] => Fault OutOfBounds
  end.

Section alsa.
Context {Q Dec Enc Dev : Type} `{!TimerQueue Q, !AlsaLib Dev}.
Abbreviation W := (client Q Dec Enc Dev).
Implicit Types (ctx : alsaplayer_ctx).

Definition snd (call : alsa_call) : M W (Z * Z) := fun c =>
  let '(rc, out, d) := alsa_do call (device c) in Ok ((rc, out), set_device d c).
Definition snd_ (call : alsa_call) : M W unit := snd call ;; skip.
Definition snd_out (call : alsa_call) : M W Z := '(_, out) ← snd call; mret out.

(** No task of the client that is dropped has a [cleanup] with an effect the
    model can see: [free_intercom_task] frees the task's data. *)
Definition ctask_cleanup (t : ctask) : M W unit := skip.

(** alsaplayer.c:287-293 alsaplayer_remove_task *)
Definition alsaplayer_remove_task ctx : M W alsaplayer_ctx :=
  (match close_task ctx with
   | Some t => drop_task ctask_cleanup (Some t)
   | None => skip
   end) ;;
  mret (with_close_task None ctx).

(** alsaplayer.c:295-319 alsaplayer_uninit: [close_task] keeps its value. *)
Definition alsaplayer_uninit ctx : M W alsaplayer_ctx :=
  if negb (initialized ctx) then snd_ ConfigFree ;; mret ctx
  else
    snd_ PcmNonblock ;; snd_ PcmDrain ;; snd_ PcmHwFree ;; snd_ PcmClose ;; snd_ ConfigFree ;;
    let ctx := with_initialized false false ctx in
    let ctx := with_device ctx (rate ctx) (frames ctx) (pollfd_count ctx) [] in
    ctx ← match main_poll_fd ctx with
          | None => mret ctx
          | Some fds =>
              fds ← lift (negate_fds (Z.to_nat (pollfd_count ctx)) fds);
              mret (with_main_fds (Some fds) ctx)
          end;
    (match close_task ctx with
     | Some t => drop_task ctask_cleanup (Some t)
     | None => skip
     end) ;;
    mret ctx.

(** alsaplayer.c:321-326 init_alsafd *)
Definition init_alsafd ctx : M W alsaplayer_ctx :=
  d ← gets device;
  let '(err, fds) := snd_pcm_poll_descriptors d (pollfd_count ctx) in
  if err <? 0 then fail ExitError
  else match main_poll_fd ctx with
       | None => fail NullDeref
       | Some main => main ← lift (wr main 0 fds); mret (with_main_fds (Some main) ctx)
       end.

(** alsaplayer.c:328-348 mixer_init: whether the mixer's element was found. *)
Definition mixer_init ctx : M W (bool * alsaplayer_ctx) :=
  snd_ MixerOpen ;;
  '(found, _) ← snd MixerFindSelem;
  if negb (found =? 0) then
    snd_ MixerGetMin ;;
    m ← snd_out MixerGetMax;
    mret (true, with_mixer m (is_softvol ctx) (softvol_level ctx) ctx)
  else mret (false, with_mixer (mixer_max ctx) true 100 ctx).

(** alsaplayer.c:350-358 mixer_uninit *)
Definition mixer_uninit : M W unit := snd_ MixerClose.

(** alsaplayer.c:360-373 obtain_volume *)
Definition obtain_volume ctx : M W (Z * alsaplayer_ctx) :=
  let ret := softvol_level ctx in
  if is_softvol ctx then mret (ret, ctx)
  else
    '(elem, ctx) ← mixer_init ctx;
    ret ← (if elem : bool then
             volume ← snd_out MixerGetVolume;
             if mixer_max ctx =? 0 then fail DivByZero
             else mret (u8 (round_quot (volume * 100) (mixer_max ctx)))
           else mret ret);
    mixer_uninit ;;
    mret (ret, ctx).

(** alsaplayer.c:375-384 adjustVolume *)
Definition adjustVolume ctx (volume : Z) : M W alsaplayer_ctx :=
  if is_softvol ctx then mret (with_mixer (mixer_max ctx) true volume ctx)
  else
    '(elem, ctx) ← mixer_init ctx;
    (if elem : bool then snd_ (MixerSetVolume (Z.quot (volume * mixer_max ctx) 100)) else skip) ;;
    mixer_uninit ;;
    mret ctx.

(** alsaplayer.c:386-488 alsaplayer_init: the return codes are compared with 0
    as unsigned numbers, so no failure of the device is noticed. *)
Definition alsaplayer_init ctx : M W alsaplayer_ctx :=
  let ctx := with_overflow None (with_playing false 0 ctx) in
  if initialized ctx then mret ctx
  else
    snd_ PcmOpen ;; snd_ HwParamsMalloc ;; snd_ HwParamsAny ;; snd_ SetAccess ;;
    (if (1 <=? a_frame_size ctx) && (a_frame_size ctx <=? 4) then skip else fail ExitError) ;;
    snd_ (SetFormat (a_frame_size ctx)) ;;
    snd_ (SetChannels (a_channels ctx)) ;;
    r ← snd_out (SetRateNear (rate ctx));
    tmp ← snd_out GetPeriodTimeMax;
    let tmp := if tmp >? PERIOD_TIME then PERIOD_TIME else tmp in
    let buffer_time := u32 (20 * tmp) in
    snd_ (SetPeriodTimeNear tmp) ;; snd_ (SetBufferTimeNear buffer_time) ;; snd_ HwParams ;;
    f ← snd_out GetPeriodSize;
    buffer_size ← snd_out GetBufferSize;
    '(count, _) ← snd PollDescriptorsCount;
    (if count >? 0 then skip else fail ExitBug) ;;
    d ← gets device;
    let '(err, fds) := snd_pcm_poll_descriptors d count in
    (if err <? 0 then fail ExitError else skip) ;;
    let ctx := with_device ctx r f count fds in
    snd_ SwParamsCurrent ;; snd_ (SwSetAvailMin f) ;; snd_ (SwSetStartThreshold (buffer_size / 2)) ;;
    snd_ SwParams ;;
    b ← gets bufferms;
    t ← post_task (close_timeout_s b) (close_timeout_ms b) UninitTask;
    mret (with_initialized true (playing ctx) (with_close_task (Some t) ctx)).

(** alsaplayer.c:490-499 is_alsafd *)
Definition is_alsafd (fd : Z) ctx : bool :=
  initialized ctx && existsb (Z.eqb fd) (take (Z.to_nat (pollfd_count ctx)) (ufds ctx)).

(** Running a function on the player of [snapctx]. *)
Definition on_alsa (f : alsaplayer_ctx -> M W alsaplayer_ctx) : M W unit :=
  ctx ← gets alsa; ctx ← f ctx; modify (set_alsa ctx).
End alsa.

(** ** A device that accepts every call, for the examples *)

#[export] Instance plain_alsa : AlsaLib unit := {|
  alsa_do call d :=
    (match call with PollDescriptorsCount | MixerFindSelem => 1 | PcmWritei _ n => n | _ => 0 end,
     match call with
     | SetRateNear r => r | GetPeriodTimeMax => 20000 | GetPeriodSize => 960
     | MixerGetMax => 200 | MixerGetVolume => 50 | _ => 0
     end, d);
  snd_pcm_poll_descriptors _ n := (n, replicate (Z.to_nat n) 5);
|}.

Definition demo_alsa : alsaplayer_ctx :=
  mkAlsa 0 0 0 0 0 0 [] (Some [-1; 3; 4]) 0 None false false false 0 0 None.

(** A client that waits for packets at 7 s on the monotonic and 1000 s on the
    system clock; its last packet had the number 40 and its buffer has room for
    20 chunks. *)
Definition demo_client : client forest unit unit unit :=
  mkClient
    (mkIctx 9 [] [mkAp None 0 42] 4 1704 3 1500 40 (Some (mkPQueue 20 [] receivebuffer_cmp)) None)
    demo_alsa (mkSched Nil ∅ None (fun _ => mkTime 7 0) 0) 5 500 false no_ctx tt []
    (fun _ => mkTime 1000 0) 0 (fun _ => DnsDone 9) 0 (fun _ => 4).

(** ** The list of devices *)

(** A device that is not for input only: its direction is output, or both. *)
Definition is_output (n : pcm_hint) : Prop := hint_ioid n = None \/ hint_ioid n = Some (str "Output").

#[export] Instance is_output_dec n : Decision (is_output n).
Proof. unfold is_output. apply _. Defined.

(** The list has the outputs, in their order, with numbers from 0 on. *)
Lemma pcm_list_outputs hints : let outputs := filter is_output hints in
  pcm_name <$> alsaplayer_pcm_list (Some hints) = hint_name <$> outputs /\
  pcm_id <$> alsaplayer_pcm_list (Some hints) = seqZ 0 (Z.of_nat (length outputs)) /\
  pcm_description <$> alsaplayer_pcm_list (Some hints) = (default [] ∘ hint_descr) <$> outputs.
Proof.
  simpl. generalize 0 as idx. induction hints as [|n hints IH]; intros idx; [done|].
  cbn [list_outputs]. rewrite filter_cons.
  destruct (decide (is_output n)) as [Ho|Ho].
  - assert ((if hint_ioid n is Some io then negb (bool_decide (io = str "Output")) else false) = false) as ->.
    { destruct Ho as [-> | ->]; [done|]. by rewrite bool_decide_true. }
    destruct (IH (idx + 1)) as (H1 & H2 & H3). cbn. rewrite H1, H2, H3.
    split; [done|]. split; [|done]. rewrite (seqZ_cons idx) by lia. do 2 f_equal; lia.
  - assert ((if hint_ioid n is Some io then negb (bool_decide (io = str "Output")) else false) = true) as ->; [|apply IH].
    unfold is_output in Ho. destruct (hint_ioid n) as [io|]; [|by destruct Ho; left].
    rewrite bool_decide_false; [done|]. intros ->. by destruct Ho; right.
Qed.
