(* ===== verification/IntercomClient.v ===== *)
(** * intercom_client.c: the client's side of the intercom protocol

    Receiving audio packets, noticing gaps in their sequence numbers, requesting
    the missing packets again, the receive buffer, the commands of the server
    and the hello that registers the client. *)
From S2P Require Import Prelude.
From S2P Require Import Timespec.
From S2P Require Import Bytes.
From S2P Require Import PQueue.
From S2P Require Import PcmChunk.
From S2P Require Import TaskHeap.
From S2P Require Import TaskSched.
From S2P Require Import Intercom.
From S2P Require Import ClientState.
From S2P Require Import AlsaDevice.

(** intercom_client.c:16-16 REQUEST_RETRY_INTERVAL_MS *)
Definition REQUEST_RETRY_INTERVAL_MS : Z := 100.

(** ** Missing packets, as a list *)

(** intercom_client.c:370-374 already_requesting *)
Definition already_requesting (missing : list audio_packet) (nonce : Z) : bool :=
  match lsearch (ap_key nonce) missing with Some _ => true | None => false end.

(** intercom_client.c:258-269 remove_request: whether it was found, and the rest *)
Definition remove_request (nonce : Z) (missing : list audio_packet) : bool * list audio_packet :=
  match lsearch (ap_key nonce) missing with
  | Some (i, _) => (true, delete i missing)
  | None => (false, missing)
  end.

(** intercom_client.c:46-56 limit_missing_packets: [maxsize] is an [int] that is
    compared with a [size_t]. *)
Fixpoint limit_missing_packets (missing : list audio_packet) (maxsize : Z) : list audio_packet :=
  if Z.of_nat (length missing) >? u64 (s32 maxsize) then
    match missing with [] => [] | _ :: missing => limit_missing_packets missing maxsize end
  else missing.

(** intercom_client.c:58-67 prune_missing_packets: [i] is one more than the index
    of the source's loop, which runs from the last element to the first. *)
Fixpoint prune_from (i : nat) (missing : list audio_packet) (oldestnonce : Z) : list audio_packet :=
  match i with
  | O => missing
  | S i =>
      let missing :=
        match missing !! i with
        | Some ap => if ap_nonce ap <=? oldestnonce then delete i missing else missing
        | None => missing
        end in
      prune_from i missing oldestnonce
  end.

(** intercom_client.c:58-67 prune_missing_packets *)
Definition prune_missing_packets (missing : list audio_packet) (oldestnonce : Z) : list audio_packet :=
  prune_from (length missing) missing oldestnonce.

(** intercom_client.c:363-368 is_next_chunk *)
Definition is_next_chunk (lastreceviedseqno seq : Z) : bool :=
  ((seq =? 0) && (lastreceviedseqno =? NONCE_MAX)) ||
  ((u32 (seq - 1) =? lastreceviedseqno) && negb (lastreceviedseqno =? NONCE_MAX)).

(** util.c:17-21 max: the arguments are converted to [int] *)
Definition max (a b : Z) : Z := let a := s32 a in let b := s32 b in if a >? b then a else b.

(** ** The receive buffer *)

(** intercom_client.c:341-348 remove_old_data_from_receivebuffer: the loop; the
    pointer tested first is never updated, an empty queue ends the loop through
    the time 0 of the chunk that is not there. *)
Fixpoint drop_old (fuel : nat) (q : option (PQueue pcmChunk)) (ctime oldest : timespec)
    : res (option (PQueue pcmChunk)) :=
  match fuel with
  | O => Fault Diverges
  | S fuel =>
      if negb (tv_sec oldest =? 0) && (timespec_cmp ctime oldest >? 0) then
        '(_, q) ← pqueue_dequeue q;
        drop_old fuel q ctime (chunk_get_play_at (pqueue_peek q))
      else Ok q
  end.

(** intercom_client.c:549-553 intercom_uninit: emptying the buffer *)
Fixpoint drain (fuel : nat) (q : option (PQueue pcmChunk)) : res (option (PQueue pcmChunk)) :=
  match fuel with
  | O => Fault Diverges
  | S fuel =>
      match pqueue_peek q with
      | Some _ => '(_, q) ← pqueue_dequeue q; drain fuel q
      | None => Ok q
      end
  end.

Definition buffered (q : option (PQueue pcmChunk)) : nat :=
  match q with Some q => length (qdata q) | None => 0 end.

(** A null buffer counts as one without capacity. *)
Definition buffer_capacity (q : option (PQueue pcmChunk)) : Z :=
  match q with Some q => capacity q | None => 0 end.

Section client.
Context {Q Dec Enc Dev : Type} `{!TimerQueue Q, !OpusLib Dec Enc, !AlsaLib Dev}.
Abbreviation W := (client Q Dec Enc Dev).

Definition the_ictx : M W intercom_ctx := gets ictx.

(** The counter [nonce] of the client. *)
Definition next_nonce : M W Z := fun c =>
  match get_nonce (Some (c_nonce c)) with
  | (n, Some k) => Ok (n, set_nonce k c)
  | (n, None) => Ok (n, c)
  end.

(** ** Requests *)

(** intercom_client.c:317-331 intercom_send_request *)
Definition intercom_send_request (mp : audio_packet) : M W unit :=
  x ← the_ictx;
  n ← next_nonce;
  let h := mkHdr PACKET_FORMAT_VERSION CLIENT_OPERATION (htons (nodeid x)) n in
  p ← lift (wr (zeros 14) 0 (hdr_bytes h));
  '(p, _) ← lift (assemble_request p HDR_SIZE (ap_nonce mp));
  b ← gets bufferms;
  post_task 0 0 (RequestTask (mkItask p (Some (serverip x)) (u8 (b / REQUEST_RETRY_INTERVAL_MS)))) ;;
  skip.

(** intercom_client.c:280-307 request_task *)
Definition request_task (d : intercom_task) : M W unit :=
  n ← next_nonce;
  p ← lift (wr32 (it_packet d) 4 n);
  req_nonce ← lift (get_nonce_from_tlv p HDR_SIZE);
  x ← the_ictx;
  if it_retries_left d >? 0 then
    if already_requesting (missing_packets x) req_nonce then
      intercom_send_packet_unicast (it_recipient d) p (Z.of_nat (length p)) (port x) ;;
      post_task 0 REQUEST_RETRY_INTERVAL_MS
        (RequestTask (mkItask p (it_recipient d) (u8 (it_retries_left d - 1)))) ;;
      skip
    else skip
  else upd_ictx (with_missing (remove_request req_nonce (missing_packets x)).2).

(** intercom_client.c:429-437 intercom_handle_audio: one round of the loop *)
Definition request_missing (cap : Z) (i : Z) : M W unit :=
  x ← the_ictx;
  if already_requesting (missing_packets x) (u32 i) then skip
  else
    upd_ictx (with_missing (limit_missing_packets (missing_packets x ++ [ap_key (u32 i)]) cap)) ;;
    intercom_send_request (ap_key (u32 i)).

(** intercom_client.c:412-440 intercom_handle_audio: a packet that is not the
    next one: a retransmission, the end of a long gap or of a short one. *)
Definition handle_gap (this_seqno : Z) : M W unit :=
  x ← the_ictx;
  let last := lastreceviedseqno x in
  let cap := buffer_capacity (receivebuffer x) in
  if is_next_chunk last this_seqno then skip
  else if this_seqno <? last then skip
  else if u64 (this_seqno - last) >=? cap then
    upd_ictx (fun x => with_receivebuffer (Some (mkPQueue cap [] receivebuffer_cmp))
                         (with_lastseqno this_seqno x))
  else
    let max_requests := u64 (s32 (max last (u64 (this_seqno - cap)) + 1)) in
    mfor (seqZ max_requests (this_seqno - max_requests)) (request_missing cap).

(** ** The receive buffer *)

(** intercom_client.c:25-30 realloc_intercom_buffer *)
Definition realloc_intercom_buffer (elements : Z) : M W unit :=
  q ← lift (pqueue_new (Some receivebuffer_cmp) elements);
  upd_ictx (with_receivebuffer (Some q)).

(** intercom_client.c:32-39 realloc_intercom_buffer_when_required *)
Definition realloc_intercom_buffer_when_required (serverbufferms chunk_ms : Z) : M W unit :=
  k ← lift (cdiv serverbufferms (u64 chunk_ms));
  let calculated_elements := k + 1 in
  x ← the_ictx;
  match receivebuffer x with
  | Some q =>
      if calculated_elements =? capacity q then skip
      else realloc_intercom_buffer calculated_elements ;; modify (set_bufferms (u16 serverbufferms))
  | None => realloc_intercom_buffer calculated_elements ;; modify (set_bufferms (u16 serverbufferms))
  end.

(** intercom_client.c:333-352 remove_old_data_from_receivebuffer *)
Definition remove_old_data_from_receivebuffer : M W unit :=
  x ← the_ictx;
  match pqueue_peek (receivebuffer x) with
  | None => skip
  | Some oldest =>
      ctime ← obtainsystime;
      q ← lift (drop_old (S (buffered (receivebuffer x))) (receivebuffer x) ctime
                  (chunk_get_play_at (Some oldest)));
      upd_ictx (with_receivebuffer q)
  end.

(** intercom_client.c:354-361 intercom_put_chunk *)
Definition intercom_put_chunk (chunk : pcmChunk) : M W unit :=
  remove_old_data_from_receivebuffer ;;
  x ← the_ictx;
  q ← lift (pqueue_enqueue (receivebuffer x) chunk);
  upd_ictx (with_receivebuffer (Some q)) ;;
  modify (set_underrun false).

(** intercom_client.c:143-147 intercom_get_time_next_audiochunk *)
Definition intercom_get_time_next_audiochunk : M W timespec :=
  x ← the_ictx; mret (chunk_get_play_at (pqueue_peek (receivebuffer x))).

(** intercom_client.c:151-173 intercom_getnextaudiochunk: the chunk, if any *)
Definition intercom_getnextaudiochunk : M W (option pcmChunk) :=
  x ← the_ictx;
  '(c, q) ← lift (pqueue_dequeue (receivebuffer x));
  upd_ictx (with_receivebuffer q) ;;
  modify (set_underrun (match c with Some _ => false | None => true end)) ;;
  mret c.

(** intercom_client.c:175-178 intercom_peeknextaudiochunk *)
Definition intercom_peeknextaudiochunk : M W (option pcmChunk) :=
  x ← the_ictx; mret (pqueue_peek (receivebuffer x)).

(** ** Packets *)

(** intercom_client.c:447-463 intercom_handle_audio: opening the sound device
    for the format of the chunk *)
Definition adapt_device (chunk : pcmChunk) : M W unit :=
  a ← gets alsa;
  (if negb (frame_size chunk =? a_frame_size a) || negb (channels chunk =? a_channels a)
      || negb (samples chunk =? rate a)
   then on_alsa alsaplayer_remove_task ;; on_alsa alsaplayer_uninit
   else skip) ;;
  a ← gets alsa;
  if initialized a then skip
  else
    upd_alsa (with_format (samples chunk) (channels chunk) (frame_size chunk)) ;;
    on_alsa alsaplayer_init ;;
    on_alsa init_alsafd.

(** intercom_client.c:376-476 intercom_handle_audio *)
Definition intercom_handle_audio (packet : bytes) (packet_len : Z) : M W bool :=
  chunk ← lift (parse_audio packet);
  h ← lift (hdr_at packet);
  let this_seqno := ntohl (hnonce h) in
  upd_ictx (fun x => with_missing (remove_request this_seqno (missing_packets x)).2 x) ;;
  x ← the_ictx;
  chunk ←
    (if buffer_capacity (receivebuffer x) =? 0 then
       b ← lift (rd16 packet HDR_SIZE);
       '(ms, c) ← with_codec_ctx (fun ctx =>
          '(ms, c, ctx) ← chunk_getduration_ms ctx (Some chunk); mret ((ms, c), ctx));
       realloc_intercom_buffer_when_required (ntohs b) ms ;;
       mret (default chunk c)
     else mret chunk);
  let play_at := mkTime (play_at_tv_sec chunk) (play_at_tv_nsec chunk) in
  ctime ← obtainsystime;
  if timespec_cmp play_at ctime >? 0 then
    handle_gap this_seqno ;;
    intercom_put_chunk chunk ;;
    upd_ictx (fun x => if this_seqno >? lastreceviedseqno x then with_lastseqno this_seqno x else x) ;;
    adapt_device chunk ;;
    mret true
  else
    upd_ictx (fun x => if this_seqno >? lastreceviedseqno x then with_lastseqno this_seqno x else x) ;;
    upd_ictx (fun x => with_missing (prune_missing_packets (missing_packets x) this_seqno) x) ;;
    mret false.

(** intercom_client.c:207-217 intercom_handle_server_operation: CLIENT_STOP *)
Definition handle_stop : M W unit :=
  upd_ictx (fun x => with_lastseqno 0 (with_receivebuffer None (with_missing [] x))).

(** intercom_client.c:203-228 intercom_handle_server_operation: one segment;
    the new offset *)
Definition handle_sop_segment (packet : bytes) (off : Z) : M W Z :=
  type ← lift (rd8 packet off);
  if type =? CLIENT_STOP then
    l ← lift (tlv_get_length packet off);
    handle_stop ;;
    mret (off + l)
  else if type =? CLIENT_VOLUME then
    '(volume, l) ← lift (parse_volume packet off);
    on_alsa (fun a => adjustVolume a volume) ;;
    mret (off + l)
  else
    l ← lift (rd8 packet (off + 2));
    mret (off + l).

(** intercom_client.c:202-229 intercom_handle_server_operation: the loop *)
Fixpoint sop_loop (fuel : nat) (packet : bytes) (packet_len off : Z) : M W unit :=
  match fuel with
  | O => fail Diverges
  | S fuel =>
      if off <? packet_len then
        off ← handle_sop_segment packet off; sop_loop fuel packet packet_len off
      else skip
  end.

(** intercom_client.c:198-231 intercom_handle_server_operation *)
Definition intercom_handle_server_operation (fuel : nat) (packet : bytes) (packet_len : Z) : M W bool :=
  sop_loop fuel packet packet_len HDR_SIZE ;; mret true.

(** intercom_client.c:478-502 intercom_handle_packet *)
Definition intercom_handle_packet (fuel : nat) (packet : bytes) (packet_len : Z) : M W unit :=
  h ← lift (hdr_at packet);
  if version h =? PACKET_FORMAT_VERSION then
    x ← the_ictx;
    if intercom_recently_seen (recent_packets x) h then skip
    else
      upd_ictx (fun x => with_recent (intercom_recently_seen_add (recent_packets x) h) x) ;;
      (if type h =? SERVER_OPERATION then
         intercom_handle_server_operation fuel packet packet_len ;; skip else skip) ;;
      (if type h =? AUDIO_DATA then intercom_handle_audio packet packet_len ;; skip else skip)
  else skip.

(** ** Registration *)

(** intercom_client.c:180-196 intercom_hello *)
Definition intercom_hello (recipient : option in6_addr) : M W bool :=
  x ← the_ictx;
  n ← next_nonce;
  let h := mkHdr PACKET_FORMAT_VERSION CLIENT_OPERATION (htons (nodeid x)) n in
  p ← lift (wr (zeros 17) 0 (hdr_bytes h));
  t ← post_task 0 0 (HelloTask (mkItask p recipient 0));
  upd_ictx (with_hello (Some t)) ;;
  mret true.

(** intercom_client.c:504-539 intercom_reinit: connecting the socket is taken to
    succeed (the source exits when it does not). *)
Definition intercom_reinit : M W unit :=
  upd_ictx (fun x => with_missing [] (with_recent [] (with_receivebuffer None x))) ;;
  r ← gai_error;
  match r with
  | DnsDone ip =>
      f ← new_socket;
      upd_ictx (fun x => with_fd f (with_serverip ip x)) ;;
      (if f <? 0 then fail ExitError else skip) ;;
      intercom_hello (Some ip) ;; skip
  | _ => fail ExitError
  end.

(** intercom_client.c:541-559 intercom_uninit *)
Definition intercom_uninit : M W unit :=
  x ← the_ictx;
  match hello x with
  | None => fail NullDeref
  | Some t =>
      the_task t ;;
      drop_task ctask_cleanup (Some t) ;;
      lift (drain (S (buffered (receivebuffer x))) (receivebuffer x)) ;;
      upd_ictx (fun x => with_receivebuffer None (with_recent [] (with_missing []
                           (with_lastseqno 0 x))))
  end.

(** intercom_client.c:561-574 intercom_init: [random] is what [obtainrandom]
    filled [nonce] with. *)
Definition intercom_init (random : Z) : M W unit := modify (set_nonce (u32 random)) ;; intercom_reinit.

(** intercom_client.c:131-140 hello_task: sending the hello *)
Definition send_hello (d : intercom_task) : M W unit :=
  n ← next_nonce;
  p ← lift (wr32 (it_packet d) 4 n);
  x ← the_ictx;
  a ← gets alsa;
  '(v, a) ← obtain_volume a;
  modify (set_alsa a) ;;
  '(p, _) ← lift (assemble_hello p HDR_SIZE (nodeid x) (latency_ms a) v);
  intercom_send_packet_unicast (it_recipient d) p (Z.of_nat (length p)) (port x) ;;
  t ← post_task 1 500 (HelloTask (mkItask p (it_recipient d) (it_retries_left d)));
  upd_ictx (with_hello (Some t)).

(** intercom_client.c:94-141 hello_task *)
Definition hello_task (d : intercom_task) : M W unit :=
  r ← gai_error;
  match r with
  | DnsDone ip =>
      match it_recipient d with
      | None => fail NullDeref
      | Some old =>
          if ip =? old then send_hello d
          else intercom_uninit ;; on_alsa alsaplayer_uninit ;; intercom_reinit
      end
  | _ => send_hello d
  end.
End client.
