(* ===== verification/ClientGaps.v ===== *)
(** * Missing packets: what the client requests, and for how long

    Theorems about the part of intercom_client.c that notices gaps in the
    sequence numbers ([handle_gap]), keeps the list of missing packets and sends
    the requests ([request_task]). *)
From S2P Require Import Prelude.
From S2P Require Import Timespec.
From S2P Require Import Bytes.
From S2P Require Import PQueue.
From S2P Require Import PcmChunk.
From S2P Require Import TaskHeap.
From S2P Require Import TaskSched.
From S2P Require Import Intercom.
From S2P Require Import ClientState.
From S2P Require Import AlsaDevice.
From S2P Require Import IntercomClient.

(** ** The list of missing packets *)

Definition nonces (missing : list audio_packet) : list Z := ap_nonce <$> missing.

Lemma cmp_key n ap : cmp_audiopacket (ap_key n) ap = 0 <-> ap_nonce ap = n.
Proof. unfold cmp_audiopacket, ap_key; simpl. cases_lt; lia. Qed.

Lemma lsearch_None n l : lsearch (ap_key n) l = None <-> n ∉ nonces l.
Proof.
  unfold lsearch. rewrite list_find_None, Forall_forall. unfold nonces. split.
  - intros H (ap & -> & Hin)%list_elem_of_fmap. by apply (H ap Hin), cmp_key.
  - intros H ap Hin E%cmp_key. apply H. subst. by apply list_elem_of_fmap_2.
Qed.

Lemma already_requesting_spec l n : already_requesting l n = true <-> n ∈ nonces l.
Proof.
  unfold already_requesting. destruct (lsearch (ap_key n) l) as [[i ap]|] eqn:E.
  - split; [intros _|done]. destruct (decide (n ∈ nonces l)) as [|H]; [done|].
    apply lsearch_None in H. congruence.
  - apply lsearch_None in E. split; [done|]. intros H. by destruct (E H).
Qed.

Lemma already_requesting_false l n : already_requesting l n = false <-> n ∉ nonces l.
Proof. rewrite <- already_requesting_spec. by destruct (already_requesting l n). Qed.

(** Removing a request removes its nonce from the list. *)
Lemma remove_request_spec l n : NoDup (nonces l) ->
  nonces (remove_request n l).2 = filter (fun k => k <> n) (nonces l) /\
  ((remove_request n l).1 = true <-> n ∈ nonces l).
Proof.
  intros Hnd. unfold remove_request. destruct (lsearch (ap_key n) l) as [[i ap]|] eqn:E; simpl.
  - apply list_find_Some in E as (Hi & Hk & _). apply cmp_key in Hk.
    assert (n ∈ nonces l) as Hin.
    { apply list_elem_of_fmap. exists ap. split; [done|]. by eapply list_elem_of_lookup_2. }
    split; [|done]. unfold nonces in *. rewrite list_fmap_delete.
    assert ((ap_nonce <$> l) !! i = Some n) as Hn by by rewrite list_lookup_fmap, Hi, <- Hk.
    clear Hi. rewrite <- (take_drop_middle _ _ _ Hn) in Hnd |- *.
    set (l1 := take i _) in *. set (l2 := drop _ _) in *.
    assert (length l1 = i) as Hl by (unfold l1; rewrite length_take; apply lookup_lt_Some in Hn; lia).
    pose proof (delete_middle l1 l2 n) as Hdel. rewrite Hl in Hdel. rewrite Hdel.
    rewrite filter_app, filter_cons_False by tauto.
    apply NoDup_app in Hnd as (_ & Hd & Hnd2). apply NoDup_cons in Hnd2 as [Hn2 _].
    rewrite !filter_all; [done| |]; apply Forall_forall; intros k Hk' ->; [done|].
    apply (Hd n Hk'). left.
  - apply lsearch_None in E. split; [|split; [done|intros H; by destruct (E H)]].
    symmetry. apply filter_all, Forall_forall. intros k Hk ->. done.
Qed.

(** The first entry with the number is removed, and nothing else. *)
Lemma remove_request_first n l1 ap l2 : n ∉ nonces l1 -> ap_nonce ap = n ->
  (remove_request n (l1 ++ ap :: l2)).2 = l1 ++ l2.
Proof.
  intros H1 Hap. unfold remove_request.
  assert (lsearch (ap_key n) (l1 ++ ap :: l2) = Some (length l1, ap)) as ->.
  { apply list_find_Some. split; [by apply list_lookup_middle|]. split; [by apply cmp_key|].
    intros j y Hj Hlt E%cmp_key. apply H1. rewrite lookup_app_l in Hj by done. subst n. rewrite <- E.
    apply list_elem_of_fmap_2. by eapply list_elem_of_lookup_2. }
  apply delete_middle.
Qed.

Lemma remove_request_none n l : n ∉ nonces l -> (remove_request n l).2 = l.
Proof. intros H%lsearch_None. unfold remove_request. by rewrite H. Qed.

(** A list of missing packets without the first entry for the number [n]. *)
Fixpoint without (n : Z) (l : list audio_packet) : list audio_packet :=
  match l with
  | [] => []
  | ap :: l => if ap_nonce ap =? n then l else ap :: without n l
  end.

Lemma remove_request_without n l : (remove_request n l).2 = without n l.
Proof.
  assert (forall l1, n ∉ nonces l1 -> (remove_request n (l1 ++ l)).2 = l1 ++ without n l) as H.
  { induction l as [|ap l IH]; intros l1 H1; simpl.
    - by rewrite app_nil_r, remove_request_none.
    - destruct (Z.eqb_spec (ap_nonce ap) n) as [E|E]; [by apply remove_request_first|].
      rewrite (cons_middle ap l1 l), (app_assoc l1), IH; [by rewrite <- app_assoc|].
      unfold nonces in *. rewrite fmap_app, elem_of_app. simpl. rewrite list_elem_of_singleton.
      intros [?|?]; [done|congruence]. }
  apply (H []). apply not_elem_of_nil.
Qed.

(** The list is cut to its newest [cap] entries. *)
Lemma limit_missing_spec l cap : 0 <= cap < 2 ^ 31 ->
  limit_missing_packets l cap = drop (length l - Z.to_nat cap) l.
Proof.
  intros Hcap. assert (u64 (s32 cap) = cap) as E by (rewrite s32_small, u64_small by lia; done).
  induction l as [|ap l IH]; simpl; rewrite E, Z.gtb_ltb.
  - by destruct (Z.ltb_spec cap (Z.of_nat 0)).
  - destruct (Z.ltb_spec cap (Z.of_nat (S (length l)))).
    + rewrite IH. by replace (S (length l) - Z.to_nat cap)%nat with (S (length l - Z.to_nat cap)) by lia.
    + by replace (S (length l) - Z.to_nat cap)%nat with O by lia.
Qed.

Lemma prune_from_spec l1 l2 n :
  prune_from (length l1) (l1 ++ l2) n = filter (fun ap => n < ap_nonce ap) l1 ++ l2.
Proof.
  revert l2. induction l1 as [|ap l1 IH] using rev_ind; intros l2; [done|].
  rewrite length_app, filter_app. simpl. rewrite Nat.add_1_r. simpl.
  rewrite <- app_assoc. simpl. rewrite list_lookup_middle by done.
  destruct (Z.leb_spec (ap_nonce ap) n).
  - rewrite delete_middle, IH, (filter_cons_False _ ap []) by lia. by rewrite app_nil_r.
  - rewrite IH, (filter_cons_True _ ap []) by done. by rewrite <- app_assoc.
Qed.

(** C32: when a packet arrives too late, exactly the requests for it and for all
    earlier packets are given up, and the order of the others is kept: deleting
    from the vector while walking it backwards skips nothing. *)
Theorem prune_missing_packets_spec l n :
  prune_missing_packets l n = filter (fun ap => n < ap_nonce ap) l.
Proof.
  unfold prune_missing_packets. pose proof (prune_from_spec l [] n) as H. by rewrite !app_nil_r in H.
Qed.

(** ** Posting requests *)

Section client.
Context {Q Dec Enc Dev : Type} `{!TimerQueue Q, !TimerQueueLaws Q, !OpusLib Dec Enc, !AlsaLib Dev}.
Abbreviation W := (client Q Dec Enc Dev).
Implicit Types (c : client Q Dec Enc Dev).

(** The scheduler is in order and the monotonic clock shows sane times. *)
Definition client_ok c : Prop :=
  sched_ok (tasks c) /\ forall n, sane (s_clk (tasks c) n).

(** Every task of [c] is still there, and unchanged. *)
Definition grows c c' : Prop :=
  forall a t, s_tasks (tasks c) !! a = Some t -> s_tasks (tasks c') !! a = Some t.

(** What the requests do not touch: the player, the clock, the datagrams. *)
Definition same_world c c' : Prop :=
  alsa c' = alsa c /\ sysclk c' = sysclk c /\ systicks c' = systicks c /\ sent c' = sent c.

(** A request for the packet [i] waits for the scheduler, addressed to the
    server, with [k] more attempts. *)
Definition requested c (i k : Z) : Prop :=
  exists a t d, s_tasks (tasks c) !! a = Some t /\ tr_running t = false /\
    tr_payload t = RequestTask d /\ get_nonce_from_tlv (it_packet d) HDR_SIZE = Ok i /\
    length (it_packet d) = 14%nat /\
    it_recipient d = Some (serverip (ictx c)) /\ it_retries_left d = k.

Lemma requested_grows c c' i k : grows c c' -> serverip (ictx c') = serverip (ictx c) ->
  requested c i k -> requested c' i k.
Proof. intros Hg Hip (a & t & d & Ht & H). exists a, t, d. rewrite Hip. split; [by apply Hg|done]. Qed.

Lemma grows_trans c1 c2 c3 : grows c1 c2 -> grows c2 c3 -> grows c1 c3.
Proof. unfold grows. eauto. Qed.

Lemma post_client c timeout ms pl : client_ok c -> 0 <= timeout < 2 ^ 60 -> 0 <= ms < 2 ^ 31 ->
  exists a d s', post_task timeout ms pl c = Ok (a, set_tasks s' c) /\
    client_ok (set_tasks s' c) /\ grows c (set_tasks s' c) /\ s_tasks (tasks c) !! a = None /\
    s_tasks s' = <[a := mkTrec d false pl]> (s_tasks (tasks c)).
Proof.
  intros [Hs Hclk] Ht Hms.
  destruct (post_task_total (HasSched0 := client_sched) c timeout ms pl Hs (Hclk _) Ht Hms)
    as (a & d & s' & E & Ha & _ & _ & Hok & _ & Htasks & _ & Hc).
  exists a, d, s'. split; [exact E|]. split; [split; [done|by intros n; simpl; rewrite Hc]|]. split; [|done].
  intros a' t Ha'. simpl. rewrite Htasks, lookup_insert_ne; [done|]. intros ->.
  change (get_sched c) with (tasks c) in Ha. congruence.
Qed.

(** A request packet: the header and one segment. *)
Lemma request_packet h n : 0 <= n < 4294967296 ->
  exists p, (p ← wr (zeros 14) 0 (hdr_bytes h); assemble_request p HDR_SIZE n) = Ok (p, 6) /\
    length p = 14%nat /\ get_nonce_from_tlv p HDR_SIZE = Ok n.
Proof.
  intros Hn. destruct (wr_fits (zeros 14) 0 (hdr_bytes h)) as (p & E & Hl); [lia|done|].
  destruct (request_segment p HDR_SIZE n) as (p' & E' & Hl' & _ & _ & Hn'); [done|by rewrite Hl|done|].
  exists p'. rewrite E. simpl. rewrite E', Hl', Hl. done.
Qed.

Lemma send_request_run c n : client_ok c -> 0 <= n < 4294967296 ->
  exists c', intercom_send_request (ap_key n) c = Ok (tt, c') /\ client_ok c' /\ grows c c' /\
    ictx c' = ictx c /\ bufferms c' = bufferms c /\ same_world c c' /\
    requested c' n (u8 (bufferms c / REQUEST_RETRY_INTERVAL_MS)).
Proof.
  intros Hc Hn. unfold intercom_send_request, the_ictx, gets, next_nonce, lift, mbind, M_bind.
  simpl get_nonce. cbv iota beta. set (h := mkHdr _ _ _ _). set (c1 := set_nonce _ c).
  destruct (request_packet h n Hn) as (p & E & Hl & Hp). unfold mbind, res_bind in E.
  destruct (wr (zeros 14) 0 (hdr_bytes h)) as [p0|]; [|done]. simpl ap_nonce. rewrite E.
  destruct (post_client c1 0 0 (RequestTask (mkItask p (Some (serverip (ictx c)))
    (u8 (bufferms c1 / REQUEST_RETRY_INTERVAL_MS))))) as (a & d & s' & E' & Hok & Hg & Ha & Ht);
    [exact Hc|lia|lia|].
  rewrite E'. eexists. split; [done|]. split; [done|]. split; [done|]. split; [done|]. split; [done|].
  split; [done|]. exists a. eexists _, _. simpl. rewrite Ht, lookup_insert_eq. done.
Qed.

(** *** One missing packet *)

Lemma limit_room l cap : 0 <= cap < 2 ^ 31 -> Z.of_nat (length l) <= cap ->
  limit_missing_packets l cap = l.
Proof.
  intros Hcap Hl. rewrite limit_missing_spec by done.
  by replace (length l - Z.to_nat cap)%nat with O by lia.
Qed.

Definition attempts c : Z := u8 (bufferms c / REQUEST_RETRY_INTERVAL_MS).

(** [c'] is [c] after the packets [new] were put on the list of missing ones
    and requested. *)
Record asked c (new : list Z) c' : Prop := {
  as_ok : client_ok c';
  as_grows : grows c c';
  as_buf : bufferms c' = bufferms c;
  as_world : same_world c c';
  as_ictx : ictx c' = with_missing (missing_packets (ictx c) ++ (ap_key <$> new)) (ictx c);
  as_req : forall i, i ∈ new -> requested c' i (attempts c);
}.

Lemma asked_nil c : client_ok c -> asked c [] c.
Proof.
  intros Hc. split; [done|by intros ??|done|done| |by intros i ?%elem_of_nil].
  destruct c as [x]. simpl. rewrite app_nil_r. by destruct x.
Qed.

Lemma asked_app c1 l1 c2 l2 c3 : asked c1 l1 c2 -> asked c2 l2 c3 -> asked c1 (l1 ++ l2) c3.
Proof.
  intros [Ho1 Hg1 Hb1 Hw1 Hi1 Hr1] [Ho2 Hg2 Hb2 Hw2 Hi2 Hr2].
  split; [done|by eapply grows_trans|congruence|unfold same_world in *; naive_solver congruence| |].
  - rewrite Hi2, Hi1, fmap_app, (assoc_L (++)). done.
  - intros i [H|H]%elem_of_app.
    + apply Hr1 in H. eapply requested_grows; [done| |done]. rewrite Hi2. done.
    + apply Hr2 in H. unfold attempts in *. by rewrite Hb1 in H.
Qed.

Lemma request_missing_run cap c i : client_ok c -> 0 <= i < 4294967296 -> 0 <= cap < 2 ^ 31 ->
  Z.of_nat (length (missing_packets (ictx c))) < cap ->
  exists c', request_missing cap i c = Ok (tt, c') /\
    asked c (if decide (i ∈ nonces (missing_packets (ictx c))) then [] else [i]) c'.
Proof.
  intros Hc Hi Hcap Hl. unfold request_missing, the_ictx, gets, mbind, M_bind.
  rewrite u32_small by lia. case_decide as Hin.
  - apply already_requesting_spec in Hin. rewrite Hin. exists c. split; [done|by apply asked_nil].
  - apply already_requesting_false in Hin. rewrite Hin. unfold upd_ictx, modify.
    rewrite limit_room by (rewrite ?length_app; simpl; lia).
    set (c1 := set_ictx _ c).
    destruct (send_request_run c1 i) as (c' & -> & Hok & Hg & Hx & Hb & Hw & Hr); [done|done|].
    exists c'. split; [done|]. split; [done|done|done|done|by rewrite Hx|].
    intros k ->%list_elem_of_singleton. done.
Qed.

(** *** A run of missing packets *)

Lemma request_loop_run cap ks c : client_ok c -> 0 <= cap < 2 ^ 31 -> NoDup ks ->
  Forall (fun i => 0 <= i < 4294967296) ks ->
  Z.of_nat (length (missing_packets (ictx c)) + length ks) <= cap ->
  exists c', mfor ks (request_missing cap) c = Ok (tt, c') /\
    asked c (filter (fun i => i ∉ nonces (missing_packets (ictx c))) ks) c'.
Proof.
  revert c. induction ks as [|i ks IH]; intros c Hc Hcap Hnd Hr Hl.
  { exists c. split; [done|by apply asked_nil]. }
  apply NoDup_cons in Hnd as [Hi Hnd]. apply Forall_cons in Hr as [Hri Hr]. simpl in Hl.
  simpl mfor. unfold mbind, M_bind.
  destruct (request_missing_run cap c i) as (c1 & -> & Ha); [done|done|done|lia|].
  pose proof (as_ictx _ _ _ Ha) as Hx.
  assert (nonces (missing_packets (ictx c1)) = nonces (missing_packets (ictx c)) ++
    (if decide (i ∈ nonces (missing_packets (ictx c))) then [] else [i])) as Hn.
  { rewrite Hx. unfold nonces at 1. simpl. rewrite fmap_app. f_equal. by destruct (decide _). }
  destruct (IH c1) as (c' & -> & Ha'); [by apply Ha|done|done|done| |].
  { apply (f_equal length) in Hn. unfold nonces in Hn. rewrite length_app, !length_fmap in Hn.
    destruct (decide _); simpl in *; lia. }
  exists c'. split; [done|]. rewrite filter_cons.
  assert (filter (fun k => k ∉ nonces (missing_packets (ictx c1))) ks =
          filter (fun k => k ∉ nonces (missing_packets (ictx c))) ks) as E.
  { rewrite Hn. apply filter_ext_in. intros k Hk. rewrite elem_of_app. case_decide; set_solver. }
  rewrite E in Ha'. pose proof (asked_app _ _ _ _ _ Ha Ha') as H.
  destruct (decide (i ∈ nonces (missing_packets (ictx c)))); case_decide; done.
Qed.

(** A packet with a greater number than the last one: also the next one, which
    leaves no gap. *)
Lemma gap_run c seq :
  let x := ictx c in
  let gap := seqZ (lastreceviedseqno x + 1) (seq - lastreceviedseqno x - 1) in
  let cap := buffer_capacity (receivebuffer x) in
  client_ok c -> 0 <= lastreceviedseqno x -> lastreceviedseqno x < seq -> seq < 2 ^ 31 ->
  seq - lastreceviedseqno x < cap -> cap < 2 ^ 31 ->
  Z.of_nat (length (missing_packets x) + length gap) <= cap ->
  exists c', handle_gap seq c = Ok (tt, c') /\
    asked c (filter (fun i => i ∉ nonces (missing_packets x)) gap) c'.
Proof.
  intros x gap cap Hc H0 Hlt Hseq Hnear Hcap Hroom. unfold handle_gap, the_ictx, gets, mbind, M_bind.
  fold x. fold cap. unfold is_next_chunk, NONCE_MAX. rewrite u32_small by lia.
  destruct (decide (seq = lastreceviedseqno x + 1)) as [E|E].
  { exists c. assert (gap = []) as ->; [|split; [|by apply asked_nil]].
    - unfold gap. by replace (seq - lastreceviedseqno x - 1) with 0 by lia.
    - rewrite (proj2 (Z.eqb_eq (seq - 1) _)), (proj2 (Z.eqb_neq (lastreceviedseqno x) 4294967295)) by lia.
      by rewrite andb_false_r. }
  rewrite (proj2 (Z.eqb_neq (seq - 1) _)), (proj2 (Z.eqb_neq seq 0)) by lia. simpl orb. cbv iota.
  rewrite (proj2 (Z.ltb_ge seq _)) by lia. rewrite u64_small, Z.geb_leb by lia.
  rewrite (proj2 (Z.leb_gt cap _)) by lia.
  assert (u64 (s32 (max (lastreceviedseqno x) (u64 (seq - cap)) + 1)) = lastreceviedseqno x + 1) as ->.
  { assert (s32 (u64 (seq - cap)) = seq - cap) as E'.
    { rewrite s32_u64. apply s32_small. lia. }
    unfold max. rewrite E', (s32_small (lastreceviedseqno x)) by lia. rewrite Z.gtb_ltb.
    destruct (Z.ltb_spec (seq - cap) (lastreceviedseqno x)); [|lia].
    rewrite s32_small, u64_small by lia. done. }
  replace (seq - (lastreceviedseqno x + 1)) with (seq - lastreceviedseqno x - 1) by lia. fold gap.
  apply request_loop_run; [done|lia|apply NoDup_seqZ| |done].
  apply Forall_forall. intros i Hi%elem_of_seqZ. lia.
Qed.

(** C13: a gap in the sequence numbers is closed completely. When a packet
    arrives whose number is at least two above the last one received, and below
    2^31, and the gap is shorter than the buffer's capacity (below 2^31) and
    fits on the list of missing packets, which holds no more than this capacity,
    then in a client in order every number between the last one received and it
    that is not already on the list is put on the list, once and in order, and a
    request for it, addressed to the server and with one attempt for every 100
    ms of buffer (their number modulo 256), waits in the task queue; the tasks
    already there stay. What happens to the other numbers is in
    [handle_gap_silent]. *)
Theorem handle_gap_spec c seq :
  let x := ictx c in
  let gap := seqZ (lastreceviedseqno x + 1) (seq - lastreceviedseqno x - 1) in
  let cap := buffer_capacity (receivebuffer x) in
  client_ok c -> 0 <= lastreceviedseqno x -> lastreceviedseqno x + 1 < seq -> seq < 2 ^ 31 ->
  seq - lastreceviedseqno x < cap -> cap < 2 ^ 31 ->
  Z.of_nat (length (missing_packets x) + length gap) <= cap ->
  exists c', handle_gap seq c = Ok (tt, c') /\
    asked c (filter (fun i => i ∉ nonces (missing_packets x)) gap) c'.
Proof. intros x gap cap Hc H0 Hlt. apply (gap_run c seq); [done|done|fold x; lia]. Qed.

(** The other packets request nothing.  The next packet in order and a
    packet older than the last one change nothing, so after the server's
    counter wraps around, new packets are taken for retransmissions and the
    last number stays where it is; a gap of at least the buffer's capacity
    empties the buffer and continues from the new number; and beyond 2^31 a
    short gap is ignored, because the loop's start is computed as an [int]. *)
Theorem handle_gap_silent c seq :
  let x := ictx c in
  let last := lastreceviedseqno x in
  let cap := buffer_capacity (receivebuffer x) in
  0 <= seq < 4294967296 -> 0 <= last < 4294967296 -> 0 <= cap < 2 ^ 31 ->
  (seq = last + 1 -> handle_gap seq c = Ok (tt, c)) /\
  (seq < last -> handle_gap seq c = Ok (tt, c)) /\
  (last + 1 < seq -> cap <= seq - last -> exists c', handle_gap seq c = Ok (tt, c') /\
     ictx c' = with_receivebuffer (Some (mkPQueue cap [] receivebuffer_cmp)) (with_lastseqno seq x) /\
     tasks c' = tasks c /\ sent c' = sent c) /\
  (last + 1 < seq -> seq - last < cap -> 2 ^ 31 <= seq - cap -> handle_gap seq c = Ok (tt, c)).
Proof.
  intros x last cap Hseq Hlast Hcap. unfold handle_gap, the_ictx, gets, mbind, M_bind. fold x last cap.
  unfold is_next_chunk, NONCE_MAX. split; [|split; [|split]].
  - intros ->. rewrite u32_small by lia. replace (last + 1 - 1) with last by lia.
    rewrite Z.eqb_refl. destruct (Z.eqb_spec last 4294967295); [lia|]. simpl. by rewrite orb_true_r.
  - intros Hlt. rewrite (proj2 (Z.ltb_lt seq last)) by lia. by destruct (_ || _).
  - intros Hgap Hfar. rewrite u32_small by lia.
    replace (seq =? 0) with false by (symmetry; apply Z.eqb_neq; lia).
    replace (seq - 1 =? last) with false by (symmetry; apply Z.eqb_neq; lia). simpl orb.
    rewrite (proj2 (Z.ltb_ge seq last)) by lia. rewrite u64_small, Z.geb_leb by lia.
    rewrite (proj2 (Z.leb_le cap _)) by lia. eexists. split; [done|]. by destruct c.
  - intros Hgap Hnear Hhigh. rewrite u32_small by lia.
    replace (seq =? 0) with false by (symmetry; apply Z.eqb_neq; lia).
    replace (seq - 1 =? last) with false by (symmetry; apply Z.eqb_neq; lia). simpl orb.
    rewrite (proj2 (Z.ltb_ge seq last)) by lia. rewrite (u64_small (seq - last)), Z.geb_leb by lia.
    rewrite (proj2 (Z.leb_gt cap _)) by lia.
    assert (s32 last = last - 2 ^ 32) as E1 by (apply s32_high; lia).
    assert (s32 (u64 (seq - cap)) = seq - cap - 2 ^ 32) as E2 by (rewrite s32_u64; apply s32_high; lia).
    assert (max last (u64 (seq - cap)) = last - 2 ^ 32) as ->.
    { unfold max. rewrite E1, E2, Z.gtb_ltb. destruct (Z.ltb_spec (seq - cap - 2 ^ 32) (last - 2 ^ 32)); lia. }
    rewrite s32_small by lia.
    assert (u64 (last - 2 ^ 32 + 1) = 2 ^ 64 - (2 ^ 32 - last - 1)) as ->.
    { rewrite <- u64_opp by lia. f_equal. lia. }
    unfold seqZ. replace (Z.to_nat _) with O by lia. done.
Qed.

(** C14: a request is repeated until it is served or has used up its attempts.
    While the packet is missing and attempts are left, the request is sent to
    the server and posted again with one attempt less; when attempts are left
    but the packet is not missing any more, nothing is sent or posted. When no
    attempt is left nothing is sent or posted either, and the packet is given
    up: the first entry for it is taken off the list of missing packets, and
    only this; if there is none, the list stays as it is. This is for a client
    in order ([client_ok]) and a well-formed task: a packet of 14 bytes
    addressed to the server, which names the packet [n], and a counter of
    attempts that fits its byte. *)
Theorem request_task_spec c d n :
  client_ok c -> length (it_packet d) = 14%nat -> get_nonce_from_tlv (it_packet d) HDR_SIZE = Ok n ->
  it_recipient d = Some (serverip (ictx c)) -> 0 <= it_retries_left d < 256 ->
  exists c', request_task d c = Ok (tt, c') /\ client_ok c' /\ grows c c' /\
    (it_retries_left d = 0 -> tasks c' = tasks c /\ sent c' = sent c /\
       (forall l1 ap l2, missing_packets (ictx c) = l1 ++ ap :: l2 -> n ∉ nonces l1 -> ap_nonce ap = n ->
          ictx c' = with_missing (l1 ++ l2) (ictx c)) /\
       (n ∉ nonces (missing_packets (ictx c)) -> ictx c' = ictx c)) /\
    (it_retries_left d > 0 -> n ∉ nonces (missing_packets (ictx c)) ->
       ictx c' = ictx c /\ tasks c' = tasks c /\ sent c' = sent c) /\
    (it_retries_left d > 0 -> n ∈ nonces (missing_packets (ictx c)) ->
       ictx c' = ictx c /\ requested c' n (it_retries_left d - 1) /\
       exists p, sent c' = sent c ++ [mkDgram (serverip (ictx c)) (u16 (port (ictx c))) p] /\
         get_nonce_from_tlv p HDR_SIZE = Ok n /\ length p = 14%nat).
Proof.
  intros Hc Hl Hn Hr Hk. set (d' := it_packet d) in *.
  unfold request_task, next_nonce, the_ictx, gets, lift, mbind, M_bind. simpl get_nonce. cbv iota beta.
  set (c1 := set_nonce _ c). fold d'.
  destruct (wr_fits d' 4 (le_bytes 4 (htonl (c_nonce c mod NONCE_MAX)))) as (p & E & Hlp);
    [lia|rewrite length_le_bytes; lia|].
  assert (get_nonce_from_tlv p HDR_SIZE = Ok n) as Hp.
  { rewrite <- Hn. unfold get_nonce_from_tlv, rd32. by rewrite (wr_rd_after _ _ _ _ _ _ E). }
  unfold wr32. rewrite E, Hp, Z.gtb_ltb. cbv iota beta.
  destruct (Z.ltb_spec 0 (it_retries_left d)).
  2:{ eexists. split; [done|]. split; [exact Hc|]. split; [by intros ??|].
      split; [|split; intros; lia]. intros _. split; [done|]. split; [done|]. simpl. split.
      - intros l1 ap l2 -> Hl1 Hap. by rewrite remove_request_first.
      - intros Hout. rewrite remove_request_none by done. by destruct c as [[]]. }
  destruct (already_requesting (missing_packets (ictx c1)) n) eqn:Ea.
  - apply already_requesting_spec in Ea. rewrite Hr. unfold intercom_send_packet_unicast.
    unfold lift, mbind, M_bind, modify. rewrite Nat2Z.id, (rd_all p).
    set (c2 := set_sent _ c1).
    destruct (post_client c2 0 REQUEST_RETRY_INTERVAL_MS
      (RequestTask (mkItask p (Some (serverip (ictx c))) (u8 (it_retries_left d - 1)))))
      as (a & du & s' & Ep & Hok & Hg & Ha & Ht); [done|lia|unfold REQUEST_RETRY_INTERVAL_MS; lia|].
    rewrite Ep. eexists. split; [done|]. split; [done|]. split; [done|]. split; [lia|].
    split; [done|]. intros _ _. split; [done|]. split.
    + exists a. eexists _, _. simpl. rewrite Ht, lookup_insert_eq. split; [done|].
      split; [done|]. split; [done|]. simpl. rewrite u8_small by lia. rewrite Hlp. done.
    + exists p. rewrite Hlp. done.
  - apply already_requesting_false in Ea. exists c1. split; [done|]. split; [exact Hc|].
    split; [by intros ??|]. split; [lia|]. split; [done|]. by intros _ ?%Ea.
Qed.
End client.

(** ** The concrete client *)

Lemma demo_client_ok : client_ok demo_client.
Proof.
  split; [split|].
  - split; [constructor|done].
  - intros p d. simpl. split; [by intros ?%elem_of_nil|]. intros (t & Ht & _).
    by rewrite lookup_empty in Ht.
  - intros n. split; [simpl; lia|]. unfold norm_ns, BILLION. simpl. lia.
Qed.

Lemma handle_gap_spec_witness :
  exists c', handle_gap 44 demo_client = Ok (tt, c') /\
    nonces (missing_packets (ictx c')) = [42; 41; 43] /\ requested c' 43 5.
Proof.
  destruct (handle_gap_spec demo_client 44) as (c' & E & H).
  - exact demo_client_ok.
  - simpl. lia.
  - simpl. lia.
  - lia.
  - simpl. lia.
  - simpl. lia.
  - vm_compute. discriminate.
  - exists c'. split; [exact E|]. destruct H as [_ _ _ _ Hi Hr]. split.
    + rewrite Hi. reflexivity.
    + apply (Hr 43). by do 2 constructor.
Defined.

Lemma handle_gap_silent_witness : handle_gap 41 demo_client = Ok (tt, demo_client).
Proof.
  destruct (handle_gap_silent demo_client 41) as (H & _); [lia|simpl; lia|simpl; lia|].
  by apply H.
Defined.

Definition demo_request : intercom_task :=
  mkItask [1; 0; 0; 3; 0; 0; 0; 0; 0; 6; 0; 0; 0; 42] (Some 9) 5.

Lemma request_task_spec_witness :
  exists c', request_task demo_request demo_client = Ok (tt, c') /\ requested c' 42 4.
Proof.
  destruct (request_task_spec demo_client demo_request 42) as (c' & E & _ & _ & _ & _ & H).
  - exact demo_client_ok.
  - reflexivity.
  - vm_compute. reflexivity.
  - reflexivity.
  - simpl. lia.
  - exists c'. split; [exact E|]. destruct H as (_ & H & _); [simpl; lia|simpl; set_solver|exact H].
Defined.
