(* ===== verification/ClientBuffer.v ===== *)
(** * The client's receive buffer and the server's commands

    Theorems about the part of intercom_client.c that stores chunks, hands them
    to the player, and interprets the segments of a server operation. *)
From S2P Require Import Prelude.
From S2P Require Import Timespec.
From S2P Require Import Bytes.
From S2P Require Import PQueue.
From S2P Require Import PcmChunk.
From S2P Require Import TaskHeap.
From S2P Require Import TaskSched.
From S2P Require Import Intercom.
From S2P Require Import ClientState.
From S2P Require Import AlsaDevice.
From S2P Require Import IntercomClient.

(** ** The queue of chunks *)

(** A chunk whose time to be played has passed. *)
Definition outdated (ctime : timespec) (c : pcmChunk) : bool :=
  negb (play_at_tv_sec c =? 0) && (timespec_cmp ctime (chunk_get_play_at (Some c)) >? 0).

(** The chunks from the first one on that is not outdated. *)
Fixpoint live (ctime : timespec) (l : list pcmChunk) : list pcmChunk :=
  match l with
  | [] => []
  | c :: l' => if outdated ctime c then live ctime l' else l
  end.

Lemma live_suffix ctime l : exists k, live ctime l = drop k l.
Proof.
  induction l as [|c l [k IH]]; [by exists 0%nat|]. simpl. destruct (outdated ctime c).
  - by exists (S k).
  - by exists 0%nat.
Qed.

Lemma fifo_peek q l : fifo receivebuffer_cmp q l -> pqueue_peek (Some q) = head l.
Proof.
  intros Hq. destruct l as [|x l].
  - destruct Hq as (_ & _ & _ & Hp & _). apply Permutation_nil_r in Hp. simpl. by rewrite Hp.
  - destruct (fifo_dequeue receivebuffer_cmp q x l Hq) as (q' & E & _).
    unfold pqueue_dequeue in E. destruct (pqueue_peek (Some q)) as [y|]; [|done].
    destruct (pqueue_heapify _ _ _); [|done]. simpl in E. unfold mret, res_ret in E. by simplify_eq.
Qed.

(** Dropping old chunks from the front of a queue in play order. *)
Lemma drop_old_fifo ctime l q fuel : fifo receivebuffer_cmp q l -> (length l < fuel)%nat ->
  exists q', drop_old fuel (Some q) ctime (chunk_get_play_at (pqueue_peek (Some q))) = Ok (Some q') /\
    fifo receivebuffer_cmp q' (live ctime l) /\ capacity q' = capacity q.
Proof.
  revert q fuel. induction l as [|x l IH]; intros q fuel Hq Hf; (destruct fuel as [|fuel]; [simpl in Hf; lia|]);
    rewrite (fifo_peek _ _ Hq); cbn [drop_old head live].
  - by exists q.
  - change (tv_sec (chunk_get_play_at (Some x))) with (play_at_tv_sec x). fold (outdated ctime x).
    destruct (outdated ctime x); [|by exists q].
    destruct (fifo_dequeue receivebuffer_cmp q x l Hq) as (q1 & -> & Hq1 & Hcap). simpl mbind.
    unfold mbind, res_bind. destruct (IH q1 fuel Hq1) as (q' & E & Hq' & Hc'); [simpl in Hf; lia|].
    exists q'. rewrite Hc', Hcap. done.
Qed.

Section client.
Context {Q Dec Enc Dev : Type} `{!TimerQueue Q, !OpusLib Dec Enc, !AlsaLib Dev}.
Implicit Types (c : client Q Dec Enc Dev).

(** The state after a chunk was stored: the clock is read when the buffer was
    not empty. *)
Definition after_put c (l : list pcmChunk) (q : PQueue pcmChunk) : client Q Dec Enc Dev :=
  set_underrun false (set_ictx (with_receivebuffer (Some q) (ictx c))
    (match l with [] => c | _ :: _ => systick c end)).

Lemma after_put_fields c l q :
  ictx (after_put c l q) = with_receivebuffer (Some q) (ictx c) /\
  underrun (after_put c l q) = false /\ tasks (after_put c l q) = tasks c /\
  alsa (after_put c l q) = alsa c /\ sent (after_put c l q) = sent c /\
  sysclk (after_put c l q) = sysclk c /\ bufferms (after_put c l q) = bufferms c.
Proof. by destruct l. Qed.

(** Storing a chunk is adding it to the queue without its outdated chunks. *)
Lemma put_chunk_run c chunk q l :
  let ctime := sysclk c (systicks c) in
  receivebuffer (ictx c) = Some q -> fifo receivebuffer_cmp q l ->
  exists q1, fifo receivebuffer_cmp q1 (live ctime l) /\ capacity q1 = capacity q /\
    forall q', pqueue_enqueue (Some q1) chunk = Ok q' ->
      intercom_put_chunk chunk c = Ok (tt, after_put c l q').
Proof.
  intros ctime Hbuf Hq. unfold intercom_put_chunk, remove_old_data_from_receivebuffer.
  unfold the_ictx, gets, upd_ictx, modify, obtainsystime, lift, mbind, M_bind. rewrite Hbuf.
  rewrite (fifo_peek _ _ Hq). destruct l as [|x l].
  - exists q. split; [done|]. split; [done|]. intros q' E. cbn [head skip]. unfold skip.
    by rewrite Hbuf, E.
  - cbn [head]. destruct (drop_old_fifo ctime (x :: l) q (S (buffered (Some q)))) as (q1 & E1 & Hq1 & Hcap).
    + done.
    + destruct Hq as (_ & _ & _ & Hp & _). apply Permutation_length in Hp. simpl buffered. lia.
    + exists q1. split; [done|]. split; [done|]. intros q' E.
      rewrite (fifo_peek _ _ Hq) in E1. cbn [head] in E1. fold ctime. rewrite E1. simpl receivebuffer.
      by rewrite E.
Qed.

Lemma enqueue_full q l chunk : fifo receivebuffer_cmp q l -> Z.of_nat (length l) = capacity q ->
  pqueue_enqueue (Some q) chunk = Ok q.
Proof.
  intros (_ & _ & _ & Hp & _) Hl. apply Permutation_length in Hp. unfold pqueue_enqueue, qsize.
  rewrite Hp, Hl, Z.geb_leb. by rewrite Z.leb_refl.
Qed.

Lemma put_chunk_total c chunk q l :
  let ctime := sysclk c (systicks c) in
  receivebuffer (ictx c) = Some q -> fifo receivebuffer_cmp q l ->
  Z.of_nat (length (live ctime l)) < capacity q ->
  Forall (fun y => later receivebuffer_cmp y chunk) (live ctime l) ->
  exists q', intercom_put_chunk chunk c = Ok (tt, after_put c l q') /\
    fifo receivebuffer_cmp q' (live ctime l ++ [chunk]) /\ capacity q' = capacity q.
Proof.
  intros ctime Hbuf Hq Hroom Hlater.
  destruct (put_chunk_run c chunk q l Hbuf Hq) as (q1 & Hq1 & Hcap & Hrun). fold ctime in Hq1.
  destruct (fifo_enqueue receivebuffer_cmp q1 _ chunk Hq1) as (q' & E & Hq' & Hc');
    [by rewrite Hcap|done|]. exists q'. rewrite (Hrun q' E), Hc', Hcap. done.
Qed.

(** C19: the receive buffer of a client whose packets arrive in play order is a
    bounded queue in that order. Storing a chunk first drops the chunks at the
    front whose time has passed on the system clock, and only these. If fewer
    than the capacity are left, and all of them are due before the new chunk, it
    is added behind them; if the queue is still full, the new chunk is not
    stored, and nobody is told. In both cases the underrun state ends, and apart
    from it, the queue and the reading of the clock (which is not read when the
    buffer was empty) nothing changes. *)
Theorem put_chunk_fifo c chunk q l :
  let ctime := sysclk c (systicks c) in
  let kept := live ctime l in
  receivebuffer (ictx c) = Some q -> fifo receivebuffer_cmp q l ->
  (Z.of_nat (length kept) < capacity q -> Forall (fun y => later receivebuffer_cmp y chunk) kept ->
     exists q', intercom_put_chunk chunk c = Ok (tt, after_put c l q') /\
       fifo receivebuffer_cmp q' (kept ++ [chunk]) /\ capacity q' = capacity q) /\
  (Z.of_nat (length kept) = capacity q ->
     exists q', intercom_put_chunk chunk c = Ok (tt, after_put c l q') /\
       fifo receivebuffer_cmp q' kept /\ capacity q' = capacity q).
Proof.
  intros ctime kept Hbuf Hq. split; [by apply put_chunk_total|]. intros Hfull.
  destruct (put_chunk_run c chunk q l Hbuf Hq) as (q1 & Hq1 & Hcap & Hrun).
  exists q1. split; [|done]. apply Hrun. eapply enqueue_full; [exact Hq1|]. rewrite Hcap. exact Hfull.
Qed.

Lemma getnext_some c q ch l : receivebuffer (ictx c) = Some q -> fifo receivebuffer_cmp q (ch :: l) ->
  exists q', fifo receivebuffer_cmp q' l /\
    intercom_getnextaudiochunk c = Ok (Some ch,
      set_underrun false (set_ictx (with_receivebuffer (Some q') (ictx c)) c)).
Proof.
  intros Hbuf Hq. unfold intercom_getnextaudiochunk, the_ictx, gets, lift, upd_ictx, modify, mbind, M_bind.
  rewrite Hbuf. destruct (fifo_dequeue receivebuffer_cmp q ch l Hq) as (q' & -> & Hq' & _). by exists q'.
Qed.

(** The player takes the chunks in play order: it gets the earliest chunk
    of the buffer, which is removed; an empty or missing buffer is an
    underrun. *)
Theorem getnext_fifo c q l :
  receivebuffer (ictx c) = Some q -> fifo receivebuffer_cmp q l ->
  exists c' q', intercom_getnextaudiochunk c = Ok (head l, c') /\
    receivebuffer (ictx c') = Some q' /\ fifo receivebuffer_cmp q' (tail l) /\
    underrun c' = bool_decide (l = []).
Proof.
  intros Hbuf Hq. destruct l as [|x l].
  - unfold intercom_getnextaudiochunk, the_ictx, gets, lift, upd_ictx, modify, mbind, M_bind.
    rewrite Hbuf. assert (pqueue_dequeue (Some q) = Ok (None, Some q)) as ->.
    { unfold pqueue_dequeue. by rewrite (fifo_peek _ _ Hq). }
    eexists _, q. done.
  - destruct (getnext_some c q x l Hbuf Hq) as (q' & Hq' & E). by eexists _, q'.
Qed.

(** ** Server operations *)

(** The length a segment is taken to have: that of an unknown segment is read
    from its third byte. *)
Definition seg_len (packet : bytes) (off : Z) : res Z :=
  type ← rd8 packet off;
  if (type =? CLIENT_STOP) || (type =? CLIENT_VOLUME) then rd8 packet (off + 1)
  else rd8 packet (off + 2).

(** The segments of a packet, none of them empty. *)
Inductive segmented (packet : bytes) (packet_len : Z) : Z -> Prop :=
  | seg_end off : packet_len <= off -> segmented packet packet_len off
  | seg_more off l : off < packet_len -> seg_len packet off = Ok l -> 0 < l ->
      segmented packet packet_len (off + l) -> segmented packet packet_len off.

Lemma adjustVolume_total (a : alsaplayer_ctx) v c : exists a' c',
  adjustVolume a v c = Ok (a', c') /\ tasks c' = tasks c /\ ictx c' = ictx c.
Proof.
  unfold adjustVolume, mixer_init, mixer_uninit, snd_out, snd_, snd, mbind, M_bind, skip, mret, M_ret.
  destruct (is_softvol a); [by eexists _, _|].
  do 2 (destruct (alsa_do _ _) as [[? ?] ?]). destruct (negb _); simpl.
  - repeat destruct (alsa_do _ _) as [[? ?] ?]. by eexists _, _.
  - repeat destruct (alsa_do _ _) as [[? ?] ?]. by eexists _, _.
Qed.

Lemma rd_more b o n : 0 <= o -> o + Z.of_nat n <= Z.of_nat (length b) -> exists v, rd b o n = Ok v.
Proof. intros. eexists. by apply rd_fits. Qed.

Lemma sop_segment_run packet off l c : seg_len packet off = Ok l -> 0 <= off ->
  off + 3 <= Z.of_nat (length packet) ->
  exists c', handle_sop_segment packet off c = Ok (off + l, c') /\ tasks c' = tasks c.
Proof.
  intros Hl H0 Hfit. unfold seg_len in Hl. unfold handle_sop_segment, lift, mbind, M_bind.
  destruct (rd8 packet off) as [ty|]; [|done]. unfold mbind, res_bind in Hl.
  destruct (ty =? CLIENT_STOP); simpl in Hl.
  { unfold tlv_get_length. rewrite Hl. by eexists. }
  destruct (ty =? CLIENT_VOLUME); simpl in Hl.
  - unfold parse_volume, rd8, mbind, res_bind in *.
    destruct (rd_more packet (off + 2) 1) as [v ->]; [lia|lia|].
    destruct (rd packet (off + 1) 1) as [lb|]; [|done]. unfold mret, res_ret in *. simplify_eq.
    unfold on_alsa, gets, modify, mbind, M_bind.
    destruct (adjustVolume_total (alsa c) (le_val v) c) as (a' & c' & -> & Ht & _). by eexists.
  - rewrite Hl. by eexists.
Qed.

(** C34: the loop over the segments of a server operation ends, with a fuel of
    one more than the packet's length, exactly when no segment has the length
    0: such a segment is handled for ever. *)
Theorem sop_loop_spec packet packet_len c :
  packet_len + 2 <= Z.of_nat (length packet) -> HDR_SIZE <= packet_len ->
  (segmented packet packet_len HDR_SIZE -> exists c',
     intercom_handle_server_operation (S (Z.to_nat packet_len)) packet packet_len c = Ok (true, c') /\
     tasks c' = tasks c) /\
  (forall off fuel, HDR_SIZE <= off < packet_len -> seg_len packet off = Ok 0 ->
     sop_loop fuel packet packet_len off c = Fault Diverges).
Proof.
  intros Hfit Hlen. unfold HDR_SIZE in *. split.
  - intros Hs. unfold intercom_handle_server_operation, mbind, M_bind.
    assert (forall fuel off c, segmented packet packet_len off -> 0 <= off ->
      packet_len - off < Z.of_nat fuel -> (0 < fuel)%nat ->
      exists c', sop_loop fuel packet packet_len off c = Ok (tt, c') /\ tasks c' = tasks c) as H.
    { clear c Hs. intros fuel off c Hs. revert fuel c.
      induction Hs as [off Hend|off l Hlt Hl Hpos Hs IH]; intros fuel c H0 Hf H0f;
        (destruct fuel as [|fuel]; [lia|]); simpl.
      - rewrite (proj2 (Z.ltb_ge off _)) by lia. by exists c.
      - rewrite (proj2 (Z.ltb_lt off _)) by lia. unfold mbind, M_bind.
        destruct (sop_segment_run packet off l c Hl) as (c1 & -> & Ht); [lia|lia|].
        destruct (IH fuel c1) as (c' & E & Ht'); [lia|lia|lia|]. exists c'. by rewrite <- Ht. }
    destruct (H (S (Z.to_nat packet_len)) 8 c) as (c' & E & Ht); [done|lia|lia|lia|].
    unfold HDR_SIZE. rewrite E. by exists c'.
  - intros off fuel Hoff Hl. revert c. induction fuel as [|fuel IH]; intros c; [done|].
    simpl. rewrite (proj2 (Z.ltb_lt off _)) by lia. unfold mbind, M_bind.
    destruct (sop_segment_run packet off 0 c Hl) as (c1 & -> & _); [lia|lia|].
    rewrite Z.add_0_r. apply IH.
Qed.
End client.

(** ** Concrete packets *)

Definition demo_early : pcmChunk := mkChunk 999 0 1000 2 2 4 CODEC_PCM (Some [1; 2; 3; 4]).
Definition demo_queue : PQueue pcmChunk := mkPQueue 20 [demo_early; demo_chunk] receivebuffer_cmp.

(** A buffer with a chunk whose time has passed and one that is still to come. *)
Definition demo_buffering : client forest unit unit unit :=
  set_ictx (with_receivebuffer (Some demo_queue) (ictx demo_client)) demo_client.

Lemma demo_fifo : fifo receivebuffer_cmp demo_queue [demo_early; demo_chunk].
Proof.
  split; [unfold cap_ok; simpl; lia|]. split; [simpl; lia|]. split; [done|]. split; [done|]. split.
  - intros [|i] k x y Hk Hx Hy; simpl in *.
    + destruct Hk as [-> | ->]; simplify_eq/=; vm_compute; discriminate.
    + destruct i; [|done]. destruct Hk as [-> | ->]; done.
  - repeat constructor.
Qed.

Definition demo_late : pcmChunk := with_play_at 1002 0 demo_chunk.

Lemma put_chunk_fifo_witness :
  exists c' q', intercom_put_chunk demo_late demo_buffering = Ok (tt, c') /\
    receivebuffer (ictx c') = Some q' /\ fifo receivebuffer_cmp q' [demo_chunk; demo_late].
Proof.
  destruct (put_chunk_fifo demo_buffering demo_late demo_queue [demo_early; demo_chunk]) as [H _].
  - reflexivity.
  - exact demo_fifo.
  - destruct H as (q' & E & Hq & _).
    + vm_compute. reflexivity.
    + vm_compute. repeat constructor.
    + eexists _, q'. split; [exact E|]. split; [reflexivity|exact Hq].
Defined.

Lemma getnext_fifo_witness :
  exists c' q', intercom_getnextaudiochunk demo_buffering = Ok (Some demo_early, c') /\
    fifo receivebuffer_cmp q' [demo_chunk].
Proof.
  destruct (getnext_fifo demo_buffering demo_queue [demo_early; demo_chunk]) as (c' & q' & E & _ & H & _).
  - reflexivity.
  - exact demo_fifo.
  - by exists c', q'.
Defined.

(** A volume change to 55, in a buffer of 16 bytes. *)
Definition demo_sop : bytes := [1; 2; 0; 0; 0; 0; 0; 0; 2; 3; 55; 0; 0; 0; 0; 0].

Lemma sop_loop_spec_witness :
  exists c', intercom_handle_server_operation 12 demo_sop 11 demo_client = Ok (true, c') /\
    tasks c' = tasks demo_client.
Proof.
  destruct (sop_loop_spec demo_sop 11 demo_client) as [H _]; [simpl; lia|unfold HDR_SIZE; lia|].
  apply H. apply (seg_more _ _ _ 3); [by vm_compute|by vm_compute|lia|]. apply seg_end. unfold HDR_SIZE. lia.
Defined.
