(* ===== verification/AlsaPlayer.v ===== *)
(** * alsaplayer.c: choosing and writing the next chunk; client.c: the tasks

    [getchunk] decides what is played next: the first chunk of the receive
    buffer when its time has come, silence otherwise.  [alsaplayer_handle] writes
    it to the device and keeps what did not fit.  Speed.v changes the speed of a
    chunk. *)
From S2P Require Import Prelude.
From S2P Require Import Timespec.
From S2P Require Import Bytes.
From S2P Require Import PQueue.
From S2P Require Import PcmChunk.
From S2P Require Import Speed.
From S2P Require Import TaskHeap.
From S2P Require Import TaskSched.
From S2P Require Import Intercom.
From S2P Require Import ClientState.
From S2P Require Import AlsaDevice.
From S2P Require Import IntercomClient.

(** alsaplayer.h:35-35 NOT_EVEN_CLOSE_MS *)
Definition NOT_EVEN_CLOSE_MS : Z := 30.
(** alsaplayer.c:18-18 NEAR_MS *)
Definition NEAR_MS : Z := 1.
(** [EPIPE] *)
Definition EPIPE : Z := 32.

(** The verdict of one round of getchunk's loop. *)
Record timing := mkTiming {
  tm_next : timespec;
  tm_diff : timediff;
  tm_near : bool;
  tm_close : bool;
  tm_overshot : bool;
  tm_past : bool;
}.

(** alsaplayer.c:127-134 getchunk *)
Definition timing_of (ready next : timespec) (playing : bool) : res timing :=
  let tdiff := timeSub ready next in
  is_near ← timespec_isnear ready next NEAR_MS;
  is_close ← timespec_isnear ready next NOT_EVEN_CLOSE_MS;
  let overshot := negb playing && (timespec_cmp ready next >=? 0) in
  mret (mkTiming next tdiff is_near is_close overshot
          ((td_sign tdiff >? 0) && negb is_near && negb overshot)).

(** alsaplayer.c:60-76 adjust_speed_simple: [c] compares the factor with 1. *)
Definition adjust_speed_simple (ch : pcmChunk) (c : comparison) : res pcmChunk :=
  let frame := channels ch * frame_size ch in
  match c, data ch with
  | Eq, _ => Ok ch
  | Lt, _ => Ok (with_size (u16 (size ch - frame)) ch)
  | Gt, None => Fault NullDeref
  | Gt, Some d =>
      all ← rd d 0 (Z.to_nat (size ch));
      lastframe ← rd d (size ch - frame) (Z.to_nat frame);
      mret (with_size (u16 (size ch + frame)) (with_data (Some (all ++ lastframe)) ch))
  end.

Section player.
Context {Q Dec Enc Dev : Type} `{!TimerQueue Q, !OpusLib Dec Enc, !AlsaLib Dev, !SoxrLib}.
Abbreviation W := (client Q Dec Enc Dev).

Definition decode (c : option pcmChunk) : M W (option pcmChunk) :=
  with_codec_ctx (fun ctx => '(_, c, ctx) ← chunk_decode ctx c; mret (c, ctx)).

(** alsaplayer.c:96-101 decode_first_input: decodes the chunk in the buffer. *)
Definition decode_first_input : M W unit :=
  c ← intercom_peeknextaudiochunk;
  c ← decode c;
  x ← the_ictx;
  match c, receivebuffer x with
  | Some c, Some q =>
      upd_ictx (with_receivebuffer (Some (mkPQueue (capacity q) (<[0%nat := c]> (qdata q)) (qcmp q))))
  | _, _ => skip
  end.

(** alsaplayer.c:103-116 timing_off_silence_chunk: silence instead of a chunk that
    is far too early; the program does not call it. *)
Definition timing_off_silence_chunk (p : pcmChunk) (tdiff : timediff) : M W (Z * pcmChunk) :=
  if td_sign tdiff <? 0 then
    d ← (match data p with None => fail NullDeref | Some d => lift (wr d 0 (zeros (size p))) end);
    let p := with_play_at 0 (play_at_tv_nsec p) (with_data (Some d) p) in
    upd_alsa (with_playing false 0) ;;
    p' ← decode (Some p);
    mret (-1, default p p')
  else mret (-1, p).

(** alsaplayer.c:78-94 adjust_speed: the chunk is decoded where its duration is
    asked for. *)
Definition adjust_speed (chunk : pcmChunk) (starting_playback : timespec) : M W pcmChunk :=
  nextchunk_playat ← intercom_get_time_next_audiochunk;
  '(ms, c) ← with_codec_ctx (fun ctx =>
     '(ms, c, ctx) ← chunk_getduration_ms ctx (Some chunk); mret ((ms, c), ctx));
  chunk_play_end ← lift (timeAddMs starting_playback ms);
  let tdiff := timeSub chunk_play_end nextchunk_playat in
  lift (adjust_speed_soxr (default chunk c) (speed_factor tdiff ms)).

(** alsaplayer.c:126-142 getchunk: the loop that drops late chunks *)
Fixpoint drop_late (fuel : nat) (ready : timespec) (p : pcmChunk) : M W (timing * pcmChunk) :=
  match fuel with
  | O => fail Diverges
  | S fuel =>
      next ← intercom_get_time_next_audiochunk;
      a ← gets alsa;
      t ← lift (timing_of ready next (playing a));
      if tm_past t && negb (tm_close t) && negb (chunk_is_empty (Some p)) then
        c ← intercom_getnextaudiochunk;
        let p := match c with Some c => default c (chunk_free_members (Some c)) | None => p end in
        if chunk_is_empty (Some p) then mret (t, p) else drop_late fuel ready p
      else mret (t, p)
  end.

(** alsaplayer.c:145-159 getchunk: playing the first chunk of the buffer *)
Definition play_next (ready : timespec) (t : timing) (p : pcmChunk) : M W pcmChunk :=
  c ← intercom_getnextaudiochunk;
  a ← gets alsa;
  match c with
  | None =>
      let n := empty_chunks_in_row a + 1 in
      upd_alsa (with_playing (if n >? 5 then false else playing a) n) ;;
      mret (get_emptychunk p 50)
  | Some c =>
      upd_alsa (with_playing true 0) ;;
      post_task 0 0 DecodeFirst ;;
      b ← gets bufferms;
      reschedule_task (close_task a) (close_timeout_s b) (close_timeout_ms b) ;;
      p ← decode (Some c);
      if tm_near t then mret (default c p) else adjust_speed (default c p) ready
  end.

(** alsaplayer.c:161-166 getchunk: how long to be silent *)
Definition silence_ms (t : timing) : Z :=
  if td_sign (tm_diff t) >? 0 then 0
  else if tv_sec (td_time (tm_diff t)) =? 0 then Z.quot (tv_nsec (td_time (tm_diff t))) 1000000
  else NOT_EVEN_CLOSE_MS.

(** alsaplayer.c:118-174 getchunk *)
Definition getchunk (p : pcmChunk) (delay_frames : Z) : M W pcmChunk :=
  ctime ← obtainsystime;
  a ← gets alsa;
  delay ← lift (cdiv (u64 (delay_frames * 1000)) (rate a));
  ready ← lift (timeAddMs ctime (s32 (delay + latency_ms a)));
  '(t, p) ← drop_late 2 ready p;
  a ← gets alsa;
  if playing a || tm_overshot t || tm_near t then play_next ready t p
  else mret (get_emptychunk p (silence_ms t)).

(** alsaplayer.c:211-221 alsaplayer_handle: writing; the result is an unsigned
    number, so only [-EPIPE] is noticed as an error. *)
Definition write_pcm (d : bytes) (n : Z) : M W Z :=
  '(pcm, _) ← snd (PcmWritei d n);
  if u32 pcm =? u32 (- EPIPE) then
    snd_ PcmPrepare ;;
    '(pcm, _) ← snd (PcmWritei d n);
    mret (u32 pcm)
  else mret (u32 pcm).

(** alsaplayer.c:176-242 alsaplayer_handle *)
Definition alsaplayer_handle : M W unit :=
  a ← gets alsa;
  let empty := mkChunk 0 0 (u32 (rate a)) (u8 (a_frame_size a)) (u8 (a_channels a)) 0 0 None in
  '(rc, out) ← snd PcmDelay;
  let delayp := if rc <? 0 then 0 else out in
  chunk ← match overflow a with
          | None => getchunk empty delayp
          | Some o => mret o
          end;
  if (channels chunk =? 0) || (frame_size chunk =? 0) || (size chunk =? 0) then skip
  else
    match data chunk with
    | None => fail NullDeref
    | Some d =>
        let n := Z.quot (Z.quot (size chunk) (channels chunk)) (frame_size chunk) in
        pcm ← write_pcm d n;
        if pcm <? n then
          a ← gets alsa;
          let o := match overflow a with Some o => o | None => chunk end in
          o ← lift (pcmchunk_shaveoff o (s32 pcm));
          upd_alsa (with_overflow (Some o))
        else if pcm =? n then upd_alsa (with_overflow None)
        else skip
    end.

(** alsaplayer.c:244-248 alsaplayer_uninit_task *)
Definition alsaplayer_uninit_task : M W unit := on_alsa alsaplayer_uninit.

(** client.c:87-90 resume_polling *)
Definition resume_polling (i : nat) : M W unit :=
  x ← the_ictx;
  a ← gets alsa;
  match main_poll_fd a with
  | None => fail NullDeref
  | Some fds => upd_alsa (with_main_fds (Some (<[i := i_fd x]> fds)))
  end.

(** Running a task of the client. *)
Definition run_ctask (t : ctask) : M W unit :=
  match t with
  | HelloTask d => hello_task d
  | RequestTask d => request_task d
  | UninitTask => alsaplayer_uninit_task
  | DecodeFirst => decode_first_input
  | ReinitTask => intercom_reinit
  | ResumePolling i => resume_polling i
  end.

(** client.c:135-137 loop: the timer of the task queue *)
Definition client_timer_event (fuel : nat) : M W unit := taskqueue_run fuel run_ctask ctask_cleanup.

(** client.c:141-145 loop: the network reports an error *)
Definition client_network_error : M W unit :=
  intercom_uninit ;; on_alsa alsaplayer_uninit ;; post_task 1 0 ReinitTask ;; skip.

(** client.c:58-63 sig_term_handler *)
Definition sig_term_handler : M W unit := on_alsa alsaplayer_remove_task ;; on_alsa alsaplayer_uninit.

(** client.c:65-85 alsa_get_fd_amount: opens and closes the device once. *)
Definition alsa_get_fd_amount : M W Z :=
  let tmp := mkAlsa 0 48000 2 2 0 0 [] None 0 None false false false 0 0 None in
  tmp ← alsaplayer_init tmp;
  let n := pollfd_count tmp in
  tmp ← alsaplayer_remove_task tmp;
  alsaplayer_uninit tmp ;;
  mret n.
End player.

(** A libsoxr that copies, for the examples. *)
#[export] Instance same_speed : SoxrLib := {| soxr_oneshot _ _ _ input _ _ _ := default [] input |}.
