(* ===== verification/PlayerProofs.v ===== *)
(** * The player: synchronisation, and the task that closes the device

    Theorems about AlsaPlayer.v. *)
From S2P Require Import Prelude.
From S2P Require Import Timespec.
From S2P Require Import Bytes.
From S2P Require Import PQueue.
From S2P Require Import PcmChunk.
From S2P Require Import Speed.
From S2P Require Import TaskHeap.
From S2P Require Import TaskSched.
From S2P Require Import Intercom.
From S2P Require Import ClientState.
From S2P Require Import AlsaDevice.
From S2P Require Import IntercomClient.
From S2P Require Import ClientGaps.
From S2P Require Import ClientBuffer.
From S2P Require Import AlsaPlayer.

Section player.
Context {Q Dec Enc Dev : Type}
  `{!TimerQueue Q, !TimerQueueLaws Q, !OpusLib Dec Enc, !AlsaLib Dev, SL : !SoxrLib}.
Implicit Types (c : client Q Dec Enc Dev).

(** *** Synchronisation *)

Lemma timing_of_spec ready next pl : sane ready -> sane next -> 30000000 <= ns ready ->
  timing_of ready next pl = Ok (mkTiming next (timeSub ready next)
    (bool_decide (Z.abs (ns ready - ns next) <= 1000000))
    (bool_decide (Z.abs (ns ready - ns next) <= 30000000))
    (negb pl && (ns next <=? ns ready))
    ((ns next <=? ns ready) && negb (bool_decide (Z.abs (ns ready - ns next) <= 1000000))
     && negb (negb pl && (ns next <=? ns ready)))).
Proof.
  intros Hr Hn Hlate. unfold timing_of, NEAR_MS, NOT_EVEN_CLOSE_MS.
  rewrite !timespec_isnear_total by (eauto with snap; lia). unfold mbind, res_bind, mret, res_ret.
  destruct (timeSub_total ready next Hr Hn) as (_ & _ & _ & ->).
  rewrite timespec_cmp_ns by eauto with snap. destruct pl; cases_lt; simpl; first [done|lia].
Qed.

(** A chunk without a play time, as the player's, never makes the loop drop
    anything. *)
Lemma drop_late_empty fuel ready p c t : chunk_is_empty (Some p) = true ->
  timing_of ready (chunk_get_play_at (pqueue_peek (receivebuffer (ictx c)))) (playing (alsa c)) = Ok t ->
  drop_late (S fuel) ready p c = Ok ((t, p), c).
Proof.
  intros Hp Ht. cbn [drop_late]. unfold intercom_get_time_next_audiochunk, the_ictx, gets, lift.
  unfold mbind, M_bind, mret, M_ret. rewrite Ht, Hp. by rewrite andb_false_r.
Qed.

(** The task that closes the device, if there is one, has not been freed. *)
Definition close_alive c : Prop :=
  match close_task (alsa c) with Some a => is_Some (s_tasks (tasks c) !! a) | None => True end.

Lemma reschedule_close c a : client_ok c -> 0 <= bufferms c < 65536 ->
  match a with Some a => is_Some (s_tasks (tasks c) !! a) | None => True end ->
  exists b s', reschedule_task a (close_timeout_s (bufferms c)) (close_timeout_ms (bufferms c)) c =
    Ok (b, set_tasks s' c).
Proof.
  intros [Hs Hclk] Hb Ha. destruct a as [a|]; [|by exists false, (tasks c); destruct c].
  destruct Ha as [t Ht]. unfold close_timeout_s, close_timeout_ms.
  destruct (reschedule_total (HasSched0 := client_sched) c a t (12 * bufferms c / 10000)
    ((12 * bufferms c / 10) mod 1000) Hs (Hclk _)) as [H1 H2]; [| |exact Ht|].
  { split; [apply Z.div_pos|apply Z.div_lt_upper_bound]; lia. }
  { pose proof (Z.mod_pos_bound (12 * bufferms c / 10) 1000). lia. }
  destruct (tr_running t).
  - rewrite H1 by done. exists false, (tasks c). by destruct c.
  - destruct (H2 eq_refl) as (d & s' & E & _). by exists true, s'.
Qed.

(** A chunk of PCM data with a format and a duration. *)
Definition duration (ch : pcmChunk) : Z :=
  Z.quot (Z.quot (Z.quot (1000 * size ch) (channels ch)) (frame_size ch)) (samples ch).
Record playable (ch : pcmChunk) : Prop := {
  pl_pcm : codec ch = CODEC_PCM;
  pl_size : 0 <= size ch < 65536;
  pl_samples : 0 < samples ch < 2 ^ 32;
  pl_channels : 0 < channels ch;
  pl_frame : 0 < frame_size ch;
  pl_duration : 0 < duration ch;
}.

(** The chunk as it is played from [ready] on, when the following one is due at
    [next]. *)
Definition adjusted (ch : pcmChunk) (ready next : timespec) : res pcmChunk :=
  e ← timeAddMs ready (duration ch); adjust_speed_soxr ch (speed_factor (timeSub e next) (duration ch)).

Lemma duration_bounds ch : playable ch -> duration ch <= 65535000.
Proof.
  assert (forall a b, 0 <= a -> 0 < b -> 0 <= Z.quot a b <= a) as Hq.
  { intros a b Ha Hb. rewrite Z.quot_div_nonneg by lia. split; [by apply Z.div_pos|]. apply Z.div_le_upper_bound; nia. }
  intros [_ Hs Hm Hc Hf _]. unfold duration.
  destruct (Hq (1000 * size ch) (channels ch)); [lia|lia|].
  destruct (Hq (Z.quot (1000 * size ch) (channels ch)) (frame_size ch)); [lia|lia|].
  destruct (Hq (Z.quot (Z.quot (1000 * size ch) (channels ch)) (frame_size ch)) (samples ch)); lia.
Qed.

Lemma timeSub_sign t1 t2 : td_sign (timeSub t1 t2) = 1 \/ td_sign (timeSub t1 t2) = -1.
Proof. unfold timeSub. destruct (_ <? 0), (_ >=? _); auto. Qed.

Lemma adjusted_total ch ready next : playable ch -> sane ready ->
  exists n out, adjusted ch ready next = Ok (with_size n (with_data (Some out) ch)) /\ 0 <= n < 65536.
Proof.
  intros Hp Hr. pose proof (duration_bounds ch Hp). destruct Hp as [_ Hs Hm Hc Hf Hd]. unfold adjusted, mbind, res_bind.
  destruct (timeAddMs_spec ready (duration ch) Hr) as (e & -> & _); [lia|].
  destruct (speed_total ch (timeSub e next) (duration ch)) as (n & out & -> & Hn); try lia; [apply timeSub_sign|].
  by exists n, out.
Qed.

Lemma adjust_speed_run ch ready c : playable ch ->
  adjust_speed ch ready c =
    (ch' ← lift (adjusted ch ready (chunk_get_play_at (pqueue_peek (receivebuffer (ictx c))))); mret ch') c.
Proof.
  intros [Hcod Hs Hm Hc Hf Hd]. unfold adjust_speed, intercom_get_time_next_audiochunk, the_ictx, gets, with_codec_ctx,
    chunk_getduration_ms, chunk_decode, lift, mbind, M_bind, mret, M_ret. rewrite Hcod. simpl.
  replace ((channels ch =? 0) || (frame_size ch =? 0) || (samples ch =? 0)) with false by lia.
  fold (duration ch). unfold adjusted, mbind, res_bind. destruct c; simpl.
  destruct (timeAddMs ready (duration ch)); [|done]. by destruct (adjust_speed_soxr _ _).
Qed.

(** Taking the first chunk of the buffer: it is decoded, then adapted to the time
    unless that is within a millisecond, and the player is playing. *)
Lemma play_next_total c q ch l ready t p b pcm ctx :
  receivebuffer (ictx c) = Some q -> fifo receivebuffer_cmp q (ch :: l) -> client_ok c ->
  close_alive c -> 0 <= bufferms c < 65536 ->
  chunk_decode (opuscodec c) (Some ch) = Ok (b, Some pcm, ctx) -> playable pcm -> sane ready ->
  exists ch' c' q', (if tm_near t then Ok pcm else adjusted pcm ready (chunk_get_play_at (head l))) = Ok ch' /\
    play_next ready t p c = Ok (ch', c') /\
    playing (alsa c') = true /\ receivebuffer (ictx c') = Some q' /\ fifo receivebuffer_cmp q' l.
Proof.
  intros Hbuf Hq Hok Hclose Hb Hdec Hplay Hr. destruct (getnext_some c q ch l Hbuf Hq) as (q' & Hq' & E).
  unfold play_next. rewrite (M_bind_Ok _ _ _ _ _ E). set (c1 := set_underrun _ _).
  unfold gets, upd_alsa, modify, mbind, M_bind. cbv iota beta.
  set (c2 := set_alsa _ c1).
  destruct (post_client c2 0 0 DecodeFirst) as (a & d & s1 & -> & Hok1 & Hgrow & _); [done|lia|lia|].
  destruct (reschedule_close (set_tasks s1 c2) (close_task (alsa c1))) as (b1 & s2 & Er); [done|done| |].
  { unfold close_alive in Hclose. change (close_task (alsa c1)) with (close_task (alsa c)).
    destruct (close_task (alsa c)) as [x|]; [|done]. destruct Hclose as [u Hu]. exists u. by apply Hgrow. }
  rewrite Er. unfold decode, with_codec_ctx, mbind, res_bind. cbv beta iota.
  change (opuscodec _) with (opuscodec c). rewrite Hdec. unfold mret, res_ret, M_ret. cbn [default].
  destruct (tm_near t); [by eexists pcm, _, q'|].
  destruct (adjusted_total pcm ready (chunk_get_play_at (head l)) Hplay Hr) as (n & out & Ea & _).
  rewrite adjust_speed_run by done. unfold lift, mbind, M_bind, mret, M_ret. simpl.
  pose proof (fifo_peek _ _ Hq') as Hp. simpl in Hp. rewrite Hp, Ea. by eexists _, _, q'.
Qed.

(** C17: a stopped player starts in time. Its buffer holds chunks in play order,
    the first of them [ch]; it is asked for a chunk while it has none ([p] is
    empty); the rate of the device is not 0, the device would play the next
    sample at [ready], and [ready], at least 30 ms after the epoch, and the play
    time of [ch] are sane. If [ch] is due more than a millisecond later, the
    player plays silence, for as long as the chunk is away (30 ms if that is a
    second or more), and leaves the buffer alone. Otherwise, however late the
    chunk is, it takes the chunk from the buffer, decodes it, and is playing: it
    plays the decoded chunk as it is when that is within a millisecond, and
    adjusted to the time when not. For the second part the scheduler is in
    order, the task that closes the device is alive, the length of the buffer
    fits 16 bits and decoding [ch] gives a chunk of PCM data with a format and a
    duration ([playable]); such a chunk can always be adjusted. *)
Theorem start_in_time c q ch l p ready delay :
  let next := chunk_get_play_at (Some ch) in
  let wait := ns next - ns ready in
  let c0 := systick c in
  receivebuffer (ictx c) = Some q -> fifo receivebuffer_cmp q (ch :: l) -> playing (alsa c) = false ->
  rate (alsa c) <> 0 -> chunk_is_empty (Some p) = true ->
  timeAddMs (sysclk c (systicks c))
    (s32 (Z.quot (u64 (delay * 1000)) (rate (alsa c)) + latency_ms (alsa c))) = Ok ready ->
  sane ready -> sane next -> 30000000 <= ns ready ->
  (wait > 1000000 ->
     getchunk p delay c = Ok (get_emptychunk p (if wait <? BILLION then wait / 1000000 else 30), c0)) /\
  (forall b pcm ctx, wait <= 1000000 -> client_ok c -> close_alive c -> 0 <= bufferms c < 65536 ->
     chunk_decode (opuscodec c) (Some ch) = Ok (b, Some pcm, ctx) -> playable pcm ->
     exists ch' c' q', (if bool_decide (Z.abs wait <= 1000000) then Ok pcm
                        else adjusted pcm ready (chunk_get_play_at (head l))) = Ok ch' /\
       getchunk p delay c = Ok (ch', c') /\
       playing (alsa c') = true /\ receivebuffer (ictx c') = Some q' /\ fifo receivebuffer_cmp q' l).
Proof.
  intros next wait c0 Hbuf Hq Hpl Hrate Hp Hready Hr Hn Hlate.
  pose proof (fifo_peek q (ch :: l) Hq) as Hpeek. cbn [head] in Hpeek.
  assert (timing_of ready (chunk_get_play_at (pqueue_peek (receivebuffer (ictx c0)))) (playing (alsa c0))
    = Ok (mkTiming next (timeSub ready next)
    (bool_decide (Z.abs (ns ready - ns next) <= 1000000))
    (bool_decide (Z.abs (ns ready - ns next) <= 30000000))
    (ns next <=? ns ready)
    ((ns next <=? ns ready) && negb (bool_decide (Z.abs (ns ready - ns next) <= 1000000))
     && negb (ns next <=? ns ready)))) as Et.
  { simpl. rewrite Hbuf, Hpeek, Hpl. by apply (timing_of_spec ready next false). }
  pose proof (drop_late_empty 1 ready p c0 _ Hp Et) as Eloop.
  unfold getchunk, obtainsystime, gets, lift, cdiv, mbind, M_bind, mret, M_ret. fold c0.
  change (alsa c0) with (alsa c). rewrite (proj2 (Z.eqb_neq (rate (alsa c)) 0)) by done.
  rewrite Hready, Eloop. change (alsa c0) with (alsa c). rewrite Hpl. cbn [tm_overshot tm_near orb].
  split.
  - intros Hw. unfold wait in *. rewrite (proj2 (Z.leb_gt (ns next) _)) by lia.
    rewrite bool_decide_false by lia. cbn [orb]. unfold silence_ms. cbn [tm_diff].
    destruct (timeSub_total ready next Hr Hn) as ([Hn0 Hn1] & Hs0 & Habs & ->).
    rewrite (proj2 (Z.ltb_lt (ns ready) _)) by lia. change (-1 >? 0) with false. cbv iota.
    rewrite Z.abs_neq in Habs by lia. unfold ns at 1 in Habs. unfold BILLION in *.
    do 3 f_equal.
    destruct (Z.ltb_spec (ns next - ns ready) 1000000000), (Z.eqb_spec (tv_sec (td_time (timeSub ready next))) 0);
      try lia; [|done]. rewrite Z.quot_div_nonneg by lia. f_equal. lia.
  - intros b pcm ctx Hw Hok Hclose Hb Hdec Hplay. unfold wait in *.
    replace ((ns next <=? ns ready) || bool_decide (Z.abs (ns ready - ns next) <= 1000000)) with true
      by (destruct (Z.leb_spec (ns next) (ns ready)); [|rewrite bool_decide_true by lia]; done).
    match type of Eloop with _ = Ok ((?t, _), _) =>
      destruct (play_next_total c0 q ch l ready t p b pcm ctx Hbuf Hq Hok Hclose Hb Hdec Hplay Hr) as (ch' & c' & q' & Ea & -> & Hfin)
    end.
    exists ch', c', q'. split; [|by split]. cbn [tm_near] in Ea. rewrite <- Ea, <- Z.abs_opp.
    by replace (- (ns next - ns ready)) with (ns ready - ns next) by lia.
Qed.
(** *** The task that closes the device *)

Lemma negate_fds_total n fds : (n <= length fds)%nat -> exists r, negate_fds n fds = Ok r.
Proof.
  revert fds. induction n as [|n IH]; intros fds Hn; [by exists fds|].
  destruct fds as [|fd fds]; [simpl in Hn; lia|]. destruct (IH fds) as [r E]; [simpl in Hn; lia|].
  exists (- fd :: r). simpl. by rewrite E.
Qed.

(** The poll set of the main loop has room for the descriptors of the device. *)
Definition polls_device c : Prop :=
  match main_poll_fd (alsa c) with
  | None => True
  | Some fds => (Z.to_nat (pollfd_count (alsa c)) <= length fds)%nat
  end.

Lemma snd_run call c : exists d, snd_ call c = Ok (tt, set_device d c).
Proof.
  unfold snd_, snd, mbind, M_bind. destruct (alsa_do call (device c)) as [[rc out] d]. by exists d.
Qed.

(** Closing the device from the task that the player's pointer names: the task is
    being run, so dropping it does nothing, and the pointer stays. *)
Lemma uninit_running c a t : initialized (alsa c) = true -> polls_device c ->
  close_task (alsa c) = Some a -> s_tasks (tasks c) !! a = Some t -> tr_running t = true ->
  exists x d, alsaplayer_uninit (alsa c) c = Ok (x, set_device d c) /\
    initialized x = false /\ close_task x = Some a.
Proof.
  intros Hi Hfds Ha Ht Hr. unfold alsaplayer_uninit. rewrite Hi. cbn [negb].
  destruct (snd_run PcmNonblock c) as [d1 E1]. rewrite (M_bind_Ok _ _ _ _ _ E1).
  destruct (snd_run PcmDrain (set_device d1 c)) as [d2 E2]. rewrite (M_bind_Ok _ _ _ _ _ E2).
  destruct (snd_run PcmHwFree (set_device d2 c)) as [d3 E3]. rewrite (M_bind_Ok _ _ _ _ _ E3).
  destruct (snd_run PcmClose (set_device d3 c)) as [d4 E4]. rewrite (M_bind_Ok _ _ _ _ _ E4).
  destruct (snd_run ConfigFree (set_device d4 c)) as [d5 E5]. rewrite (M_bind_Ok _ _ _ _ _ E5).
  cbv zeta. set (x := with_device _ _ _ _ []).
  assert (exists y, (match main_poll_fd x with
      | None => mret x
      | Some fds => fds ← lift (negate_fds (Z.to_nat (pollfd_count x)) fds); mret (with_main_fds (Some fds) x)
      end : M (client Q Dec Enc Dev) _) (set_device d5 c) = Ok (y, set_device d5 c) /\
    initialized y = false /\ close_task y = Some a) as (y & Ey & Hy & Hya).
  { change (main_poll_fd x) with (main_poll_fd (alsa c)). change (pollfd_count x) with (pollfd_count (alsa c)).
    unfold polls_device in Hfds. destruct (main_poll_fd (alsa c)) as [fds|]; [|by exists x].
    destruct (negate_fds_total _ _ Hfds) as [r E]. exists (with_main_fds (Some r) x).
    unfold lift, mbind, M_bind, mret, M_ret. by rewrite E. }
  rewrite (M_bind_Ok _ _ _ _ _ Ey). exists y, d5. split; [|done]. rewrite Hya.
  unfold drop_task, the_task, mbind, M_bind. change (get_sched (set_device d5 c)) with (tasks c).
  by rewrite Ht, Hr.
Qed.

(** C38: when the timeout closes the device, the player keeps the address of the
    task that did it. In every client in order whose device is open, whose poll
    set has room for the device's descriptors, and whose close task is the only
    one that is due, the timer event closes the device and frees the task, but
    the player's pointer to it stays; a signal that ends the client while the
    pointer is there, and its memory is not in use again, uses the freed task.
    *)
Theorem close_task_dangling c a t fuel :
  client_ok c -> initialized (alsa c) = true -> polls_device c ->
  close_task (alsa c) = Some a -> s_tasks (tasks c) !! a = Some t -> tr_running t = false ->
  tr_payload t = UninitTask ->
  due (s_clk (tasks c) (s_ticks (tasks c))) (tasks c) = [(a, tr_due t)] -> (2 <= fuel)%nat ->
  exists c1, client_timer_event fuel c = Ok (tt, c1) /\ initialized (alsa c1) = false /\
    s_tasks (tasks c1) = delete a (s_tasks (tasks c)) /\ close_task (alsa c1) = Some a /\
    forall c2, close_task (alsa c2) = Some a -> s_tasks (tasks c2) !! a = None ->
      sig_term_handler c2 = Fault UseAfterFree.
Proof.
  intros [Hs _] Hi Hfds Ha Ht Hr Hp Hdue Hfuel.
  set (c0 := set_tasks (taken (tick (tasks c)) a t) c).
  destruct (uninit_running c0 a (mkTrec (tr_due t) true (tr_payload t))) as (x & d & E & Hx & Hxa);
    try done; [apply lookup_insert_eq|].
  assert (run_ctask (tr_payload t) c0 = Ok (tt, set_alsa x (set_device d c0))) as Erun.
  { rewrite Hp. simpl. unfold alsaplayer_uninit_task, on_alsa, gets, modify, mbind, M_bind. by rewrite E. }
  eexists. split.
  { exact (run_one (HasSched0 := client_sched) run_ctask ctask_cleanup fuel c a t
      (set_alsa x (set_device d c0)) Hs Ht Hr Hdue Erun eq_refl eq_refl Hfuel). }
  split; [exact Hx|]. split; [|split; [exact Hxa|]].
  - destruct (arm_queue (dropped (tick (tasks c)) a)) as [_ Et]. exact Et.
  - intros c2 Ha2 Hfree. unfold sig_term_handler, on_alsa, alsaplayer_remove_task, gets, mbind, M_bind.
    rewrite Ha2. unfold drop_task, the_task, mbind, M_bind.
    change (get_sched c2) with (tasks c2). by rewrite Hfree.
Qed.
End player.

(** ** Concrete players *)

Definition demo_play_alsa : alsaplayer_ctx :=
  with_initialized true false (with_format 48000 2 2 demo_alsa).

(** A stopped player at 1000 s whose first chunk was due at 999 s. *)
Definition demo_player : client forest unit unit unit := set_alsa demo_play_alsa demo_buffering.

Lemma demo_player_ok : client_ok demo_player.
Proof.
  split; [split|].
  - split; [constructor|done].
  - intros p d. simpl. split; [by intros ?%elem_of_nil|]. intros (t & Ht & _).
    by rewrite lookup_empty in Ht.
  - intros n. split; [simpl; lia|]. unfold norm_ns, BILLION. simpl. lia.
Qed.

Definition no_chunk : pcmChunk := mkChunk 0 0 48000 2 2 0 0 None.

Lemma start_in_time_witness :
  exists c' q', getchunk no_chunk 0 demo_player = Ok (with_size 8 demo_early, c') /\ playing (alsa c') = true /\
    fifo receivebuffer_cmp q' [demo_chunk].
Proof.
  destruct (start_in_time demo_player demo_queue demo_early [demo_chunk] no_chunk (mkTime 1000 0) 0)
    as [_ H]; [done|exact demo_fifo|done|done|done|by vm_compute| | |by vm_compute|].
  1-2: (split; [simpl; lia|unfold norm_ns, BILLION; simpl; lia]).
  destruct (H false demo_early no_ctx) as (ch' & c' & q' & Ea & E & Hp & _ & Hq);
    [by vm_compute|exact demo_player_ok|done|simpl; lia|reflexivity| |].
  { by split. }
  exists c', q'. split; [|split; [exact Hp|exact Hq]]. rewrite E. vm_compute in Ea. injection Ea as <-. reflexivity.
Defined.

(** A client whose device is open; its monotonic clock shows 7 s for the first
    two readings and 100 s from then on. *)
Definition opened_clk (n : nat) : timespec := if decide (n < 2)%nat then mkTime 7 0 else mkTime 100 0.
Definition opened : res (client forest unit unit unit) :=
  let clk := opened_clk in
  let c := set_tasks (mkSched Nil ∅ None clk 0) (set_alsa (with_format 48000 2 2 demo_alsa) demo_client) in
  '(_, c) ← (on_alsa alsaplayer_init ;; on_alsa init_alsafd) c; mret c.

(** The task that closes the device is due 0.6 s after it was opened. *)
Definition close_due : trec ctask := mkTrec (mkTime 7 600000000) false UninitTask.

Lemma opened_tasks c0 : opened = Ok c0 ->
  tasks c0 = mkSched (Cons 1 (tr_due close_due) Nil Nil) {[1%positive := close_due]}
    (Some (tr_due close_due)) opened_clk 2.
Proof. vm_compute. by intros [= <-]. Qed.

Lemma opened_open c0 : opened = Ok c0 ->
  initialized (alsa c0) = true /\ pollfd_count (alsa c0) = 1 /\ main_poll_fd (alsa c0) = Some [5; 3; 4] /\
  close_task (alsa c0) = Some 1%positive.
Proof. vm_compute. by intros [= <-]. Qed.

Lemma opened_ok c0 : opened = Ok c0 -> client_ok c0.
Proof.
  intros E. unfold client_ok. rewrite (opened_tasks c0 E). split; [apply single_sched_ok|].
  intros n. simpl. unfold opened_clk. destruct (decide _); (split; [simpl; lia|unfold norm_ns, BILLION; simpl; lia]).
Qed.

Lemma close_task_dangling_witness :
  exists c0 c1, opened = Ok c0 /\ client_timer_event 4 c0 = Ok (tt, c1) /\
    sig_term_handler c1 = Fault UseAfterFree.
Proof.
  destruct opened as [c0|] eqn:E; [|vm_compute in E; discriminate]. exists c0.
  pose proof (opened_ok c0 E) as Hok. pose proof (opened_tasks c0 E) as Et.
  destruct (opened_open c0 E) as (Hi & Hn & Hf & Ha).
  destruct (close_task_dangling c0 1 close_due 4 Hok Hi) as (c1 & E1 & _ & Htasks & Hp & Hsig).
  - unfold polls_device. rewrite Hf, Hn. simpl. lia.
  - exact Ha.
  - by rewrite Et.
  - reflexivity.
  - reflexivity.
  - by rewrite Et.
  - lia.
  - exists c1. split; [reflexivity|]. split; [exact E1|]. apply Hsig; [exact Hp|].
    rewrite Htasks. apply lookup_delete_eq.
Defined.
