(* ===== verification/ClientLoop.v ===== *)
(** * client.c: main and the main loop

    The poll set is one array: first the descriptors of the sound device, then
    that of the task queue's timer, last that of the intercom.  The player's
    context points to it ([main_poll_fd]).  What [poll] returns is the list of the
    [revents], an entry for every descriptor, with the datagrams that are there to
    be received.  [getopt_long] is represented by the options it returns. *)
From Stdlib Require Import Ascii String.
From S2P Require Import Prelude.
From S2P Require Import Timespec.
From S2P Require Import Bytes.
From S2P Require Import CString.
From S2P Require Import PQueue.
From S2P Require Import PcmChunk.
From S2P Require Import Speed.
From S2P Require Import TaskHeap.
From S2P Require Import TaskSched.
From S2P Require Import Intercom.
From S2P Require Import ClientState.
From S2P Require Import AlsaDevice.
From S2P Require Import IntercomClient.
From S2P Require Import AlsaPlayer.

(** The bits of [revents]. *)
Definition POLLIN : Z := 1.
Definition POLLOUT : Z := 4.
Definition POLLERR : Z := 8.
Definition POLLNVAL : Z := 32.
Definition has (revents flag : Z) : bool := negb (Z.land revents flag =? 0).

(** [snd_pcm_poll_descriptors_revents(pcm, fds, n, &revents)]: the events of the
    device, from the entries of the poll set. *)
Class AlsaPollLib (Dev : Type) := { snd_pcm_poll_descriptors_revents : Dev -> list (Z * Z) -> Z }.

Section loop.
Context {Q Dec Enc Dev : Type}
  `{!TimerQueue Q, !OpusLib Dec Enc, !AlsaLib Dev, !AlsaPollLib Dev, !SoxrLib} (taskqueue_fd : Z).
Abbreviation W := (client Q Dec Enc Dev).

(** intercom.c:55-90 intercom_handle_in: until nothing is left to receive; an
    empty datagram also ends the loop. *)
Fixpoint client_handle_in (rs : list received) : M W unit :=
  match rs with
  | [] | RecvError :: _ => skip
  | Received buf count peer port :: rs =>
      if count =? 0 then skip
      else intercom_handle_packet (S (Z.to_nat count)) buf count ;; client_handle_in rs
  end.

(** The poll set. *)
Definition poll_fds : M W (list Z) :=
  a ← gets alsa; match main_poll_fd a with Some fds => mret fds | None => fail NullDeref end.

(** client.c:146-148 loop: the intercom's descriptor is not open; [last] is its
    entry. *)
Definition pause_polling (last : nat) : M W unit :=
  fds ← poll_fds;
  upd_alsa (with_main_fds (Some (<[last := -1]> fds))) ;;
  post_task 1 0 (ResumePolling last) ;;
  skip.

(** client.c:149-152 loop: the sound device takes data *)
Definition device_ready (i : nat) : M W unit :=
  alsaplayer_handle ;;
  a ← gets alsa;
  if (i <? length (ufds a))%nat then skip else fail OutOfBounds.

(** client.c:124-156 loop: entry [i] of the poll set with its [revents], in [fuel]
    rounds of the task queue; the [revents] afterwards. *)
Definition handle_entry (fuel : nat) (ds : list received) (revents : list Z) (i : nat) : M W (list Z) :=
  fds ← poll_fds;
  a ← gets alsa;
  x ← the_ictx;
  d ← gets device;
  match fds !! i, revents !! i with
  | Some fd, Some r =>
      if r =? 0 then mret revents
      else
        let r := if is_alsafd fd a
                 then u16 (snd_pcm_poll_descriptors_revents d (take (Z.to_nat (pollfd_count a)) (zip fds revents)))
                 else r in
        (if has r POLLIN && (fd =? taskqueue_fd) then client_timer_event fuel
         else if has r POLLIN && (fd =? i_fd x) then client_handle_in ds
         else if has r POLLERR && (fd =? i_fd x) then client_network_error
         else if has r POLLNVAL && (fd =? i_fd x) then pause_polling (length fds - 1)
         else if has r POLLOUT && is_alsafd fd a then device_ready i
         else skip) ;;
        mret (<[i := 0]> revents)
  | _, _ => fail OutOfBounds
  end.

(** client.c:123-157 loop: all entries in their order *)
Fixpoint handle_entries (fuel : nat) (ds : list received) (revents : list Z) (es : list nat) : M W unit :=
  match es with
  | [] => skip
  | i :: es => revents ← handle_entry fuel ds revents i; handle_entries fuel ds revents es
  end.

(** client.c:113-159 loop: [poll] returned [n] *)
Definition handle_poll (fuel : nat) (n : Z) (revents : list Z) (ds : list received) : M W unit :=
  if n =? -1 then sig_term_handler ;; fail ExitSuccess
  else if n =? 0 then skip
  else fds ← poll_fds; handle_entries fuel ds revents (seq 0 (length fds)).

(** client.c:92-109 loop: the poll set at the start *)
Definition start_polling : M W unit :=
  n ← alsa_get_fd_amount;
  x ← the_ictx;
  upd_alsa (with_main_fds (Some (replicate (Z.to_nat n) (-1) ++ [taskqueue_fd; i_fd x]))).
End loop.

(** ** Options *)

(** What the options set; a server name that was not given is a null pointer. *)
Record client_opts := mkClientOpts {
  co_verbose : bool;
  co_debug : bool;
  co_card : bytes;
  co_mixer : bytes;
  co_pcm : bytes;
  co_port : Z;
  co_nodeid : Z;
  co_servername : option bytes;
  co_latency : Z;
}.

(** client.c:182-196 main: [node] is the random number of the client. *)
Definition default_client (node : Z) : client_opts :=
  mkClientOpts false false (str "default") (str "Master") (str "default") INTERCOM_PORT (u16 node) None 0.

(** client.c:201-250 main: one option; the version, the list of devices and the
    usage end the program. *)
Definition client_option (o : client_opts) (opt : Z * bytes) : res client_opts :=
  let '(c, optarg) := opt in
  let '(mkClientOpts v d card mixer pcm port node server latency) := o in
  if c =? 86 (* V *) then Fault ExitSuccess
  else if c =? 99 (* c *) then Ok (mkClientOpts v d optarg mixer pcm port node server latency)
  else if c =? 109 (* m *) then Ok (mkClientOpts v d card optarg pcm port node server latency)
  else if c =? 115 (* s *) then Ok (mkClientOpts v d card mixer optarg port node server latency)
  else if c =? 108 (* l *) then Fault ExitSuccess
  else if c =? 112 (* p *) then Ok (mkClientOpts v d card mixer pcm (u16 (atoi optarg)) node server latency)
  else if c =? 105 (* i *) then
    let '(n, erange) := strtoul optarg in
    if erange || (u16 n =? 0) then Fault ExitError
    else Ok (mkClientOpts v d card mixer pcm port (u16 n) server latency)
  else if c =? 72 (* H *) then Ok (mkClientOpts v d card mixer pcm port node (Some optarg) latency)
  else if c =? 100 (* d *) then Ok (mkClientOpts true true card mixer pcm port node server latency)
  else if c =? 118 (* v *) then Ok (mkClientOpts true d card mixer pcm port node server latency)
  else if c =? 76 (* L *) then
    l ← atol (Some optarg); Ok (mkClientOpts v d card mixer pcm port node server (u32 l))
  else Fault ExitSuccess.

(** client.c:201-251 main: the options, in their order *)
Fixpoint client_options (o : client_opts) (args : list (Z * bytes)) : res client_opts :=
  match args with
  | [] => Ok o
  | a :: args => o ← client_option o a; client_options o args
  end.

(** The outside of the client: random numbers, the clocks, the resolver's answers
    about a name, and the sound device with the given card, mixer and PCM. *)
Record client_outside (Dev : Type) := mkClientOutside {
  rnd_node : Z;
  rnd_nonce : Z;
  c_clock : nat -> timespec;
  c_sysclock : nat -> timespec;
  c_dns : bytes -> nat -> dns_status;
  c_sockets : nat -> Z;
  c_device : bytes -> bytes -> bytes -> Dev;
}.
#[global] Arguments rnd_node {Dev}.
#[global] Arguments rnd_nonce {Dev}.
#[global] Arguments c_clock {Dev}.
#[global] Arguments c_sysclock {Dev}.
#[global] Arguments c_dns {Dev}.
#[global] Arguments c_sockets {Dev}.
#[global] Arguments c_device {Dev}.
#[global] Arguments mkClientOutside {Dev}.

Section main.
Context {Q Dec Enc Dev : Type}
  `{!TimerQueue Q, !OpusLib Dec Enc, !AlsaLib Dev, !AlsaPollLib Dev, !SoxrLib}.
Abbreviation W := (client Q Dec Enc Dev).

(** client.c:56-56 snapctx: the state that the options leave; all else is 0. *)
Definition client_state (o : client_opts) (name : bytes) (out : client_outside Dev) : W :=
  mkClient (mkIctx 0 [] [] 0 (co_port o) (co_nodeid o) 1500 0 None None)
    (mkAlsa 0 0 0 0 0 0 [] None (co_latency o) None false false false 0 0 None)
    (mkSched tq_empty ∅ None (c_clock out) 0) 0 1000 false (mkOpus None None 0 0)
    (c_device out (co_card o) (co_mixer o) (co_pcm o)) [] (c_sysclock out) 0 (c_dns out name) 0 (c_sockets out).

(** client.c:182-264 main: up to the first call of [poll] *)
Definition client_main (taskqueue_fd : Z) (out : client_outside Dev) (args : list (Z * bytes)) : res W :=
  o ← client_options (default_client (rnd_node out)) args;
  match co_servername o with
  | None => Fault NullDeref
  | Some name =>
      '(_, w) ← (intercom_init (rnd_nonce out) ;; start_polling taskqueue_fd) (client_state o name out);
      Ok w
  end.
End main.
