(* ===== verification/ClientInv.v ===== *)
(** * Invariants of the client

    Whatever happens, the client's scheduler stays in order with its timer armed,
    and its poll set keeps its length, so that the entries of the timer and of the
    intercom are always where the main loop looks for them.  Theorems about every
    handler of the main loop (ClientLoop.v). *)
From Stdlib Require Import Ascii String.
From S2P Require Import Prelude.
From S2P Require Import Timespec.
From S2P Require Import Bytes.
From S2P Require Import CString.
From S2P Require Import PQueue.
From S2P Require Import PcmChunk.
From S2P Require Import Speed.
From S2P Require Import TaskHeap.
From S2P Require Import TaskSched.
From S2P Require Import Invariant.
From S2P Require Import Intercom.
From S2P Require Import ClientState.
From S2P Require Import AlsaDevice.
From S2P Require Import IntercomClient.
From S2P Require Import AlsaPlayer.
From S2P Require Import ClientLoop.

(** The number of entries of the poll set, if there is one. *)
Definition polls (a : alsaplayer_ctx) : option nat := length <$> main_poll_fd a.

Section handlers.
Context {Q Dec Enc Dev : Type}
  `{!TimerQueue Q, !TimerQueueLaws Q, !OpusLib Dec Enc, !AlsaLib Dev, !AlsaPollLib Dev, !SoxrLib}.
Abbreviation W := (client Q Dec Enc Dev).
Implicit Types (w : W).

(** States with the same tasks, whose poll sets have the same length. *)
Definition calike w w' : Prop := tasks w' = tasks w /\ polls (alsa w') = polls (alsa w).

(** What makes a predicate an invariant of the handlers. *)
Record client_invariant (I : W -> Prop) : Prop := {
  ci_alike : forall w w', calike w w' -> I w -> I w';
  ci_post : forall timeout ms (t : ctask), preserves I (post_task timeout ms t);
  ci_drop : forall p, preserves I (drop_task ctask_cleanup p);
  ci_reschedule : forall p timeout ms, preserves I (reschedule_task (P := ctask) p timeout ms);
}.

(** *** Functions on the player's context *)

(** A computation that leaves the player of [snapctx] alone. *)
Definition steady {A} (m : M W A) : Prop := forall a, preserves (fun w => alsa w = a) m.

(** A computation that leaves the player of [snapctx] alone and gives a context
    whose poll set is as long as that of [c0]. *)
Definition passes {A} (pi : A -> alsaplayer_ctx) (c0 : alsaplayer_ctx) (m : M W A) : Prop :=
  forall w x w', m w = Ok (x, w') -> polls (pi x) = polls c0 /\ alsa w' = alsa w.

Lemma steady_bind {A B} (m : M W A) (k : A -> M W B) : steady m -> (forall a, steady (k a)) -> steady (m ≫= k).
Proof. intros Hm Hk a. apply preserves_bind; [apply Hm|intros b; apply Hk]. Qed.

Lemma passes_ret {A} (pi : A -> alsaplayer_ctx) c0 x : polls (pi x) = polls c0 -> passes pi c0 (mret x).
Proof. by intros Hx w y w' [= <- <-]. Qed.
Lemma passes_fail {A} (pi : A -> alsaplayer_ctx) c0 f : passes pi c0 (fail f).
Proof. by intros w x w'. Qed.
Lemma passes_bind {A B} (pi : B -> alsaplayer_ctx) c0 (m : M W A) k :
  steady m -> (forall a, passes pi c0 (k a)) -> passes pi c0 (m ≫= k).
Proof.
  intros Hm Hk w x w' (a & w1 & E1 & E2)%M_bind_inv. destruct (Hk a w1 x w' E2) as [H1 H2].
  split; [done|]. rewrite H2. by apply (Hm (alsa w) w a w1).
Qed.
Lemma passes_via {A B} (pi : A -> alsaplayer_ctx) (rho : B -> alsaplayer_ctx) c0 (m : M W A) k :
  passes pi c0 m -> (forall a, polls (pi a) = polls c0 -> passes rho c0 (k a)) -> passes rho c0 (m ≫= k).
Proof.
  intros Hm Hk w x w' (a & w1 & E1 & E2)%M_bind_inv. destruct (Hm w a w1 E1) as [H1 H2].
  destruct (Hk a H1 w1 x w' E2) as [H3 H4]. split; congruence.
Qed.

Lemma steady_snd call : steady (snd call : M W _).
Proof. intros a w b w' Hw. unfold snd. destruct (alsa_do _ _) as [[rc out] d]. by intros [= _ <-]. Qed.
Lemma steady_snd_ call : steady (snd_ call : M W _).
Proof. apply steady_bind; [apply steady_snd|]. intros _ a. apply preserves_skip. Qed.
Lemma steady_snd_out call : steady (snd_out call : M W _).
Proof. apply steady_bind; [apply steady_snd|]. intros [rc out] a. apply preserves_ret. Qed.
Lemma steady_post timeout ms (t : ctask) : steady (post_task timeout ms t : M W _).
Proof. intros a. apply apart_post. by intros s w. Qed.
Lemma steady_drop p : steady (drop_task ctask_cleanup p : M W _).
Proof. intros a. apply apart_drop; [by intros s w|]. intros t. apply preserves_skip. Qed.
Lemma steady_skip : steady (skip : M W _). Proof. intros a. apply preserves_skip. Qed.
Lemma steady_fail {A} f : steady (fail f : M W A). Proof. intros a. apply preserves_fail. Qed.
Lemma steady_gets {A} (f : W -> A) : steady (gets f). Proof. intros a. apply preserves_get. Qed.
Lemma steady_lift {A} (r : res A) : steady (lift r : M W A). Proof. intros a. apply preserves_lift. Qed.

Create HintDb steady discriminated.
Hint Resolve steady_snd steady_snd_ steady_snd_out steady_post steady_drop steady_skip steady_fail steady_gets
  steady_lift : steady.

(** Goes through a function on the player's context. *)
Ltac steady :=
  repeat match goal with
  | |- steady _ => solve [eauto 2 with steady nocore]
  | |- steady (match ?x with _ => _ end) => destruct x
  | |- steady (_ ≫= _) => apply steady_bind; [|intros ?]
  end.
Ltac passes :=
  repeat match goal with
  | |- passes _ _ (mret _) => apply passes_ret; by simpl
  | |- passes _ _ (fail _) => apply passes_fail
  | H : passes _ _ ?m |- passes _ _ ?m => exact H
  | |- passes _ _ (match ?x with _ => _ end) => destruct x
  | |- passes _ _ (_ ≫= _) => apply passes_bind; [solve [steady]|intros ?]
  | |- passes _ _ (let _ := _ in _) => cbv zeta
  end.

Lemma passes_remove_task a : passes id a (alsaplayer_remove_task a : M W _).
Proof. unfold alsaplayer_remove_task. passes. Qed.

Lemma negate_length n fds r : negate_fds n fds = Ok r -> length r = length fds.
Proof.
  revert fds r. induction n as [|n IH]; intros [|f fds] r; simpl; try (by intros [= <-]).
  unfold mbind, res_bind. destruct (negate_fds n fds) as [l|] eqn:E; [|done]. intros [= <-]. simpl. f_equal. by apply IH.
Qed.

Lemma passes_uninit a : passes id a (alsaplayer_uninit a : M W _).
Proof.
  unfold alsaplayer_uninit. destruct (negb _); [passes|].
  do 5 (apply passes_bind; [solve [steady]|intros _]). cbv zeta.
  eapply (passes_via id); [|intros c Hc; apply passes_bind; [steady|intros _; by apply passes_ret]].
  simpl. destruct (main_poll_fd a) as [fds|] eqn:E; [|by apply passes_ret].
  intros w x w' (l & w1 & [E1 ->]%lift_inv & [= <- <-])%M_bind_inv. split; [|done].
  unfold polls. simpl. rewrite E. simpl. f_equal. by eapply negate_length.
Qed.

Lemma passes_init a : passes id a (alsaplayer_init a : M W _).
Proof. unfold alsaplayer_init. passes. Qed.

Lemma passes_init_alsafd a : passes id a (init_alsafd a : M W _).
Proof.
  unfold init_alsafd. apply passes_bind; [steady|]. intros d.
  destruct (snd_pcm_poll_descriptors d (pollfd_count a)) as [err fds]. destruct (err <? 0); [apply passes_fail|].
  destruct (main_poll_fd a) as [l|] eqn:E; [|apply passes_fail].
  intros w x w' (l' & w1 & [E1 ->]%lift_inv & [= <- <-])%M_bind_inv. split; [|done].
  unfold polls. simpl. rewrite E. simpl. f_equal. by apply wr_length in E1.
Qed.

Lemma passes_mixer_init a : passes Datatypes.snd a (mixer_init a : M W _).
Proof. unfold mixer_init. passes. Qed.

Lemma passes_obtain_volume a : passes Datatypes.snd a (obtain_volume a : M W _).
Proof.
  unfold obtain_volume. cbv zeta. destruct (is_softvol a); [passes|].
  eapply passes_via; [apply passes_mixer_init|]. intros [elem c] Hc. simpl in Hc.
  apply passes_bind; [destruct elem; steady|intros ret].
  apply passes_bind; [unfold mixer_uninit; steady|intros _]. by apply passes_ret.
Qed.

Lemma passes_adjust a v : passes id a (adjustVolume a v : M W _).
Proof.
  unfold adjustVolume. destruct (is_softvol a); [passes|].
  eapply passes_via; [apply passes_mixer_init|]. intros [elem c] Hc. simpl in Hc.
  apply passes_bind; [destruct elem; steady|intros _].
  apply passes_bind; [unfold mixer_uninit; steady|intros _]. by apply passes_ret.
Qed.

(** *** The handlers *)

Context (I : W -> Prop) (HI : client_invariant I).

Lemma cl_step {A} (m : M W A) : (forall w a w', m w = Ok (a, w') -> calike w w') -> preserves I m.
Proof. intros Hm w a w' Hw E. eapply (ci_alike _ HI), Hw. by eapply Hm. Qed.
Lemma cl_modify f : (forall w, calike w (f w)) -> preserves I (modify f).
Proof. intros Hf. apply cl_step. by intros w a w' [= _ <-]. Qed.
Lemma cl_post timeout ms (t : ctask) : preserves I (post_task timeout ms t).
Proof. apply HI. Qed.
Lemma cl_drop p : preserves I (drop_task ctask_cleanup p).
Proof. apply HI. Qed.
Lemma cl_reschedule p timeout ms : preserves I (reschedule_task (P := ctask) p timeout ms).
Proof. apply HI. Qed.
Lemma cl_upd_ictx f : preserves I (upd_ictx f : M W unit).
Proof. by apply cl_modify. Qed.
Lemma cl_upd_alsa f : (forall a, polls (f a) = polls a) -> preserves I (upd_alsa f : M W unit).
Proof. intros Hf. apply cl_modify. intros w. split; [done|apply Hf]. Qed.
Lemma cl_snd call : preserves I (snd call : M W _).
Proof. apply cl_step. intros w a w'. unfold snd. destruct (alsa_do _ _) as [[rc out] d]. by intros [= _ <-]. Qed.
Lemma cl_systime : preserves I (obtainsystime : M W _).
Proof. apply cl_step. by intros w a w' [= _ <-]. Qed.
Lemma cl_gai : preserves I (gai_error : M W _).
Proof. apply cl_step. by intros w a w' [= _ <-]. Qed.
Lemma cl_socket : preserves I (new_socket : M W _).
Proof. apply cl_step. by intros w a w' [= _ <-]. Qed.
Lemma cl_nonce : preserves I (next_nonce : M W _).
Proof.
  apply cl_step. intros w a w'. unfold next_nonce. destruct (get_nonce _) as [n [k|]]; by intros [= _ <-].
Qed.
Lemma cl_the_task p : preserves I (the_task p : M W (trec ctask)).
Proof. apply cl_step. intros w a w'. unfold the_task. destruct (_ !! _); intros [=]; by subst. Qed.
Lemma cl_codec {A} f : preserves I (with_codec_ctx f : M W A).
Proof. apply cl_step. intros w a w'. unfold with_codec_ctx. destruct (f _) as [[b o]|]; intros [=]; by subst. Qed.

#[local] Hint Resolve cl_post cl_drop cl_reschedule cl_upd_ictx cl_snd cl_systime cl_gai cl_socket cl_nonce
  cl_the_task cl_codec : preserve.
#[local] Hint Extern 1 (preserves _ (upd_alsa _)) => by apply cl_upd_alsa : preserve.
#[local] Hint Extern 1 (preserves _ (modify _)) => by apply cl_modify : preserve.

Ltac keep h := unfold h; preserve.

(** *** The sound device *)

Lemma cl_snd_ call : preserves I (snd_ call : M W _). Proof. keep @snd_. Qed.
Lemma cl_snd_out call : preserves I (snd_out call : M W _). Proof. keep @snd_out. Qed.
#[local] Hint Resolve cl_snd_ cl_snd_out : preserve.
Lemma cl_remove_task a : preserves I (alsaplayer_remove_task a : M W _).
Proof. keep @alsaplayer_remove_task. Qed.
Lemma cl_uninit a : preserves I (alsaplayer_uninit a : M W _). Proof. keep @alsaplayer_uninit. Qed.
Lemma cl_init a : preserves I (alsaplayer_init a : M W _). Proof. keep @alsaplayer_init. Qed.
Lemma cl_init_alsafd a : preserves I (init_alsafd a : M W _). Proof. keep @init_alsafd. Qed.
Lemma cl_mixer_init a : preserves I (mixer_init a : M W _). Proof. keep @mixer_init. Qed.
Lemma cl_mixer_uninit : preserves I (mixer_uninit : M W _). Proof. keep @mixer_uninit. Qed.
#[local] Hint Resolve cl_remove_task cl_uninit cl_init cl_init_alsafd cl_mixer_init cl_mixer_uninit : preserve.
Lemma cl_obtain_volume a : preserves I (obtain_volume a : M W _). Proof. keep @obtain_volume. Qed.
Lemma cl_adjust a v : preserves I (adjustVolume a v : M W _). Proof. keep @adjustVolume. Qed.
#[local] Hint Resolve cl_obtain_volume cl_adjust : preserve.
Lemma cl_on_alsa f : (forall a, passes id a (f a)) -> (forall a, preserves I (f a)) -> preserves I (on_alsa f).
Proof.
  intros Hp Hf w u w' Hw (a & w1 & [= <- <-] & E)%M_bind_inv. apply M_bind_inv in E as (a' & w1 & E & [= _ <-]).
  destruct (Hp _ _ _ _ E) as [H1 H2]. eapply (ci_alike _ HI); [|by eapply Hf]. split; [done|].
  simpl in *. by rewrite H2.
Qed.

Lemma cl_on_remove : preserves I (on_alsa alsaplayer_remove_task).
Proof. apply cl_on_alsa; [apply passes_remove_task|preserve]. Qed.
Lemma cl_on_uninit : preserves I (on_alsa alsaplayer_uninit).
Proof. apply cl_on_alsa; [apply passes_uninit|preserve]. Qed.
Lemma cl_on_init : preserves I (on_alsa alsaplayer_init).
Proof. apply cl_on_alsa; [apply passes_init|preserve]. Qed.
Lemma cl_on_fds : preserves I (on_alsa init_alsafd).
Proof. apply cl_on_alsa; [apply passes_init_alsafd|preserve]. Qed.
Lemma cl_on_volume v : preserves I (on_alsa (fun a => adjustVolume a v)).
Proof. apply cl_on_alsa; [intros a; apply passes_adjust|preserve]. Qed.
#[local] Hint Resolve cl_on_remove cl_on_uninit cl_on_init cl_on_fds cl_on_volume : preserve.

(** *** The network *)

Lemma cl_ictx : preserves I (the_ictx : M W _). Proof. keep @the_ictx. Qed.
#[local] Hint Resolve cl_ictx : preserve.
Lemma cl_unicast r p n port : preserves I (intercom_send_packet_unicast r p n port : M W _).
Proof. keep @intercom_send_packet_unicast. Qed.
#[local] Hint Resolve cl_unicast : preserve.
Lemma cl_send_request mp : preserves I (intercom_send_request mp : M W _). Proof. keep @intercom_send_request. Qed.
Lemma cl_request_task d : preserves I (request_task d : M W _). Proof. keep @request_task. Qed.
#[local] Hint Resolve cl_send_request cl_request_task : preserve.
Lemma cl_request_missing cap i : preserves I (request_missing cap i : M W _). Proof. keep @request_missing. Qed.
#[local] Hint Resolve cl_request_missing : preserve.
Lemma cl_gap n : preserves I (handle_gap n : M W _). Proof. keep @handle_gap. Qed.
Lemma cl_realloc n : preserves I (realloc_intercom_buffer n : M W _). Proof. keep @realloc_intercom_buffer. Qed.
#[local] Hint Resolve cl_gap cl_realloc : preserve.
Lemma cl_realloc_when n m : preserves I (realloc_intercom_buffer_when_required n m : M W _).
Proof. keep @realloc_intercom_buffer_when_required. Qed.
Lemma cl_remove_old : preserves I (remove_old_data_from_receivebuffer : M W _).
Proof. keep @remove_old_data_from_receivebuffer. Qed.
#[local] Hint Resolve cl_realloc_when cl_remove_old : preserve.
Lemma cl_put c : preserves I (intercom_put_chunk c : M W _). Proof. keep @intercom_put_chunk. Qed.
Lemma cl_time_next : preserves I (intercom_get_time_next_audiochunk : M W _).
Proof. keep @intercom_get_time_next_audiochunk. Qed.
Lemma cl_getnext : preserves I (intercom_getnextaudiochunk : M W _).
Proof. keep @intercom_getnextaudiochunk. Qed.
Lemma cl_peeknext : preserves I (intercom_peeknextaudiochunk : M W _).
Proof. keep @intercom_peeknextaudiochunk. Qed.
Lemma cl_adapt c : preserves I (adapt_device c : M W _). Proof. keep @adapt_device. Qed.
#[local] Hint Resolve cl_put cl_time_next cl_getnext cl_peeknext cl_adapt : preserve.
Lemma cl_audio p n : preserves I (intercom_handle_audio p n : M W _). Proof. keep @intercom_handle_audio. Qed.
Lemma cl_stop : preserves I (handle_stop : M W _). Proof. keep @handle_stop. Qed.
#[local] Hint Resolve cl_audio cl_stop : preserve.
Lemma cl_segment p o : preserves I (handle_sop_segment p o : M W _). Proof. keep @handle_sop_segment. Qed.
#[local] Hint Resolve cl_segment : preserve.
Lemma cl_sop_loop fuel p n o : preserves I (sop_loop fuel p n o : M W _).
Proof. revert o. induction fuel as [|fuel IH]; intros o; cbn [sop_loop]; preserve. Qed.
#[local] Hint Resolve cl_sop_loop : preserve.
Lemma cl_packet fuel p n : preserves I (intercom_handle_packet fuel p n : M W _).
Proof. unfold intercom_handle_packet, intercom_handle_server_operation. preserve. Qed.
#[local] Hint Resolve cl_packet : preserve.
Lemma cl_handle_in rs : preserves I (client_handle_in rs : M W _).
Proof. induction rs as [|[|buf count peer port] rs IH]; cbn [client_handle_in]; preserve. Qed.
Lemma cl_hello r : preserves I (intercom_hello r : M W _). Proof. keep @intercom_hello. Qed.
#[local] Hint Resolve cl_handle_in cl_hello : preserve.
Lemma cl_reinit : preserves I (intercom_reinit : M W _). Proof. keep @intercom_reinit. Qed.
Lemma cl_iuninit : preserves I (intercom_uninit : M W _). Proof. keep @intercom_uninit. Qed.
#[local] Hint Resolve cl_reinit cl_iuninit : preserve.
Lemma cl_with_volume {B} (k : Z -> alsaplayer_ctx -> M W B) : (forall v a, preserves I (k v a)) ->
  preserves I (a ← gets alsa; '(v, a) ← obtain_volume a; modify (set_alsa a) ;; k v a).
Proof.
  intros Hk w b w' Hw (a & w1 & [= <- <-] & E)%M_bind_inv. apply M_bind_inv in E as ([v a'] & w1 & E1 & E).
  apply M_bind_inv in E as ([] & w2 & [= <-] & E). eapply Hk, E.
  destruct (passes_obtain_volume (alsa w) w _ w1 E1) as [H1 H2]. simpl in H1.
  eapply (ci_alike _ HI); [|eapply cl_obtain_volume, E1; exact Hw]. split; [done|]. simpl. by rewrite H2.
Qed.

Lemma cl_send_hello d : preserves I (send_hello d : M W _).
Proof.
  unfold send_hello. apply preserves_bind; [preserve|intros n]. apply preserves_bind; [preserve|intros p].
  apply preserves_bind; [preserve|intros x]. apply cl_with_volume. intros v a. preserve.
Qed.
#[local] Hint Resolve cl_send_hello : preserve.
Lemma cl_hello_task d : preserves I (hello_task d : M W _). Proof. keep @hello_task. Qed.
#[local] Hint Resolve cl_hello_task : preserve.

(** *** The player *)

Lemma cl_decode c : preserves I (decode c : M W _). Proof. keep @decode. Qed.
#[local] Hint Resolve cl_decode : preserve.
Lemma cl_decode_first : preserves I (decode_first_input : M W _). Proof. keep @decode_first_input. Qed.
Lemma cl_drop_late fuel r p : preserves I (drop_late fuel r p : M W _).
Proof. revert p. induction fuel as [|fuel IH]; intros p; cbn [drop_late]; preserve. Qed.
Lemma cl_adjust_speed ch r : preserves I (adjust_speed ch r : M W _). Proof. keep @adjust_speed. Qed.
#[local] Hint Resolve cl_adjust_speed : preserve.
Lemma cl_play_next r t p : preserves I (play_next r t p : M W _). Proof. keep @play_next. Qed.
#[local] Hint Resolve cl_decode_first cl_drop_late cl_play_next : preserve.
Lemma cl_getchunk p d : preserves I (getchunk p d : M W _). Proof. keep @getchunk. Qed.
Lemma cl_write d n : preserves I (write_pcm d n : M W _). Proof. keep @write_pcm. Qed.
#[local] Hint Resolve cl_getchunk cl_write : preserve.
Lemma cl_alsa_handle : preserves I (alsaplayer_handle : M W _). Proof. keep @alsaplayer_handle. Qed.
#[local] Hint Resolve cl_alsa_handle : preserve.

Lemma polls_insert a i f fds : main_poll_fd a = Some fds ->
  polls (with_main_fds (Some (<[i := f]> fds)) a) = polls a.
Proof. intros E. unfold polls. simpl. by rewrite E, length_insert. Qed.

Lemma cl_resume i : preserves I (resume_polling i : M W _).
Proof.
  intros w u w' Hw (x & w1 & [= <- <-] & E)%M_bind_inv. apply M_bind_inv in E as (a & w1 & [= <- <-] & E).
  destruct (main_poll_fd (alsa w)) as [fds|] eqn:Ef; [|done]. injection E as _ <-.
  eapply (ci_alike _ HI), Hw. split; [done|]. by apply polls_insert.
Qed.
#[local] Hint Resolve cl_resume : preserve.
Lemma cl_ctask t : preserves I (run_ctask t : M W _).
Proof. destruct t; simpl; unfold alsaplayer_uninit_task; preserve. Qed.

(** *** The main loop *)

Lemma cl_poll_fds : preserves I (poll_fds : M W _). Proof. keep @poll_fds. Qed.
#[local] Hint Resolve cl_poll_fds : preserve.
Lemma cl_pause i : preserves I (pause_polling i : M W _).
Proof.
  intros w u w' Hw (fds & w1 & E1 & E)%M_bind_inv.
  apply M_bind_inv in E1 as (a & w2 & [= <- <-] & E1).
  destruct (main_poll_fd (alsa w)) as [l|] eqn:Ef; [|done]. injection E1 as <- <-.
  apply M_bind_inv in E as ([] & w1 & [= <-] & E).
  assert (preserves I (post_task 1 0 (ResumePolling i) ;; skip : M W unit)) as Hk by preserve.
  eapply Hk, E. eapply (ci_alike _ HI), Hw. split; [done|]. by apply polls_insert.
Qed.
Lemma cl_ready i : preserves I (device_ready i : M W _). Proof. keep @device_ready. Qed.
Lemma cl_neterror : preserves I (client_network_error : M W _). Proof. keep @client_network_error. Qed.
#[local] Hint Resolve cl_pause cl_ready cl_neterror : preserve.
Lemma cl_sigterm : preserves I (sig_term_handler : M W _). Proof. keep @sig_term_handler. Qed.
#[local] Hint Resolve cl_sigterm : preserve.
Lemma cl_entry tfd fuel ds rs i : preserves I (client_timer_event fuel : M W _) ->
  preserves I (handle_entry tfd fuel ds rs i : M W _).
Proof. intros Ht. keep @handle_entry. Qed.
Lemma cl_entries tfd fuel ds rs es : preserves I (client_timer_event fuel : M W _) ->
  preserves I (handle_entries tfd fuel ds rs es : M W _).
Proof.
  intros Ht. revert rs. induction es as [|i es IH]; intros rs; cbn [handle_entries]; [preserve|].
  apply preserves_bind; [by apply cl_entry|]. intros r. apply IH.
Qed.
Lemma cl_poll tfd fuel n rs ds : preserves I (client_timer_event fuel : M W _) ->
  preserves I (handle_poll tfd fuel n rs ds : M W _).
Proof. intros Ht. pose proof (fun rs es => cl_entries tfd fuel ds rs es Ht) as He. keep @handle_poll. Qed.
End handlers.

(** ** The states the client reaches *)

Section reach.
Context {Q Dec Enc Dev : Type}
  `{!TimerQueue Q, !TimerQueueLaws Q, !OpusLib Dec Enc, !AlsaLib Dev, !AlsaPollLib Dev, !SoxrLib}.
Abbreviation W := (client Q Dec Enc Dev).
Implicit Types (w : W).

Lemma sched_client_invariant (I : W -> Prop) : sched_invariant (Q := Q) (P := ctask) I -> client_invariant I.
Proof.
  intros HI. split.
  - intros w w' [E _]. by apply (si_frame _ HI).
  - apply (si_post _ HI).
  - intros p. apply (si_drop _ HI). intros t w. by exists w.
  - apply (si_reschedule _ HI).
Qed.

Lemma polls_apart n : apart_from_sched (fun w => polls (alsa w) = n).
Proof. by intros s w. Qed.

Lemma polls_invariant n : client_invariant (fun w => polls (alsa w) = n).
Proof.
  split.
  - intros w w' [_ ->]. done.
  - intros timeout ms t. apply apart_post, polls_apart.
  - intros p. apply apart_drop; [apply polls_apart|]. intros t. apply preserves_skip.
  - intros p timeout ms. apply apart_reschedule, polls_apart.
Qed.

(** The scheduler is in order, its timer armed, and the poll set has [n] entries. *)
Definition client_in_order (n : option nat) w : Prop :=
  polls (alsa w) = n /\ sched_ok (tasks w) /\ armed (tasks w).

Lemma in_order_invariant n : client_invariant (client_in_order n).
Proof.
  pose proof (polls_invariant n) as [A1 A2 A3 A4].
  pose proof (sched_client_invariant _ (armed_invariant (HasSched0 := client_sched))) as [C1 C2 C3 C4].
  split; try (by intros; apply preserves_and; auto).
  intros w w' E [H1 H2]. split; [by eapply A1|]. by eapply (C1 w).
Qed.

Lemma timer_in_order n fuel : preserves (client_in_order n) (client_timer_event fuel).
Proof.
  refine (run_keeps (HasSched0 := client_sched) (fun w => polls (alsa w) = n) run_ctask ctask_cleanup fuel _ _ _).
  - apply polls_apart.
  - intros t I HI. apply preserves_and; [|by apply cl_ctask, sched_client_invariant].
    apply cl_ctask, polls_invariant.
  - intros t I _ w a w' Hw [= _ <-]. done.
Qed.

(** What [poll] returns, one call after the other. *)
Inductive creachable (tfd : Z) (w0 : W) : W -> Prop :=
  | creach_start : creachable tfd w0 w0
  | creach_poll w fuel n revents ds w' :
      creachable tfd w0 w -> handle_poll tfd fuel n revents ds w = Ok (tt, w') -> creachable tfd w0 w'.

Lemma start_order tfd out args w0 : client_main tfd out args = Ok w0 ->
  exists n, client_in_order (Some (S (S n))) w0.
Proof.
  unfold client_main, mbind at 1, res_bind at 1.
  destruct (client_options _ args) as [o|]; [|done]. destruct (co_servername o) as [name|]; [|done].
  unfold mbind at 1, res_bind at 1.
  destruct ((intercom_init _ ;; start_polling tfd) (client_state o name out)) as [[[] w]|] eqn:E; [|done].
  intros [= <-]. apply M_bind_inv in E as ([] & w1 & E1 & E).
  assert (forall k, k = polls (alsa (client_state o name out : W)) -> client_in_order k (client_state o name out)) as H0.
  { intros k ->. destruct tq_empty_ok as [Hq He]. split; [done|]. split; simpl.
    - split; simpl; [done|]. intros p d. rewrite He. split; [by intros ?%not_elem_of_nil|].
      intros (t & Ht & _). by rewrite lookup_empty in Ht.
    - unfold armed. simpl. by destruct (tq_first_none tq_empty Hq) as [_ ->]. }
  assert (preserves (client_in_order None) (intercom_init (rnd_nonce out) : M W unit)) as Hi.
  { unfold intercom_init. apply preserves_bind.
    - apply preserves_modify. done.
    - intros _. apply cl_reinit, in_order_invariant. }
  pose proof (Hi _ _ _ (H0 None eq_refl) E1) as H1.
  unfold start_polling in E. apply M_bind_inv in E as (n & w2 & E2 & E).
  assert (preserves (client_in_order None) (alsa_get_fd_amount : M W Z)) as Ha.
  { unfold alsa_get_fd_amount. cbv zeta. pose proof (in_order_invariant None) as HO.
    apply preserves_bind; [by apply cl_init|intros a]. apply preserves_bind; [by apply cl_remove_task|intros a'].
    apply preserves_bind; [by apply cl_uninit|intros _]. apply preserves_ret. }
  destruct (Ha _ _ _ H1 E2) as [_ Hs]. apply M_bind_inv in E as (x & w3 & [= <- <-] & [= <-]).
  exists (Z.to_nat n). split; [|done]. unfold polls. simpl. rewrite length_app, length_replicate. simpl. f_equal. lia.
Qed.

(** C11: whatever the client is told by the network, the sound device and its
    timer, in any order, the queue of its tasks stays in order with the timer set
    for the task that is due first, and the poll set keeps its length: the
    entries of the timer and of the intercom, which are found by their positions,
    are always there. *)
Theorem client_loop_in_order tfd out args w0 w :
  client_main tfd out args = Ok w0 -> creachable tfd w0 w ->
  sched_ok (tasks w) /\ armed (tasks w) /\
  exists n, (2 <= n)%nat /\ polls (alsa w0) = Some n /\ polls (alsa w) = Some n.
Proof.
  intros (n & H0)%start_order Hr.
  assert (client_in_order (Some (S (S n))) w) as (Hn & Hs & Ha).
  { induction Hr as [|w fuel m revents ds w' _ IH E]; [done|].
    eapply cl_poll, E; [apply in_order_invariant|apply timer_in_order|done]. }
  split; [done|]. split; [done|]. exists (S (S n)). split; [lia|]. split; [apply H0|done].
Qed.
End reach.

(** ** A concrete client *)

#[export] Instance plain_poll : AlsaPollLib unit := {| snd_pcm_poll_descriptors_revents _ _ := POLLOUT |}.

Definition demo_client_args : list (Z * bytes) := [(72, str "media"); (105, str "3")].
Definition demo_client_outside : client_outside unit :=
  mkClientOutside 0 41 (fun _ => mkTime 7 0) (fun _ => mkTime 1000 0) (fun _ _ => DnsDone 9) (fun _ => 4)
    (fun _ _ _ => tt).
Abbreviation demo_client_start :=
  (client_main (Q := forest) (Dec := unit) (Enc := unit) 3 demo_client_outside demo_client_args).

(** The client after its timer ran once; the dummy is not reached. *)
Definition demo_registered : client forest unit unit unit :=
  match w ← demo_client_start; handle_poll 3 5 1 [0; POLLIN; 0] [] w with
  | Ok (_, w) => w
  | Fault _ => client_state (default_client 0) [] demo_client_outside
  end.

Lemma demo_registered_reach w0 : demo_client_start = Ok w0 -> creachable 3 w0 demo_registered.
Proof.
  intros E. eapply creach_poll; [apply creach_start|].
  instantiate (1 := []). instantiate (1 := [0; POLLIN; 0]). instantiate (1 := 1). instantiate (1 := 5%nat).
  unfold demo_registered. rewrite E. vm_compute in E. injection E as <-. vm_compute. reflexivity.
Qed.

Lemma demo_client_started : exists w0, demo_client_start = Ok w0.
Proof. eexists. vm_compute. reflexivity. Qed.

Lemma client_loop_in_order_witness :
  exists w0, demo_client_start = Ok w0 /\ armed (tasks demo_registered) /\
    s_timer (tasks demo_registered) = Some (mkTime 8 500000000) /\
    map dg_data (sent demo_registered) = [[1; 0; 0; 3; 0; 0; 0; 42; 1; 9; 0; 3; 0; 0; 0; 0; 25]].
Proof.
  destruct demo_client_started as [w0 E]. exists w0. split; [exact E|]. split.
  - destruct (client_loop_in_order 3 demo_client_outside demo_client_args w0 demo_registered E
      (demo_registered_reach w0 E)) as (_ & Ha & _). exact Ha.
  - split; vm_compute; reflexivity.
Defined.
