(* ===== verification/ServerState.v ===== *)
(** * The state of the server (snapcast.h, stream.h, inputpipe.h, client.h)

    The server is one process with global state; every handler is a computation
    of [M server].  Streams are referred to by their index in [snapctx.streams],
    which only grows while the options are parsed; clients by their index in the
    stream.  A name or path that is a null pointer is the empty
    string; what reads it is modelled for a stream that has one.  The outside is
    an oracle: the clocks, what [read] finds in the pipes
    and the descriptors [open] returns. *)
From S2P Require Import Prelude.
From S2P Require Import Timespec.
From S2P Require Import Bytes.
From S2P Require Import PcmChunk.
From S2P Require Import TaskHeap.
From S2P Require Import TaskSched.
From S2P Require Import Intercom.

(** ** Data *)

(** inputpipe.h:33-33 inputpipe_state *)
Inductive inputpipe_state := IDLE | PLAYING | THROTTLE.

#[export] Instance inputpipe_state_eq_dec : EqDecision inputpipe_state.
Proof. solve_decision. Defined.

(** inputpipe.h:35-52 inputpipe_ctx *)
Record inputpipe_ctx := mkPipe {
  fname : bytes;
  chunk : pcmChunk;
  state : inputpipe_state;
  data_read : Z;
  read_ms : Z;
  ip_samples : Z;
  samplesize : Z;
  ip_channels : Z;
  fd : Z;
  chunksize : Z;
  ip_initialized : bool;
  resume_task : option addr;
  idle_task : option addr;
}.

(** client.h:13-23 client: the name and the address that are reported only. *)
Record sident := mkIdent { cname : bytes; mac : bytes }.

(** client.h:10-29 client: the fields that the server uses. *)
Record sclient := mkSclient {
  ip : Z;
  cport : Z;
  id : Z;
  connected : bool;
  lastseen : timespec;
  protoversion : Z;
  latency : Z;
  volume_percent : Z;
  muted : bool;
  purge_task : option addr;
  ident : sident;
}.

(** The functions the server posts, with their data. *)
Inductive stask :=
  | RemoveOld (s : nat)          (** remove_old_audiodata_task *)
  | ResumeRead (s : nat)         (** inputpipe_resume_read *)
  | SetIdle (s : nat)            (** set_idle *)
  | DeleteClient (id : Z).       (** schedule_delete_client, free *)

(** What [read] on a pipe returns: an error, or the bytes that are there (none at
    the end of the file). *)
Inductive pipe_input := ReadError | ReadBytes (b : bytes).

(** stream.h:10-11 codec, protocol; stream.h:19-33 stream: what is reported
    only. *)
Record stream_opts := mkOpts { s_codec : Z; protocol : Z; raw : bytes }.

(** socket.h:12-12 LINEBUFFER_SIZE *)
Definition LINEBUFFER_SIZE : Z := 1024.

(** socket.h:23-27 socketclient: a control connection with its line buffer. *)
Record socketclient := mkSock { sc_fd : Z; line : bytes; line_offset : Z }.

(** socket.h:29-33 socket_ctx: the connections, what was written to them, and
    the names the resolver knows ([getnameinfo]). *)
Record control := mkControl {
  sclients : list socketclient;
  replies : list (Z * bytes);
  hostnames : Z -> bytes;
}.

Section server.
Context {Q Dec Enc : Type}.

(** stream.h:19-33 stream *)
Record stream := mkStream {
  inputpipe : inputpipe_ctx;
  opus : opuscodec_ctx Dec Enc;
  clients : list sclient;
  packet_buffer : list audio_packet;
  nonce : Z;
  name : bytes;
  s_initialized : bool;
  opts : stream_opts;
}.

(** snapcast.h:30-47 snapctx: as the server uses it. *)
Record server := mkServer {
  streams : list stream;
  stasks : sched Q stask;
  recent : list intercom_packet_hdr;
  sv_mtu : Z;
  sv_bufferms : Z;
  efd : gset Z;
  ssent : list datagram;
  ssysclk : nat -> timespec;
  ssysticks : nat;
  reads : nat -> pipe_input;
  nreads : nat;
  opens : nat -> gset Z -> Z;
  nopens : nat;
  control_ctx : control;
}.

Definition set_streams x (w : server) := mkServer x (stasks w) (recent w) (sv_mtu w) (sv_bufferms w)
  (efd w) (ssent w) (ssysclk w) (ssysticks w) (reads w) (nreads w) (opens w) (nopens w) (control_ctx w).
Definition set_stasks x (w : server) := mkServer (streams w) x (recent w) (sv_mtu w) (sv_bufferms w)
  (efd w) (ssent w) (ssysclk w) (ssysticks w) (reads w) (nreads w) (opens w) (nopens w) (control_ctx w).
Definition set_recent x (w : server) := mkServer (streams w) (stasks w) x (sv_mtu w) (sv_bufferms w)
  (efd w) (ssent w) (ssysclk w) (ssysticks w) (reads w) (nreads w) (opens w) (nopens w) (control_ctx w).
Definition set_efd x (w : server) := mkServer (streams w) (stasks w) (recent w) (sv_mtu w) (sv_bufferms w)
  x (ssent w) (ssysclk w) (ssysticks w) (reads w) (nreads w) (opens w) (nopens w) (control_ctx w).
Definition set_ssent x (w : server) := mkServer (streams w) (stasks w) (recent w) (sv_mtu w) (sv_bufferms w)
  (efd w) x (ssysclk w) (ssysticks w) (reads w) (nreads w) (opens w) (nopens w) (control_ctx w).
Definition ssystick (w : server) := mkServer (streams w) (stasks w) (recent w) (sv_mtu w) (sv_bufferms w)
  (efd w) (ssent w) (ssysclk w) (S (ssysticks w)) (reads w) (nreads w) (opens w) (nopens w) (control_ctx w).
Definition readtick (w : server) := mkServer (streams w) (stasks w) (recent w) (sv_mtu w) (sv_bufferms w)
  (efd w) (ssent w) (ssysclk w) (ssysticks w) (reads w) (S (nreads w)) (opens w) (nopens w) (control_ctx w).
Definition opentick (w : server) := mkServer (streams w) (stasks w) (recent w) (sv_mtu w) (sv_bufferms w)
  (efd w) (ssent w) (ssysclk w) (ssysticks w) (reads w) (nreads w) (opens w) (S (nopens w)) (control_ctx w).

Definition set_control x (w : server) := mkServer (streams w) (stasks w) (recent w) (sv_mtu w) (sv_bufferms w)
  (efd w) (ssent w) (ssysclk w) (ssysticks w) (reads w) (nreads w) (opens w) (nopens w) x.

#[export] Instance server_sched : HasSched Q stask server.
Proof. refine {| get_sched := stasks; set_sched := set_stasks |}; by intros; try destruct w. Defined.

(** ** Access *)

Definition the_stream (i : nat) : M server stream := fun w =>
  match streams w !! i with Some s => Ok (s, w) | None => Fault OutOfBounds end.
Definition upd_stream (i : nat) (f : stream -> stream) : M server unit :=
  modify (fun w => set_streams (alter f i (streams w)) w).
Definition the_pipe (i : nat) : M server inputpipe_ctx := s ← the_stream i; mret (inputpipe s).

Definition on_pipe (f : inputpipe_ctx -> inputpipe_ctx) (s : stream) :=
  mkStream (f (inputpipe s)) (opus s) (clients s) (packet_buffer s) (nonce s) (name s) (s_initialized s) (opts s).
Definition with_clients c (s : stream) :=
  mkStream (inputpipe s) (opus s) c (packet_buffer s) (nonce s) (name s) (s_initialized s) (opts s).
Definition with_buffer b (s : stream) :=
  mkStream (inputpipe s) (opus s) (clients s) b (nonce s) (name s) (s_initialized s) (opts s).
Definition with_snonce n (s : stream) :=
  mkStream (inputpipe s) (opus s) (clients s) (packet_buffer s) n (name s) (s_initialized s) (opts s).
Definition with_encoder o (s : stream) :=
  mkStream (inputpipe s) o (clients s) (packet_buffer s) (nonce s) (name s) (s_initialized s) (opts s).
Definition upd_pipe (i : nat) (f : inputpipe_ctx -> inputpipe_ctx) : M server unit :=
  upd_stream i (on_pipe f).

Definition with_state st (x : inputpipe_ctx) := mkPipe (fname x) (chunk x) st (data_read x) (read_ms x)
  (ip_samples x) (samplesize x) (ip_channels x) (fd x) (chunksize x) (ip_initialized x) (resume_task x) (idle_task x).
Definition with_chunk c (x : inputpipe_ctx) := mkPipe (fname x) c (state x) (data_read x) (read_ms x)
  (ip_samples x) (samplesize x) (ip_channels x) (fd x) (chunksize x) (ip_initialized x) (resume_task x) (idle_task x).
Definition with_data_read n (x : inputpipe_ctx) := mkPipe (fname x) (chunk x) (state x) n (read_ms x)
  (ip_samples x) (samplesize x) (ip_channels x) (fd x) (chunksize x) (ip_initialized x) (resume_task x) (idle_task x).
Definition with_fd_open f cs i (x : inputpipe_ctx) := mkPipe (fname x) (chunk x) (state x) (data_read x) (read_ms x)
  (ip_samples x) (samplesize x) (ip_channels x) f cs i (resume_task x) (idle_task x).
Definition with_resume t (x : inputpipe_ctx) := mkPipe (fname x) (chunk x) (state x) (data_read x) (read_ms x)
  (ip_samples x) (samplesize x) (ip_channels x) (fd x) (chunksize x) (ip_initialized x) t (idle_task x).
Definition with_idle t (x : inputpipe_ctx) := mkPipe (fname x) (chunk x) (state x) (data_read x) (read_ms x)
  (ip_samples x) (samplesize x) (ip_channels x) (fd x) (chunksize x) (ip_initialized x) (resume_task x) t.

(** ** The outside *)

Definition sobtainsystime : M server timespec := fun w => Ok (ssysclk w (ssysticks w), ssystick w).

(** [read(fd, .., n)]: at most [n] bytes. *)
Definition read_pipe (n : Z) : M server pipe_input := fun w =>
  let r := match reads w (nreads w) with
           | ReadError => ReadError
           | ReadBytes b => ReadBytes (take (Z.to_nat n) b)
           end in
  Ok (r, readtick w).

(** The descriptors that are in use: those of the open pipes and of the control
    connections, and what epoll watches. *)
Definition pipe_fds (w : server) : list Z :=
  (fun s => fd (inputpipe s)) <$> filter (fun s => ip_initialized (inputpipe s) = true) (streams w).
Definition used (w : server) : gset Z :=
  efd w ∪ list_to_set (pipe_fds w) ∪ list_to_set (sc_fd <$> sclients (control_ctx w)).

(** [open]: a descriptor that is chosen in view of those in use, or -1. *)
Definition open_pipe : M server Z := fun w => Ok (opens w (nopens w) (used w), opentick w).

(** util.c:75-83 add_fd: adding a descriptor twice is an error of [epoll_ctl]. *)
Definition add_fd (f : Z) : M server unit := fun w =>
  if decide (f ∈ efd w) then Fault ExitError else Ok (tt, set_efd ({[f]} ∪ efd w) w).

(** util.c:85-88 del_fd *)
Definition del_fd (f : Z) : M server unit := fun w =>
  if decide (f ∈ efd w) then Ok (tt, set_efd (efd w ∖ {[f]}) w) else Fault ExitError.

(** [intercom_send_packet_unicast]: the server's packets are exactly as long as
    their buffers. *)
Definition send_unicast (recipient : Z) (packet : bytes) (port : Z) : M server unit :=
  modify (fun w => set_ssent (ssent w ++ [mkDgram recipient (u16 port) packet]) w).

(** The only cleanup the server posts is [free]. *)
Definition stask_cleanup (t : stask) : M server unit := skip.
End server.
#[global] Arguments stream : clear implicits.
#[global] Arguments server : clear implicits.
