(* ===== verification/InputPipe.v ===== *)
(** * inputpipe.c and stream.c: reading audio data from the pipes

    The state machine of a pipe (idle, playing, throttled), its place in the
    epoll set, the tasks that resume reading and detect an underrun, and the
    streams with their clients. *)
From S2P Require Import Prelude.
From S2P Require Import Timespec.
From S2P Require Import Vector.
From S2P Require Import Bytes.
From S2P Require Import PcmChunk.
From S2P Require Import TaskHeap.
From S2P Require Import TaskSched.
From S2P Require Import Intercom.
From S2P Require Import ServerState.

(** inputpipe.c:43-43 COLD_START_OFFSET_MS *)
Definition COLD_START_OFFSET_MS : Z := 100.

(** inputpipe.c:45-45 is_chunk_complete *)
Definition is_chunk_complete (x : inputpipe_ctx) : bool := chunksize x =? data_read x.

Section server.
Context {Q Dec Enc : Type} `{!TimerQueue Q, !OpusLib Dec Enc}.
Abbreviation W := (server Q Dec Enc).

(** inputpipe.c:47-55 set_idle *)
Definition set_idle (i : nat) : M W unit :=
  x ← the_pipe i;
  (match idle_task x with
   | Some t => drop_task stask_cleanup (Some t)
   | None => skip
   end) ;;
  upd_pipe i (fun x => with_data_read 0 (with_idle None (with_state IDLE x))).

(** inputpipe.c:145-153 inputpipe_hold: an idle pipe is left in the epoll set,
    whether it is there or not. *)
Definition inputpipe_hold (i : nat) : M W unit :=
  x ← the_pipe i;
  (if decide (state x = PLAYING) then del_fd (fd x) else skip) ;;
  (if decide (state x = THROTTLE) then
     drop_task stask_cleanup (resume_task x) ;;
     upd_pipe i (with_resume None)
   else skip) ;;
  set_idle i.

(** inputpipe.c:162-176 inputpipe_init *)
Definition inputpipe_init (i : nat) : M W unit :=
  x ← the_pipe i;
  let c := u16 (u32 (Z.quot (s64 (s64 (s64 (ip_samples x * ip_channels x) * samplesize x) * read_ms x)) 1000)) in
  f ← open_pipe;
  if f =? -1 then fail ExitError
  else
    upd_pipe i (fun x =>
      with_data_read 0 (with_fd_open f c true (with_chunk
        (mkChunk (play_at_tv_sec (chunk x)) (play_at_tv_nsec (chunk x)) (u32 (ip_samples x))
           (u8 (samplesize x)) (u8 (ip_channels x)) c (codec (chunk x)) (Some (zeros c))) x))).

(** inputpipe.c:132-143 inputpipe_resume_read *)
Definition inputpipe_resume_read (i : nat) : M W unit :=
  s ← the_stream i;
  if negb (Z.of_nat (length (clients s)) =? 0) && negb (bool_decide (state (inputpipe s) = PLAYING)) then
    (if ip_initialized (inputpipe s) then skip else inputpipe_init i) ;;
    x ← the_pipe i;
    add_fd (fd x) ;;
    upd_pipe i (fun x => with_resume None (with_state PLAYING x))
  else skip.

(** inputpipe.c:155-160 inputpipe_uninit: closing a descriptor also takes it
    out of the epoll set. *)
Definition inputpipe_uninit (i : nat) : M W unit :=
  inputpipe_hold i ;;
  x ← the_pipe i;
  upd_pipe i (fun x => with_chunk (default (chunk x) (chunk_free_members (Some (chunk x)))) x) ;;
  modify (fun w => set_efd (efd w ∖ {[fd x]}) w) ;;
  upd_pipe i (fun x => with_fd_open (fd x) (chunksize x) false x).

(** inputpipe.c:70-98 inputpipe_handle: what was read; into a null buffer nothing
    is read, with an error.  The number of seconds of the idle time-out is the
    number of milliseconds of the buffer. *)
Definition pipe_received (i : nat) (ctime lastchunk_play_at : timespec) (r : pipe_input) : M W unit :=
  x ← the_pipe i;
  b ← gets sv_bufferms;
  match r with
  | ReadError => skip
  | ReadBytes [] => upd_pipe i (with_state IDLE)
  | ReadBytes bs =>
      match data (chunk x) with
      | None => skip
      | Some d =>
          d ← lift (wr d (data_read x) bs);
          upd_pipe i (fun x => with_chunk (with_data (Some d) (chunk x)) x) ;;
          let count := Z.of_nat (length bs) in
          if decide (state x = IDLE) then
            start ← lift (if timespec_cmp ctime (chunk_get_play_at (Some (chunk x))) >? 0
                          then timeAddMs ctime COLD_START_OFFSET_MS
                          else timeAddMs lastchunk_play_at (s32 (read_ms x)));
            upd_pipe i (fun x =>
              with_chunk (with_play_at (u32 (tv_sec start)) (u32 (tv_nsec start)) (chunk x))
                (with_state PLAYING (with_data_read (data_read x + count) x))) ;;
            t ← post_task b (b mod 1000) (SetIdle i);
            upd_pipe i (with_idle (Some t))
          else
            upd_pipe i (fun x => with_data_read (data_read x + count) x) ;;
            reschedule_task (idle_task x) (b / 1000) (b mod 1000) ;;
            skip
      end
  end.

(** inputpipe.c:100-130 inputpipe_handle: a complete chunk gets its play time
    and format; the result tells whether the time had to be set anew. *)
Definition finish_chunk (i : nat) (ctime : timespec) : M W Z :=
  x ← the_pipe i;
  if is_chunk_complete x then
    let play_at := chunk_get_play_at (Some (chunk x)) in
    '(ret, play_at) ←
      (if timespec_cmp ctime play_at >? 0
       then p ← lift (timeAddMs ctime COLD_START_OFFSET_MS); mret (2, p)
       else p ← lift (timeAddMs play_at (s32 (read_ms x))); mret (1, p));
    upd_pipe i (fun x =>
      with_data_read 0 (with_chunk
        (mkChunk (u32 (tv_sec play_at)) (u32 (tv_nsec play_at)) (u32 (ip_samples x)) (u8 (samplesize x))
           (u8 (ip_channels x)) (u16 (data_read x)) CODEC_PCM (data (chunk x))) x)) ;;
    mret ret
  else mret 0.

(** inputpipe.c:57-130 inputpipe_handle *)
Definition inputpipe_handle (i : nat) : M W Z :=
  ctime ← sobtainsystime;
  b ← gets sv_bufferms;
  bufferfull ← lift (timeAddMs ctime (b * 95 / 100));
  x ← the_pipe i;
  let lastchunk_play_at := chunk_get_play_at (Some (chunk x)) in
  if timespec_cmp lastchunk_play_at bufferfull >? 0 then mret (-1)
  else
    r ← read_pipe (chunksize x - data_read x);
    pipe_received i ctime lastchunk_play_at r ;;
    finish_chunk i ctime.

(** ** stream.c *)

(** stream.c:144-149 stream_init *)
Definition stream_init (s : stream Dec Enc) : stream Dec Enc :=
  mkStream (inputpipe s) (opus s) [] [] 0 (name s) true (opts s).

(** clientmgr.c:96-101 get_client: the index of the client in the stream *)
Definition get_client (s : stream Dec Enc) (cid : Z) : option nat :=
  fst <$> list_find (fun c => id c = cid) (clients s).

(** clientmgr.c:86-93 client_cmp *)
Definition client_cmp (c1 c2 : sclient) : Z := if id c1 >? id c2 then 1 else if id c1 <? id c2 then -1 else 0.

(** It is the linear search with this comparison. *)
Lemma get_client_lsearch s key : get_client s (id key) = fst <$> VECTOR_LSEARCH client_cmp key (clients s).
Proof.
  unfold get_client. destruct (list_find _ _) as [[j c]|] eqn:E.
  - apply list_find_Some in E as (Hj & Hc & Hfirst).
    rewrite (proj2 (vector_lsearch_Some client_cmp key (clients s) j c)); [done|]. split; [done|].
    unfold client_cmp. split; [by rewrite Hc, Z.gtb_ltb, Z.ltb_irrefl|]. intros k y Hk Hy E.
    apply (Hfirst k y); [done|lia|]. destruct (Z.gtb_spec (id key) (id y)), (Z.ltb_spec (id key) (id y)); [lia|lia|lia|lia].
  - apply list_find_None in E. rewrite (proj2 (vector_lsearch_None client_cmp key (clients s))); [done|].
    eapply Forall_impl; [exact E|]. intros y Hy Ez. apply Hy. unfold client_cmp in Ez.
    destruct (Z.gtb_spec (id key) (id y)), (Z.ltb_spec (id key) (id y)); lia.
Qed.

(** clientmgr.c:149-163 find_client: the first stream that has the client *)
Definition find_client_in (ss : list (stream Dec Enc)) (cid : Z) : option (nat * nat) :=
  r ← list_find (fun s => is_Some (get_client s cid)) ss;
  j ← get_client r.2 cid;
  Some (r.1, j).

Definition find_client (cid : Z) : M W (option (nat * nat)) :=
  ss ← gets streams; mret (find_client_in ss cid).

(** stream.c:36-43 stream_find *)
Definition stream_find (cid : Z) : M W (option nat) :=
  r ← find_client cid; mret (fst <$> r).

(** [strncmp(a, b, strlen(a))]: whether [a] is a prefix of [b]. *)
Definition is_prefix (a b : bytes) : bool := bool_decide (a `prefix_of` b).

(** stream.c:45-52 stream_find_name: the last stream whose name is a prefix *)
Definition stream_find_name (n : bytes) : M W (option nat) :=
  ss ← gets streams;
  mret (fst <$> last (filter (fun r => is_prefix (name r.2) n = true) (imap pair ss))).

(** stream.c:54-61 stream_find_fd *)
Definition stream_find_fd (f : Z) : M W (option nat) :=
  ss ← gets streams;
  mret (fst <$> last (filter (fun r => fd (inputpipe r.2) = f) (imap pair ss))).

(** stream.c:123-134 stream_client_add *)
Definition stream_client_add (i : nat) (c : sclient) : M W unit :=
  upd_stream i (fun s => with_clients (clients s ++ [c]) s) ;;
  s ← the_stream i;
  if (Z.of_nat (length (clients s)) =? 1) && bool_decide (state (inputpipe s) = IDLE) then
    (match resume_task (inputpipe s) with
     | Some t => drop_task stask_cleanup (Some t)
     | None => skip
     end) ;;
    upd_pipe i (with_resume None) ;;
    inputpipe_resume_read i
  else skip.

(** stream.c:136-142 stream_client_remove *)
Definition stream_client_remove (i j : nat) : M W unit :=
  upd_stream i (fun s => with_clients (delete j (clients s)) s) ;;
  s ← the_stream i;
  if Z.of_nat (length (clients s)) =? 0 then inputpipe_hold i else skip.
End server.
