(* ===== verification/ClientMgr.v ===== *)
(** * clientmgr.c: the clients of the server

    Registration and refreshing of clients, their purge when they stay silent,
    muting and volume; with the two packets of intercom_srv.c it sends. *)
From S2P Require Import Prelude.
From S2P Require Import Timespec.
From S2P Require Import Bytes.
From S2P Require Import PcmChunk.
From S2P Require Import TaskHeap.
From S2P Require Import TaskSched.
From S2P Require Import Intercom.
From S2P Require Import ServerState.
From S2P Require Import InputPipe.

(** clientmgr.c:136-147 is_roughly *)
Definition is_roughly (a b : Z) : bool := (a =? b) || (Z.abs (a - b) <? 2).

(** The header of a server operation: no counter, no client. *)
Definition sop_header : intercom_packet_hdr := (assemble_header SERVER_OPERATION None 0).1.1.

(** intercom_srv.c:86-95 intercom_set_volume: the packet *)
Definition volume_packet (volume : Z) : res bytes :=
  p ← wr (zeros 11) 0 (hdr_bytes sop_header);
  '(p, l) ← assemble_volume p HDR_SIZE volume;
  rd p 0 (Z.to_nat (HDR_SIZE + l)).

(** intercom_srv.c:97-106 intercom_stop_client: the packet *)
Definition stop_packet : res bytes :=
  p ← wr (zeros 10) 0 (hdr_bytes sop_header);
  '(p, l) ← assemble_stop p HDR_SIZE;
  rd p 0 (Z.to_nat (HDR_SIZE + l)).

Definition with_purge t (c : sclient) := mkSclient (ip c) (cport c) (id c) (connected c) (lastseen c)
  (protoversion c) (latency c) (volume_percent c) (muted c) t (ident c).
Definition with_volume v (c : sclient) := mkSclient (ip c) (cport c) (id c) (connected c) (lastseen c)
  (protoversion c) (latency c) v (muted c) (purge_task c) (ident c).
Definition with_muted m (c : sclient) := mkSclient (ip c) (cport c) (id c) (connected c) (lastseen c)
  (protoversion c) (latency c) (volume_percent c) m (purge_task c) (ident c).
Definition with_protoversion v (c : sclient) := mkSclient (ip c) (cport c) (id c) (connected c) (lastseen c)
  v (latency c) (volume_percent c) (muted c) (purge_task c) (ident c).
Definition with_seen t l (c : sclient) := mkSclient (ip c) (cport c) (id c) true t
  (protoversion c) l (volume_percent c) (muted c) (purge_task c) (ident c).

Definition with_mac m (c : sclient) := mkSclient (ip c) (cport c) (id c) (connected c) (lastseen c)
  (protoversion c) (latency c) (volume_percent c) (muted c) (purge_task c) (mkIdent (cname (ident c)) m).

(** clientmgr.c:200-203 clientmgr_refresh_client: the address made up of the id;
    the four bytes copied are the id and the two bytes of padding behind it. *)
Definition made_up_mac (cid : Z) : bytes := [255; 255] ++ le_bytes 2 cid ++ [0; 0].

Section server.
Context {Q Dec Enc : Type} `{!TimerQueue Q, !OpusLib Dec Enc}.
Abbreviation W := (server Q Dec Enc).

Definition the_client (i j : nat) : M W sclient :=
  s ← the_stream i;
  match clients s !! j with Some c => mret c | None => fail OutOfBounds end.
Definition upd_client (i j : nat) (f : sclient -> sclient) : M W unit :=
  upd_stream i (fun s => with_clients (alter f j (clients s)) s).

(** intercom_srv.c:86-95 intercom_set_volume *)
Definition intercom_set_volume (c : sclient) (volume : Z) : M W unit :=
  p ← lift (volume_packet volume); send_unicast (ip c) p (cport c).

(** intercom_srv.c:97-106 intercom_stop_client *)
Definition intercom_stop_client (c : sclient) : M W unit :=
  p ← lift stop_packet; send_unicast (ip c) p (cport c).

(** clientmgr.c:19-26 clientmgr_send_audio_buffer_to_client *)
Definition clientmgr_send_audio_buffer_to_client (c : sclient) : M W unit :=
  r ← stream_find (id c);
  match r with
  | None => fail NullDeref
  | Some i =>
      s ← the_stream i;
      mfor (packet_buffer s) (fun ap =>
        match ap_data ap with
        | None => fail NullDeref
        | Some d => p ← lift (rd d 0 (Z.to_nat (ap_len ap))); send_unicast (ip c) p (cport c)
        end)
  end.

(** clientmgr.c:28-28 clientmgr_client_refreshvolume *)
Definition clientmgr_client_refreshvolume (c : sclient) (volume : Z) : M W unit :=
  intercom_set_volume c (u8 volume).

(** clientmgr.c:30-43 clientmgr_client_setmute *)
Definition clientmgr_client_setmute (i j : nat) (mute : bool) : M W bool :=
  c ← the_client i j;
  let mute_changed := negb (Bool.eqb (muted c) mute) in
  upd_client i j (with_muted mute) ;;
  (if mute then intercom_stop_client c
   else if mute_changed then clientmgr_send_audio_buffer_to_client c else skip) ;;
  mret true.

(** The clients of a stream from the last to the first, with their indices. *)
Definition clients_down (s : stream Dec Enc) : list (nat * sclient) := reverse (imap pair (clients s)).

(** clientmgr.c:45-50 clientmgr_stop_clients *)
Definition clientmgr_stop_clients (i : nat) : M W unit :=
  s ← the_stream i;
  mfor (clients_down s) (fun c => intercom_stop_client c.2).

(** clientmgr.c:57-84 new_client *)
Definition new_client (cid host port : Z) : M W sclient :=
  n ← gets (fun w => hostnames (control_ctx w) host);
  t ← post_task 5 0 (DeleteClient cid);
  mret (mkSclient host port cid false zero_time 0 0 0 false (Some t) (mkIdent n (zeros 6))).

(** clientmgr.c:107-116 delete_client_internal *)
Definition delete_client_internal (r : option (nat * nat)) : M W unit :=
  match r with
  | Some (i, j) =>
      c ← the_client i j;
      drop_task stask_cleanup (purge_task c) ;;
      stream_client_remove i j
  | None => skip
  end.

(** clientmgr.c:120-124 clientmgr_delete_client *)
Definition clientmgr_delete_client (cid : Z) : M W unit :=
  r ← find_client cid; delete_client_internal r.

(** clientmgr.c:127-134 clientmgr_purge_clients *)
Definition clientmgr_purge_clients (i : nat) : M W unit :=
  s ← the_stream i;
  mfor (clients_down s) (fun c => delete_client_internal (Some (i, c.1))).

(** clientmgr.c:180-203 clientmgr_refresh_client: a new client goes to the first
    stream; its index there. *)
Definition register_client (client : sclient) : M W (nat * nat) :=
  c ← new_client (id client) (ip client) (cport client);
  s ← the_stream 0;
  (if s_initialized s then skip else upd_stream 0 stream_init) ;;
  stream_client_add 0 c ;;
  s ← the_stream 0;
  match get_client s (id client) with
  | None => fail NullDeref
  | Some j =>
      upd_client 0 j (with_volume (volume_percent client)) ;;
      c ← the_client 0 j;
      clientmgr_send_audio_buffer_to_client c ;;
      upd_client 0 j (fun c => with_mac (made_up_mac (id client)) (with_protoversion 2 c)) ;;
      mret (0%nat, j)
  end.

(** clientmgr.c:165-220 clientmgr_refresh_client *)
Definition clientmgr_refresh_client (client : sclient) : M W bool :=
  r ← find_client (id client);
  ctime ← sobtainsystime;
  '(i, j) ←
    match r with
    | None => register_client client
    | Some (i, j) =>
        c ← the_client i j;
        if negb (cport client =? cport c) then
          clientmgr_delete_client (id client) ;; register_client client
        else
          reschedule_task (purge_task c) 5 0 ;; mret (i, j)
    end;
  upd_client i j (with_seen ctime (latency client)) ;;
  c ← the_client i j;
  (if is_roughly (volume_percent client) (volume_percent c) then skip
   else clientmgr_client_refreshvolume c (volume_percent c)) ;;
  mret true.
End server.
