(* ===== verification/IntercomSrv.v ===== *)
(** * intercom_srv.c and the handlers of server.c

    Sending audio packets and keeping them for repetition, the client's
    operations, the dispatch of the tasks and of the events of a pipe. *)
From S2P Require Import Prelude.
From S2P Require Import Timespec.
From S2P Require Import Bytes.
From S2P Require Import PcmChunk.
From S2P Require Import TaskHeap.
From S2P Require Import TaskSched.
From S2P Require Import Intercom.
From S2P Require Import ServerState.
From S2P Require Import InputPipe.
From S2P Require Import ClientMgr.

Section server.
Context {Q Dec Enc : Type} `{!TimerQueue Q, !OpusLib Dec Enc}.
Abbreviation W := (server Q Dec Enc).

(** intercom_srv.c:55-70 remove_old_audiodata_task: the loop; the first packet
    is removed in any case. *)
Fixpoint drop_old_packets (age : timespec) (buffer : list audio_packet) : res (list audio_packet) :=
  match buffer with
  | [] => Ok []
  | ap :: rest =>
      match ap_data ap with
      | None => Fault NullDeref
      | Some d =>
          c ← chunk_at d AUDIO_HDR_SIZE;
          let play_at := chunk_get_play_at (Some (chunk_ntoh c)) in
          if negb (Z.of_nat (length rest) =? 0) && (timespec_cmp age play_at >? 0)
          then drop_old_packets age rest
          else Ok rest
      end
  end.

(** intercom_srv.c:43-71 remove_old_audiodata_task *)
Definition remove_old_audiodata_task (i : nat) : M W unit :=
  s ← the_stream i;
  if (Z.of_nat (length (clients s)) =? 0) || (Z.of_nat (length (packet_buffer s)) =? 0) then skip
  else
    ctime ← sobtainsystime;
    b ← gets sv_bufferms;
    buffer ← lift (drop_old_packets (timeSubMs ctime b) (packet_buffer s));
    upd_stream i (with_buffer buffer).

(** intercom_srv.c:110-149 intercom_send_audio *)
Definition intercom_send_audio (i : nat) : M W unit :=
  s ← the_stream i;
  b ← gets sv_bufferms;
  '(packet, packet_len, n) ← lift (assemble_audio (chunk (inputpipe s)) (nonce s) b);
  h ← lift (hdr_at packet);
  let ap := mkAp (Some packet) (u16 packet_len) (ntohl (hnonce h)) in
  upd_stream i (fun s => with_buffer (packet_buffer s ++ [ap]) (with_snonce (default (nonce s) n) s)) ;;
  post_task (b / 1000) (b mod 1000) (RemoveOld i) ;;
  s ← the_stream i;
  mfor (clients_down s) (fun c => if muted c.2 then skip else send_unicast (ip c.2) packet (cport c.2)).

(** intercom_srv.c:174-193 intercom_handle_client_operation: a request; the
    length of the segment *)
Definition handle_request_segment (packet : bytes) (off peer port : Z) : M W Z :=
  h ← lift (hdr_at packet);
  r ← find_client (ntohs (clientid h));
  '(n, l) ← lift (parse_request packet off);
  (match r with
   | None => skip
   | Some (i, _) =>
       s ← the_stream i;
       match lsearch (ap_key n) (packet_buffer s) with
       | None => skip
       | Some (_, ap) =>
           match ap_data ap with
           | None => fail NullDeref
           | Some d => p ← lift (rd d 0 (Z.to_nat (ap_len ap))); send_unicast peer p port
           end
       end
   end) ;;
  mret l.

(** intercom_srv.c:168-173 intercom_handle_client_operation: a hello *)
Definition handle_hello_segment (packet : bytes) (off peer port : Z) : M W Z :=
  '(i, t, v, l) ← lift (parse_hello packet off);
  clientmgr_refresh_client (mkSclient peer port i false zero_time 0 t v false None (mkIdent [] (zeros 6))) ;;
  mret l.

(** intercom_srv.c:163-200 intercom_handle_client_operation: the loop *)
Fixpoint cop_loop (fuel : nat) (packet : bytes) (packet_len off peer port : Z) : M W unit :=
  match fuel with
  | O => fail Diverges
  | S fuel =>
      if off <? packet_len then
        type ← lift (rd8 packet off);
        l ← (if type =? HELLO then handle_hello_segment packet off peer port
             else if type =? REQUEST then handle_request_segment packet off peer port
             else lift (rd8 packet (off + 2)));
        cop_loop fuel packet packet_len (off + l) peer port
      else skip
  end.

(** intercom_srv.c:151-203 intercom_handle_client_operation *)
Definition intercom_handle_client_operation (fuel : nat) (packet : bytes) (packet_len peer port : Z)
  : M W bool := cop_loop fuel packet packet_len HDR_SIZE peer port ;; mret true.

(** intercom_srv.c:205-218 intercom_handle_packet *)
Definition srv_handle_packet (fuel : nat) (packet : bytes) (packet_len peer port : Z) : M W unit :=
  h ← lift (hdr_at packet);
  if version h =? PACKET_FORMAT_VERSION then
    modify (fun w => set_recent (intercom_recently_seen_add (recent w) h) w) ;;
    (if type h =? CLIENT_OPERATION
     then intercom_handle_client_operation fuel packet packet_len peer port ;; skip
     else skip)
  else skip.

(** Running a task of the server. *)
Definition run_stask (t : stask) : M W unit :=
  match t with
  | RemoveOld i => remove_old_audiodata_task i
  | ResumeRead i => inputpipe_resume_read i
  | SetIdle i => set_idle i
  | DeleteClient cid => clientmgr_delete_client cid
  end.

(** server.c:106-107 loop: the timer of the task queue *)
Definition srv_timer_event (fuel : nat) : M W unit := taskqueue_run fuel run_stask stask_cleanup.

(** server.c:128-128 loop: encoding the chunk of a pipe in place *)
Definition encode_chunk (i : nat) : M W unit :=
  s ← the_stream i;
  m ← gets sv_mtu;
  '(c, ctx) ← lift (encode_opus_handle m (opus s) (chunk (inputpipe s)));
  upd_stream i (fun s => with_encoder ctx (on_pipe (with_chunk c) s)).

(** server.c:108-131 loop: a pipe is readable *)
Definition srv_pipe_event (i : nat) : M W unit :=
  ret ← inputpipe_handle i;
  if ret =? -1 then
    x ← the_pipe i;
    del_fd (fd x) ;;
    upd_pipe i (with_state THROTTLE) ;;
    t ← post_task (Z.quot (read_ms x) 1000) (Z.rem (read_ms x) 1000) (ResumeRead i);
    upd_pipe i (with_resume (Some t))
  else if ret >? 0 then
    (if ret =? 2 then clientmgr_stop_clients i else skip) ;;
    encode_chunk i ;;
    intercom_send_audio i
  else skip.

(** server.c:90-97 loop: the other end of a pipe was closed *)
Definition srv_pipe_hangup (i : nat) : M W unit := inputpipe_uninit i ;; inputpipe_resume_read i.
End server.
