(* ===== verification/ServerProofs.v ===== *)
(** * What the server guarantees

    Theorems about the pipes (InputPipe.v), the audio packets that are sent and
    kept for repetition, and the requests of the clients (IntercomSrv.v). *)
From S2P Require Import Prelude.
From S2P Require Import Timespec.
From S2P Require Import Bytes.
From S2P Require Import PcmChunk.
From S2P Require Import TaskHeap.
From S2P Require Import TaskSched.
From S2P Require Import Intercom.
From S2P Require Import ServerState.
From S2P Require Import InputPipe.
From S2P Require Import ClientMgr.
From S2P Require Import IntercomSrv.

(** ** The packets kept for repetition *)

(** A packet of the buffer: complete, with the header of a chunk. *)
Definition packet_ok (ap : audio_packet) : Prop :=
  exists d, ap_data ap = Some d /\ ap_len ap = Z.of_nat (length d) /\ (27 <= length d)%nat.

(** The play time in a packet. *)
Definition packet_time (ap : audio_packet) : timespec :=
  match ap_data ap with
  | Some d => match chunk_at d AUDIO_HDR_SIZE with
              | Ok c => chunk_get_play_at (Some (chunk_ntoh c))
              | Fault _ => zero_time
              end
  | None => zero_time
  end.

Lemma rd8_fits d off : 0 <= off -> off + 1 <= Z.of_nat (length d) -> exists x, rd8 d off = Ok x.
Proof. intros. unfold rd8. rewrite rd_fits by lia. by eexists. Qed.
Lemma rd16_fits d off : 0 <= off -> off + 2 <= Z.of_nat (length d) -> exists x, rd16 d off = Ok x.
Proof. intros. unfold rd16. rewrite rd_fits by lia. by eexists. Qed.
Lemma rd32_fits d off : 0 <= off -> off + 4 <= Z.of_nat (length d) -> exists x, rd32 d off = Ok x.
Proof. intros. unfold rd32. rewrite rd_fits by lia. by eexists. Qed.

Lemma chunk_at_fits d off : 0 <= off -> off + 17 <= Z.of_nat (length d) ->
  exists c, chunk_at d off = Ok c.
Proof.
  intros H0 Hl. unfold chunk_at, mbind, res_bind.
  destruct (rd32_fits d off) as [? ->]; [lia|lia|].
  destruct (rd32_fits d (off + 4)) as [? ->]; [lia|lia|].
  destruct (rd32_fits d (off + 8)) as [? ->]; [lia|lia|].
  destruct (rd8_fits d (off + 12)) as [? ->]; [lia|lia|].
  destruct (rd8_fits d (off + 13)) as [? ->]; [lia|lia|].
  destruct (rd16_fits d (off + 14)) as [? ->]; [lia|lia|].
  destruct (rd8_fits d (off + 16)) as [? ->]; [lia|lia|]. by eexists.
Qed.

(** C21: removing old packets from a buffer of complete packets that is not
    empty ends, and removes at least one: the old packets at the front ([old],
    all of them due before [age]) and one more ([ap]), which is the first packet
    that is still needed, or, when nothing is left behind it, the last packet of
    the buffer, whether it is still needed or not. The code tests the age of a
    packet after it has removed it; so a buffer of one packet is emptied in any
    case. *)
Theorem drop_old_packets_spec age buffer : buffer <> [] -> Forall packet_ok buffer ->
  exists old ap rest, buffer = old ++ ap :: rest /\ drop_old_packets age buffer = Ok rest /\
    Forall (fun y => timespec_cmp age (packet_time y) > 0) old /\
    (rest <> [] -> timespec_cmp age (packet_time ap) <= 0).
Proof.
  intros Hne Hall. induction buffer as [|ap rest IH]; [done|].
  apply Forall_cons in Hall as [(d & Hd & _ & Hl) Hrest].
  destruct (chunk_at_fits d AUDIO_HDR_SIZE) as [c Hc]; [done|unfold AUDIO_HDR_SIZE; lia|].
  assert (packet_time ap = chunk_get_play_at (Some (chunk_ntoh c))) as Et.
  { unfold packet_time. by rewrite Hd, Hc. }
  cbn [drop_old_packets]. rewrite Hd. unfold mbind, res_bind. rewrite Hc. cbv zeta. rewrite <- Et, Z.gtb_ltb.
  destruct (Z.eqb_spec (Z.of_nat (length rest)) 0) as [E|E]; simpl.
  { exists [], ap, rest. by destruct rest. }
  destruct (Z.ltb_spec 0 (timespec_cmp age (packet_time ap))) as [Hold|Hnew].
  - destruct IH as (old & ap' & rest' & -> & Ek & Hj & Hend); [by intros ->|done|].
    exists (ap :: old), ap', rest'. split_and!; try done. constructor; [lia|done].
  - exists [], ap, rest. split_and!; try done; intros; lia.
Qed.

Section server.
Context {Q Dec Enc : Type} `{!TimerQueue Q, !TimerQueueLaws Q, !OpusLib Dec Enc}.
Implicit Types (w : server Q Dec Enc) (s : stream Dec Enc).

(** The scheduler is in order and the monotonic clock shows sane times. *)
Definition server_ok w : Prop := sched_ok (stasks w) /\ forall n, sane (s_clk (stasks w) n).

(** A task with the payload [t] waits for the scheduler at the address [a]. *)
Definition waits w (a : addr) (t : stask) : Prop :=
  exists r, s_tasks (stasks w) !! a = Some r /\ tr_running r = false /\ tr_payload r = t.

(** In [w'] the task [a], which was not there in [w], waits for the time [now] of
    the monotonic clock in [w] plus [ms]; the other tasks are as they were. *)
Record posted_at w (a : addr) (t : stask) (ms : Z) w' : Prop := {
  po_fresh : s_tasks (stasks w) !! a = None;
  po_task : exists due, norm_ns due /\
    ns due = ns (s_clk (stasks w) (s_ticks (stasks w))) + ms * 1000000 /\
    s_tasks (stasks w') = <[a := mkTrec due false t]> (s_tasks (stasks w)) /\
    tq_elems (s_queue (stasks w')) ≡ₚ (a, due) :: tq_elems (s_queue (stasks w));
}.

Lemma post_server_task w timeout ms pl : server_ok w -> 0 <= timeout < 2 ^ 60 -> 0 <= ms < 2 ^ 31 ->
  exists a sch, post_task timeout ms pl w = Ok (a, set_stasks sch w) /\
    server_ok (set_stasks sch w) /\ posted_at w a pl (timeout * 1000 + ms) (set_stasks sch w).
Proof.
  intros [Hs Hclk] Ht Hms.
  destruct (post_task_total (HasSched0 := server_sched) w timeout ms pl Hs (Hclk _) Ht Hms)
    as (a & d & sch & E & Ha & Hd & Hns & Hok & _ & Htasks & He & Hc).
  exists a, sch. split; [exact E|]. split; [split; [done|by intros n; simpl; rewrite Hc]|].
  split; [exact Ha|]. exists d. split; [done|]. split; [|done].
  change (get_sched w) with (stasks w) in Hns. rewrite Hns. unfold BILLION. lia.
Qed.

Lemma posted_waits w a t ms w' : posted_at w a t ms w' ->
  waits w' a t /\ forall a' t', waits w a' t' -> waits w' a' t'.
Proof.
  intros [Hf (d & _ & _ & Ht & _)]. split.
  - eexists. rewrite Ht, lookup_insert_eq. done.
  - intros a' t' (r & Hr & H). exists r. rewrite Ht, lookup_insert_ne; [done|]. congruence.
Qed.

Lemma post_server w timeout ms pl : server_ok w -> 0 <= timeout < 2 ^ 60 -> 0 <= ms < 2 ^ 31 ->
  exists a sch, post_task timeout ms pl w = Ok (a, set_stasks sch w) /\
    server_ok (set_stasks sch w) /\ waits (set_stasks sch w) a pl /\
    (forall a' t, waits w a' t -> waits (set_stasks sch w) a' t).
Proof.
  intros Hw Ht Hms. destruct (post_server_task w timeout ms pl Hw Ht Hms) as (a & sch & E & Hok & Hp).
  exists a, sch. apply posted_waits in Hp as []. done.
Qed.

Lemma the_stream_run w i s : streams w !! i = Some s -> the_stream i w = Ok (s, w).
Proof. intros E. unfold the_stream. by rewrite E. Qed.

Lemma the_pipe_run w i s : streams w !! i = Some s -> the_pipe i w = Ok (inputpipe s, w).
Proof. intros E. unfold the_pipe. by rewrite (M_bind_Ok _ _ _ _ _ (the_stream_run w i s E)). Qed.

Lemma upd_stream_run w i f : upd_stream i f w = Ok (tt, set_streams (alter f i (streams w)) w).
Proof. done. Qed.

(** ** Sending audio *)

(** The packets a stream's chunk becomes: one for every client that is not
    muted, from the last to the first. *)
Definition audio_datagrams (cs : list sclient) (p : bytes) : list datagram :=
  (fun c => mkDgram (ip c) (u16 (cport c)) p) <$> filter (fun c => muted c = false) (reverse cs).

Lemma send_loop_run (l : list (nat * sclient)) p w :
  mfor l (fun c => if muted c.2 then skip else send_unicast (ip c.2) p (cport c.2)) w =
    Ok (tt, set_ssent (ssent w ++ ((fun c => mkDgram (ip c) (u16 (cport c)) p) <$>
                                   filter (fun c => muted c = false) l.*2)) w).
Proof.
  revert w. induction l as [|[k c] l IH]; intros w; simpl.
  - rewrite app_nil_r. by destruct w.
  - unfold mbind, M_bind. destruct (muted c) eqn:E.
    + unfold skip. rewrite IH, filter_cons_False by congruence. done.
    + unfold send_unicast, modify. rewrite IH, filter_cons_True by done. simpl.
      by rewrite <- app_assoc.
Qed.

Lemma clients_down_snd s : (clients_down s).*2 = reverse (clients s).
Proof.
  unfold clients_down. rewrite fmap_reverse. f_equal.
  rewrite <- (list_fmap_id (clients s)) at 2. rewrite fmap_imap. apply list_eq. intros k.
  rewrite list_lookup_imap, list_lookup_fmap. by destruct (clients s !! k).
Qed.

(** C20: a chunk is sent as one packet with the stream's next number to every
    client of the stream that is not muted, the packet is kept for repetition
    under that number, behind the others, and a new task that removes old
    packets of the stream is posted, due when the length of the buffer has
    passed on the monotonic clock; the other tasks stay as they are. This is for
    a server whose scheduler is in order and whose buffer's length fits 16 bits,
    a well-formed chunk of less than 65000 bytes, and a number below NONCE_MAX.
    *)
Theorem send_audio_spec w i s :
  server_ok w -> streams w !! i = Some s -> chunk_ok (chunk (inputpipe s)) ->
  0 <= nonce s < NONCE_MAX -> 0 <= sv_bufferms w < 65536 -> size (chunk (inputpipe s)) < 65000 ->
  exists p w' a, intercom_send_audio i w = Ok (tt, w') /\
    assemble_audio (chunk (inputpipe s)) (nonce s) (sv_bufferms w) =
      Ok (p, 27 + size (chunk (inputpipe s)), Some (nonce s + 1)) /\
    streams w' !! i = Some (with_buffer
      (packet_buffer s ++ [mkAp (Some p) (27 + size (chunk (inputpipe s))) (nonce s)]) (with_snonce (nonce s + 1) s)) /\
    packet_ok (mkAp (Some p) (27 + size (chunk (inputpipe s))) (nonce s)) /\
    ssent w' = ssent w ++ audio_datagrams (clients s) p /\
    server_ok w' /\ posted_at w a (RemoveOld i) (sv_bufferms w) w'.
Proof.
  intros Hw Hs Hc Hn Hb Hsize. pose proof Hc as []. destruct co_data as (d & Hd & Hl).
  unfold NONCE_MAX in *.
  pose proof (assemble_audio_fields _ (nonce s) (sv_bufferms w) d Hc Hd) as E.
  rewrite u32_small in E by lia. set (p := concat _) in E.
  assert (Z.of_nat (length p) = 27 + size (chunk (inputpipe s))) as Hp.
  { unfold p, audio_fields. cbn [concat]. rewrite !length_app, !length_le_bytes. simpl. lia. }
  assert (hdr_at p = Ok (mkHdr PACKET_FORMAT_VERSION AUDIO_DATA (htons 0) (htonl (nonce s)))) as Hh.
  { unfold p, audio_fields. unfold NONCE_MAX. rewrite Z.mod_small by lia.
    apply hdr_at_fields; [done|done|apply htons_range|apply htonl_range]. }
  unfold intercom_send_audio, gets, lift, mbind, M_bind. rewrite (the_stream_run w i s Hs), E, Hh.
  rewrite upd_stream_run.
  simpl hnonce. rewrite ntohl_htonl, u16_small by lia. set (w1 := set_streams _ w).
  destruct (post_server_task w1 (sv_bufferms w / 1000) (sv_bufferms w mod 1000) (RemoveOld i))
    as (a & sch & Ep & Hok & [Hfresh Htask]); [done| |pose proof (Z.mod_pos_bound (sv_bufferms w) 1000); lia|].
  { split; [apply Z.div_pos; lia|apply Z.div_lt_upper_bound; lia]. }
  rewrite Ep.
  assert (streams (set_stasks sch w1) !! i = Some (with_buffer
      (packet_buffer s ++ [mkAp (Some p) (27 + size (chunk (inputpipe s))) (nonce s)]) (with_snonce (nonce s + 1) s))) as Hs'.
  { simpl. rewrite list_lookup_alter_eq, Hs. simpl. do 3 f_equal. }
  rewrite (the_stream_run _ _ _ Hs'), send_loop_run, clients_down_snd.
  exists p. eexists _, a. split; [done|]. split; [done|]. split; [exact Hs'|]. split.
  { exists p. split; [done|]. cbn [ap_len]. clearbody p. lia. }
  split; [done|]. split; [exact Hok|]. split; [exact Hfresh|].
  rewrite (Z.mul_comm (sv_bufferms w / 1000)), <- Z.div_mod in Htask by lia. exact Htask.
Qed.

(** ** Requests *)

Lemma request_total w packet h n peer port fuel :
  hdr_at packet = Ok h -> rd8 packet HDR_SIZE = Ok REQUEST -> parse_request packet HDR_SIZE = Ok (n, 6) ->
  let answer := intercom_handle_client_operation (S (S fuel)) packet 14 peer port w in
  (forall i j s k ap d, find_client_in (streams w) (ntohs (clientid h)) = Some (i, j) ->
     streams w !! i = Some s -> lsearch (ap_key n) (packet_buffer s) = Some (k, ap) ->
     packet_ok ap -> ap_data ap = Some d ->
     answer = Ok (true, set_ssent (ssent w ++ [mkDgram peer (u16 port) d]) w)) /\
  (forall i j s, find_client_in (streams w) (ntohs (clientid h)) = Some (i, j) ->
     streams w !! i = Some s -> lsearch (ap_key n) (packet_buffer s) = None -> answer = Ok (true, w)) /\
  (find_client_in (streams w) (ntohs (clientid h)) = None -> answer = Ok (true, w)).
Proof.
  intros Hh Ht Hp answer. unfold answer, intercom_handle_client_operation. cbn [cop_loop].
  replace (HDR_SIZE <? 14) with true by done.
  unfold handle_request_segment, find_client, gets, lift, mbind, M_bind, mret, M_ret.
  rewrite Ht. replace (REQUEST =? HELLO) with false by done. rewrite Z.eqb_refl, Hh, Hp.
  replace (HDR_SIZE + 6 <? 14) with false by done.
  split; [|split].
  - intros i j s k ap d Hf Hs Hl (d' & Hd' & Hlen & _) Hd. assert (d' = d) as -> by congruence.
    rewrite Hf. cbn [fst]. rewrite (the_stream_run w i s Hs), Hl, Hd, Hlen, Nat2Z.id, rd_all. done.
  - intros i j s Hf Hs Hl. rewrite Hf, (the_stream_run w i s Hs), Hl. done.
  - intros Hf. by rewrite Hf.
Qed.

(** A client that is registered gets a packet it asks for exactly as it
    was stored, at the address and port its request came from; a request for a
    packet that is not kept any more, or from an unknown client, is answered
    with nothing. *)
Theorem request_served w packet h n peer port :
  hdr_at packet = Ok h -> rd8 packet HDR_SIZE = Ok REQUEST -> parse_request packet HDR_SIZE = Ok (n, 6) ->
  let answer := intercom_handle_client_operation 2 packet 14 peer port w in
  (forall i j s k ap d, find_client_in (streams w) (ntohs (clientid h)) = Some (i, j) ->
     streams w !! i = Some s -> lsearch (ap_key n) (packet_buffer s) = Some (k, ap) ->
     packet_ok ap -> ap_data ap = Some d ->
     answer = Ok (true, set_ssent (ssent w ++ [mkDgram peer (u16 port) d]) w)) /\
  (forall i j s, find_client_in (streams w) (ntohs (clientid h)) = Some (i, j) ->
     streams w !! i = Some s -> lsearch (ap_key n) (packet_buffer s) = None -> answer = Ok (true, w)) /\
  (find_client_in (streams w) (ntohs (clientid h)) = None -> answer = Ok (true, w)).
Proof. apply request_total. Qed.

(** ** Throttling *)

(** A pipe whose chunk is to be played too late is not read. *)
Lemma handle_early w i s c : let x := inputpipe s in
  streams w !! i = Some s ->
  timeAddMs (ssysclk w (ssysticks w)) (sv_bufferms w * 95 / 100) = Ok c -> norm_ns c ->
  norm_ns (chunk_get_play_at (Some (chunk x))) -> ns c < ns (chunk_get_play_at (Some (chunk x))) ->
  inputpipe_handle i w = Ok (-1, ssystick w).
Proof.
  intros x Hs Ec Hc Hplay Hlate. unfold inputpipe_handle, sobtainsystime, gets, lift, mbind, M_bind, mret, M_ret.
  simpl sv_bufferms. rewrite Ec, (the_pipe_run (ssystick w) i s Hs). fold x.
  rewrite timespec_cmp_ns by done.
  destruct (Z.ltb_spec (ns (chunk_get_play_at (Some (chunk x)))) (ns c)); [lia|].
  rewrite !Z.gtb_ltb. by destruct (Z.ltb_spec (ns c) (ns (chunk_get_play_at (Some (chunk x))))); [|lia].
Qed.

(** C33: a pipe that is read faster than it is played is throttled and resumed.
    Let a pipe be open, playing and watched, its stream have a client, the
    server's scheduler be in order the clock and the play time sane, and the
    time of a reading and the length of the buffer in 31 and 16 bits. When its
    last chunk is due later than 95% of the buffer's length from now, an event
    of the pipe reads and sends nothing: the pipe leaves the epoll set, its
    state is throttled, and a new task is posted that resumes it after the time
    of one reading; apart from this and the reading of the clock everything is
    as it was, the chunk of the pipe and what was read of the next one included.
    Running that task from there puts the pipe back into the epoll set and into
    the playing state, and changes nothing else. *)
Theorem throttle_resume w i s :
  let x := inputpipe s in
  let now := ssysclk w (ssysticks w) in
  let limit := sv_bufferms w * 95 / 100 in
  server_ok w -> streams w !! i = Some s -> state x = PLAYING -> fd x ∈ efd w ->
  ip_initialized x = true -> clients s <> [] -> 0 <= read_ms x < 2 ^ 31 ->
  sane now -> 0 <= sv_bufferms w < 65536 -> norm_ns (chunk_get_play_at (Some (chunk x))) ->
  ns now + limit * 1000000 < ns (chunk_get_play_at (Some (chunk x))) ->
  exists w1 w2 t sch, srv_pipe_event i w = Ok (tt, w1) /\
    w1 = set_streams (alter (on_pipe (fun x => with_resume (Some t) (with_state THROTTLE x))) i (streams w))
           (set_stasks sch (set_efd (efd w ∖ {[fd x]}) (ssystick w))) /\
    posted_at w t (ResumeRead i) (read_ms x) w1 /\ server_ok w1 /\
    run_stask (ResumeRead i) w1 = Ok (tt, w2) /\
    w2 = set_streams (alter (on_pipe (fun x => with_resume None (with_state PLAYING x))) i (streams w1))
           (set_efd ({[fd x]} ∪ efd w1) w1).
Proof.
  intros x now limit Hw Hs Hst Hfd Hinit Hcl Hms Hnow Hb Hplay Hlate.
  assert (0 <= limit < 65536) as Hlimit.
  { unfold limit. split; [apply Z.div_pos; lia|apply Z.div_lt_upper_bound; lia]. }
  destruct (timeAddMs_spec now limit Hnow) as (c & Ec & Hc & Hcn); [lia|].
  pose proof (handle_early w i s c Hs Ec Hc Hplay) as Ehandle. rewrite Hcn in Ehandle.
  specialize (Ehandle Hlate).
  set (w0 := set_streams (alter (on_pipe (with_state THROTTLE)) i (streams w))
               (set_efd (efd w ∖ {[fd x]}) (ssystick w))).
  destruct (post_server_task w0 (Z.quot (read_ms x) 1000) (Z.rem (read_ms x) 1000) (ResumeRead i))
    as (t & sch & Ep & Hok & [Hfresh Htask]); [exact Hw| |pose proof (Z.rem_bound_pos (read_ms x) 1000); lia|].
  { rewrite Z.quot_div_nonneg by lia. split; [apply Z.div_pos; lia|apply Z.div_lt_upper_bound; lia]. }
  set (s1 := on_pipe (with_resume (Some t)) (on_pipe (with_state THROTTLE) s)).
  set (w1 := set_streams (alter (on_pipe (fun x => with_resume (Some t) (with_state THROTTLE x))) i (streams w))
               (set_stasks sch (set_efd (efd w ∖ {[fd x]}) (ssystick w)))).
  assert (streams w1 !! i = Some s1) as Hs1.
  { unfold w1. simpl. by rewrite list_lookup_alter_eq, Hs. }
  eexists w1, _, t, sch. split.
  { unfold srv_pipe_event, mbind, M_bind. rewrite Ehandle. replace (-1 =? -1) with true by done.
    rewrite (the_pipe_run (ssystick w) i s Hs). fold x. unfold del_fd. simpl efd.
    rewrite decide_True by done.
    assert (upd_pipe i (with_state THROTTLE) (set_efd (efd w ∖ {[fd x]}) (ssystick w)) = Ok (tt, w0))
      as -> by done. rewrite Ep.
    unfold upd_pipe, upd_stream, modify. do 2 f_equal. unfold w1, w0. simpl.
    by rewrite list_alter_alter_eq. }
  split; [done|]. split.
  { split; [exact Hfresh|]. rewrite (Z.mul_comm (Z.quot _ _)), <- Z.quot_rem' in Htask. exact Htask. }
  split; [exact Hok|]. split; [|done].
  simpl. unfold inputpipe_resume_read, mbind, M_bind. rewrite (the_stream_run w1 i s1 Hs1).
  change (clients s1) with (clients s). change (state (inputpipe s1)) with THROTTLE.
  rewrite bool_decide_false by done.
  destruct (clients s) as [|c0 cs]; [done|].
  change (negb (Z.of_nat (length (c0 :: cs)) =? 0) && negb false) with true. cbv iota.
  change (ip_initialized (inputpipe s1)) with (ip_initialized x).
  rewrite Hinit. unfold skip. cbv beta iota. rewrite (the_pipe_run w1 i s1 Hs1). change (fd (inputpipe s1)) with (fd x).
  unfold add_fd. rewrite decide_False by (unfold w1, w0; simpl; set_solver). done.
Qed.

(** ** Registration *)

Definition replayed (c : sclient) (l : list audio_packet) : list datagram :=
  (fun ap => mkDgram (ip c) (u16 (cport c)) (default [] (ap_data ap))) <$> l.

Lemma replay_run (c : sclient) l w : Forall packet_ok l ->
  mfor l (fun ap =>
    match ap_data ap with
    | None => fail NullDeref
    | Some d => p ← lift (rd d 0 (Z.to_nat (ap_len ap))); send_unicast (ip c) p (cport c)
    end) w = Ok (tt, set_ssent (ssent w ++ replayed c l) w).
Proof.
  intros Hl. revert w. induction Hl as [|ap l (d & Hd & Hlen & _) _ IH]; intros w; simpl.
  - rewrite app_nil_r. by destruct w.
  - unfold lift, mbind, M_bind in *. rewrite Hd, Hlen, Nat2Z.id, rd_all.
    unfold send_unicast, modify. rewrite IH. unfold replayed.
    simpl. by rewrite <- app_assoc.
Qed.

Lemma find_in_first (s : stream Dec Enc) rest j cid : get_client s cid = Some j ->
  find_client_in (s :: rest) cid = Some (0%nat, j).
Proof.
  intros Hj. unfold find_client_in. simpl. rewrite decide_True by (by rewrite Hj). simpl.
  unfold mbind, option_bind. simpl. by rewrite Hj.
Qed.

(** Replaying the buffer to a client of the first stream. *)
Lemma replay_first (c : sclient) w s rest j : streams w = s :: rest -> get_client s (id c) = Some j ->
  Forall packet_ok (packet_buffer s) ->
  clientmgr_send_audio_buffer_to_client c w =
    Ok (tt, set_ssent (ssent w ++ replayed c (packet_buffer s)) w).
Proof.
  intros Hs Hj Hl. unfold clientmgr_send_audio_buffer_to_client, stream_find, find_client, gets.
  unfold mbind, M_bind, mret, M_ret. rewrite Hs, (find_in_first s rest j) by done. simpl fmap.
  cbn [fmap option_fmap option_map fst]. rewrite (the_stream_run w 0 s) by by rewrite Hs.
  by apply (replay_run c (packet_buffer s) w).
Qed.

(** The stream while it has no client and its pipe rests. *)
Record dormant (s : stream Dec Enc) : Prop := {
  do_clients : clients s = [];
  do_init : s_initialized s = true;
  do_state : state (inputpipe s) = IDLE;
  do_open : ip_initialized (inputpipe s) = true;
  do_resume : resume_task (inputpipe s) = None;
}.

Definition woken (s : stream Dec Enc) (c : sclient) : stream Dec Enc :=
  on_pipe (fun x => with_resume None (with_state PLAYING x)) (on_pipe (with_resume None) (with_clients [c] s)).

Lemma client_add_first w s rest c : streams w = s :: rest -> dormant s -> fd (inputpipe s) ∉ efd w ->
  stream_client_add 0 c w =
    Ok (tt, set_streams (woken s c :: rest) (set_efd ({[fd (inputpipe s)]} ∪ efd w) w)).
Proof.
  intros Hs [Hc _ Hst Ho Hr] Hfd. destruct w as [ss]. simpl in *. subst ss.
  destruct s as [[] o cl pb n nm ini]. simpl in *. subst.
  unfold stream_client_add, upd_stream, upd_pipe, modify, mbind, M_bind. simpl.
  unfold inputpipe_resume_read, the_pipe, mbind, M_bind. simpl.
  unfold add_fd. simpl. by rewrite decide_False by done.
Qed.

Lemma get_client_only (s : stream Dec Enc) c : clients s = [c] -> get_client s (id c) = Some 0%nat.
Proof. intros Hc. unfold get_client. rewrite Hc. simpl. by rewrite decide_True. Qed.

(** The record of a client that just registered. *)
Definition registered (n : bytes) (c : sclient) (t : addr) (ctime : timespec) : sclient :=
  mkSclient (ip c) (cport c) (id c) true ctime 2 (latency c) (volume_percent c) false (Some t)
    (mkIdent n (made_up_mac (id c))).

Definition fresh_client (n : bytes) (c : sclient) (t : addr) : sclient :=
  mkSclient (ip c) (cport c) (id c) false zero_time 0 0 0 false (Some t) (mkIdent n (zeros 6)).

Lemma upd_only (s : stream Dec Enc) rest c f w : streams w = s :: rest -> clients s = [c] ->
  upd_client 0 0 f w = Ok (tt, set_streams (with_clients [f c] s :: rest) w).
Proof. intros Hs Hc. unfold upd_client, upd_stream, modify. rewrite Hs. simpl. by rewrite Hc. Qed.

Lemma the_only (s : stream Dec Enc) rest c w : streams w = s :: rest -> clients s = [c] ->
  the_client 0 0 w = Ok (c, w).
Proof.
  intros Hs Hc. unfold the_client, mbind, M_bind. rewrite (the_stream_run w 0 s) by by rewrite Hs.
  by rewrite Hc.
Qed.

(** Registering the first client of a dormant stream. *)
Lemma register_run w s rest c t sch :
  let n := hostnames (control_ctx w) (ip c) in
  streams w = s :: rest -> dormant s -> fd (inputpipe s) ∉ efd w -> Forall packet_ok (packet_buffer s) ->
  post_task 5 0 (DeleteClient (id c)) w = Ok (t, set_stasks sch w) ->
  register_client c w = Ok ((0%nat, 0%nat),
    set_streams (with_clients [with_mac (made_up_mac (id c)) (with_protoversion 2 (with_volume (volume_percent c) (fresh_client n c t)))]
                   (woken s (fresh_client n c t)) :: rest)
      (set_ssent (ssent w ++ replayed c (packet_buffer s))
        (set_efd ({[fd (inputpipe s)]} ∪ efd w) (set_stasks sch w)))).
Proof.
  intros n Hs Hd Hfd Hbuf Ep. unfold register_client, new_client, gets, mbind, M_bind. fold n. rewrite Ep.
  unfold mret, M_ret. set (w1 := set_stasks sch w). assert (streams w1 = s :: rest) as Hs1 by done.
  rewrite (the_stream_run w1 0 s) by by rewrite Hs1. rewrite (do_init s Hd). unfold skip. cbv beta iota.
  fold (fresh_client n c t). rewrite (client_add_first w1 s rest) by done.
  set (w2 := set_streams _ _). set (s2 := woken s _) in *.
  rewrite (the_stream_run w2 0 s2) by done.
  change (id c) with (id (fresh_client n c t)) at 1. rewrite (get_client_only s2 (fresh_client n c t)) by done.
  rewrite (upd_only s2 rest (fresh_client n c t)) by done.
  set (c1 := with_volume _ (fresh_client n c t)). set (w3 := set_streams _ w2).
  rewrite (the_only (with_clients [c1] s2) rest c1) by done.
  rewrite (replay_first c1 w3 (with_clients [c1] s2) rest 0); [|done|by apply get_client_only|done].
  set (w4 := set_ssent _ w3). rewrite (upd_only (with_clients [c1] s2) rest c1) by done. done.
Qed.

Lemma refresh_new_total w s rest c :
  server_ok w -> streams w = s :: rest -> find_client_in (streams w) (id c) = None -> dormant s ->
  fd (inputpipe s) ∉ efd w -> Forall packet_ok (packet_buffer s) ->
  exists w' s' t, clientmgr_refresh_client c w = Ok (true, w') /\ streams w' = s' :: rest /\
    clients s' = [registered (hostnames (control_ctx w) (ip c)) c t (ssysclk w (ssysticks w))] /\
    state (inputpipe s') = PLAYING /\ fd (inputpipe s) ∈ efd w' /\
    find_client_in (streams w') (id c) = Some (0%nat, 0%nat) /\
    ssent w' = ssent w ++ replayed c (packet_buffer s) /\
    waits w' t (DeleteClient (id c)) /\ server_ok w'.
Proof.
  intros Hw Hs Hnone Hd Hfd Hbuf. set (w0 := ssystick w).
  destruct (post_server w0 5 0 (DeleteClient (id c))) as (t & sch & Ep & Hok & Hwait & _);
    [exact Hw|lia|lia|].
  pose proof (register_run w0 s rest c t sch Hs Hd Hfd Hbuf Ep) as Er.
  unfold clientmgr_refresh_client, find_client, gets, sobtainsystime, mbind, M_bind, mret, M_ret.
  rewrite Hnone. fold w0. rewrite Er. set (c1 := with_mac _ _). set (s1 := with_clients [c1] _).
  set (w1 := set_streams (s1 :: rest) _). rewrite (upd_only s1 rest c1) by done.
  set (c2 := with_seen _ _ c1). set (w2 := set_streams _ w1).
  rewrite (the_only (with_clients [c2] s1) rest c2) by done.
  assert (is_roughly (volume_percent c) (volume_percent c2) = true) as ->.
  { unfold is_roughly. change (volume_percent c2) with (volume_percent c). by rewrite Z.eqb_refl. }
  exists w2, (with_clients [c2] s1), t. split; [done|]. split; [done|]. split; [done|].
  split; [done|]. split; [simpl; set_solver|]. split.
  { apply find_in_first. change (id c) with (id c2). by apply get_client_only. }
  split; [done|]. split; [exact Hwait|exact Hok].
Qed.

(** A client that says hello and is not known yet is registered.  If it is
    the first one of the stream, the pipe is watched and read again; all packets
    kept for repetition are sent to it in order; its record has the address, port
    and volume of the hello; and it is going to be purged in five seconds, unless
    it says hello again. *)
Theorem refresh_new_client w s rest c :
  server_ok w -> streams w = s :: rest -> find_client_in (streams w) (id c) = None -> dormant s ->
  fd (inputpipe s) ∉ efd w -> Forall packet_ok (packet_buffer s) ->
  exists w' s' t, clientmgr_refresh_client c w = Ok (true, w') /\ streams w' = s' :: rest /\
    clients s' = [registered (hostnames (control_ctx w) (ip c)) c t (ssysclk w (ssysticks w))] /\
    state (inputpipe s') = PLAYING /\ fd (inputpipe s) ∈ efd w' /\
    find_client_in (streams w') (id c) = Some (0%nat, 0%nat) /\
    ssent w' = ssent w ++ replayed c (packet_buffer s) /\
    waits w' t (DeleteClient (id c)) /\ server_ok w'.
Proof. apply refresh_new_total. Qed.
(** ** The segments of a client's datagram *)

(** What the loop does with one of them; the result is its length. *)
Definition cop_segment (packet : bytes) (peer port off : Z) : M (server Q Dec Enc) Z :=
  type ← lift (rd8 packet off);
  if type =? HELLO then handle_hello_segment packet off peer port
  else if type =? REQUEST then handle_request_segment packet off peer port
  else lift (rd8 packet (off + 2)).

(** The length it is taken to have: that of an unknown segment is read from its
    third byte. *)
Definition cseg_len (packet : bytes) (off : Z) : res Z :=
  type ← rd8 packet off;
  if (type =? HELLO) || (type =? REQUEST) then rd8 packet (off + 1) else rd8 packet (off + 2).

(** The segments from an offset on, none of them empty, start at these offsets. *)
Inductive layout (packet : bytes) (packet_len : Z) : Z -> list Z -> Prop :=
  | layout_end off : packet_len <= off -> layout packet packet_len off []
  | layout_more off l offs : off < packet_len -> cseg_len packet off = Ok l -> 0 < l ->
      layout packet packet_len (off + l) offs -> layout packet packet_len off (off :: offs).

(** There is an empty one among them. *)
Inductive endless (packet : bytes) (packet_len : Z) : Z -> Prop :=
  | endless_here off : off < packet_len -> cseg_len packet off = Ok 0 -> endless packet packet_len off
  | endless_later off l : off < packet_len -> cseg_len packet off = Ok l ->
      endless packet packet_len (off + l) -> endless packet packet_len off.

Lemma cop_step fuel p len off peer port w : off < len ->
  cop_loop (S fuel) p len off peer port w =
    (l ← cop_segment p peer port off; cop_loop fuel p len (off + l) peer port) w.
Proof.
  intros Hoff. cbn [cop_loop]. rewrite (proj2 (Z.ltb_lt off len)) by done.
  unfold cop_segment, mbind, M_bind, lift. by destruct (rd8 p off).
Qed.

Lemma cop_segment_len p peer port off w l w' : cop_segment p peer port off w = Ok (l, w') -> cseg_len p off = Ok l.
Proof.
  unfold cop_segment, cseg_len. intros (ty & w1 & [-> ->]%lift_inv & E)%M_bind_inv. cbn [mbind res_bind].
  destruct (ty =? HELLO).
  - unfold handle_hello_segment, parse_hello in E. apply M_bind_inv in E as ([[[i t] v] l'] & w1 & [El ->]%lift_inv & E).
    apply M_bind_inv in E as (b & w2 & _ & [= <- _]). apply res_bind_inv in El as (i' & _ & El).
    apply res_bind_inv in El as (t' & _ & El). apply res_bind_inv in El as (v' & _ & El).
    by apply res_bind_inv in El as (n & -> & [= _ _ _ ->]).
  - destruct (ty =? REQUEST); [|by apply lift_inv in E as [-> _]].
    unfold handle_request_segment, parse_request in E. apply M_bind_inv in E as (h & w1 & _ & E).
    apply M_bind_inv in E as (r & w2 & _ & E). apply M_bind_inv in E as ([n l'] & w3 & [El ->]%lift_inv & E).
    apply M_bind_inv in E as ([] & w4 & _ & [= <- _]). apply res_bind_inv in El as (n' & _ & El).
    by apply res_bind_inv in El as (l2 & -> & [= _ ->]).
Qed.

(** C35: the server handles the segments of a client's datagram one after the
    other, each once, and then returns, with a fuel of one more than the length of
    the datagram or any larger one, when no segment is taken to be empty.  When one
    is, of whatever type, the server never gets behind it: no fuel makes the handler
    return. *)
Theorem datagram_loop p len peer port w :
  (forall offs fuel, layout p len HDR_SIZE offs -> (Z.to_nat len < fuel)%nat ->
     intercom_handle_client_operation fuel p len peer port w =
       (mfor offs (fun off => cop_segment p peer port off ;; skip) ;; mret true) w) /\
  (forall fuel r, endless p len HDR_SIZE -> intercom_handle_client_operation fuel p len peer port w <> Ok r).
Proof.
  split.
  - intros offs fuel Hl Hf. unfold intercom_handle_client_operation.
    enough (cop_loop fuel p len HDR_SIZE peer port w = mfor offs (fun off => cop_segment p peer port off ;; skip) w) as E
      by (unfold mbind, M_bind; by rewrite E).
    assert (0 <= HDR_SIZE) as H0 by done. revert fuel w Hf H0.
    assert (forall fuel w, (0 < fuel)%nat -> len - HDR_SIZE < Z.of_nat fuel -> 0 <= HDR_SIZE ->
      cop_loop fuel p len HDR_SIZE peer port w = mfor offs (fun off => cop_segment p peer port off ;; skip) w) as H.
    2: { intros fuel w Hf H0. apply H; [lia| |done]. unfold HDR_SIZE. lia. }
    induction Hl as [off Hend|off l offs Hlt Hlen Hpos Hl IH]; intros [|fuel] w Hf Hfuel H0; [lia| |lia|].
    + cbn [cop_loop]. by rewrite (proj2 (Z.ltb_ge off len)).
    + rewrite cop_step by done. cbn [mfor]. unfold mbind, M_bind.
      destruct (cop_segment p peer port off w) as [[l' w']|] eqn:E; [|done].
      apply cop_segment_len in E. assert (l' = l) as -> by congruence.
      unfold skip, mret, M_ret. apply IH; lia.
  - intros fuel [r w0] He. unfold intercom_handle_client_operation. intros (u & w' & E & _)%M_bind_inv. revert w u w' E.
    assert (forall fuel w u w', cop_loop fuel p len HDR_SIZE peer port w <> Ok (u, w')) as H; [|by intros w u w' E%H].
    clear fuel. induction He as [off Hlt Hlen|off l Hlt Hlen He IH]; intros fuel; induction fuel as [|fuel IHf];
      intros w u w'; [done| |done|]; rewrite cop_step by done; intros (l' & w1 & E1 & E2)%M_bind_inv;
      apply cop_segment_len in E1.
    + assert (l' = 0) as -> by congruence. rewrite Z.add_0_r in E2. by eapply IHf.
    + assert (l' = l) as -> by congruence. by eapply IH.
Qed.
End server.

(** ** A concrete server *)

Definition no_ident : sident := mkIdent [] (zeros 6).
Definition no_opts : stream_opts := mkOpts 2 1 [].
Definition no_control : control := mkControl [] [] (fun _ => []).

Definition demo_pipe (st : inputpipe_state) : inputpipe_ctx :=
  mkPipe [] demo_chunk st 0 2 1000 2 2 7 8 true None None.

Definition demo_sclient : sclient := mkSclient 9 5000 3 true zero_time 2 100 55 false (Some 1%positive) no_ident.

Definition demo_stored : audio_packet :=
  mkAp (Some (concat (audio_fields demo_chunk 41 500 [1; 2; 3; 4; 5; 6; 7; 8]))) 35 41.

Definition demo_stream (st : inputpipe_state) : stream unit unit :=
  mkStream (demo_pipe st) (mkOpus None (Some tt) 96000 1000) [demo_sclient] [demo_stored] 42 [110; 49] true no_opts.

(** One stream that is playing, with one client, whose purge is due at 12 s; the
    system clock shows [now]. *)
Definition demo_server_at (now : Z) : server forest unit unit :=
  mkServer [demo_stream PLAYING]
    (mkSched (Cons 1 (mkTime 12 0) Nil Nil) {[ 1%positive := mkTrec (mkTime 12 0) false (DeleteClient 3) ]}
       (Some (mkTime 12 0)) (fun _ => mkTime 7 0) 0)
    [] 1500 500 {[3; 4; 5; 7]} [] (fun _ => mkTime now 0) 0 (fun _ => ReadBytes []) 0 (fun _ _ => 8) 0 no_control.
Definition demo_server := demo_server_at 990.

(** A stream does not survive a pause in which its last client leaves: the
    end of the pipe's data makes the pipe idle without taking it out of the epoll
    set, an idle pipe is not taken out when the last client is purged, and the
    next client that registers makes the server add the descriptor again, which
    fails and ends the process. *)
Theorem eof_then_reconnect_exits :
  (srv_pipe_event 0 ;; clientmgr_delete_client 3 ;;
   clientmgr_refresh_client (mkSclient 9 5001 3 false zero_time 0 100 55 false None no_ident)) (demo_server_at 1001)
  = Fault ExitError.
Proof. vm_compute. reflexivity. Qed.

Lemma demo_server_ok : server_ok demo_server.
Proof.
  split; [split|].
  - split; [repeat constructor; set_solver|]. split; [|done]. split; [constructor|done].
  - intros p d. simpl. rewrite elem_of_cons, elem_of_nil. split.
    + intros [[= -> ->]|[]]. by eexists.
    + intros (t & Ht & <- & _). rewrite lookup_singleton_Some in Ht. naive_solver.
  - intros n. split; [simpl; lia|]. unfold norm_ns, BILLION. simpl. lia.
Qed.

Lemma demo_stored_ok : packet_ok demo_stored.
Proof. eexists. split; [done|]. split; [done|]. vm_compute. lia. Qed.

Lemma drop_old_packets_spec_witness :
  drop_old_packets (mkTime 1000 0) [demo_stored] = Ok [] /\
  timespec_cmp (mkTime 1000 0) (packet_time demo_stored) <= 0.
Proof.
  destruct (drop_old_packets_spec (mkTime 1000 0) [demo_stored]) as (old & ap & rest & Eb & E & _).
  - discriminate.
  - repeat constructor; exact demo_stored_ok.
  - split; [|by vm_compute]. rewrite E. destruct old as [|? [|]]; [|done|done]. by injection Eb as _ <-.
Defined.

Lemma send_audio_spec_witness :
  exists p w' a, intercom_send_audio 0 demo_server = Ok (tt, w') /\
    ssent w' = [mkDgram 9 5000 p] /\ posted_at demo_server a (RemoveOld 0) 500 w'.
Proof.
  destruct (send_audio_spec demo_server 0 (demo_stream PLAYING)) as (p & w' & a & E & _ & _ & _ & Hs & _ & Hw).
  - exact demo_server_ok.
  - reflexivity.
  - exact demo_chunk_ok.
  - simpl. unfold NONCE_MAX. lia.
  - simpl. lia.
  - simpl. lia.
  - exists p, w', a. split; [exact E|]. split; [exact Hs|exact Hw].
Defined.

(** The request of a client 3 for packet 41. *)
Definition demo_cop : bytes := [1; 0; 0; 3; 0; 0; 0; 9; 0; 6; 0; 0; 0; 41; 0; 0].

Lemma request_served_witness :
  exists d, intercom_handle_client_operation 2 demo_cop 14 9 5000 demo_server =
    Ok (true, set_ssent [mkDgram 9 5000 d] demo_server) /\ length d = 35%nat.
Proof.
  destruct (request_served demo_server demo_cop (mkHdr 1 0 768 150994944) 41 9 5000) as (H & _ & _).
  - vm_compute. reflexivity.
  - vm_compute. reflexivity.
  - vm_compute. reflexivity.
  - eexists. split; [eapply (H 0%nat 0%nat)|].
    + vm_compute. reflexivity.
    + reflexivity.
    + vm_compute. reflexivity.
    + exact demo_stored_ok.
    + reflexivity.
    + vm_compute. reflexivity.
Defined.

(** A request and an unknown segment; then one whose third byte is 0, at which
    the server stays. *)
Definition demo_segments (third : Z) : bytes := [1; 0; 0; 3; 0; 0; 0; 9; 0; 6; 0; 0; 0; 41; 7; 0; third; 0; 0].

Lemma datagram_loop_witness :
  (exists w', intercom_handle_client_operation 20 (demo_segments 3) 17 9 5000 demo_server = Ok (true, w') /\
     length (ssent w') = 1%nat) /\
  (forall fuel r, intercom_handle_client_operation fuel (demo_segments 0) 17 9 5000 demo_server <> Ok r).
Proof.
  split.
  - destruct (datagram_loop (demo_segments 3) 17 9 5000 demo_server) as [H _].
    rewrite (H [8; 14] 20%nat).
    + eexists. split; vm_compute; reflexivity.
    + apply (layout_more _ _ _ 6); [done|by vm_compute|done|]. apply (layout_more _ _ _ 3); [done|by vm_compute|done|].
      by apply layout_end.
    + lia.
  - intros fuel r. destruct (datagram_loop (demo_segments 0) 17 9 5000 demo_server) as [_ H]. apply H.
    apply (endless_later _ _ _ 6); [done|by vm_compute|]. apply endless_here; [done|by vm_compute].
Defined.

Lemma throttle_resume_witness :
  exists w1 w2, srv_pipe_event 0 demo_server = Ok (tt, w1) /\
    run_stask (ResumeRead 0) w1 = Ok (tt, w2) /\ 7 ∈ efd w2.
Proof.
  destruct (throttle_resume demo_server 0 (demo_stream PLAYING))
    as (w1 & w2 & t & sch & E & _ & _ & _ & E2 & Hw2).
  - exact demo_server_ok.
  - reflexivity.
  - reflexivity.
  - simpl. set_solver.
  - reflexivity.
  - discriminate.
  - simpl. lia.
  - split; [simpl; lia|]. unfold norm_ns, BILLION. simpl. lia.
  - simpl. lia.
  - unfold norm_ns, BILLION. simpl. lia.
  - vm_compute. reflexivity.
  - exists w1, w2. split; [exact E|]. split; [exact E2|]. rewrite Hw2. simpl. set_solver.
Defined.

Definition demo_dormant : stream unit unit :=
  mkStream (demo_pipe IDLE) (mkOpus None (Some tt) 96000 1000) [] [demo_stored] 42 [110; 49] true no_opts.
Definition demo_waiting : server forest unit unit :=
  mkServer [demo_dormant] (stasks demo_server) [] 1500 500 {[3; 4; 5]} [] (fun _ => mkTime 990 0) 0
    (fun _ => ReadBytes []) 0 (fun _ _ => 8) 0 no_control.

Lemma refresh_new_client_witness :
  exists w', clientmgr_refresh_client (mkSclient 9 5001 4 false zero_time 0 100 55 false None no_ident) demo_waiting =
    Ok (true, w') /\ 7 ∈ efd w' /\ length (ssent w') = 1%nat.
Proof.
  destruct (refresh_new_client demo_waiting demo_dormant [] (mkSclient 9 5001 4 false zero_time 0 100 55 false None no_ident))
    as (w' & s' & t & E & _ & _ & _ & Hfd & _ & Hs & _).
  - exact demo_server_ok.
  - reflexivity.
  - vm_compute. reflexivity.
  - by split.
  - simpl. set_solver.
  - repeat constructor. exact demo_stored_ok.
  - exists w'. split; [exact E|]. split; [exact Hfd|]. by rewrite Hs.
Defined.
