(* ===== verification/JsonRpc.v ===== *)
(** * jsonrpc.c: requests of the control connections

    json-c is not part of the program: its objects and functions are the class
    [JsonLib].  An object without a value is the JSON null, which json-c
    represents by a null pointer.  The reference counts follow its documentation:
    [json_object_object_get_ex] lends a reference, so that putting the object it
    was taken from also frees it. *)
From Stdlib Require Import Ascii String.
From S2P Require Import Prelude.
From S2P Require Import Bytes.
From S2P Require Import CString.

(** ** json-c *)

(** [enum json_type] *)
Inductive json_type :=
  | json_type_null | json_type_boolean | json_type_double | json_type_int | json_type_object
  | json_type_array | json_type_string.

#[export] Instance json_type_eq_dec : EqDecision json_type.
Proof. solve_decision. Defined.

Class JsonLib (J : Type) := {
  json_tokener_parse : bytes -> option J;
  json_object_object_get_ex : J -> bytes -> option J;
  json_object_get_type : J -> json_type;
  json_object_get_int : J -> Z;
  json_object_get_boolean : J -> bool;
  json_object_get_string : J -> bytes;
  (** the text without and with spaces *)
  json_object_to_json_string : bool -> J -> bytes;
  json_object_members : J -> list (bytes * J);
  json_object_new_object : J;
  json_object_new_array : J;
  json_object_new_int : Z -> J;
  json_object_new_boolean : bool -> J;
  json_object_new_string : bytes -> J;
  json_object_object_add : J -> bytes -> J -> J;
  json_object_array_add : J -> J -> J;
}.

(** ** Requests *)

Section jsonrpc.
Context {J : Type} `{!JsonLib J}.

(** jsonrpc.h:9-19 parameter: its type and the member of the union that was
    stored. *)
Inductive value :=
  | VNone                       (** nothing was stored *)
  | VBool (b : bool)
  | VDouble (d : J)
  | VInt (n : Z)
  | VJson (text : bytes)
  | VString (s : bytes).

(** jsonrpc.h:9-19 parameter *)
Record parameter := mkParam { p_name : bytes; p_value : value }.

(** jsonrpc.h:26-30 jsonrpc_request *)
Record jsonrpc_request := mkReq { r_id : Z; method : bytes; parameters : list parameter }.

(** Whether an object is not null. *)
Definition nonnull (j : J) : bool := negb (bool_decide (json_object_get_type j = json_type_null)).

(** jsonrpc.c:24-30 strcopy_from_json: the text without its first and its last
    character; for a text of one character the length to copy is -1. *)
Definition strcopy_from_json (j : J) : res bytes :=
  let s := json_object_to_json_string false j in
  if Z.of_nat (length s) <? 2 then Fault OutOfBounds
  else Ok (take (length s - 2) (drop 1 s)).

(** [json_object_put] of a lent reference after its owner was put. *)
Definition put_lent (j : option J) : res unit :=
  match j with Some j => if nonnull j then Fault UseAfterFree else Ok tt | None => Ok tt end.

(** jsonrpc.c:79-115 jsonrpc_parse_string: one parameter *)
Definition parse_parameter (kv : bytes * J) : parameter :=
  let '(key, val) := kv in
  mkParam key
    match json_object_get_type val with
    | json_type_null => VNone
    | json_type_boolean => VBool (json_object_get_boolean val)
    | json_type_double => VDouble val
    | json_type_int => VInt (json_object_get_int val)
    | json_type_object => VJson (json_object_to_json_string true val)
    | json_type_array => VNone
    | json_type_string => VString (cstr (json_object_get_string val))
    end.

(** jsonrpc.c:32-133 jsonrpc_parse_string: the request, if the line is one *)
Definition jsonrpc_parse_string (line : bytes) : res (option jsonrpc_request) :=
  if Z.of_nat (length line) =? 0 then Ok None
  else
    match json_tokener_parse line with
    | None => Ok None
    | Some jobj =>
        let jsonrpc := json_object_object_get_ex jobj (str "jsonrpc") in
        let meth := match jsonrpc with
                    | Some _ => json_object_object_get_ex jobj (str "method")
                    | None => None
                    end in
        match jsonrpc, meth with
        | Some v, Some m =>
            if negb (strncmp_eq 5 (34 :: str "2.0" ++ [34]) (json_object_to_json_string false v)) then Ok None
            else
              name ← strcopy_from_json m;
              let id := match json_object_object_get_ex jobj (str "id") with
                        | Some i => json_object_get_int i
                        | None => 0
                        end in
              match json_object_object_get_ex jobj (str "params") with
              | None => Ok (Some (mkReq id name []))
              | Some params =>
                  if decide (json_object_get_type params = json_type_object)
                  then Ok (Some (mkReq id name (parse_parameter <$> json_object_members params)))
                  else put_lent (Some params) ;; Ok None
              end
        | _, _ => put_lent jsonrpc ;; put_lent meth ;; Ok None
        end
    end.
End jsonrpc.
#[global] Arguments parameter : clear implicits.
#[global] Arguments value : clear implicits.
#[global] Arguments jsonrpc_request : clear implicits.
