(* ===== verification/Memory.v ===== *)
(** * alloc.h, and what the requests of the control connections own

    The heap is the set of allocated blocks with their contents; where [malloc]
    puts a block, and whether there is room for one, is up to the C library.  The
    functions of alloc.h end the program when there is no room.  On top of them
    is the memory of a request: what jsonrpc.c allocates for it and what
    [jsonrpc_free_members] frees. *)
From Stdlib Require Import Ascii String.
From S2P Require Import Prelude.
From S2P Require Import Vector.
From S2P Require Import Bytes.
From S2P Require Import CString.
From S2P Require Import JsonRpc.

(** ** The heap *)

(** [place n U]: where the [n]-th block goes when [U] is in use; [junk]: what is in
    it. *)
Record heap := mkHeap {
  blocks : gmap Z bytes;
  place : nat -> gset Z -> option Z;
  junk : nat -> Z -> bytes;
  allocations : nat;
}.

Definition set_blocks b (h : heap) := mkHeap b (place h) (junk h) (allocations h).
Definition next_allocation (h : heap) := mkHeap (blocks h) (place h) (junk h) (S (allocations h)).

(** A block at a place that is not in use, which is not the null pointer. *)
Definition places_fresh (h : heap) : Prop := forall n U a, place h n U = Some a -> (a ∉ U) /\ a <> 0.

(** [malloc], [posix_memalign]: a block with the given contents, if there is room. *)
Definition new_block (contents : heap -> bytes) : M heap (option Z) := fun h =>
  let h1 := next_allocation h in
  match place h (allocations h) (dom (blocks h)) with
  | None => Ok (None, h1)
  | Some a => Ok (Some a, set_blocks (<[a := contents h]> (blocks h)) h1)
  end.

(** [free] *)
Definition free (p : option Z) : M heap unit := fun h =>
  match p with
  | None => Ok (tt, h)
  | Some a => match blocks h !! a with
              | None => Fault UseAfterFree
              | Some _ => Ok (tt, set_blocks (delete a (blocks h)) h)
              end
  end.

(** [realloc] of a block, of a null pointer: the old block is free for the new
    one; what exceeds it holds anything. *)
Definition new_size (p : option Z) (size : Z) : M heap (option Z) := fun h =>
  match p with
  | None => new_block (fun h => junk h (allocations h) size) h
  | Some a =>
      match blocks h !! a with
      | None => Fault UseAfterFree
      | Some b =>
          let h1 := next_allocation h in
          match place h (allocations h) (dom (delete a (blocks h))) with
          | None => Ok (None, h1)
          | Some a' => Ok (Some a', set_blocks (<[a' := take (Z.to_nat size) b ++
                          drop (length b) (junk h (allocations h) size)]> (delete a (blocks h))) h1)
          end
      end
  end.

(** ** alloc.h *)

(** The common end of the functions: the program ends without a block. *)
Definition or_exit (m : M heap (option Z)) : M heap Z :=
  r ← m; match r with Some a => mret a | None => fail ExitError end.

(** alloc.h:41-47 snap_alloc *)
Definition snap_alloc (size : Z) : M heap Z := or_exit (new_block (fun h => junk h (allocations h) size)).

(** alloc.h:54-61 snap_alloc_aligned: the alignment is up to [place]. *)
Definition snap_alloc_aligned (size align : Z) : M heap Z := snap_alloc size.

(** alloc.h:68-74 snap_alloc0_array: [calloc] has no block for a size that
    overflows. *)
Definition snap_alloc0_array (members size : Z) : M heap Z :=
  if members * size <? 2 ^ 64 then or_exit (new_block (fun _ => zeros (members * size))) else fail ExitError.

(** alloc.h:81-81 snap_alloc0 *)
Definition snap_alloc0 (size : Z) : M heap Z := snap_alloc0_array 1 size.

(** alloc.h:88-95 snap_realloc *)
Definition snap_realloc_block (p : option Z) (size : Z) : M heap Z := or_exit (new_size p size).

(** alloc.h:98-98 snap_new *)
Definition snap_new (sizeof : Z) : M heap Z := snap_alloc sizeof.
(** alloc.h:102-102 snap_new_aligned *)
Definition snap_new_aligned (sizeof align : Z) : M heap Z := snap_alloc_aligned sizeof align.
(** alloc.h:105-105 snap_new0 *)
Definition snap_new0 (sizeof : Z) : M heap Z := snap_alloc0 sizeof.
(** alloc.h:109-109 snap_new_array: the product may wrap around. *)
Definition snap_new_array (members sizeof : Z) : M heap Z := snap_alloc (u64 (members * sizeof)).
(** alloc.h:113-113 snap_new0_array *)
Definition snap_new0_array (members sizeof : Z) : M heap Z := snap_alloc0_array members sizeof.

(** alloc.h:116-125 snap_strdup: [s] is the text the pointer is to. *)
Definition snap_strdup (s : option bytes) : M heap (option Z) :=
  match s with
  | None => mret None
  | Some s => a ← or_exit (new_block (fun _ => cstr s ++ [0])); mret (Some a)
  end.

(** alloc.h:128-137 snap_strndup *)
Definition snap_strndup (s : option bytes) (n : Z) : M heap (option Z) :=
  match s with
  | None => mret None
  | Some s => a ← or_exit (new_block (fun _ => take (Z.to_nat n) (cstr s) ++ [0])); mret (Some a)
  end.

(** ** Requests *)

(** A parameter and a request as they are in memory: the text of a string or of
    an object is a block of its own. *)
Record mparam := mkMparam { mp_name : option Z; mp_type : json_type; mp_text : option Z }.
Record mrequest := mkMreq { m_method : option Z; m_params : vector mparam; m_data : option Z }.

Definition SIZEOF_PARAMETER : Z := 24.

Section requests.
Context {J : Type} `{!JsonLib J}.

(** jsonrpc.c:24-30 strcopy_from_json: the block for the method *)
Definition store_method (j : J) : M heap Z :=
  let len := Z.of_nat (length (json_object_to_json_string false j)) in
  if len <? 2 then fail OutOfBounds
  else or_exit (new_block (fun _ => take (Z.to_nat (len - 2)) (drop 1 (json_object_to_json_string false j)) ++ [0])).

(** jsonrpc.c:77-112 jsonrpc_parse_string: the blocks of a parameter *)
Definition store_parameter (kv : bytes * J) : M heap mparam :=
  let '(key, val) := kv in
  let type := json_object_get_type val in
  name ← snap_strdup (Some key);
  text ← match type with
         | json_type_object => snap_strdup (Some (json_object_to_json_string true val))
         | json_type_string => snap_strdup (Some (json_object_get_string val))
         | _ => mret None
         end;
  mret (mkMparam name type text).

(** vector.c:48-64 _snap_vector_resize: the block behind the vector moves when it
    grows. *)
Definition add_parameter (r : mrequest) (p : mparam) : M heap mrequest :=
  v ← lift (VECTOR_ADD (m_params r) p SIZEOF_PARAMETER);
  d ← (if allocated (desc v) =? allocated (desc (m_params r)) then mret (m_data r)
       else a ← snap_realloc_block (m_data r) (allocated (desc v) * SIZEOF_PARAMETER); mret (Some a));
  mret (mkMreq (m_method r) v d).

(** jsonrpc.c:77-114 jsonrpc_parse_string: the loop over the parameters *)
Fixpoint store_parameters (kvs : list (bytes * J)) (r : mrequest) : M heap mrequest :=
  match kvs with
  | [] => mret r
  | kv :: kvs => p ← store_parameter kv; r ← add_parameter r p; store_parameters kvs r
  end.

(** jsonrpc.c:64-114 jsonrpc_parse_string: what is allocated for a request *)
Definition store_request (meth : J) (kvs : list (bytes * J)) : M heap mrequest :=
  m ← store_method meth; store_parameters kvs (mkMreq (Some m) VECTOR_INIT None).
End requests.

(** jsonrpc.c:14-18 jsonrpc_free_members: one parameter *)
Definition free_parameter (p : mparam) : M heap unit :=
  free (mp_name p) ;;
  (if decide (mp_type p = json_type_string) then free (mp_text p) else skip) ;;
  (if decide (mp_type p = json_type_object) then free (mp_text p) else skip).

(** jsonrpc.c:8-22 jsonrpc_free_members: the loop runs from the last parameter
    down to that with the index 1. *)
Definition jsonrpc_free_members (r : mrequest) : M heap unit :=
  free (m_method r) ;;
  mfor (reverse (seqZ 1 (VECTOR_LEN (m_params r) - 1)))
    (fun i => p ← lift (VECTOR_INDEX (m_params r) i); free_parameter p) ;;
  free (m_data r).

(** stream.c:21-26 stream_free_members *)
Definition stream_free_members (fname name raw : option Z) : M heap Z :=
  free fname ;; free name ;; free raw ;; mret 0.

(** ** Who owns what *)

(** Since [h0] the blocks [l] were allocated; the others are as they were. *)
Record holds (h0 : heap) (l : list Z) (h : heap) : Prop := {
  ho_nodup : NoDup l;
  ho_new : forall a, a ∈ l -> is_Some (blocks h !! a) /\ blocks h0 !! a = None;
  ho_old : forall a, a ∉ l -> blocks h !! a = blocks h0 !! a;
  ho_fresh : places_fresh h;
}.

#[export] Instance holds_perm h0 : Proper ((≡ₚ) ==> (=) ==> iff) (holds h0).
Proof.
  assert (forall l l' h, l ≡ₚ l' -> holds h0 l h -> holds h0 l' h) as Hp.
  { intros l l' h P [H1 H2 H3 H4]. split; [by rewrite <- P| | |done].
    - intros a. rewrite <- P. apply H2.
    - intros a. rewrite <- P. apply H3. }
  intros l l' P h h' <-. split; apply Hp; [done|by symmetry].
Qed.

Lemma holds_start h : places_fresh h -> holds h [] h.
Proof. intros Hh. split; [constructor|by intros a ?%not_elem_of_nil|done|done]. Qed.

Lemma new_block_holds c h0 l h p h' : holds h0 l h -> new_block c h = Ok (p, h') -> holds h0 (option_list p ++ l) h'.
Proof.
  intros [H1 H2 H3 H4]. unfold new_block. destruct (place h _ _) as [a|] eqn:E; intros [= <- <-]; simpl; [|done].
  apply H4 in E as [Ha _]. rewrite elem_of_dom, <- eq_None_not_Some in Ha.
  assert (a ∉ l) as Hl by (intros Hin; destruct (H2 a Hin) as [[? ?] _]; congruence). split; simpl.
  - by constructor.
  - intros b [->|Hb]%elem_of_cons; [rewrite lookup_insert_eq; split; [done|by rewrite <- H3]|].
    rewrite lookup_insert_ne by (by intros ->). by apply H2.
  - intros b [Hb Hl']%not_elem_of_cons. rewrite lookup_insert_ne by done. by apply H3.
  - done.
Qed.

Lemma free_holds h0 l h p : holds h0 (option_list p ++ l) h -> exists h', free p h = Ok (tt, h') /\ holds h0 l h'.
Proof.
  destruct p as [a|]; [|intros Hh; by exists h]. intros [H1 H2 H3 H4]. simpl in *.
  apply NoDup_cons in H1 as [Hl H1]. destruct (H2 a) as [[b Hb] Hn]; [apply list_elem_of_here|]. unfold free. rewrite Hb.
  eexists. split; [done|]. split; simpl; [done| | |done].
  - intros c Hc. rewrite lookup_delete_ne by (by intros ->). by apply H2, list_elem_of_further.
  - intros c Hc. destruct (decide (a = c)) as [<-|Hne]; [by rewrite lookup_delete_eq|].
    rewrite lookup_delete_ne by done. apply H3. by apply not_elem_of_cons.
Qed.

(** A block that is reallocated is freed, and another one allocated. *)
Lemma new_size_holds h0 l h p size q h' : holds h0 (option_list p ++ l) h -> new_size p size h = Ok (q, h') ->
  q = None \/ holds h0 (option_list q ++ l) h'.
Proof.
  destruct p as [a|]; [|intros Hh E; right; by eapply new_block_holds]. intros Hh. pose proof Hh as [_ H2 _ _].
  destruct (H2 a) as [[b Hb] _]; [apply list_elem_of_here|].
  destruct (free_holds h0 l h (Some a) Hh) as (h1 & E1 & Hh1). unfold free in E1. rewrite Hb in E1. injection E1 as <-.
  unfold new_size. rewrite Hb. intros E. destruct q as [a'|]; [right|by left].
  pose proof (new_block_holds (fun _ => take (Z.to_nat size) b ++ drop (length b) (junk h (allocations h) size))
    h0 l (set_blocks (delete a (blocks h)) h) (Some a') h' Hh1) as Hnew.
  apply Hnew. unfold new_block. simpl. destruct (place h _ _) as [a2|]; [|done]. exact E.
Qed.

Lemma or_exit_inv m h a h' : or_exit m h = Ok (a, h') -> m h = Ok (Some a, h').
Proof. intros (r & h1 & E1 & E2)%M_bind_inv. destruct r; [|done]. by injection E2 as -> <-. Qed.

Lemma strdup_holds h0 l h s p h' : holds h0 l h -> snap_strdup (Some s) h = Ok (p, h') ->
  is_Some p /\ holds h0 (option_list p ++ l) h'.
Proof.
  intros Hh (a & h1 & E1 & E2)%M_bind_inv. injection E2 as <- <-. apply or_exit_inv in E1.
  split; [done|]. by eapply (new_block_holds _ _ _ _ (Some a)).
Qed.

(** What a parameter owns, and a request with its parameters. *)
Definition parameter_blocks (p : mparam) : list Z := option_list (mp_name p) ++ option_list (mp_text p).
Definition request_blocks (r : mrequest) (ps : list mparam) : list Z :=
  option_list (m_method r) ++ option_list (m_data r) ++ concat (parameter_blocks <$> ps).

(** Only strings and objects have a text. *)
Definition has_text (t : json_type) : bool := bool_decide (t = json_type_string \/ t = json_type_object).
Definition typed (p : mparam) : Prop := is_Some (mp_name p) /\ (is_Some (mp_text p) <-> has_text (mp_type p) = true).

Lemma free_parameter_holds h0 l h p : typed p -> holds h0 (parameter_blocks p ++ l) h ->
  exists h', free_parameter p h = Ok (tt, h') /\ holds h0 l h'.
Proof.
  intros [_ Ht] Hh. unfold parameter_blocks in Hh. rewrite <- app_assoc in Hh.
  destruct (free_holds _ _ _ _ Hh) as (h1 & E1 & Hh1). unfold free_parameter. rewrite (M_bind_Ok _ _ _ _ _ E1).
  unfold has_text in Ht. rewrite bool_decide_eq_true in Ht.
  destruct (decide (mp_type p = json_type_string)) as [E|Hs].
  - destruct (free_holds _ _ _ _ Hh1) as (h2 & E2 & Hh2). rewrite (M_bind_Ok _ _ _ _ _ E2), decide_False by congruence.
    by exists h2.
  - rewrite (M_bind_Ok skip _ h1 tt h1) by done.
    destruct (decide (mp_type p = json_type_object)) as [E|Ho]; [by apply free_holds|].
    exists h1. split; [done|]. destruct (mp_text p) eqn:Em; [|done]. exfalso.
    destruct (proj1 Ht ltac:(done)); congruence.
Qed.

Section leak.
Context {J : Type} `{!JsonLib J}.

Lemma store_parameter_holds h0 l h kv p h' : holds h0 l h -> store_parameter (J := J) kv h = Ok (p, h') ->
  typed p /\ mp_type p = json_object_get_type kv.2 /\ holds h0 (parameter_blocks p ++ l) h'.
Proof.
  intros Hh. destruct kv as [key val]. intros (name & h1 & E1 & E)%M_bind_inv.
  destruct (strdup_holds _ _ _ _ _ _ Hh E1) as [Hn Hh1]. apply M_bind_inv in E as (text & h2 & E2 & E).
  injection E as <- <-. unfold typed, parameter_blocks, has_text. simpl. rewrite bool_decide_eq_true.
  assert ((is_Some text <-> json_object_get_type val = json_type_string \/ json_object_get_type val = json_type_object) /\
    holds h0 (option_list text ++ option_list name ++ l) h2) as [Ht Hh2].
  { destruct (json_object_get_type val); try (injection E2 as <- <-; split; [|done]; split; [by intros [? ?]|by intros [?|?]]);
      destruct (strdup_holds _ _ _ _ _ _ Hh1 E2) as [Hs Hh2]; (split; [|exact Hh2]); split; auto. }
  split; [done|]. split; [done|]. eapply holds_perm; [|reflexivity|exact Hh2]. solve_Permutation.
Qed.

Lemma add_parameter_holds h0 h r ps p r' h' : vec_rep (m_params r) ps -> Z.of_nat (length ps) < 2 ^ 39 ->
  holds h0 (parameter_blocks p ++ request_blocks r ps) h -> add_parameter r p h = Ok (r', h') ->
  vec_rep (m_params r') (ps ++ [p]) /\ holds h0 (request_blocks r' (ps ++ [p])) h'.
Proof.
  intros Hv Hlen Hh (v & h1 & E1 & E)%M_bind_inv. apply lift_inv in E1 as [E1 ->].
  destruct (insert_refines (m_params r) ps p (length ps) SIZEOF_PARAMETER Hv) as (v' & Ev & Hv');
    [done|unfold room, SIZEOF_PARAMETER; lia|].
  unfold VECTOR_ADD in E1. rewrite (proj1 Hv), Ev in E1. injection E1 as ->.
  rewrite take_ge, drop_ge in Hv' by done. apply M_bind_inv in E as (d & h2 & E2 & E). injection E as <- <-.
  split; [done|]. unfold request_blocks in *. simpl. rewrite fmap_app, concat_app. simpl. rewrite app_nil_r.
  assert (holds h0 (option_list (m_data r) ++ parameter_blocks p ++ option_list (m_method r) ++
    concat (parameter_blocks <$> ps)) h) as Hh1.
  { eapply holds_perm; [|reflexivity|exact Hh]. solve_Permutation. }
  assert (holds h0 (option_list d ++ parameter_blocks p ++ option_list (m_method r) ++
    concat (parameter_blocks <$> ps)) h2) as Hh2.
  { destruct (_ =? _); [by injection E2 as <- <-|]. apply M_bind_inv in E2 as (a & h3 & E2 & E). injection E as <- <-.
    apply or_exit_inv in E2. by destruct (new_size_holds _ _ _ _ _ _ _ Hh1 E2). }
  eapply holds_perm; [|reflexivity|exact Hh2]. solve_Permutation.
Qed.

(** The parameters are stored with the types of the members. *)
Definition stored (kv : bytes * J) (p : mparam) : Prop := typed p /\ mp_type p = json_object_get_type kv.2.

Lemma store_parameters_holds h0 kvs ks r ps r' h h' : vec_rep (m_params r) ps -> Forall2 stored ks ps ->
  Z.of_nat (length ps + length kvs) < 2 ^ 39 -> holds h0 (request_blocks r ps) h ->
  store_parameters kvs r h = Ok (r', h') ->
  exists ps', vec_rep (m_params r') ps' /\ Forall2 stored (ks ++ kvs) ps' /\ holds h0 (request_blocks r' ps') h'.
Proof.
  revert ks r ps h. induction kvs as [|kv kvs IH]; intros ks r ps h Hv Hks Hlen Hh E.
  - injection E as <- <-. exists ps. by rewrite app_nil_r.
  - apply M_bind_inv in E as (p & h1 & E1 & E). destruct (store_parameter_holds _ _ _ _ _ _ Hh E1) as (Ht & Hty & Hh1).
    apply M_bind_inv in E as (r1 & h2 & E2 & E).
    destruct (add_parameter_holds _ _ _ _ _ _ _ Hv ltac:(lia) Hh1 E2) as [Hv2 Hh2].
    destruct (IH (ks ++ [kv]) r1 (ps ++ [p]) h2) as (ps' & H1 & H2 & H3); [done| | |done|done|].
    + apply Forall2_app; [done|]. by constructor.
    + rewrite length_app. simpl in *. lia.
    + exists ps'. by rewrite <- app_assoc in H2.
Qed.

Lemma store_request_holds h meth kvs r h' : places_fresh h -> Z.of_nat (length kvs) < 2 ^ 39 ->
  store_request meth kvs h = Ok (r, h') ->
  exists ps, vec_rep (m_params r) ps /\ Forall2 stored kvs ps /\ holds h (request_blocks r ps) h'.
Proof.
  intros Hh Hlen (m & h1 & E1 & E)%M_bind_inv. unfold store_method in E1.
  destruct (_ <? 2); [done|]. apply or_exit_inv in E1.
  pose proof (new_block_holds _ _ _ _ _ _ (holds_start h Hh) E1) as Hh1.
  by apply (store_parameters_holds h kvs [] (mkMreq (Some m) VECTOR_INIT None) [] r h1 h' init_rep ltac:(constructor) Hlen).
Qed.
End leak.

(** The parameters with the given indices are freed, from the last one on. *)
Lemma free_parameters_holds h0 v p ps : vec_rep v (p :: ps) -> Forall typed ps -> forall l h,
  holds h0 (concat (parameter_blocks <$> ps) ++ l) h ->
  exists h', mfor (reverse (seqZ 1 (Z.of_nat (length ps)))) (fun i => p ← lift (VECTOR_INDEX v i); free_parameter p) h
    = Ok (tt, h') /\ holds h0 l h'.
Proof.
  intros Hv Ht.
  assert (forall qs n, (n + length qs = length ps)%nat -> qs = drop n ps -> forall l h,
    holds h0 (concat (parameter_blocks <$> qs) ++ l) h ->
    exists h', mfor (reverse (seqZ (1 + Z.of_nat n) (Z.of_nat (length qs))))
      (fun i => p ← lift (VECTOR_INDEX v i); free_parameter p) h = Ok (tt, h') /\ holds h0 l h') as Hgen.
  { induction qs as [|q qs IH]; intros n Hn Hq l h Hh; [by exists h|].
    assert (ps !! n = Some q) as Hnq.
    { pose proof (lookup_drop ps n 0) as E. rewrite <- Hq, Nat.add_0_r in E. by symmetry. }
    assert (qs = drop (S n) ps) as Hqs.
    { pose proof (drop_S ps q n Hnq) as E. rewrite <- Hq in E. by injection E. }
    simpl length. rewrite Nat2Z.inj_succ, seqZ_cons by lia. rewrite reverse_cons.
    replace (Z.succ (1 + Z.of_nat n)) with (1 + Z.of_nat (S n)) by lia.
    replace (Z.pred (Z.succ (Z.of_nat (length qs)))) with (Z.of_nat (length qs)) by lia.
    simpl in Hh. rewrite <- app_assoc in Hh.
    destruct (IH (S n) ltac:(simpl in Hn; lia) Hqs (parameter_blocks q ++ l) h) as (h1 & E1 & Hh1).
    { eapply holds_perm; [|reflexivity|exact Hh]. solve_Permutation. }
    destruct (free_parameter_holds h0 l h1 q) as (h2 & E2 & Hh2); [by eapply Forall_lookup|done|].
    exists h2. split; [|done]. rewrite mfor_app. rewrite (M_bind_Ok _ _ _ _ _ E1). simpl.
    assert (VECTOR_INDEX v (1 + Z.of_nat n) = Ok q) as Ei.
    { replace (1 + Z.of_nat n) with (Z.of_nat (S n)) by lia. by apply (index_rep v (p :: ps)). }
    rewrite Ei. unfold mbind, M_bind, lift, mret, M_ret. by rewrite E2. }
  intros l h Hh. by apply (Hgen ps 0%nat ltac:(lia) eq_refl).
Qed.

(** A request is freed but for its first parameter. *)
Lemma free_members_holds h0 r ps h : vec_rep (m_params r) ps -> Forall typed ps -> holds h0 (request_blocks r ps) h ->
  exists h', jsonrpc_free_members r h = Ok (tt, h') /\
    holds h0 (match ps with [] => [] | p :: _ => parameter_blocks p end) h'.
Proof.
  intros Hv Ht Hh. destruct (free_holds _ _ _ _ Hh) as (h1 & E1 & Hh1). unfold jsonrpc_free_members.
  rewrite (M_bind_Ok _ _ _ _ _ E1). unfold VECTOR_LEN. rewrite (proj1 Hv). destruct ps as [|p ps].
  - simpl. rewrite (M_bind_Ok skip _ h1 tt h1) by done. by apply free_holds.
  - simpl length. replace (Z.of_nat (S (length ps)) - 1) with (Z.of_nat (length ps)) by lia.
    apply Forall_cons in Ht as [_ Ht]. simpl in Hh1.
    destruct (free_parameters_holds h0 (m_params r) p ps Hv Ht (option_list (m_data r) ++ parameter_blocks p) h1)
      as (h2 & E2 & Hh2).
    { eapply holds_perm; [|reflexivity|exact Hh1]. solve_Permutation. }
    rewrite (M_bind_Ok _ _ _ _ _ E2). by apply free_holds.
Qed.

(** C30: freeing a request never frees a block twice or one that is not the
    request's, and it frees everything that was allocated for it but the first
    parameter: its name and, when it is a string or an object, its text stay
    allocated.  So the memory grows by one or two blocks with every request that
    has a parameter. *)
Theorem request_leaks_parameter `{!JsonLib J} meth (kvs : list (bytes * J)) h r h1 :
  places_fresh h -> Z.of_nat (length kvs) < 2 ^ 39 -> store_request meth kvs h = Ok (r, h1) ->
  exists lost h2, jsonrpc_free_members r h1 = Ok (tt, h2) /\
    NoDup lost /\
    (forall a, a ∈ lost -> is_Some (blocks h2 !! a) /\ blocks h !! a = None) /\
    (forall a, a ∉ lost -> blocks h2 !! a = blocks h !! a) /\
    length lost = match kvs with
                  | [] => 0%nat
                  | (_, val) :: _ => if has_text (json_object_get_type val) then 2%nat else 1%nat
                  end.
Proof.
  intros Hh Hlen E. destruct (store_request_holds _ _ _ _ _ Hh Hlen E) as (ps & Hv & Hks & Hh1).
  assert (Forall typed ps) as Ht.
  { clear -Hks. induction Hks as [|kv p kvs ps [Hp _] _ IH]; by constructor. }
  destruct (free_members_holds h r ps h1 Hv Ht Hh1) as (h2 & E2 & [H1 H2 H3 _]).
  eexists _, h2. split; [exact E2|]. split_and!; [done..|].
  destruct Hks as [|[key val] p kvs ps [[[n Hn] Htext] Hty] _]; [done|]. simpl in Hty. unfold parameter_blocks.
  rewrite Hn, <- Hty. destruct (has_text _), (mp_text p) as [x|]; try done; exfalso.
  - destruct Htext as [_ Htext]. by destruct Htext as [? ?].
  - destruct Htext as [Htext _]. by discriminate Htext.
Qed.

(** JSON strings only, and a heap whose blocks are put above all others. *)
Definition json_strings : JsonLib bytes := {|
  json_tokener_parse _ := None; json_object_object_get_ex _ _ := None;
  json_object_get_type _ := json_type_string; json_object_get_int _ := 0; json_object_get_boolean _ := false;
  json_object_get_string s := s; json_object_to_json_string _ s := (34 :: s) ++ [34]; json_object_members _ := [];
  json_object_new_object := []; json_object_new_array := []; json_object_new_int _ := [];
  json_object_new_boolean _ := []; json_object_new_string s := s; json_object_object_add o _ _ := o;
  json_object_array_add o _ := o;
|}.
Definition growing_heap : heap :=
  mkHeap ∅ (fun _ U => Some (foldr Z.max 0 (elements U) + 1)) (fun _ n => zeros n) 0.

Lemma growing_fresh : places_fresh growing_heap.
Proof.
  intros n U a [= <-]. assert (forall l x, x ∈ l -> 0 <= foldr Z.max 0 l /\ x <= foldr Z.max 0 l) as Hmax.
  { induction l as [|y l IH]; intros x; [by intros ?%not_elem_of_nil|].
    intros [->|Hx]%elem_of_cons; simpl; [destruct l as [|z l]; [simpl; lia|destruct (IH z ltac:(left)); lia]|].
    specialize (IH x Hx). lia. }
  split.
  - intros Hin%elem_of_elements%Hmax. lia.
  - destruct (elements U) as [|x l] eqn:E; [done|]. pose proof (Hmax (x :: l) x ltac:(left)). simpl in *. lia.
Qed.

(** Of the six blocks for a request with two parameters two stay allocated. *)
Lemma request_leaks_parameter_witness :
  exists r h1 h2, store_request (JsonLib0 := json_strings) (str "Client.SetStream")
      [(str "id", str "3"); (str "stream", str "default")] growing_heap = Ok (r, h1) /\
    jsonrpc_free_members r h1 = Ok (tt, h2) /\ size (blocks h1) = 6%nat /\ size (blocks h2) = 2%nat /\
    exists lost, length lost = 2%nat /\ forall a, a ∈ lost -> is_Some (blocks h2 !! a).
Proof.
  destruct (store_request (JsonLib0 := json_strings) (str "Client.SetStream")
    [(str "id", str "3"); (str "stream", str "default")] growing_heap) as [[r h1]|f] eqn:E; [|vm_compute in E; discriminate].
  destruct (request_leaks_parameter (JsonLib0 := json_strings) (str "Client.SetStream")
    [(str "id", str "3"); (str "stream", str "default")] growing_heap r h1 growing_fresh ltac:(simpl; lia) E)
    as (lost & h2 & E2 & _ & Hlost & _ & Hlen).
  exists r, h1, h2. split; [done|]. split; [done|].
  vm_compute in E. injection E as <- <-. split; [vm_compute; reflexivity|].
  split; [vm_compute in E2; injection E2 as <-; vm_compute; reflexivity|].
  exists lost. split; [exact Hlen|]. intros a Ha. by apply Hlost.
Defined.
