(* ===== verification/Ownership.v ===== *)
(** * The memory of the requests and of the receive buffer

    What the client allocates for a task that asks for a packet, for its copies,
    and for the chunks that wait in the receive buffer, on the heap of Memory.v.
    What was allocated is a map from blocks to contents, next to a heap that is
    left as it was. *)
From S2P Require Import Prelude.
From S2P Require Import Bytes.
From S2P Require Import Memory.

(** ** Access to blocks *)

Definition load (a off : Z) (n : nat) : M heap bytes := fun h =>
  match blocks h !! a with
  | None => Fault UseAfterFree
  | Some b => lift (rd b off n) h
  end.
Definition store (a off : Z) (v : bytes) : M heap unit := fun h =>
  match blocks h !! a with
  | None => Fault UseAfterFree
  | Some b => match wr b off v with
              | Ok b => Ok (tt, set_blocks (<[a := b]> (blocks h)) h)
              | Fault f => Fault f
              end
  end.
Definition memcpy (dst src : Z) (n : nat) : M heap unit := v ← load src 0 n; store dst 0 v.

(** ** Requests *)

Definition SIZEOF_TASK : Z := 40.
Definition SIZEOF_IN6_ADDR : Z := 16.

(** intercom_client.h:5-11 intercom_task: the task at the address [mt_self] *)
Record mtask := mkMtask {
  mt_self : Z;
  mt_packet_len : Z;
  mt_packet : Z;
  mt_recipient : option Z;
  mt_retries_left : Z;
}.

(** intercom_client.c:317-328 intercom_send_request: the task with its [packet]
    and the server's address [ip] *)
Definition request_memory (packet ip : bytes) (retries : Z) : M heap mtask :=
  data ← snap_alloc0 SIZEOF_TASK;
  p ← snap_alloc 14;
  store p 0 packet ;;
  r ← snap_alloc_aligned SIZEOF_IN6_ADDR SIZEOF_IN6_ADDR;
  store r 0 ip ;;
  mret (mkMtask data (Z.of_nat (length packet)) p (Some r) retries).

(** intercom_client.c:240-256 copy_intercom_task: into the task at [new] *)
Definition copy_intercom_task (old : mtask) (new : Z) : M heap mtask :=
  p ← snap_alloc (mt_packet_len old);
  memcpy p (mt_packet old) (Z.to_nat (mt_packet_len old)) ;;
  r ← match mt_recipient old with
      | Some r0 =>
          r ← snap_alloc_aligned SIZEOF_IN6_ADDR SIZEOF_IN6_ADDR;
          memcpy r r0 (Z.to_nat SIZEOF_IN6_ADDR) ;;
          mret (Some r)
      | None => mret None
      end;
  mret (mkMtask new (mt_packet_len old) p r (mt_retries_left old)).

(** intercom_client.c:273-278 free_intercom_task *)
Definition free_intercom_task (d : mtask) : M heap unit :=
  free (Some (mt_packet d)) ;; free (mt_recipient d) ;; free (Some (mt_self d)).

(** intercom_client.c:291-294 request_task: the task for the next attempt *)
Definition retry_task (d : mtask) : M heap mtask :=
  ndata ← snap_alloc0 SIZEOF_TASK;
  n ← copy_intercom_task d ndata;
  mret (mkMtask (mt_self n) (mt_packet_len n) (mt_packet n) (mt_recipient n) (u8 (mt_retries_left n - 1))).

(** A task runs, asks again, and is freed by the task queue; this [k] times. *)
Fixpoint retries (k : nat) (d : mtask) : M heap mtask :=
  match k with
  | O => mret d
  | S k => n ← retry_task d; free_intercom_task d ;; retries k n
  end.

(** ** The receive buffer *)

Definition SIZEOF_PQUEUE : Z := 32.
Definition SIZEOF_CHUNK : Z := 24.

(** pqueue.h:23-32 PQueue: at [mq_self]; of the elements, which are pointers, only
    what they point to matters *)
Record mqueue := mkMqueue { mq_self : Z; mq_data : Z; mq_elements : list (Z * Z) }.

(** pqueue.c:22-34 pqueue_new: the blocks *)
Definition pqueue_memory (capacity : Z) : M heap mqueue :=
  res ← snap_alloc SIZEOF_PQUEUE;
  data ← snap_alloc (u64 (capacity * 8));
  mret (mkMqueue res data []).

(** intercom_client.c:382-388 intercom_handle_audio: the chunk and its data *)
Definition chunk_memory (size : Z) : M heap (Z * Z) :=
  chunk ← snap_alloc SIZEOF_CHUNK;
  data ← snap_alloc size;
  mret (chunk, data).

(** A chunk that is put into the queue. *)
Definition chunk_arrives (q : mqueue) (size : Z) : M heap mqueue :=
  c ← chunk_memory size; mret (mkMqueue (mq_self q) (mq_data q) (mq_elements q ++ [c])).
Fixpoint chunks_arrive (q : mqueue) (sizes : list Z) : M heap mqueue :=
  match sizes with
  | [] => mret q
  | size :: sizes => q ← chunk_arrives q size; chunks_arrive q sizes
  end.

(** pqueue.c:39-49 pqueue_delete *)
Definition pqueue_delete (q : option mqueue) : M heap unit :=
  match q with
  | None => skip
  | Some q => free (Some (mq_data q)) ;; free (Some (mq_self q))
  end.

(** intercom_client.c:549-555 intercom_uninit: the chunks, then the queue *)
Definition queue_uninit (q : mqueue) : M heap unit :=
  mfor (mq_elements q) (fun c => free (Some c.2) ;; free (Some c.1)) ;; pqueue_delete (Some q).

(** ** Who owns what *)

(** A heap with room: a block of malloc is a new one, of the size that was asked for. *)
Record good_heap (h : heap) : Prop := {
  gh_fresh : places_fresh h;
  gh_room : forall n U, is_Some (place h n U);
  gh_junk : forall n size, 0 <= size -> Z.of_nat (length (junk h n size)) = size;
}.

(** [F]: what was allocated since [h0], with its contents. *)
Record owns (h0 : heap) (F : gmap Z bytes) (h : heap) : Prop := {
  ow_blocks : blocks h = F ∪ blocks h0;
  ow_disjoint : F ##ₘ blocks h0;
  ow_good : good_heap h;
}.

Lemma owns_start h : good_heap h -> owns h ∅ h.
Proof. intros ?. split; [by rewrite (left_id_L ∅ (∪))|apply map_disjoint_empty_l|done]. Qed.

Lemma new_block_owns c h0 F h : owns h0 F h ->
  exists a h', new_block c h = Ok (Some a, h') /\ F !! a = None /\ owns h0 (<[a := c h]> F) h'.
Proof.
  intros [Hb Hd [Hf Hr Hj]]. unfold new_block.
  destruct (Hr (allocations h) (dom (blocks h))) as [a E]. rewrite E. eexists _, _. split; [done|].
  apply Hf in E as [Ha _]. rewrite not_elem_of_dom, Hb in Ha. apply lookup_union_None in Ha as [Ha1 Ha2].
  split; [done|]. split; simpl; [|by apply map_disjoint_insert_l_2|by split].
  rewrite Hb. by rewrite insert_union_l.
Qed.

Lemma alloc_owns h0 F h n : owns h0 F h -> 0 <= n ->
  exists a h' v, snap_alloc n h = Ok (a, h') /\ Z.of_nat (length v) = n /\ F !! a = None /\ owns h0 (<[a := v]> F) h'.
Proof.
  intros Ho Hn. destruct (new_block_owns (fun h => junk h (allocations h) n) _ _ _ Ho) as (a & h' & E & Ha & Ho').
  exists a, h'. eexists. split; [|split; [by apply Ho|by split]].
  unfold snap_alloc, or_exit. by rewrite (M_bind_Ok _ _ _ _ _ E).
Qed.

Lemma alloc0_owns h0 F h n : owns h0 F h -> 0 <= n < 2 ^ 64 ->
  exists a h' v, snap_alloc0 n h = Ok (a, h') /\ F !! a = None /\ owns h0 (<[a := v]> F) h'.
Proof.
  intros Ho Hn. destruct (new_block_owns (fun _ => zeros (1 * n)) _ _ _ Ho) as (a & h' & E & Ha & Ho').
  exists a, h'. eexists. split; [|by split]. unfold snap_alloc0, snap_alloc0_array.
  rewrite (proj2 (Z.ltb_lt _ _)) by lia. unfold or_exit. by rewrite (M_bind_Ok _ _ _ _ _ E).
Qed.

Lemma owns_lookup h0 F h a v : owns h0 F h -> F !! a = Some v -> blocks h !! a = Some v.
Proof. intros [Hb _ _] Ha. rewrite Hb. by apply lookup_union_Some_l. Qed.

Lemma free_owns h0 F h a v : owns h0 F h -> F !! a = Some v ->
  exists h', free (Some a) h = Ok (tt, h') /\ owns h0 (delete a F) h'.
Proof.
  intros Ho Ha. pose proof (owns_lookup _ _ _ _ _ Ho Ha) as E. destruct Ho as [Hb Hd Hg]. unfold free. rewrite E.
  eexists. split; [done|]. split; simpl; [|by apply map_disjoint_delete_l|by destruct Hg].
  rewrite Hb, delete_union. f_equal. apply delete_id. by eapply map_disjoint_Some_r.
Qed.

(** A block is overwritten as a whole. *)
Lemma store_owns h0 F h a v x : owns h0 F h -> F !! a = Some v -> length x = length v ->
  exists h', store a 0 x h = Ok (tt, h') /\ owns h0 (<[a := x]> F) h'.
Proof.
  intros Ho Ha Hl. pose proof (owns_lookup _ _ _ _ _ Ho Ha) as E. destruct Ho as [Hb Hd Hg]. unfold store. rewrite E.
  assert (wr v 0 x = Ok x) as ->.
  { pose proof (wr_app [] v x [] 0) as Hw. simpl in Hw. rewrite !app_nil_r in Hw. by apply Hw. }
  eexists. split; [done|]. split; simpl; [by rewrite Hb, insert_union_l| |by destruct Hg].
  apply map_disjoint_insert_l_2; [|done]. by eapply map_disjoint_Some_l.
Qed.

Lemma memcpy_owns h0 F h dst src v x n : owns h0 F h -> F !! src = Some x -> n = length x ->
  F !! dst = Some v -> length v = n ->
  exists h', memcpy dst src n h = Ok (tt, h') /\ owns h0 (<[dst := x]> F) h'.
Proof.
  intros Ho Hs -> Hd Hl. destruct (store_owns h0 F h dst v x Ho Hd) as (h' & E & Ho'); [done|].
  exists h'. split; [|done]. unfold memcpy. erewrite M_bind_Ok; [exact E|].
  unfold load. rewrite (owns_lookup _ _ _ _ _ Ho Hs). unfold lift. by rewrite rd_all.
Qed.

(** A block with known contents. *)
Lemma filled_block h0 F h x : owns h0 F h ->
  exists a h1 h2, snap_alloc (Z.of_nat (length x)) h = Ok (a, h1) /\ store a 0 x h1 = Ok (tt, h2) /\
    F !! a = None /\ owns h0 (<[a := x]> F) h2 /\
    (forall src, F !! src = Some x -> memcpy a src (length x) h1 = Ok (tt, h2)).
Proof.
  intros Ho. destruct (alloc_owns h0 F h (Z.of_nat (length x)) Ho) as (a & h1 & v & E & Hl & Ha & Ho1); [lia|].
  assert (length x = length v) as Hl' by lia.
  destruct (store_owns h0 _ h1 a v x Ho1) as (h2 & E2 & Ho2); [by rewrite lookup_insert_eq|done|].
  rewrite insert_insert_eq in Ho2. exists a, h1, h2. split_and!; try done.
  intros src Hsrc. unfold memcpy. erewrite M_bind_Ok; [exact E2|].
  unfold load. erewrite (owns_lookup h0 _ h1 src x Ho1); [unfold lift; by rewrite rd_all|].
  rewrite lookup_insert_ne by congruence. done.
Qed.

(** ** Requests *)

(** [F] is [G] and the three blocks of the task [d]. *)
Definition task_on (G : gmap Z bytes) (d : mtask) (packet ip : bytes) (F : gmap Z bytes) : Prop :=
  exists s r, mt_recipient d = Some r /\ mt_packet_len d = Z.of_nat (length packet) /\
    NoDup [mt_self d; mt_packet d; r] /\
    G !! mt_self d = None /\ G !! mt_packet d = None /\ G !! r = None /\
    F = <[r := ip]> (<[mt_packet d := packet]> (<[mt_self d := s]> G)).

Lemma request_memory_owns h0 F h packet ip n : owns h0 F h -> length packet = 14%nat -> length ip = 16%nat ->
  exists d h' F', request_memory packet ip n h = Ok (d, h') /\ task_on F d packet ip F' /\ owns h0 F' h'.
Proof.
  intros Ho Hp Hi. destruct (alloc0_owns h0 F h SIZEOF_TASK Ho) as (s & h1 & v & E1 & Hs & Ho1); [unfold SIZEOF_TASK; lia|].
  destruct (filled_block h0 _ h1 packet Ho1) as (p & h2 & h3 & E2 & E3 & Hp' & Ho2 & _).
  destruct (filled_block h0 _ h3 ip Ho2) as (r & h4 & h5 & E4 & E5 & Hr & Ho3 & _).
  eexists _, _, _. split; [|split; [|exact Ho3]].
  - unfold request_memory. rewrite (M_bind_Ok _ _ _ _ _ E1). rewrite Hp in E2. rewrite (M_bind_Ok _ _ _ _ _ E2).
    rewrite (M_bind_Ok _ _ _ _ _ E3). rewrite Hi in E4. unfold snap_alloc_aligned. rewrite (M_bind_Ok _ _ _ _ _ E4).
    by rewrite (M_bind_Ok _ _ _ _ _ E5).
  - exists v, r. simpl. rewrite !lookup_insert_None in Hr. rewrite lookup_insert_None in Hp'.
    destruct Hr as [[? ?] ?], Hp' as [? ?]. split_and!; try done.
    repeat (apply NoDup_cons; split; [set_solver|]). constructor.
Qed.

Lemma retry_owns h0 G F h d packet ip : task_on G d packet ip F -> length ip = 16%nat -> owns h0 F h ->
  exists n h' F', retry_task d h = Ok (n, h') /\ task_on F n packet ip F' /\ owns h0 F' h'.
Proof.
  intros (s0 & r0 & Er & El & Hnd & _ & _ & _ & EF) Hi Ho.
  assert (F !! mt_packet d = Some packet /\ F !! r0 = Some ip) as [Lp Lr].
  { rewrite EF. inversion Hnd as [|? ? Hn1 Hn2]; subst. inversion Hn2 as [|? ? Hn3 _]; subst.
    rewrite lookup_insert_eq, lookup_insert_ne, lookup_insert_eq by set_solver. done. }
  destruct (alloc0_owns h0 F h SIZEOF_TASK Ho) as (s & h1 & v & E1 & Hs & Ho1); [unfold SIZEOF_TASK; lia|].
  destruct (filled_block h0 _ h1 packet Ho1) as (p & h2 & h3 & E2 & _ & Hp' & Ho2 & E3).
  destruct (filled_block h0 _ h3 ip Ho2) as (r & h4 & h5 & E4 & _ & Hr & Ho3 & E5).
  specialize (E3 (mt_packet d)). specialize (E5 r0).
  rewrite !lookup_insert_None in Hr. rewrite lookup_insert_None in Hp'. destruct Hr as [[? ?] ?], Hp' as [? ?].
  rewrite lookup_insert_ne in E3 by congruence. rewrite !lookup_insert_ne in E5 by congruence.
  specialize (E3 Lp). specialize (E5 Lr). rewrite Hi in E4, E5.
  eexists _, _, _. split; [|split; [|exact Ho3]].
  - unfold retry_task. rewrite (M_bind_Ok _ _ _ _ _ E1). unfold copy_intercom_task. rewrite El, Er, Nat2Z.id.
    assert ((r' ← snap_alloc_aligned SIZEOF_IN6_ADDR SIZEOF_IN6_ADDR; memcpy r' r0 (Z.to_nat SIZEOF_IN6_ADDR) ;; mret (Some r'))
      h3 = Ok (Some r, h5)) as E6.
    { unfold snap_alloc_aligned. rewrite (M_bind_Ok _ _ _ _ _ E4). by rewrite (M_bind_Ok _ _ _ _ _ E5). }
    erewrite M_bind_Ok; [reflexivity|]. rewrite (M_bind_Ok _ _ _ _ _ E2), (M_bind_Ok _ _ _ _ _ E3), (M_bind_Ok _ _ _ _ _ E6).
    reflexivity.
  - exists v, r. simpl. split_and!; try done. repeat (apply NoDup_cons; split; [set_solver|]). constructor.
Qed.

(** The task is freed; blocks that came after it stay. *)
Lemma free_task_owns h0 G F F' h d packet ip : task_on G d packet ip F -> owns h0 F' h -> F ⊆ F' ->
  exists r h', mt_recipient d = Some r /\ free_intercom_task d h = Ok (tt, h') /\
    owns h0 (delete (mt_self d) (delete r (delete (mt_packet d) F'))) h'.
Proof.
  intros (s & r & Er & _ & Hnd & _ & _ & _ & ->) Ho Hsub. inversion Hnd as [|? ? Hn1 Hn2]; subst.
  inversion Hn2 as [|? ? Hn3 _]; subst.
  assert (F' !! mt_packet d = Some packet /\ F' !! r = Some ip /\ F' !! mt_self d = Some s) as (Lp & Lr & Ls).
  { split_and!; (eapply lookup_weaken; [|exact Hsub]);
      repeat first [by rewrite lookup_insert_eq|rewrite lookup_insert_ne by set_solver]. }
  destruct (free_owns _ _ _ _ _ Ho Lp) as (h1 & E1 & Ho1).
  destruct (free_owns h0 _ h1 r ip Ho1) as (h2 & E2 & Ho2); [rewrite lookup_delete_ne by set_solver; done|].
  destruct (free_owns h0 _ h2 (mt_self d) s Ho2) as (h3 & E3 & Ho3); [rewrite !lookup_delete_ne by set_solver; done|].
  exists r, h3. split; [done|]. split; [|done]. unfold free_intercom_task. rewrite Er.
  rewrite (M_bind_Ok _ _ _ _ _ E1), (M_bind_Ok _ _ _ _ _ E2). exact E3.
Qed.

Lemma task_on_grows G d packet ip F : task_on G d packet ip F -> G ⊆ F.
Proof. intros (s & r & _ & _ & _ & H1 & H2 & H3 & ->). by repeat apply insert_subseteq_r. Qed.

(** Without the blocks of the task nothing is left of it. *)
Lemma task_removed G d packet ip F r : task_on G d packet ip F -> mt_recipient d = Some r ->
  delete (mt_self d) (delete r (delete (mt_packet d) F)) = G.
Proof.
  intros (s & r' & -> & _ & _ & H1 & H2 & H3 & ->) [= ->]. apply map_eq. intros a.
  destruct (decide (a = mt_self d)) as [->|]; [by simplify_map_eq|].
  destruct (decide (a = r)) as [->|]; [rewrite lookup_delete_ne by done; by simplify_map_eq|].
  destruct (decide (a = mt_packet d)) as [->|]; [rewrite !lookup_delete_ne by done; by simplify_map_eq|].
  by rewrite !lookup_delete_ne, !lookup_insert_ne by done.
Qed.

Lemma task_moves G F F' d n packet ip r : task_on G d packet ip F -> mt_recipient d = Some r ->
  task_on F n packet ip F' -> task_on G n packet ip (delete (mt_self d) (delete r (delete (mt_packet d) F'))).
Proof.
  intros Hd Hr Hn. pose proof (task_on_grows _ _ _ _ _ Hd) as Hsub.
  pose proof (task_removed _ _ _ _ _ _ Hd Hr) as Hrem.
  assert (is_Some (F !! mt_self d) /\ is_Some (F !! r) /\ is_Some (F !! mt_packet d)) as ([? Ls] & [? Lr] & [? Lp]).
  { destruct Hd as (s & r' & E & _ & _ & _ & _ & _ & ->). assert (r' = r) as -> by congruence.
    rewrite !lookup_insert_is_Some. split_and!; [|by left|]; destruct (decide (r = mt_packet d)), (decide (r = mt_self d)),
      (decide (mt_packet d = mt_self d)); naive_solver. }
  destruct Hn as (s & rn & En & El & Hnd & H1 & H2 & H3 & ->). exists s, rn. split_and!; try done.
  1-3: by eapply lookup_weaken_None.
  rewrite !delete_insert_ne by congruence. by rewrite Hrem.
Qed.

Lemma retries_owns h0 G packet ip k : length ip = 16%nat -> forall d F h, task_on G d packet ip F -> owns h0 F h ->
  exists n h' F', retries k d h = Ok (n, h') /\ task_on G n packet ip F' /\ owns h0 F' h'.
Proof.
  intros Hi. induction k as [|k IH]; intros d F h Hd Ho; [by exists d, h, F|]. cbn [retries].
  destruct (retry_owns h0 G F h d packet ip Hd Hi Ho) as (n & h1 & F1 & E1 & Hn & Ho1).
  destruct (free_task_owns h0 G F F1 h1 d packet ip Hd Ho1) as (r & h2 & Er & E2 & Ho2); [by eapply task_on_grows|].
  destruct (IH n _ h2 (task_moves _ _ _ _ _ _ _ _ Hd Er Hn) Ho2) as (n' & h3 & F' & E3 & Hn' & Ho3).
  exists n', h3, F'. split; [|done]. by rewrite (M_bind_Ok _ _ _ _ _ E1), (M_bind_Ok _ _ _ _ _ E2).
Qed.

(** C31: the memory of a request.  However often a request is repeated, the client
    then owns three blocks more than before it, all of them new: that of the last
    copy of the task, its packet and its recipient, with the packet and the address
    the first task was given.  No copy is freed twice or used after it was freed, none is
    forgotten, and freeing the last one leaves the memory as it was. *)
Theorem request_owned packet ip n k h : good_heap h -> length packet = 14%nat -> length ip = 16%nat ->
  exists d h1 s r h2, (d ← request_memory packet ip n; retries k d) h = Ok (d, h1) /\ mt_recipient d = Some r /\
    NoDup [mt_self d; mt_packet d; r] /\
    (forall a, a ∈ [mt_self d; mt_packet d; r] -> blocks h !! a = None) /\
    blocks h1 = <[r := ip]> (<[mt_packet d := packet]> (<[mt_self d := s]> (blocks h))) /\
    free_intercom_task d h1 = Ok (tt, h2) /\ blocks h2 = blocks h.
Proof.
  intros Hh Hp Hi. destruct (request_memory_owns h ∅ h packet ip n (owns_start h Hh) Hp Hi) as (d0 & h0 & F0 & E0 & Hd0 & Ho0).
  destruct (retries_owns h ∅ packet ip k Hi d0 F0 h0 Hd0 Ho0) as (d & h1 & F & E & Hd & Ho).
  destruct (free_task_owns h ∅ F F h1 d packet ip Hd Ho) as (r & h2 & Er & E2 & Ho2); [done|].
  rewrite (task_removed _ _ _ _ _ _ Hd Er) in Ho2.
  destruct Hd as (s & r' & Er' & _ & Hnd & _ & _ & _ & ->). assert (r' = r) as -> by congruence.
  exists d, h1, s, r, h2. split; [by rewrite (M_bind_Ok _ _ _ _ _ E0)|]. split_and!; try done.
  - pose proof (ow_disjoint _ _ _ Ho) as Hdis. rewrite !map_disjoint_insert_l in Hdis. destruct Hdis as (? & ? & ? & _).
    intros a [->|[->|[->|[]%not_elem_of_nil]%elem_of_cons]%elem_of_cons]%elem_of_cons; done.
  - destruct Ho as [-> _ _]. by rewrite <- !insert_union_l, (left_id_L ∅ (∪)).
  - destruct Ho2 as [-> _ _]. by rewrite (left_id_L ∅ (∪)).
Qed.

(** ** The receive buffer *)

Lemma chunk_arrives_owns h0 F h q size : owns h0 F h -> 0 <= size ->
  exists c h' F', chunk_arrives q size h = Ok (mkMqueue (mq_self q) (mq_data q) (mq_elements q ++ [c]), h') /\
    owns h0 F' h' /\ dom F' = {[c.1; c.2]} ∪ dom F /\ (c.1 ∉ dom F) /\ (c.2 ∉ dom F) /\ c.1 <> c.2.
Proof.
  intros Ho Hs. destruct (alloc_owns h0 F h SIZEOF_CHUNK Ho) as (a & h1 & v & E1 & _ & Ha & Ho1); [done|].
  destruct (alloc_owns h0 _ h1 size Ho1 Hs) as (b & h2 & x & E2 & _ & Hb & Ho2).
  apply lookup_insert_None in Hb as [Hb Hab]. exists (a, b), h2. eexists. split; [|split; [exact Ho2|]].
  - unfold chunk_arrives, chunk_memory. erewrite M_bind_Ok; [reflexivity|].
    by rewrite (M_bind_Ok _ _ _ _ _ E1), (M_bind_Ok _ _ _ _ _ E2).
  - simpl. rewrite !dom_insert_L, !not_elem_of_dom. split_and!; try done. set_solver.
Qed.

Definition chunk_blocks (cs : list (Z * Z)) : list Z := concat ((fun c => [c.1; c.2]) <$> cs).

(** [F] has the blocks of the list [l], each once. *)
Definition blocks_are (l : list Z) (F : gmap Z bytes) : Prop := NoDup l /\ dom F =@{gset Z} list_to_set l.

Lemma free_block h0 F h a l : owns h0 F h -> blocks_are (a :: l) F ->
  exists h' F', free (Some a) h = Ok (tt, h') /\ owns h0 F' h' /\ blocks_are l F'.
Proof.
  intros Ho [[Ha Hl]%NoDup_cons Hd]. assert (is_Some (F !! a)) as [v Hv].
  { apply elem_of_dom. rewrite Hd. set_solver. }
  destruct (free_owns _ _ _ _ _ Ho Hv) as (h' & E & Ho'). eexists h', _. split; [done|]. split; [exact Ho'|].
  split; [done|]. rewrite dom_delete_L, Hd. set_solver.
Qed.

#[local] Instance blocks_are_perm : Proper ((≡ₚ) ==> (=) ==> iff) blocks_are.
Proof.
  intros l l' P F F' <-. unfold blocks_are. by rewrite P.
Qed.

Lemma chunks_arrive_owns h0 sizes : Forall (fun n => 0 <= n) sizes -> forall q F h, owns h0 F h ->
  blocks_are (chunk_blocks (mq_elements q) ++ [mq_data q; mq_self q]) F ->
  exists q' h' F', chunks_arrive q sizes h = Ok (q', h') /\ owns h0 F' h' /\
    mq_data q' = mq_data q /\ mq_self q' = mq_self q /\
    length (mq_elements q') = (length (mq_elements q) + length sizes)%nat /\
    blocks_are (chunk_blocks (mq_elements q') ++ [mq_data q'; mq_self q']) F'.
Proof.
  induction 1 as [|n sizes Hn _ IH]; intros q F h Ho Hb.
  - exists q, h, F. simpl. by rewrite Nat.add_0_r.
  - destruct (chunk_arrives_owns h0 F h q n Ho Hn) as (c & h1 & F1 & E & Ho1 & Hdom & H1 & H2 & H3).
    destruct (IH (mkMqueue (mq_self q) (mq_data q) (mq_elements q ++ [c])) F1 h1 Ho1) as (q' & h' & F' & E' & Ho' & Hq1 & Hq2 & Hlen & Hb').
    + simpl. unfold chunk_blocks. rewrite fmap_app, concat_app. simpl.
      assert ((concat ((λ c, [c.1; c.2]) <$> mq_elements q) ++ [c.1; c.2]) ++ [mq_data q; mq_self q] ≡ₚ
        c.1 :: c.2 :: chunk_blocks (mq_elements q) ++ [mq_data q; mq_self q]) as ->.
      { unfold chunk_blocks. rewrite <- (app_assoc _ [c.1; c.2]), Permutation_app_comm. simpl.
        do 2 constructor. by rewrite Permutation_app_comm. }
      destruct Hb as [Hnd Hd]. rewrite Hd in *. split; [|rewrite Hdom; set_solver].
      apply NoDup_cons. rewrite elem_of_cons. split; [intros [?|?]; [done|set_solver]|].
      apply NoDup_cons. split; [set_solver|done].
    + exists q', h', F'. cbn [chunks_arrive]. rewrite (M_bind_Ok _ _ _ _ _ E). split_and!; try done.
      rewrite Hlen. simpl. rewrite length_app. simpl. lia.
Qed.

Lemma free_chunks h0 cs : forall l F h, owns h0 F h -> blocks_are (chunk_blocks cs ++ l) F ->
  exists h' F', mfor cs (fun c => free (Some c.2) ;; free (Some c.1)) h = Ok (tt, h') /\ owns h0 F' h' /\ blocks_are l F'.
Proof.
  induction cs as [|c cs IH]; intros l F h Ho Hb; [by exists h, F|]. cbn [mfor].
  change (chunk_blocks (c :: cs) ++ l) with (c.1 :: c.2 :: (chunk_blocks cs ++ l)) in Hb.
  assert (blocks_are (c.2 :: c.1 :: (chunk_blocks cs ++ l)) F) as Hb' by (by rewrite Permutation_swap).
  destruct (free_block _ _ _ _ _ Ho Hb') as (h1 & F1 & E1 & Ho1 & Hb1).
  destruct (free_block _ _ _ _ _ Ho1 Hb1) as (h2 & F2 & E2 & Ho2 & Hb2).
  destruct (IH l F2 h2 Ho2 Hb2) as (h' & F' & E & ?). exists h', F'. split; [|done].
  erewrite M_bind_Ok; [exact E|]. by rewrite (M_bind_Ok _ _ _ _ _ E1).
Qed.

Lemma free_queue h0 q l F h : owns h0 F h -> blocks_are (l ++ [mq_data q; mq_self q]) F ->
  exists h' F', pqueue_delete (Some q) h = Ok (tt, h') /\ owns h0 F' h' /\ blocks_are l F'.
Proof.
  intros Ho Hb. rewrite Permutation_app_comm in Hb.
  destruct (free_block _ _ _ _ _ Ho Hb) as (h1 & F1 & E1 & Ho1 & Hb1).
  destruct (free_block _ _ _ _ _ Ho1 Hb1) as (h2 & F2 & E2 & Ho2 & Hb2).
  exists h2, F2. split; [|done]. unfold pqueue_delete. by rewrite (M_bind_Ok _ _ _ _ _ E1).
Qed.

(** A command to stop loses the chunks that wait in the buffer: the queue is
    deleted, which frees its two blocks, and of every chunk two blocks stay
    allocated.  The end of the client, which takes them out first, frees all. *)
Theorem stop_leaks_chunks capacity sizes h : good_heap h -> Forall (fun n => 0 <= n) sizes ->
  exists q h2 h3 h4 (lost : gset Z),
    (q ← pqueue_memory capacity; chunks_arrive q sizes) h = Ok (q, h2) /\
    length (mq_elements q) = length sizes /\
    pqueue_delete (Some q) h2 = Ok (tt, h3) /\
    dom (blocks h3) = lost ∪ dom (blocks h) /\ lost ## dom (blocks h) /\ size lost = (2 * length sizes)%nat /\
    queue_uninit q h2 = Ok (tt, h4) /\ blocks h4 = blocks h.
Proof.
  intros Hh Hs. destruct (alloc_owns h ∅ h SIZEOF_PQUEUE (owns_start h Hh)) as (a & h0 & v & E0 & _ & Ha & Ho0); [done|].
  destruct (alloc_owns h _ h0 (u64 (capacity * 8)) Ho0) as (b & h1 & x & E1 & _ & Hb & Ho1); [apply Z.mod_pos_bound; lia|].
  apply lookup_insert_None in Hb as [_ Hab].
  destruct (chunks_arrive_owns h sizes Hs (mkMqueue a b []) _ h1 Ho1) as (q & h2 & F & E2 & Ho & _ & _ & Hlen & HF).
  { split; [repeat (apply NoDup_cons; split; [set_solver|]); constructor|]. simpl. rewrite !dom_insert_L. set_solver. }
  destruct (free_queue h q _ F h2 Ho HF) as (h3 & F3 & E3 & Ho3 & [Hnd Hd3]).
  destruct (free_chunks h (mq_elements q) _ F h2 Ho HF) as (h5 & F5 & E5 & Ho5 & HF5).
  destruct (free_queue h q [] F5 h5 Ho5 HF5) as (h4 & F4 & E4 & Ho4 & [_ Hd4]).
  exists q, h2, h3, h4, (dom F3). split; [|split_and!; try done].
  - unfold pqueue_memory. erewrite M_bind_Ok; [exact E2|]. by rewrite (M_bind_Ok _ _ _ _ _ E0), (M_bind_Ok _ _ _ _ _ E1).
  - by rewrite (ow_blocks _ _ _ Ho3), dom_union_L.
  - apply map_disjoint_dom, Ho3.
  - rewrite Hd3, size_list_to_set by done. simpl in Hlen. rewrite <- Hlen. clear.
    induction (mq_elements q) as [|c cs IH]; [done|]. unfold chunk_blocks in *. cbn [fmap list_fmap concat length app]. simpl in IH |- *. lia.
  - unfold queue_uninit. by rewrite (M_bind_Ok _ _ _ _ _ E5).
  - rewrite (ow_blocks _ _ _ Ho4), (dom_empty_inv_L F4); [by rewrite (left_id_L ∅ (∪))|done].
Qed.

(** ** A concrete heap *)

Lemma growing_good : good_heap growing_heap.
Proof.
  split; [exact growing_fresh|by intros n U; eexists|]. intros n size Hs. simpl. by apply length_zeros.
Qed.

Definition demo_request : bytes := [1; 0; 0; 3; 0; 0; 0; 42; 0; 6; 0; 0; 0; 41].

(** After two repetitions. *)
Lemma request_owned_witness : exists d h1 h2,
  (d ← request_memory demo_request (zeros 16) 250; retries 2 d) growing_heap = Ok (d, h1) /\
  blocks h1 !! mt_packet d = Some demo_request /\ mt_retries_left d = 248 /\
  free_intercom_task d h1 = Ok (tt, h2) /\ blocks h2 = ∅.
Proof.
  destruct (request_owned demo_request (zeros 16) 250 2 growing_heap growing_good eq_refl eq_refl)
    as (d & h1 & s & r & h2 & E & Er & Hnd & _ & Hb & E2 & Hb2).
  exists d, h1, h2. split; [exact E|]. split; [|split; [|split; [exact E2|exact Hb2]]].
  - rewrite Hb. rewrite lookup_insert_ne; [by rewrite lookup_insert_eq|].
    intros ->. apply NoDup_cons in Hnd as [_ [Hn _]%NoDup_cons]. apply Hn. by left.
  - vm_compute in E. by injection E as <- _.
Defined.

(** Two chunks wait when the command comes: four blocks are lost. *)
Lemma stop_leaks_chunks_witness : exists q h2 h3, 
  (q ← pqueue_memory 20; chunks_arrive q [40; 40]) growing_heap = Ok (q, h2) /\
  pqueue_delete (Some q) h2 = Ok (tt, h3) /\ size (dom (blocks h3)) = 4%nat.
Proof.
  destruct (stop_leaks_chunks 20 [40; 40] growing_heap growing_good) as (q & h2 & h3 & h4 & lost & E & _ & E3 & Hd & _ & Hs & _);
    [by repeat constructor|].
  exists q, h2, h3. split; [exact E|]. split; [exact E3|]. rewrite Hd. simpl.
  rewrite (dom_empty_L (M := gmap Z)), (right_id_L ∅ (∪)). exact Hs.
Defined.
