(* ===== verification/Util.v ===== *)
(** * util.c, syscallwrappers.c, error.h: printing, logging, random bytes

    The functions that print into strings share a ring of [STRBUFELEMENTS] rows
    and return a pointer into it (here: the number of a row).  The text such a
    function prints is a definition of its own, because where it is copied at
    once the ring does not matter.  A log function prints the time into the same
    ring after its arguments were evaluated: a line shows its arguments as long
    as there are at most three of them ([log_shows]). *)
From Stdlib Require Import Ascii String.
From S2P Require Import Prelude.
From S2P Require Import Timespec.
From S2P Require Import Bytes.
From S2P Require Import CString.
From S2P Require Import PcmChunk.
From S2P Require Import TaskHeap.
From S2P Require Import Intercom.
From S2P Require Import ServerState.

(** [inet_ntop] and [gethostname] *)
Class HostLib := { inet_ntop : Z -> bytes; gethostname : bytes }.

(** ** Printing *)

Fixpoint digits (fuel : nat) (n : Z) : bytes :=
  match fuel with
  | O => []
  | S fuel => (if n <? 10 then [] else digits fuel (n / 10)) ++ [48 + n mod 10]
  end.

(** [%d] and [%zd] for a number of at most 64 bits *)
Definition dec (n : Z) : bytes := if n <? 0 then 45 :: digits 20 (- n) else digits 20 n.

Definition hexdigit (n : Z) : Z := if n <? 10 then 48 + n else 87 + n.

(** util.c:90-94 print_mac *)
Definition print_mac (m : bytes) : bytes :=
  drop 1 (concat ((fun b => [58; hexdigit (b / 16); hexdigit (b mod 16)]) <$> take 6 m)).

(** util.c:96-105 print_codec *)
Definition print_codec (c : Z) : bytes :=
  if c =? 1 then str "pcm" else if c =? 2 then str "opus" else str "unknown".

(** util.c:107-114 print_stream_protocol *)
Definition print_stream_protocol (p : Z) : bytes := if p =? 1 then str "pipe" else str "unknown".

(** util.c:116-128 print_inputpipe_status *)
Definition print_inputpipe_status (s : inputpipe_state) : bytes :=
  match s with IDLE => str "idle" | PLAYING => str "playing" | THROTTLE => str "throttle" end.

(** [%09lu], [%09u]: at least nine digits *)
Definition pad9 (s : bytes) : bytes := replicate (9 - length s) 48 ++ s.

(** util.c:32-35 print_timespec *)
Definition print_timespec (t : timespec) : bytes :=
  dec (u64 (tv_sec t)) ++ [46] ++ pad9 (dec (u64 (tv_nsec t))).

(** util.c:130-135 print_chunk *)
Definition print_chunk (c : pcmChunk) : bytes :=
  str "codec: " ++ dec (codec c) ++ str " play_at: " ++ dec (play_at_tv_sec c) ++ [46] ++
  pad9 (dec (play_at_tv_nsec c)).

(** util.c:25-28 print_ip *)
Definition print_ip `{!HostLib} (addr : Z) : bytes := inet_ntop addr.

(** ** The ring of strings *)

(** util.c:13-13 STRBUFELEMENTS *)
Definition STRBUFELEMENTS : Z := 4.
Definition INET6_ADDRSTRLEN : Z := 46.

(** util.c:14-15 strbuffer, str_bufferoffset *)
Record strbuffers := mkStrs { strbuffer : list bytes; str_bufferoffset : Z }.

(** util.c:14-15 strbuffer: zeroed, as static data is *)
Definition no_strings : strbuffers :=
  mkStrs (replicate (Z.to_nat STRBUFELEMENTS) (zeros (INET6_ADDRSTRLEN + 1))) 0.

(** util.c:33-35 print_timespec: [snprintf] of a text into the next row; all the
    functions that print do this. *)
Definition print_row (n : Z) (text : bytes) (b : strbuffers) : res (Z * strbuffers) :=
  let o := Z.rem (str_bufferoffset b + 1) STRBUFELEMENTS in
  match strbuffer b !! Z.to_nat o with
  | None => Fault OutOfBounds
  | Some row =>
      row ← wr row 0 (take (Z.to_nat (n - 1)) text ++ [0]);
      mret (o, mkStrs (<[Z.to_nat o := row]> (strbuffer b)) o)
  end.

(** The string a pointer into the ring shows. *)
Definition read_row (b : strbuffers) (p : Z) : res bytes :=
  match strbuffer b !! Z.to_nat p with Some row => Ok (cstr row) | None => Fault OutOfBounds end.

(** ** Logging *)

(** A format, with what is not printed by the functions above as text: [PercentS k]
    is a [%s] for the printed argument number [k]. *)
Inductive directive :=
  | Text (s : bytes)
  | PercentS (k : nat).

(** The arguments of a call, evaluated in the given order (which C leaves open):
    where each was printed. *)
Fixpoint eval_args (order : list nat) (args : list bytes) (b : strbuffers)
    : res (gmap nat Z * strbuffers) :=
  match order with
  | [] => mret (∅, b)
  | k :: order =>
      '(p, b) ← print_row INET6_ADDRSTRLEN (default [] (args !! k)) b;
      '(ps, b) ← eval_args order args b;
      mret (<[k := p]> ps, b)
  end.

Fixpoint vfprintf (format : list directive) (ps : gmap nat Z) (b : strbuffers) : res bytes :=
  match format with
  | [] => mret []
  | Text s :: format => rest ← vfprintf format ps b; mret (s ++ rest)
  | PercentS k :: format =>
      match ps !! k with
      | None => Fault OutOfBounds
      | Some p => s ← read_row b p; rest ← vfprintf format ps b; mret (s ++ rest)
      end
  end.

(** util.c:37-46 log_error: the line that is written, for evaluated arguments *)
Definition log_line (now : timespec) (format : list directive) (ps : gmap nat Z) (b : strbuffers)
    : res (bytes * strbuffers) :=
  '(p, b) ← print_row INET6_ADDRSTRLEN (print_timespec now) b;
  prefix ← read_row b p;
  text ← vfprintf format ps b;
  mret (prefix ++ str ": " ++ text, b).

(** util.c:37-46 log_error: a call of it *)
Definition log_error (now : timespec) (format : list directive) (order : list nat) (args : list bytes)
    (b : strbuffers) : res (bytes * strbuffers) :=
  '(ps, b) ← eval_args order args b; log_line now format ps b.

(** util.c:61-73 log_verbose: [verbose] is that of the context; the arguments
    are evaluated in any case. *)
Definition log_verbose (verbose : bool) (now : timespec) (format : list directive) (order : list nat)
    (args : list bytes) (b : strbuffers) : res (bytes * strbuffers) :=
  '(ps, b) ← eval_args order args b;
  if verbose then log_line now format ps b else mret ([], b).

(** util.c:48-60 log_debug: likewise *)
Definition log_debug (debug : bool) (now : timespec) (format : list directive) (order : list nat)
    (args : list bytes) (b : strbuffers) : res (bytes * strbuffers) :=
  '(ps, b) ← eval_args order args b;
  if debug then log_line now format ps b else mret ([], b).

Definition hexdigit_upper (n : Z) : Z := if n <? 10 then 48 + n else 55 + n.

(** util.c:142-146 print_packet: the loop; [i] counts the bytes, [n] the lines. *)
Fixpoint print_packet_bytes (now : nat -> timespec) (n i : nat) (buf : bytes) (b : strbuffers)
    : res (bytes * nat * strbuffers) :=
  match buf with
  | [] => mret ([], n, b)
  | x :: buf =>
      '(space, n, b) ← (if Z.of_nat i mod 4 =? 0
                        then '(l, b) ← log_debug true (now n) [Text (str " ")] [] [] b; mret (l, S n, b)
                        else mret ([], n, b));
      '(l, b) ← log_debug true (now n) [Text [hexdigit_upper (x / 16); hexdigit_upper (x mod 16)]] [] [] b;
      '(ls, n, b) ← print_packet_bytes now (S n) (S i) buf b;
      mret (space ++ l ++ ls, n, b)
  end.

(** util.c:137-148 print_packet: [now] is the clock. *)
Definition print_packet (debug : bool) (now : nat -> timespec) (buf : bytes) (b : strbuffers) : res (bytes * strbuffers) :=
  if debug then
    '(l1, b) ← log_debug true (now 0%nat) [Text (str "Packet: [")] [] [] b;
    '(l2, n, b) ← print_packet_bytes now 1 0 buf b;
    '(l3, b) ← log_debug true (now n) [Text (93 :: [10])] [] [] b;
    mret (l1 ++ l2 ++ l3, b)
  else mret ([], b).

(** Every byte has a time stamp of its own. *)
Lemma print_packet_stamped :
  res_map fst (print_packet true (fun n => mkTime (Z.of_nat n) 0) [1; 171] no_strings) =
    Ok (str "0.000000000: Packet: [1.000000000:  2.000000000: 013.000000000: AB4.000000000: ]" ++ [10]).
Proof. vm_compute. reflexivity. Qed.

(** inputpipe.c:118-120 inputpipe_handle: the arguments of [log_verbose] *)
Definition chunk_read_format (bytes_read : Z) (fname : bytes) (count : Z) (sign : Z) : list directive :=
  [Text (str "read " ++ dec bytes_read ++ str " Bytes of data from " ++ fname ++ str ", last read was " ++
         dec count ++ str ", reader state: "); PercentS 0; Text (str ", to be played at "); PercentS 1;
   Text (str ", current time "); PercentS 2; Text (str ", diff: " ++ (if sign <? 0 then str "-" else str " "));
   PercentS 3; Text [10]].

(** inputpipe.c:118-120 inputpipe_handle: the arguments that are printed *)
Definition chunk_read_args (st : inputpipe_state) (play_at ctime diff : timespec) : list bytes :=
  [print_inputpipe_status st; print_timespec play_at; print_timespec ctime; print_timespec diff].

(** ** Random bytes and the clock *)

(** syscallwrappers.c:13-18 obtainsystime: what [gettimeofday] gives *)
Definition obtainsystime (tv_sec tv_usec : Z) : timespec := mkTime tv_sec (tv_usec * 1000).

(** What a call of [getrandom] does: the bytes it writes, or its error. *)
Inductive random_call :=
  | Random (b : bytes)
  | Enosys
  | RandomError.

(** syscallwrappers.c:20-44 obtainrandom: [rc] is the result of the last call, 0
    at first; the loop ends when it is the number of bytes wanted.  Every call
    fills the buffer from its start.  Where the kernel is not asked often
    enough the loop goes on. *)
Fixpoint obtainrandom (calls : list random_call) (rc : Z) (buf : bytes) (buflen : Z) : res (Z * bytes) :=
  if rc =? buflen then mret (rc, buf)
  else match calls with
       | [] => Fault Diverges
       | Random b :: calls => buf ← wr buf 0 b; obtainrandom calls (Z.of_nat (length b)) buf buflen
       | Enosys :: calls => obtainrandom calls (-1) buf buflen
       | RandomError :: _ => Fault ExitError
       end.

(** ** The end of the program *)

(** How the program ends: with a status, or by [abort]. *)
Inductive ending := Exited (status : Z) | Aborted.

(** error.h:33-42 _exit_error: what is written, [strerror] being that of the C
    library, and how the program ends *)
Definition _exit_error (strerror : Z -> bytes) (status errnum : Z) (message : bytes) : bytes * ending :=
  (message ++ (if errnum =? 0 then [] else str ": " ++ strerror errnum) ++ [10],
   if status =? -1 then Aborted else Exited status).
(** error.h:44-49 exit_errno *)
Definition exit_errno strerror (errno : Z) message : bytes * ending := _exit_error strerror 1 errno message.
(** error.h:51-56 exit_error *)
Definition exit_error strerror message : bytes * ending := _exit_error strerror 1 0 message.
(** error.h:58-63 exit_bug *)
Definition exit_bug strerror message : bytes * ending := _exit_error strerror (-1) 0 message.

(** ** A log line shows its arguments *)

(** A text a row has room for. *)
Definition fits (s : bytes) : Prop := (length s <= 45)%nat /\ 0 ∉ s.

(** The ring: four rows of 47 bytes, and an offset into it. *)
Definition strs_ok (b : strbuffers) : Prop :=
  length (strbuffer b) = 4%nat /\ (forall r, r ∈ strbuffer b -> length r = 47%nat) /\ 0 <= str_bufferoffset b < 4.

Definition shows (b : strbuffers) (p : Z) (s : bytes) : Prop := read_row b p = Ok s.

Lemma no_strings_ok : strs_ok no_strings.
Proof. split; [done|]. split; [|done]. intros r Hr%elem_of_replicate_inv. by subst. Qed.

Lemma cstr_terminated s rest : 0 ∉ s -> cstr (s ++ 0 :: rest) = s.
Proof.
  intros H0. unfold cstr.
  assert (list_find (fun x => x = 0) (s ++ 0 :: rest) = Some (length s, 0)) as ->.
  { apply list_find_Some. split; [by rewrite list_lookup_middle|]. split; [done|].
    intros i x Hx Hi -> . rewrite lookup_app_l in Hx by lia. by apply list_elem_of_lookup_2 in Hx. }
  by rewrite take_app_length.
Qed.

Lemma print_row_ok b s : strs_ok b -> fits s ->
  let o := (str_bufferoffset b + 1) mod 4 in
  exists b', print_row INET6_ADDRSTRLEN s b = Ok (o, b') /\ strs_ok b' /\ str_bufferoffset b' = o /\
    shows b' o s /\ forall p s', 0 <= p -> p <> o -> shows b p s' -> shows b' p s'.
Proof.
  intros (Hl & Hr & Ho) [Hs H0] o. unfold print_row. rewrite Z.rem_mod_nonneg by (unfold STRBUFELEMENTS; lia).
  change STRBUFELEMENTS with 4. fold o. assert (0 <= o < 4) as Ho' by (apply Z.mod_pos_bound; lia).
  destruct (lookup_lt_is_Some_2 (strbuffer b) (Z.to_nat o)) as [row Hrow]; [lia|]. rewrite Hrow.
  pose proof (Hr row (list_elem_of_lookup_2 _ _ _ Hrow)) as Hlr.
  rewrite take_ge by (change (Z.to_nat (INET6_ADDRSTRLEN - 1)) with 45%nat; lia).
  assert (wr row 0 (s ++ [0]) = Ok ((s ++ [0]) ++ drop (length s + 1) row)) as E.
  { rewrite <- (take_drop (length s + 1) row) at 1.
    pose proof (wr_app [] (take (length s + 1) row) (s ++ [0]) (drop (length s + 1) row) 0 eq_refl) as E. simpl in E.
    apply E. rewrite length_take, length_app. simpl. lia. }
  rewrite E. simpl. eexists. split; [done|]. split; [|split; [done|split]].
  - split; simpl; [by rewrite length_insert|]. split; [|done].
    intros r [j Hj]%list_elem_of_lookup. apply list_lookup_insert_Some in Hj as [(_ & <- & _)|(_ & Hj)].
    + rewrite !length_app, length_drop. simpl. lia.
    + by apply Hr, (list_elem_of_lookup_2 _ j).
  - unfold shows, read_row. simpl. rewrite list_lookup_insert_eq by lia.
    rewrite <- app_assoc. simpl. by rewrite cstr_terminated.
  - intros p s' Hp Hne. unfold shows, read_row. simpl. by rewrite list_lookup_insert_ne by lia.
Qed.

(** The row of the [i]-th text printed after the offset [o]. *)
Definition row_after (o : Z) (i : nat) : Z := (o + 1 + Z.of_nat i) mod 4.

Lemma row_after_range o i : 0 <= row_after o i < 4.
Proof. apply Z.mod_pos_bound. lia. Qed.

Lemma row_after_next o i : row_after ((o + 1) mod 4) i = row_after o (S i).
Proof.
  unfold row_after. rewrite <- Z.add_assoc, Zplus_mod_idemp_l. f_equal. lia.
Qed.

Lemma row_after_ne o i j : (i < j < i + 4)%nat -> row_after o i <> row_after o j.
Proof.
  unfold row_after. intros Hij E.
  pose proof (Z.div_mod (o + 1 + Z.of_nat i) 4). pose proof (Z.div_mod (o + 1 + Z.of_nat j) 4). lia.
Qed.

(** Evaluating at most four arguments: each is in its row, and the rows they do
    not take are left alone. *)
Lemma eval_args_ok args order b : (length order <= 4)%nat -> NoDup order -> strs_ok b ->
  (forall k, k ∈ order -> fits (default [] (args !! k))) ->
  exists ps b', eval_args order args b = Ok (ps, b') /\ strs_ok b' /\
    str_bufferoffset b' = (str_bufferoffset b + Z.of_nat (length order)) mod 4 /\
    (forall i k, order !! i = Some k ->
      ps !! k = Some (row_after (str_bufferoffset b) i) /\
      shows b' (row_after (str_bufferoffset b) i) (default [] (args !! k))) /\
    (forall p s, 0 <= p -> (forall i, (i < length order)%nat -> p <> row_after (str_bufferoffset b) i) ->
      shows b p s -> shows b' p s).
Proof.
  revert b. induction order as [|k order IH]; intros b Hl Hnd Hok Hfit.
  { exists ∅, b. pose proof (proj2 (proj2 Hok)). split; [done|]. split; [done|]. split; [|done].
    simpl. rewrite Z.add_0_r. symmetry. by apply Z.mod_small. }
  apply NoDup_cons in Hnd as [Hk Hnd]. simpl in Hl.
  destruct (print_row_ok b (default [] (args !! k)) Hok) as (b1 & E1 & Hok1 & Ho1 & Hs1 & Hk1); [apply Hfit; left|].
  destruct (IH b1) as (ps & b2 & E2 & Hok2 & Ho2 & Hs2 & Hk2); [lia|done|done|intros; apply Hfit; by right|].
  assert (forall i, row_after (str_bufferoffset b1) i = row_after (str_bufferoffset b) (S i)) as Hra.
  { intros i. by rewrite Ho1, row_after_next. }
  assert ((str_bufferoffset b + 1) mod 4 = row_after (str_bufferoffset b) 0) as Hr0 by (unfold row_after; f_equal; lia).
  exists (<[k := row_after (str_bufferoffset b) 0]> ps), b2.
  split; [unfold eval_args; fold eval_args; rewrite E1; simpl; rewrite E2, Hr0; done|]. split; [done|]. split.
  { rewrite Ho2, Ho1, Zplus_mod_idemp_l. f_equal. simpl. lia. }
  split.
  - intros [|i] k' Hi; simpl in Hi.
    + injection Hi as <-. rewrite lookup_insert_eq. split; [done|]. apply Hk2; [apply row_after_range| |by rewrite <- Hr0].
      intros i Hi. rewrite Hra. apply row_after_ne. lia.
    + destruct (Hs2 i k' Hi) as [Hp Hsh]. rewrite Hra in Hp, Hsh. split; [|done].
      rewrite lookup_insert_ne; [done|]. intros ->. apply Hk. by eapply list_elem_of_lookup_2.
  - intros p s Hp Hne Hsh. apply Hk2; [done| |].
    + intros i Hi. rewrite Hra. apply Hne. simpl. lia.
    + apply Hk1; [done| |done]. rewrite Hr0. apply Hne. simpl. lia.
Qed.

(** What a format says with the given strings for its arguments. *)
Definition text_of (args : list bytes) (d : directive) : bytes :=
  match d with Text s => s | PercentS k => default [] (args !! k) end.
Definition intended (format : list directive) (args : list bytes) : bytes := concat (text_of args <$> format).

(** A format that has no [%s] for an argument that is not given. *)
Definition well_formed (format : list directive) (n : nat) : Prop :=
  Forall (fun d => match d with Text _ => True | PercentS k => (k < n)%nat end) format.

Lemma vfprintf_ok format args ps b : well_formed format (length args) ->
  (forall k s, args !! k = Some s -> exists p, ps !! k = Some p /\ shows b p s) ->
  vfprintf format ps b = Ok (intended format args).
Proof.
  intros Hf Hps. unfold intended. induction Hf as [|d format Hd _ IH]; [done|].
  destruct d as [s|k]; cbn [vfprintf fmap list_fmap concat text_of]; rewrite ?IH; [done|].
  destruct (lookup_lt_is_Some_2 args k Hd) as [s Hs]. destruct (Hps k s Hs) as (p & -> & Hsh).
  rewrite Hs. unfold shows in Hsh. simpl. by rewrite Hsh.
Qed.

Lemma digits_fit f n : 0 <= n -> Forall (fun x => 48 <= x <= 57) (digits f n) /\ (length (digits f n) <= f)%nat.
Proof.
  revert n. induction f as [|f IH]; intros n Hn; [done|]. cbn [digits].
  pose proof (Z.mod_pos_bound n 10). pose proof (Z.div_pos n 10).
  destruct (IH (n / 10)) as [H1 H2]; [lia|]. rewrite length_app. simpl.
  destruct (n <? 10); (split; [|simpl; lia]); [|apply Forall_app; split; [done|]]; repeat constructor; lia.
Qed.

Lemma digits_short f n k : 0 <= n < 10 ^ Z.of_nat k -> (1 <= k)%nat -> (length (digits f n) <= k)%nat.
Proof.
  revert n k. induction f as [|f IH]; intros n k Hn Hk; simpl; [lia|]. rewrite length_app. simpl.
  destruct (Z.ltb_spec n 10); [simpl; lia|].
  assert (k <> 1)%nat by (intros ->; simpl in Hn; lia).
  specialize (IH (n / 10) (k - 1)%nat). pose proof (Z.div_pos n 10).
  assert (n / 10 < 10 ^ Z.of_nat (k - 1)).
  { apply Z.div_lt_upper_bound; [lia|]. rewrite <- Z.pow_succ_r by lia.
    assert (Z.succ (Z.of_nat (k - 1)) = Z.of_nat k) as -> by lia. apply Hn. }
  lia.
Qed.

Lemma digits_no_0 l : Forall (fun x => 48 <= x <= 57) l -> 0 ∉ l.
Proof. intros H H0. rewrite Forall_forall in H. specialize (H 0 H0). lia. Qed.

Lemma no_byte x (l : bytes) : bool_decide (x ∈ l) = false -> x ∉ l.
Proof. apply bool_decide_eq_false_1. Qed.

Lemma dec_fits n k : 0 <= n < 10 ^ Z.of_nat k -> (1 <= k)%nat -> (0 ∉ dec n) /\ (length (dec n) <= k)%nat.
Proof.
  intros Hn Hk. unfold dec. rewrite (proj2 (Z.ltb_ge n 0)) by lia.
  split; [apply digits_no_0, digits_fit; lia|by apply digits_short].
Qed.

Lemma pad9_fits s k : 0 ∉ s -> (length s <= k)%nat -> (9 <= k)%nat -> (0 ∉ pad9 s) /\ (length (pad9 s) <= k)%nat.
Proof.
  intros H0 Hl Hk. unfold pad9. rewrite length_app, length_replicate. split; [|lia].
  rewrite elem_of_app. intros [[? _]%elem_of_replicate|?]; done.
Qed.

Lemma print_timespec_fits t : fits (print_timespec t).
Proof.
  unfold print_timespec, fits. rewrite !length_app, !elem_of_app.
  assert (forall x, 0 <= u64 x < 10 ^ Z.of_nat 20) as Hu.
  { intros x. pose proof (u64_range x). change (10 ^ Z.of_nat 20) with 100000000000000000000. lia. }
  destruct (dec_fits _ 20 (Hu (tv_sec t))) as [? ?]; [lia|]. destruct (dec_fits _ 20 (Hu (tv_nsec t))) as [Hn ?]; [lia|].
  destruct (pad9_fits (dec (u64 (tv_nsec t))) 20) as [? ?]; [done|done|lia|].
  simpl length. split; [lia|]. intros [?|[?%list_elem_of_singleton|?]]; done.
Qed.

Lemma print_chunk_fits c : 0 <= codec c < 256 -> 0 <= play_at_tv_sec c < 2 ^ 32 -> 0 <= play_at_tv_nsec c < 2 ^ 32 ->
  fits (print_chunk c).
Proof.
  intros Hc Hs Hn. unfold print_chunk, fits. rewrite !length_app, !elem_of_app.
  destruct (dec_fits (codec c) 3) as [? ?]; [simpl; lia|lia|].
  destruct (dec_fits (play_at_tv_sec c) 10) as [? ?]; [simpl; lia|lia|].
  destruct (dec_fits (play_at_tv_nsec c) 10) as [? ?]; [simpl; lia|lia|].
  destruct (pad9_fits (dec (play_at_tv_nsec c)) 10) as [? ?]; [done|done|lia|].
  split; [simpl; lia|]. intros [Hx|[?|[Hx|[?|[Hx|?]]]]]; try done; revert Hx; by apply no_byte.
Qed.

Lemma print_state_fits st : fits (print_inputpipe_status st).
Proof. by destruct st; (split; [simpl; lia|by apply no_byte]). Qed.

(** A log line with at most four printed arguments; the fourth takes the last
    row, so that the time is printed over the one that was evaluated first. *)
Definition shown (now : timespec) (order : list nat) (args : list bytes) : list bytes :=
  match order with
  | [k; _; _; _] => <[k := print_timespec now]> args
  | _ => args
  end.

Lemma length_shown now order args : length (shown now order args) = length args.
Proof. unfold shown. destruct order as [|? [|? [|? [|? []]]]]; try done. by rewrite length_insert. Qed.

Lemma log_error_shown now format order args b :
  strs_ok b -> order ≡ₚ seq 0 (length args) -> (length args <= 4)%nat -> Forall fits args ->
  well_formed format (length args) ->
  exists b', log_error now format order args b =
    Ok (print_timespec now ++ str ": " ++ intended format (shown now order args), b') /\ strs_ok b'.
Proof.
  intros Hok Ho Hl Hfit Hf. pose proof (Permutation_length Ho) as Hlo. rewrite length_seq in Hlo.
  assert (forall k, k ∈ order -> (k < length args)%nat) as Hin by (intros k; rewrite Ho, elem_of_seq; lia).
  destruct (eval_args_ok args order b) as (ps & b1 & E1 & Hok1 & Ho1 & Hs1 & _); [lia| |done| |].
  { rewrite Ho. apply NoDup_seq. }
  { intros k Hk. destruct (lookup_lt_is_Some_2 args k (Hin k Hk)) as [s Hs]. rewrite Hs. simpl.
    rewrite Forall_lookup in Hfit. by eapply Hfit. }
  destruct (print_row_ok b1 (print_timespec now) Hok1 (print_timespec_fits now)) as (b2 & E2 & Hok2 & _ & Ht & Hk2).
  unfold log_error. rewrite E1. simpl. unfold log_line. rewrite E2. simpl. unfold shows in Ht at 1. rewrite Ht. simpl.
  assert ((str_bufferoffset b1 + 1) mod 4 = row_after (str_bufferoffset b) (length order)) as Hrow.
  { rewrite Ho1, Zplus_mod_idemp_l. unfold row_after. f_equal. lia. }
  rewrite (vfprintf_ok format (shown now order args)); [by eexists| |].
  { by rewrite length_shown. }
  intros k s Hk.
  assert (k ∈ order) as [i Hi]%list_elem_of_lookup.
  { rewrite Ho, elem_of_seq. apply lookup_lt_Some in Hk. rewrite length_shown in Hk. lia. }
  destruct (Hs1 i k Hi) as [Hp Hsh]. exists (row_after (str_bufferoffset b) i). split; [done|].
  pose proof (lookup_lt_Some _ _ _ Hi) as Hlt. rewrite Hlo in Hrow.
  destruct (decide (length args = 4%nat /\ i = 0%nat)) as [[H4 ->]|Hne].
  - destruct order as [|k0 [|k1 [|k2 [|k3 []]]]]; simpl in Hlo; try lia. simpl in Hi. injection Hi as ->.
    unfold shown in Hk. rewrite list_lookup_insert_eq in Hk by (apply Hin; left). injection Hk as <-.
    replace (row_after (str_bufferoffset b) 0) with ((str_bufferoffset b1 + 1) mod 4); [done|].
    rewrite Hrow, H4. unfold row_after. rewrite <- (Z_mod_plus_full (_ + Z.of_nat 0) 1). f_equal. lia.
  - apply Hk2; [apply row_after_range| |].
    { rewrite Hrow. apply row_after_ne. lia. }
    assert (args !! k = Some s) as Hk'; [|by rewrite Hk' in Hsh].
    unfold shown in Hk. destruct order as [|k0 [|k1 [|k2 [|k3 []]]]]; try done.
    rewrite list_lookup_insert_ne in Hk; [done|]. intros ->. apply Hne. simpl in Hlo. split; [done|].
    assert (NoDup [k; k1; k2; k3]) as Hnd by (rewrite Ho; apply NoDup_seq).
    by apply (NoDup_lookup _ i 0%nat k Hnd).
Qed.

(** C37: a log line shows its arguments: the time, a colon, and the text of the
    format with the strings that were printed for the call, in whatever order its
    arguments are evaluated, as long as at most three of them are printed; with
    four the time stands in the place of the one that was evaluated first. *)
Theorem log_shows now format order args b :
  strs_ok b -> order ≡ₚ seq 0 (length args) -> Forall fits args -> well_formed format (length args) ->
  ((length args <= 3)%nat -> exists b', strs_ok b' /\
    log_error now format order args b = Ok (print_timespec now ++ str ": " ++ intended format args, b')) /\
  (forall k, length args = 4%nat -> head order = Some k -> exists b', strs_ok b' /\
    log_error now format order args b =
      Ok (print_timespec now ++ str ": " ++ intended format (<[k := print_timespec now]> args), b')).
Proof.
  intros Hok Ho Hfit Hf. pose proof (Permutation_length Ho) as Hlo. rewrite length_seq in Hlo. split.
  - intros Hl. destruct (log_error_shown now format order args b) as (b' & E & Hb); [done|done|lia|done|done|].
    exists b'. split; [done|]. rewrite E. unfold shown. destruct order as [|? [|? [|? [|? []]]]]; done || (simpl in Hlo; lia).
  - intros k Hl Hk. destruct (log_error_shown now format order args b) as (b' & E & Hb); [done|done|lia|done|done|].
    exists b'. split; [done|]. rewrite E. destruct order as [|? [|? [|? [|? []]]]]; simpl in Hlo; try lia. by injection Hk as ->.
Qed.

Lemma log_shows_witness :
  let late := mkTime 1 2 in let due := mkTime 3 4 in
  exists b', strs_ok b' /\ log_error (mkTime 5 6) [Text (str "late "); PercentS 0; Text (str " at "); PercentS 1] [1%nat; 0%nat]
    [print_timespec late; print_timespec due] no_strings = Ok (str "5.000000006: late 1.000000002 at 3.000000004", b').
Proof.
  intros late due.
  destruct (log_shows (mkTime 5 6) [Text (str "late "); PercentS 0; Text (str " at "); PercentS 1] [1%nat; 0%nat]
    [print_timespec late; print_timespec due] no_strings) as [H _].
  - apply no_strings_ok.
  - apply perm_swap.
  - rewrite !Forall_cons. eauto using print_timespec_fits.
  - repeat constructor; lia.
  - destruct H as (b' & Hb & E); [simpl; lia|]. exists b'. split; [exact Hb|]. rewrite E. vm_compute. reflexivity.
Defined.

(** The line about a chunk that was read has four: one of the state, the time
    of play, the time and the difference is replaced by the time of the line. *)
Lemma chunk_read_garbled now bytes_read fname count sign order st play_at ctime diff b :
  strs_ok b -> order ≡ₚ [0%nat; 1%nat; 2%nat; 3%nat] ->
  exists k b', head order = Some k /\
    log_verbose true now (chunk_read_format bytes_read fname count sign) order
      (chunk_read_args st play_at ctime diff) b =
    Ok (print_timespec now ++ str ": " ++ intended (chunk_read_format bytes_read fname count sign)
      (<[k := print_timespec now]> (chunk_read_args st play_at ctime diff)), b').
Proof.
  intros Hok Ho. pose proof (Permutation_length Ho) as Hlo.
  destruct (log_error_shown now (chunk_read_format bytes_read fname count sign) order
    (chunk_read_args st play_at ctime diff) b) as (b' & E & _); [done|done|simpl; lia| | |].
  - unfold chunk_read_args. rewrite !Forall_cons. eauto using print_timespec_fits, print_state_fits.
  - repeat constructor; simpl; lia.
  - destruct order as [|k [|? [|? [|? []]]]]; try done. exists k, b'. split; [done|]. exact E.
Qed.

(** ** Random bytes *)

(** Calls that the loop repeats: without the system call, or with too few bytes. *)
Definition repeated (buflen : Z) (c : random_call) : Prop :=
  match c with Enosys => True | Random b => Z.of_nat (length b) < buflen | RandomError => False end.

(** [obtainrandom] fills the buffer with the bytes of the first call that
    gives all of them: what shorter calls wrote is overwritten from the start,
    and nothing behind the bytes wanted is touched. *)
Theorem obtainrandom_fills skipped b rest buf buflen rc :
  Forall (repeated buflen) skipped -> Z.of_nat (length b) = buflen -> rc <> buflen ->
  buflen <= Z.of_nat (length buf) -> 0 < buflen ->
  obtainrandom (skipped ++ Random b :: rest) rc buf buflen = Ok (buflen, b ++ drop (length b) buf).
Proof.
  intros Hs Hb Hrc Hbuf Hpos. revert rc buf Hrc Hbuf. induction Hs as [|c skipped Hc _ IH]; intros rc buf Hrc Hbuf.
  - simpl. rewrite (proj2 (Z.eqb_neq _ _) Hrc). pose proof (wr_next [] buf 0 b eq_refl) as E. simpl in E.
    rewrite E by lia. simpl. rewrite Hb. destruct rest; simpl; by rewrite Z.eqb_refl.
  - simpl. rewrite (proj2 (Z.eqb_neq _ _) Hrc). destruct c as [s| |]; [|apply IH; [lia|done]|done].
    simpl in Hc. pose proof (wr_next [] buf 0 s eq_refl) as E. simpl in E. rewrite E by lia. simpl.
    rewrite IH; [|lia|rewrite length_app, length_drop; lia]. do 2 f_equal.
    rewrite drop_app_ge by lia. rewrite drop_drop. do 2 f_equal. lia.
Qed.

Lemma obtainrandom_fills_witness :
  obtainrandom [Enosys; Random [9]; Random [1; 2]] 0 [7; 7; 7] 2 = Ok (2, [1; 2; 7]).
Proof.
  apply (obtainrandom_fills [Enosys; Random [9]] [1; 2] [] [7; 7; 7] 2 0); simpl; try lia.
  repeat constructor.
Defined.
