(* ===== verification/Control.v ===== *)
(** * socket.c: the control connections of the server

    Line buffering, the dispatch of the requests, and the replies.  What is
    written to a connection is appended to [replies].  The address of a host and
    the name of this one are printed by the C library ([HostLib]). *)
From Stdlib Require Import Ascii String.
From S2P Require Import Prelude.
From S2P Require Import Timespec.
From S2P Require Import Bytes.
From S2P Require Import PcmChunk.
From S2P Require Import TaskHeap.
From S2P Require Import TaskSched.
From S2P Require Import Intercom.
From S2P Require Import ServerState.
From S2P Require Import InputPipe.
From S2P Require Import ClientMgr.
From S2P Require Import CString.
From S2P Require Import JsonRpc.
From S2P Require Import Util.

(** What the union of a parameter shows as an [int] when another member was
    stored: the first bytes of a pointer or of a double, or old memory. *)
Class UnionLib (J : Type) := { union_number : value J -> Z }.

(** ** Replies *)

(** version.h.in: [SOURCE_VERSION] *)
Definition SOURCE_VERSION : bytes := str "0.0.1".

Section control.
Context {Q Dec Enc J : Type} `{!TimerQueue Q, !OpusLib Dec Enc, !JsonLib J, !HostLib, !UnionLib J}.
Abbreviation W := (server Q Dec Enc).

Definition upd_control (f : control -> control) : M W unit :=
  modify (fun w => set_control (f (control_ctx w)) w).
Definition with_sclients l (x : control) := mkControl l (replies x) (hostnames x).
Definition with_replies r (x : control) := mkControl (sclients x) r (hostnames x).

(** An object with the given members, in this order. *)
Definition jobject (l : list (bytes * J)) : J :=
  fold_left (fun o kv => json_object_object_add o kv.1 kv.2) l json_object_new_object.
Definition jarray (l : list J) : J := fold_left json_object_array_add l json_object_new_array.
Definition jstr (b : bytes) : J := json_object_new_string b.
Definition jint (n : Z) : J := json_object_new_int (s32 n).
Definition jbool (b : bool) : J := json_object_new_boolean b.

(** ** The status of the server *)

(** socket.c:46-50 json_object_print_and_put *)
Definition json_object_print_and_put (fd : Z) (obj : J) : M W unit :=
  upd_control (fun x => with_replies (replies x ++ [(fd, json_object_to_json_string false obj ++ [13; 10])]) x).

(** socket.c:52-58 json_build_host *)
Definition json_build_host (arch ip mac name os : bytes) : J :=
  jobject [(str "arch", jstr arch); (str "ip", jstr ip); (str "mac", jstr mac); (str "name", jstr name);
           (str "os", jstr os)].

(** socket.c:60-64 jsonrpc_buildresult *)
Definition jsonrpc_buildresult (id : Z) (result : J) : J :=
  jobject [(str "id", jint id); (str "jsonrpc", jstr (str "2.0")); (str "result", result)].

(** socket.c:73-76 group_get_id *)
Definition group_get_id (s : stream Dec Enc) : bytes := str "2427bc26-e219-8d33-901c-20493f46eb42".

(** socket.c:82-85 json_add_time *)
Definition json_add_time (t : timespec) : J :=
  jobject [(str "sec", jint (tv_sec t)); (str "usec", jint (Z.quot (tv_nsec t) 1000))].

(** socket.c:90-126 json_add_group: one client *)
Definition json_client (c : sclient) : J :=
  let volume := jobject [(str "muted", jbool (muted c)); (str "percent", jint (volume_percent c))] in
  let config := jobject [(str "instance", jint 1); (str "latency", jint (latency c));
                         (str "name", jstr []); (str "volume", volume)] in
  let host := json_build_host (str "unknown") (inet_ntop (ip c)) (print_mac (mac (ident c)))
                (cname (ident c)) (str "unknown") in
  let snapclient := jobject [(str "name", jstr (str "Snapclient"));
                             (str "protocolVersion", jint (protoversion c));
                             (str "version", jstr (str "unknown"))] in
  jobject [(str "config", config); (str "connected", jbool (connected c)); (str "host", host);
           (str "id", jint (id c)); (str "lastSeen", json_add_time (lastseen c));
           (str "snapclient", snapclient)].

(** socket.c:87-134 json_add_group: the clients from the last to the first *)
Definition json_add_group (s : stream Dec Enc) : J :=
  jobject [(str "clients", jarray (json_client <$> reverse (clients s))); (str "id", jstr (group_get_id s));
           (str "muted", jbool false); (str "name", jstr (name s)); (str "stream_id", jstr (name s))].

(** socket.c:136-147 json_add_groups *)
Definition json_add_groups (ss : list (stream Dec Enc)) : J := jarray (json_add_group <$> ss).

(** socket.c:153-184 json_build_serverstatus_streams: one stream *)
Definition json_stream (s : stream Dec Enc) : J :=
  let x := inputpipe s in
  let format := take 19 (dec (ip_samples x) ++ [58] ++ dec (samplesize x * 8) ++ [58] ++ dec (ip_channels x)) in
  let query := jobject [(str "buffer_ms", jint (read_ms x)); (str "codec", jstr (print_codec (s_codec (opts s))));
                        (str "name", jstr (name s)); (str "sampleformat", jstr format)] in
  let uri := jobject [(str "fragment", jstr []); (str "host", jstr []); (str "path", jstr (fname x));
                      (str "query", query); (str "raw", jstr (raw (opts s)));
                      (str "scheme", jstr (print_stream_protocol (protocol (opts s))))] in
  jobject [(str "id", jstr (name s)); (str "meta", jobject [(str "STREAM", jstr (name s))]);
           (str "status", jstr (print_inputpipe_status (state x))); (str "uri", uri)].

(** socket.c:149-187 json_build_serverstatus_streams: from the last to the first *)
Definition json_build_serverstatus_streams (ss : list (stream Dec Enc)) : J :=
  jarray (json_stream <$> reverse ss).

(** socket.c:189-208 json_build_serverstatus_server *)
Definition json_build_serverstatus_server : J :=
  let host := json_build_host (str "unknown_arch") [] [] gethostname (str "Linux") in
  let snapserver := jobject [(str "controlProtocolVersion", jint 1); (str "name", jstr (str "Snapserver"));
                             (str "protocolVersion", jint PACKET_FORMAT_VERSION);
                             (str "version", jstr SOURCE_VERSION)] in
  jobject [(str "host", host); (str "snapserver", snapserver)].

(** socket.c:210-216 json_build_serverstatus *)
Definition json_build_serverstatus (ss : list (stream Dec Enc)) : J :=
  jobject [(str "server", jobject [(str "groups", json_add_groups ss);
    (str "server", json_build_serverstatus_server); (str "streams", json_build_serverstatus_streams ss)])].

(** socket.c:218-225 handle_server_getstatus *)
Definition handle_server_getstatus (request : jsonrpc_request J) (fd : Z) : M W unit :=
  ss ← gets streams;
  json_object_print_and_put fd (jsonrpc_buildresult (r_id request) (json_build_serverstatus ss)).

(** socket.c:227-237 handle_GetRPCVersion *)
Definition handle_GetRPCVersion (request : jsonrpc_request J) (fd : Z) : M W unit :=
  json_object_print_and_put fd (jsonrpc_buildresult (r_id request)
    (jobject [(str "major", jstr (str "0")); (str "minor", jstr (str "0")); (str "patch", jstr (str "1"))])).

(** ** Requests that change something *)

Definition value_number (v : value J) : Z := match v with VInt n => n | v => union_number v end.

(** A string is read through the pointer in the union; another member is not a
    pointer to a string. *)
Definition value_string (v : value J) : res bytes :=
  match v with VString s => Ok s | VJson s => Ok s | _ => Fault OutOfBounds end.

(** socket.c:267-284 handle_client_setstream: the loop over the parameters, from
    the last to the first *)
Fixpoint setstream_params (ps : list (parameter J)) (client : option (nat * nat)) (newstream : option nat)
  : M W (option (nat * nat) * option nat) :=
  match ps with
  | [] => mret (client, newstream)
  | p :: ps =>
      if strncmp_eq 2 (p_name p) (str "id") then
        client ← find_client (u16 (value_number (p_value p)));
        match client with
        | None => mret (None, newstream)
        | Some _ => setstream_params ps client newstream
        end
      else if strncmp_eq 9 (p_name p) (str "stream_id") then
        n ← lift (value_string (p_value p));
        newstream ← stream_find_name n;
        match newstream with
        | None => mret (client, None)
        | Some _ => setstream_params ps client newstream
        end
      else setstream_params ps client newstream
  end.

(** socket.c:288-296 handle_client_setstream: moving the client; the id that is
    reported is read from the client's place in the old stream after the removal,
    where the next client is now. *)
Definition move_client (i j new : nat) : M W Z :=
  c ← the_client i j;
  cur ← stream_find (id c);
  cs ← the_stream (default i cur);
  ns ← the_stream new;
  if negb (is_prefix (name cs) (name ns)) then
    intercom_stop_client c ;;
    stream_client_add new c ;;
    stream_client_remove (default i cur) j ;;
    cs ← the_stream i;
    mret (default (id c) (id <$> clients cs !! j))
  else mret (id c).

(** socket.c:260-301 handle_client_setstream *)
Definition handle_client_setstream (request : jsonrpc_request J) (fd : Z) : M W unit :=
  '(client, newstream) ← setstream_params (reverse (parameters request)) None None;
  result ←
    match client, newstream with
    | Some (i, j), Some new =>
        cid ← move_client i j new;
        ns ← the_stream new;
        mret (jobject [(str "stream", jstr (name ns)); (str "client", jint cid)])
    | _, _ => mret json_object_new_object
    end;
  json_object_print_and_put fd (jsonrpc_buildresult (r_id request) result).

(** What the parameters of a volume request ask for. *)
Record volume_request := mkVreq { v_client : option (nat * nat); v_percent : option J; v_mute : option J }.

(** An object that was found, if it is not null. *)
Definition found (j : option J) : option J :=
  match j with Some j => if nonnull j then Some j else None | None => None end.

(** socket.c:314-347 handle_client_setvolume: the loop over the parameters; the
    flag tells whether the volume object could not be used, and only the reply
    is left to do.  When the object has a percentage, the right operand of
    [&&] is not evaluated and [mute] stays null. *)
Fixpoint setvolume_params (ps : list (parameter J)) (v : volume_request) : M W (bool * volume_request) :=
  match ps with
  | [] => mret (false, v)
  | p :: ps =>
      if strncmp_eq 2 (p_name p) (str "id") then
        client ← find_client (u16 (value_number (p_value p)));
        let v := mkVreq client (v_percent v) (v_mute v) in
        match client with
        | None => mret (false, v)
        | Some _ => setvolume_params ps v
        end
      else if strncmp_eq 6 (p_name p) (str "volume") then
        text ← lift (value_string (p_value p));
        match found (json_tokener_parse text) with
        | None => mret (true, v)
        | Some jobj =>
            match json_object_object_get_ex jobj (str "percent") with
            | Some vol => setvolume_params ps (mkVreq (v_client v) (found (Some vol)) (v_mute v))
            | None =>
                match json_object_object_get_ex jobj (str "muted") with
                | Some m => setvolume_params ps (mkVreq (v_client v) None (found (Some m)))
                | None => mret (true, mkVreq (v_client v) None None)
                end
            end
        end
      else setvolume_params ps v
  end.

(** socket.c:349-358 handle_client_setvolume: obeying the request *)
Definition apply_volume (v : volume_request) : M W unit :=
  match v_client v with
  | None => skip
  | Some (i, j) =>
      (match v_percent v with
       | Some p =>
           c ← the_client i j;
           clientmgr_client_refreshvolume c (json_object_get_int p) ;;
           upd_client i j (with_volume (u8 (json_object_get_int p)))
       | None => skip
       end) ;;
      (match v_mute v with
       | Some m =>
           clientmgr_client_setmute i j (json_object_get_boolean m) ;;
           upd_client i j (with_muted (json_object_get_boolean m))
       | None => skip
       end)
  end.

(** socket.c:303-371 handle_client_setvolume: its result is not used. *)
Definition handle_client_setvolume (request : jsonrpc_request J) (fd : Z) : M W unit :=
  '(failed, v) ← setvolume_params (reverse (parameters request)) (mkVreq None None None);
  (if failed : bool then skip else apply_volume v) ;;
  volume ←
    match v_client v with
    | Some (i, j) =>
        c ← the_client i j;
        mret (jobject [(str "muted", jbool (muted c)); (str "percent", jint (volume_percent c))])
    | None => mret json_object_new_object
    end;
  json_object_print_and_put fd (jsonrpc_buildresult (r_id request) (jobject [(str "volume", volume)])).

(** socket.c:373-387 handle_request *)
Definition handle_request (request : jsonrpc_request J) (fd : Z) : M W Z :=
  (if strncmp_eq 20 (method request) (str "Server.GetRPCVersion") then handle_GetRPCVersion request fd
   else if strncmp_eq 16 (method request) (str "Client.SetStream") then handle_client_setstream request fd
   else if strncmp_eq 16 (method request) (str "Client.SetVolume") then handle_client_setvolume request fd
   else if strncmp_eq 16 (method request) (str "Server.GetStatus") then handle_server_getstatus request fd
   else skip) ;;
  mret 1.

(** ** Connections *)

(** What [read] on a connection returns. *)
Inductive sock_input := SockError (again : bool) | SockData (b : bytes).

(** socket.c:394-412 handle_line *)
Definition handle_line (sc : socketclient) : M W Z :=
  let s := cstr (line sc) in
  if Z.of_nat (length s) =? 0 then mret 0
  else
    jreq ← lift (jsonrpc_parse_string s);
    match jreq with
    | None => mret 0
    | Some jreq => handle_request jreq (sc_fd sc)
    end.

Definition is_newline (x : Z) : Prop := x = 10 \/ x = 13.
#[export] Instance is_newline_dec x : Decision (is_newline x).
Proof. unfold is_newline. apply _. Defined.

(** socket.c:423-424 socket_handle_client: whether there is a line end from
    [offset] on, up to the last byte but one of the buffer *)
Definition has_line_end (l : bytes) (offset : Z) : bool :=
  existsb (fun x => bool_decide (is_newline x))
    (drop (Z.to_nat offset) (take (Z.to_nat (LINEBUFFER_SIZE - 1)) l)).

Definition upd_sock (k : nat) (sc : socketclient) : M W unit :=
  upd_control (fun x => with_sclients (<[k := sc]> (sclients x)) x).

(** socket.c:414-456 socket_handle_client: [k] is the connection's index. *)
Definition socket_handle_client (k : nat) (r : sock_input) : M W Z :=
  l ← gets (fun w => sclients (control_ctx w));
  match l !! k with
  | None => fail OutOfBounds
  | Some sc =>
      let off := line_offset sc in
      if off <? LINEBUFFER_SIZE then
        match r with
        | SockError again => mret (if again then 0 else -1)
        | SockData b =>
            let b := take (Z.to_nat (LINEBUFFER_SIZE - off - 1)) b in
            let len := Z.of_nat (length b) in
            if len =? 0 then mret (-1)
            else
              ln ← lift (wr (line sc) off b);
              if has_line_end ln off then
                ln ← lift (wr8 ln (off + len) 0);
                ret ← handle_line (mkSock (sc_fd sc) ln off);
                (if ret <? 0 then mret (-1)
                 else
                   ln ← lift (wr8 ln 0 0);
                   upd_sock k (mkSock (sc_fd sc) ln 0) ;;
                   mret 0)
              else upd_sock k (mkSock (sc_fd sc) ln (off + len)) ;; mret 0
        end
      else mret (-1)
  end.

(** socket.c:458-469 socket_get_client: the index of the last connection with
    the descriptor *)
Definition socket_get_client (fd : Z) : M W (option nat) :=
  l ← gets (fun w => sclients (control_ctx w));
  mret (fst <$> last (filter (fun r => sc_fd r.2 = fd) (imap pair l))).

(** socket.c:389-392 socket_client_remove: closing the descriptor *)
Definition socket_client_remove (k : nat) : M W unit :=
  l ← gets (fun w => sclients (control_ctx w));
  match l !! k with
  | None => fail OutOfBounds
  | Some sc =>
      modify (fun w => set_efd (efd w ∖ {[sc_fd sc]}) w) ;;
      upd_control (fun x => with_sclients (delete k (sclients x)) x)
  end.

(** socket.c:471-487 socket_handle_in: [accepted] is the result of [accept];
    making -1 non-blocking fails. *)
Definition socket_handle_in (accepted : Z) : M W Z :=
  if accepted =? -1 then fail ExitError
  else
    upd_control (fun x => with_sclients (sclients x ++ [mkSock accepted (zeros LINEBUFFER_SIZE) 0]) x) ;;
    mret accepted.
End control.

(** A JSON library that knows null only, and a host without names. *)
#[export] Instance no_json : JsonLib unit := {|
  json_tokener_parse _ := None; json_object_object_get_ex _ _ := None;
  json_object_get_type _ := json_type_null; json_object_get_int _ := 0; json_object_get_boolean _ := false;
  json_object_get_string _ := []; json_object_to_json_string _ _ := str "null"; json_object_members _ := [];
  json_object_new_object := tt; json_object_new_array := tt; json_object_new_int _ := tt;
  json_object_new_boolean _ := tt; json_object_new_string _ := tt; json_object_object_add _ _ _ := tt;
  json_object_array_add _ _ := tt;
|}.
#[export] Instance no_host : HostLib := {| inet_ntop _ := []; gethostname := [] |}.
#[export] Instance no_union : UnionLib unit := {| union_number _ := 0 |}.
