(* ===== verification/ControlProofs.v ===== *)
(** * The control connections: theorems

    How lines are put together from what is read, what is done with them, and
    where that fails. *)
From Stdlib Require Import Ascii String.
From S2P Require Import Prelude.
From S2P Require Import Timespec.
From S2P Require Import Bytes.
From S2P Require Import CString.
From S2P Require Import PcmChunk.
From S2P Require Import TaskHeap.
From S2P Require Import TaskSched.
From S2P Require Import Intercom.
From S2P Require Import ServerState.
From S2P Require Import InputPipe.
From S2P Require Import ClientMgr.
From S2P Require Import JsonRpc.
From S2P Require Import Util.
From S2P Require Import Control.

(** The number of bytes of the line buffer. *)
Definition BUF : nat := 1024.

(** A connection whose buffer holds the beginning [acc] of a line, and zeros. *)
Definition holding (fd : Z) (acc : bytes) : socketclient :=
  mkSock fd (acc ++ zeros (1024 - Z.of_nat (length acc))) (Z.of_nat (length acc)).

Definition no_line_end (b : bytes) : Prop := Forall (fun x => ~ is_newline x) b.

Lemma has_line_end_no l off : no_line_end (drop (Z.to_nat off) (take 1023 l)) <-> has_line_end l off = false.
Proof.
  unfold has_line_end, no_line_end. change (Z.to_nat (LINEBUFFER_SIZE - 1)) with 1023%nat.
  induction (drop _ _) as [|x b IH]; simpl; [by split|]. rewrite Forall_cons, orb_false_iff, bool_decide_eq_false, IH. done.
Qed.

Lemma zeros_no_line_end n : no_line_end (zeros n).
Proof. apply Forall_forall. intros x Hx. unfold zeros in Hx. apply elem_of_replicate in Hx as [-> _]. intros [?|?]; lia. Qed.

(** Writing behind what the buffer holds. *)
Lemma holding_wr fd acc b : Z.of_nat (length acc + length b) <= 1023 ->
  wr (line (holding fd acc)) (line_offset (holding fd acc)) b = Ok (line (holding fd (acc ++ b))).
Proof.
  intros Hl. unfold holding. simpl. rewrite length_app.
  replace (zeros (1024 - Z.of_nat (length acc))) with (zeros (Z.of_nat (length b)) ++ zeros (1024 - Z.of_nat (length acc + length b))).
  2:{ unfold zeros. rewrite <- replicate_add. f_equal. lia. }
  rewrite (wr_app acc (zeros (Z.of_nat (length b)))); [by rewrite <- app_assoc|done|].
  unfold zeros. rewrite length_replicate. lia.
Qed.

Lemma has_line_end_piece fd acc b : Z.of_nat (length acc + length b) <= 1023 ->
  has_line_end (line (holding fd (acc ++ b))) (Z.of_nat (length acc)) =
    existsb (fun x => bool_decide (is_newline x)) b.
Proof.
  intros Hl. unfold has_line_end. change (Z.to_nat (LINEBUFFER_SIZE - 1)) with 1023%nat. simpl line.
  rewrite Nat2Z.id, <- app_assoc, take_app_ge by lia. rewrite drop_app_length.
  rewrite take_app_ge by lia. rewrite existsb_app.
  assert (existsb (fun x => bool_decide (is_newline x))
    (take (1023 - length acc - length b) (zeros (1024 - Z.of_nat (length (acc ++ b))))) = false) as ->; [|by rewrite orb_false_r].
  apply not_true_is_false. intros (x & Hx & Hn%bool_decide_eq_true)%existsb_exists. apply list_elem_of_In in Hx.
  apply elem_of_take in Hx as (i & Hx & _). unfold zeros in Hx. apply lookup_replicate_1 in Hx as [-> _].
  destruct Hn; lia.
Qed.

(** The buffer is followed by zeros: ending the string changes nothing. *)
Lemma holding_end fd acc : Z.of_nat (length acc) <= 1023 ->
  wr8 (line (holding fd acc)) (Z.of_nat (length acc)) 0 = Ok (line (holding fd acc)).
Proof.
  intros Hl. unfold wr8. simpl line.
  replace (zeros (1024 - Z.of_nat (length acc))) with ([0] ++ zeros (1023 - Z.of_nat (length acc))).
  2:{ unfold zeros. change [0] with (replicate 1 0). rewrite <- replicate_add. f_equal. lia. }
  by rewrite (wr_app acc [0]).
Qed.

Lemma holding_cstr fd acc : Forall (fun x => x <> 0) acc -> Z.of_nat (length acc) <= 1023 ->
  cstr (line (holding fd acc)) = acc.
Proof.
  intros Hz Hl. unfold cstr. simpl line.
  assert (zeros (1024 - Z.of_nat (length acc)) = 0 :: zeros (1023 - Z.of_nat (length acc))) as ->.
  { unfold zeros. change (0 :: replicate (Z.to_nat (1023 - Z.of_nat (length acc))) 0)
      with (replicate (1 + Z.to_nat (1023 - Z.of_nat (length acc))) 0). f_equal. lia. }
  rewrite list_find_app_r; [|by apply list_find_None]. simpl. by rewrite ?Nat.add_0_r, take_app_length.
Qed.

Section control.
Context {Q Dec Enc J : Type}
  `{!TimerQueue Q, !OpusLib Dec Enc, !JsonLib J, !HostLib, !UnionLib J}.
Abbreviation W := (server Q Dec Enc).
Implicit Types (w : W).

(** The server whose connection [k] is [sc]. *)
Definition with_sock (k : nat) (sc : socketclient) w : W :=
  set_control (with_sclients (<[k := sc]> (sclients (control_ctx w))) (control_ctx w)) w.

(** What is left to do when a line was handled. *)
Definition end_line (k : nat) (fd : Z) (ln : bytes) (ret : Z) : M W Z :=
  if ret <? 0 then mret (-1) else upd_sock k (mkSock fd (0 :: drop 1 ln) 0) ;; mret 0.

Lemma piece_run w k fd acc b : sclients (control_ctx w) !! k = Some (holding fd acc) ->
  b <> [] -> Z.of_nat (length acc + length b) <= 1023 ->
  socket_handle_client (J := J) k (SockData b) w =
    if existsb (fun x => bool_decide (is_newline x)) b
    then (ret ← handle_line (J := J) (mkSock fd (line (holding fd (acc ++ b))) (Z.of_nat (length acc)));
          end_line k fd (line (holding fd (acc ++ b))) ret) w
    else Ok (0, with_sock k (holding fd (acc ++ b)) w).
Proof.
  intros Hk Hb Hl. assert (0 < length b)%nat as Hpos by (destruct b; simpl; [done|lia]).
  pose proof (holding_wr fd acc b Hl) as Ewr. pose proof (has_line_end_piece fd acc b Hl) as Eend.
  assert (Z.of_nat (length (acc ++ b)) <= 1023) as Hl' by (rewrite length_app; lia).
  pose proof (holding_end fd (acc ++ b) Hl') as Ezero. rewrite length_app, Nat2Z.inj_add in Ezero.
  set (ln := line (holding fd (acc ++ b))) in *.
  unfold socket_handle_client, gets, mbind, M_bind. rewrite Hk.
  change (line_offset (holding fd acc)) with (Z.of_nat (length acc)) in *.
  rewrite (proj2 (Z.ltb_lt _ LINEBUFFER_SIZE)) by (unfold LINEBUFFER_SIZE; lia).
  rewrite take_ge by (unfold LINEBUFFER_SIZE; lia). rewrite (proj2 (Z.eqb_neq _ 0)) by lia.
  unfold lift. cbv zeta. rewrite Ewr, Eend. change (sc_fd (holding fd acc)) with fd. destruct (existsb _ b).
  - rewrite Ezero. destruct (handle_line _ w) as [[ret w1]|]; [|done]. unfold end_line. destruct (ret <? 0); [done|].
    assert (wr8 ln 0 0 = Ok (0 :: drop 1 ln)) as ->; [|done].
    unfold wr8, wr. assert (0 < length ln)%nat as Hln.
    { unfold ln. simpl. rewrite length_app. unfold zeros. rewrite length_replicate. lia. }
    simpl length. rewrite (proj2 (Z.leb_le (0 + Z.of_nat 1) _)) by lia. done.
  - unfold upd_sock, upd_control, modify, mret, M_ret. do 2 f_equal. unfold with_sock. do 3 f_equal.
    unfold holding. f_equal. rewrite length_app. lia.
Qed.

(** Reading the pieces of a line, one after the other. *)
Definition read_pieces (k : nat) (bs : list bytes) : M W unit :=
  mfor bs (fun b => socket_handle_client (J := J) k (SockData b) ;; skip).

Lemma pieces_run w k fd acc bs : sclients (control_ctx w) !! k = Some (holding fd acc) ->
  Forall (fun b => b <> [] /\ no_line_end b) bs -> Z.of_nat (length acc + length (concat bs)) <= 1023 ->
  read_pieces k bs w = Ok (tt, with_sock k (holding fd (acc ++ concat bs)) w).
Proof.
  revert w acc. induction bs as [|b bs IH]; intros w acc Hk Hbs Hl.
  - simpl. rewrite app_nil_r. unfold skip, with_sock. do 2 f_equal. rewrite list_insert_id by done. by destruct w as [? ? ? ? ? ? ? ? ? ? ? ? ? []].
  - apply Forall_cons in Hbs as [[Hb Hno] Hbs]. simpl in Hl. rewrite length_app in Hl.
    assert (existsb (fun x => bool_decide (is_newline x)) b = false) as Eb.
    { apply not_true_is_false. intros (x & Hx & Hn%bool_decide_eq_true)%existsb_exists.
      apply list_elem_of_In in Hx. by eapply (proj1 (Forall_forall _ _) Hno). }
    assert ((socket_handle_client (J := J) k (SockData b) ;; skip) w = Ok (tt, with_sock k (holding fd (acc ++ b)) w)) as E.
    { unfold mbind, M_bind. rewrite (piece_run w k fd acc b) by (done || lia). by rewrite Eb. }
    unfold read_pieces. cbn [mfor]. rewrite (M_bind_Ok _ _ _ _ _ E).
    fold (read_pieces k bs). rewrite (IH _ (acc ++ b)).
    + unfold with_sock. simpl. by rewrite list_insert_insert_eq, <- app_assoc.
    + simpl. rewrite list_lookup_insert_eq; [done|]. by eapply lookup_lt_Some.
    + done.
    + rewrite length_app. lia.
Qed.

(** C27: a line is put together from the pieces it arrives in.  On a new
    connection the pieces without a line end are kept; with the piece that ends
    the line all of them together are handled as one line, once, if they have at
    most 1023 bytes. *)
Theorem line_assembled w k fd bs b :
  sclients (control_ctx w) !! k = Some (mkSock fd (zeros LINEBUFFER_SIZE) 0) ->
  Forall (fun b => b <> [] /\ no_line_end b) bs -> Exists is_newline b ->
  Forall (fun x => x <> 0) (concat bs ++ b) -> Z.of_nat (length (concat bs ++ b)) <= 1023 ->
  exists sc, sc_fd sc = fd /\ cstr (line sc) = concat bs ++ b /\
    (read_pieces k bs ;; socket_handle_client (J := J) k (SockData b)) w =
      (ret ← handle_line (J := J) sc; end_line k fd (line sc) ret) (with_sock k (holding fd (concat bs)) w).
Proof.
  intros Hk Hbs Hb Hz Hl. change (mkSock fd (zeros LINEBUFFER_SIZE) 0) with (holding fd []) in Hk.
  rewrite length_app in Hl.
  exists (mkSock fd (line (holding fd (concat bs ++ b))) (Z.of_nat (length (concat bs)))). split; [done|].
  split; [exact (holding_cstr fd (concat bs ++ b) Hz ltac:(rewrite length_app; lia))|].
  rewrite (M_bind_Ok _ _ _ _ _ (pieces_run w k fd [] bs Hk Hbs ltac:(simpl; lia))). simpl app.
  rewrite (piece_run _ k fd (concat bs) b).
  - assert (existsb (fun x => bool_decide (is_newline x)) b = true) as ->; [|done].
    apply existsb_exists. apply Exists_exists in Hb as (x & Hx & Hn). exists x. split; [by apply list_elem_of_In|].
    by apply bool_decide_eq_true.
  - simpl. rewrite list_lookup_insert_eq; [done|]. by eapply lookup_lt_Some.
  - intros ->. by apply Exists_nil in Hb.
  - lia.
Qed.

(** The line buffer is not cleared.  After a line was handled the old line end
    is still in the buffer, and the next piece, if it ends before it, is taken for
    a complete line although it contains no line end: a request that arrives in
    two pieces is answered only if it is the first one of its connection. *)
Theorem stale_line_end w k fd old q x b :
  sclients (control_ctx w) !! k = Some (mkSock fd (0 :: drop 1 old) 0) ->
  length old = BUF -> old !! q = Some x -> is_newline x -> (length b <= q < 1023)%nat ->
  b <> [] -> no_line_end b -> Forall (fun x => x <> 0) b ->
  exists sc, sc_fd sc = fd /\ cstr (line sc) = b /\
    socket_handle_client (J := J) k (SockData b) w =
      (ret ← handle_line (J := J) sc; end_line k fd (line sc) ret) w.
Proof.
  intros Hk Hlen Hq Hx Hb Hne Hno Hz. unfold BUF in Hlen.
  assert (0 < length b)%nat as Hpos by (destruct b; simpl; [done|lia]).
  set (l := 0 :: drop 1 old) in *. assert (length l = 1024%nat) as Hl by (unfold l; simpl; rewrite length_drop; lia).
  assert (wr l 0 b = Ok (b ++ drop (length b) l)) as Ewr.
  { rewrite <- (take_drop (length b) l) at 1.
    apply (wr_app [] (take (length b) l) b); [done|]. rewrite length_take. lia. }
  set (ln := b ++ drop (length b) l) in *.
  assert (wr8 ln (Z.of_nat (length b)) 0 = Ok (b ++ 0 :: drop (S (length b)) l)) as Ezero.
  { unfold wr8, ln. destruct (drop (length b) l) as [|y r] eqn:Ed.
    { apply (f_equal length) in Ed. rewrite length_drop, Hl in Ed. change (length (@nil Z)) with 0%nat in Ed. lia. }
    assert (drop (S (length b)) l = r) as ->.
    { replace (S (length b)) with (length b + 1)%nat by lia. by rewrite <- drop_drop, Ed. }
    change (y :: r) with ([y] ++ r). by rewrite (wr_app b [y]). }
  assert (has_line_end ln 0 = true) as Eend.
  { unfold has_line_end. apply existsb_exists. exists x. split; [|by apply bool_decide_eq_true].
    apply list_elem_of_In, list_elem_of_lookup. exists q. change (Z.to_nat 0) with 0%nat. rewrite drop_0.
    change (Z.to_nat (LINEBUFFER_SIZE - 1)) with 1023%nat. rewrite lookup_take_lt by lia.
    unfold ln. rewrite lookup_app_r, lookup_drop by lia. replace (length b + (q - length b))%nat with q by lia.
    unfold l. destruct q as [|q]; [lia|]. simpl. by rewrite lookup_drop. }
  set (sc := mkSock fd (b ++ 0 :: drop (S (length b)) l) 0).
  exists sc. split; [done|]. split.
  { unfold cstr. simpl. rewrite list_find_app_r; [|by apply list_find_None]. simpl.
    by rewrite ?Nat.add_0_r, take_app_length. }
  unfold socket_handle_client, gets, mbind, M_bind. rewrite Hk.
  change (line_offset (mkSock fd l 0)) with 0. change (sc_fd (mkSock fd l 0)) with fd.
  change (0 <? LINEBUFFER_SIZE) with true. cbv iota beta zeta.
  rewrite take_ge by (unfold LINEBUFFER_SIZE; lia). rewrite (proj2 (Z.eqb_neq _ 0)) by lia.
  change (line (mkSock fd l 0)) with l. unfold lift. rewrite Ewr, Eend. rewrite Z.add_0_l, Ezero. fold sc.
  destruct (handle_line sc w) as [[ret w1]|]; [|done]. unfold end_line. destruct (ret <? 0); [done|].
  change (line sc) with (b ++ 0 :: drop (S (length b)) l).
  assert (wr8 (b ++ 0 :: drop (S (length b)) l) 0 0 = Ok (0 :: drop 1 (b ++ 0 :: drop (S (length b)) l))) as ->; [|done].
  unfold wr8, wr. rewrite length_app. simpl length. rewrite (proj2 (Z.leb_le (0 + Z.of_nat 1) _)) by lia. done.
Qed.

(** *** Requests *)

(** C28: a request for a volume is obeyed.  When the volume object has a
    percentage, the client's volume becomes that number as a byte, exactly one
    command with it is sent to the client, and the reply names the new volume;
    everything else stays as it is.  This does not depend on the rest of the
    object: a muting that is asked for in the same object is ignored. *)
Theorem setvolume_obeyed w fd rid cid text jobj p i j s c :
  0 <= cid < 65536 ->
  json_tokener_parse text = Some jobj -> nonnull jobj = true ->
  json_object_object_get_ex jobj (str "percent") = Some p -> nonnull p = true ->
  find_client_in (streams w) cid = Some (i, j) -> streams w !! i = Some s -> clients s !! j = Some c ->
  let v := u8 (json_object_get_int p) in
  let request := mkReq rid (str "Client.SetVolume")
    [mkParam (str "id") (VInt cid); mkParam (str "volume") (VJson text)] in
  let volume := jobject [(str "muted", jbool (muted c)); (str "percent", jint v)] in
  let reply := json_object_to_json_string false (jsonrpc_buildresult rid (jobject [(str "volume", volume)])) ++ [13; 10] in
  exists packet, volume_packet v = Ok packet /\
    handle_request request fd w = Ok (1,
      set_control (with_replies (replies (control_ctx w) ++ [(fd, reply)]) (control_ctx w))
        (set_streams (alter (fun s => with_clients (alter (with_volume v) j (clients s)) s) i (streams w))
           (set_ssent (ssent w ++ [mkDgram (ip c) (u16 (cport c)) packet]) w))).
Proof.
  intros Hid Hparse Hnn Hget Hnp Hfind Hs Hc v request volume reply.
  assert (exists packet, volume_packet v = Ok packet) as [packet Ep] by by eexists.
  exists packet. split; [exact Ep|].
  set (w1 := set_ssent (ssent w ++ [mkDgram (ip c) (u16 (cport c)) packet]) w).
  set (w2 := set_streams (alter (fun s => with_clients (alter (with_volume v) j (clients s)) s) i (streams w)) w1).
  assert (the_client i j w = Ok (c, w)) as E1.
  { unfold the_client, the_stream, mbind, M_bind. by rewrite Hs, Hc. }
  assert (the_client i j w2 = Ok (with_volume v c, w2)) as E2.
  { unfold the_client, the_stream, mbind, M_bind. change (streams w2) with
      (alter (fun s => with_clients (alter (with_volume v) j (clients s)) s) i (streams w)).
    rewrite list_lookup_alter_eq, Hs. simpl. by rewrite list_lookup_alter_eq, Hc. }
  assert (setvolume_params (reverse (parameters request)) (mkVreq None None None) w =
    Ok ((false, mkVreq (Some (i, j)) (Some p) None), w)) as Eparams.
  { change (reverse (parameters request)) with
      [mkParam (str "volume") (VJson text) : parameter J; mkParam (str "id") (VInt cid)].
    cbn [setvolume_params]. change (strncmp_eq 2 (p_name (mkParam (str "volume") (VJson text) : parameter J)) (str "id")) with false.
    change (strncmp_eq 6 (p_name (mkParam (str "volume") (VJson text) : parameter J)) (str "volume")) with true.
    change (strncmp_eq 2 (p_name (mkParam (str "id") (VInt cid) : parameter J)) (str "id")) with true.
    cbv iota. unfold value_string, lift, mbind, M_bind. cbn [p_value]. rewrite Hparse.
    unfold found at 1. rewrite Hnn, Hget. unfold found. rewrite Hnp. unfold find_client, gets, mbind, M_bind, mret, M_ret. cbn [value_number].
    rewrite u16_small by lia. by rewrite Hfind. }
  unfold handle_request, handle_client_setvolume.
  change (method request) with (str "Client.SetVolume").
  change (strncmp_eq 20 (str "Client.SetVolume") (str "Server.GetRPCVersion")) with false.
  change (strncmp_eq 16 (str "Client.SetVolume") (str "Client.SetStream")) with false.
  change (strncmp_eq 16 (str "Client.SetVolume") (str "Client.SetVolume")) with true. cbv iota.
  assert (apply_volume (mkVreq (Some (i, j)) (Some p) None) w = Ok (tt, w2)) as Eapply.
  { unfold apply_volume. simpl. unfold mbind, M_bind. rewrite E1.
    unfold clientmgr_client_refreshvolume, intercom_set_volume, lift, mbind, M_bind, send_unicast, modify.
    fold v. by rewrite Ep. }
  unfold mbind, M_bind. rewrite Eparams. cbv iota beta. rewrite Eapply. cbn [v_client].
  rewrite E2. done.
Qed.

End control.

(** ** Concrete requests *)

(** A JSON library that knows two texts. *)
Inductive toy := TNull | TBool (b : bool) | TInt (n : Z) | TStr (s : bytes) | TObj (l : list (bytes * toy)) | TArr.

#[local] Instance toy_json : JsonLib toy := {|
  json_tokener_parse t :=
    if bool_decide (t = str "{percent: 30, muted: true}") then Some (TObj [(str "percent", TInt 30); (str "muted", TBool true)])
    else if bool_decide (t = str "{jsonrpc: '2.0'}" ++ [10]) then Some (TObj [(str "jsonrpc", TStr (str "2.0"))])
    else None;
  json_object_object_get_ex j k :=
    match j with TObj l => snd <$> find (fun kv => bool_decide (kv.1 = k)) l | _ => None end;
  json_object_get_type j :=
    match j with TNull => json_type_null | TBool _ => json_type_boolean | TInt _ => json_type_int
               | TStr _ => json_type_string | TObj _ => json_type_object | TArr => json_type_array end;
  json_object_get_int j := match j with TInt n => n | _ => 0 end;
  json_object_get_boolean j := match j with TBool b => b | _ => false end;
  json_object_get_string j := match j with TStr s => s | _ => [] end;
  json_object_to_json_string _ j := match j with TInt n => dec n | _ => str "?" end;
  json_object_members j := match j with TObj l => l | _ => [] end;
  json_object_new_object := TObj []; json_object_new_array := TArr; json_object_new_int := TInt;
  json_object_new_boolean := TBool; json_object_new_string := TStr;
  json_object_object_add o k v := match o with TObj l => TObj (l ++ [(k, v)]) | o => o end;
  json_object_array_add a _ := a;
|}.
#[local] Instance toy_union : UnionLib toy := {| union_number _ := 0 |}.

Definition talker : sclient :=
  mkSclient 9 5000 3 true zero_time 2 100 55 false None (mkIdent [] (zeros 6)).
(** A server with a client and two control connections, one of which sent a line
    already. *)
Definition talking : server forest unit unit :=
  mkServer [mkStream (mkPipe [] (mkChunk 0 0 0 0 0 0 0 None) IDLE 0 0 0 0 0 0 0 false None None)
              (mkOpus None None 0 0) [talker] [] 0 [] true (mkOpts 2 1 [])]
    (mkSched Nil ∅ None (fun _ => zero_time) 0) [] 1500 500 {[3; 4; 5; 6; 7]} [] (fun _ => zero_time) 0
    (fun _ => ReadError) 0 (fun _ _ => 8) 0
    (mkControl [mkSock 6 (zeros LINEBUFFER_SIZE) 0;
                mkSock 7 (0 :: drop 1 (str "{an earlier line}" ++ [10] ++ zeros 1006)) 0] [] (fun _ => [])).

Lemma line_assembled_witness :
  exists sc, cstr (line sc) = str "{a}" ++ [10] /\
    (read_pieces (J := toy) 0 [str "{"; str "a"] ;; socket_handle_client (J := toy) 0 (SockData (str "}" ++ [10]))) talking =
      (ret ← handle_line (J := toy) sc; end_line 0 6 (line sc) ret) (with_sock 0 (holding 6 (str "{a")) talking).
Proof.
  destruct (line_assembled (J := toy) talking 0 6 [str "{"; str "a"] (str "}" ++ [10])) as (sc & _ & E1 & E2).
  - reflexivity.
  - repeat constructor; try done; intros [?|?]; discriminate.
  - right. left. by left.
  - by repeat constructor.
  - simpl. lia.
  - exists sc. split; [exact E1|exact E2].
Defined.

Lemma stale_line_end_witness :
  exists sc, cstr (line sc) = str "{unfinish" /\
    socket_handle_client (J := toy) 1 (SockData (str "{unfinish")) talking =
      (ret ← handle_line (J := toy) sc; end_line 1 7 (line sc) ret) talking.
Proof.
  destruct (stale_line_end (J := toy) talking 1 7 (str "{an earlier line}" ++ [10] ++ zeros 1006) 17 10 (str "{unfinish"))
    as (sc & _ & E1 & E2).
  - reflexivity.
  - vm_compute. reflexivity.
  - reflexivity.
  - by left.
  - simpl. lia.
  - done.
  - repeat constructor; intros [?|?]; discriminate.
  - by repeat constructor.
  - exists sc. split; [exact E1|exact E2].
Defined.

Lemma setvolume_obeyed_witness :
  exists packet w', volume_packet 30 = Ok packet /\
    handle_request (mkReq 1 (str "Client.SetVolume")
      [mkParam (str "id") (VInt 3); mkParam (str "volume") (VJson (J := toy) (str "{percent: 30, muted: true}"))]) 6 talking = Ok (1, w') /\
    ssent w' = [mkDgram 9 5000 packet] /\ map volume_percent (concat (map clients (streams w'))) = [30] /\
    map muted (concat (map clients (streams w'))) = [false].
Proof.
  destruct (setvolume_obeyed (J := toy) talking 6 1 3 (str "{percent: 30, muted: true}")
    (TObj [(str "percent", TInt 30); (str "muted", TBool true)]) (TInt 30) 0 0
    (mkStream (mkPipe [] (mkChunk 0 0 0 0 0 0 0 None) IDLE 0 0 0 0 0 0 0 false None None)
       (mkOpus None None 0 0) [talker] [] 0 [] true (mkOpts 2 1 [])) talker) as (packet & Ep & E).
  - lia.
  - vm_compute. reflexivity.
  - reflexivity.
  - vm_compute. reflexivity.
  - reflexivity.
  - vm_compute. reflexivity.
  - reflexivity.
  - reflexivity.
  - exists packet. eexists. split; [exact Ep|]. split; [exact E|]. split; [reflexivity|]. split; reflexivity.
Defined.

