(* ===== verification/Stream.v ===== *)
(** * stream.c: the description of a stream

    A stream is given on the command line as
    [pipe://<path>?<option>=<value>&...].  [stream_parse] cuts it up with
    [strtok_r] (CString.v). *)
From Stdlib Require Import Ascii String.
From S2P Require Import Prelude.
From S2P Require Import Bytes.
From S2P Require Import PcmChunk.
From S2P Require Import TaskHeap.
From S2P Require Import TaskSched.
From S2P Require Import Intercom.
From S2P Require Import ServerState.
From S2P Require Import CString.
From S2P Require Import JsonRpc.
From S2P Require Import Util.
From S2P Require Import Control.

(** ** Options *)

(** stream.h:10-10 codec: [PCM], [OPUS], [INVALID] *)
Definition PCM : Z := 1.
Definition OPUS : Z := 2.
Definition INVALID : Z := 3.

(** stream.c:28-34 parse_codec *)
Definition parse_codec (codec : option bytes) : res Z :=
  match codec with
  | None => Fault NullDeref
  | Some c => Ok (if bool_decide (c = str "opus") then OPUS
                  else if bool_decide (c = str "pcm") then PCM else INVALID)
  end.

Section stream.
Context {Dec Enc : Type} `{!OpusLib Dec Enc}.
Implicit Types (s : stream Dec Enc).

Definition with_read_ms n (x : inputpipe_ctx) := mkPipe (fname x) (chunk x) (state x) (data_read x) n
  (ip_samples x) (samplesize x) (ip_channels x) (fd x) (chunksize x) (ip_initialized x) (resume_task x) (idle_task x).
Definition with_fname f (x : inputpipe_ctx) := mkPipe f (chunk x) (state x) (data_read x) (read_ms x)
  (ip_samples x) (samplesize x) (ip_channels x) (fd x) (chunksize x) (ip_initialized x) (resume_task x) (idle_task x).
Definition with_sampleformat r b c (x : inputpipe_ctx) := mkPipe (fname x) (chunk x) (state x) (data_read x)
  (read_ms x) r b c (fd x) (chunksize x) (ip_initialized x) (resume_task x) (idle_task x).
Definition with_name n s := mkStream (inputpipe s) (opus s) (clients s) (packet_buffer s) (nonce s) n
  (s_initialized s) (opts s).
Definition with_opts o s := mkStream (inputpipe s) (opus s) (clients s) (packet_buffer s) (nonce s) (name s)
  (s_initialized s) o.

(** stream.c:97-105 stream_parse: the sample format [rate:bits:channels] *)
Definition parse_sampleformat (value : option bytes) s : res (stream Dec Enc * option bytes) :=
  '(value, ctx) ← strtok_r value 58 None;
  rate ← atol value;
  '(value, ctx) ← strtok_r None 58 ctx;
  bits ← atol value;
  '(value, ctx) ← strtok_r None 58 ctx;
  ch ← atol value;
  mret (on_pipe (with_sampleformat rate (s32 (Z.quot bits 8)) (s32 ch)) s, ctx).

(** stream.c:91-109 stream_parse: one option; whether it is known, and the
    context for the next value. *)
Definition parse_option (key : bytes) (value : option bytes) (valuectx : option bytes) s
  : res (bool * stream Dec Enc * option bytes) :=
  if bool_decide (key = str "buffer_ms") then
    n ← atol value; mret (true, on_pipe (with_read_ms n) s, valuectx)
  else if bool_decide (key = str "codec") then
    c ← parse_codec value;
    mret (true, with_opts (mkOpts c (protocol (opts s)) (raw (opts s))) s, valuectx)
  else if bool_decide (key = str "name") then
    mret (true, with_name (default [] value) s, valuectx)
  else if bool_decide (key = str "sampleformat") then
    '(s, ctx) ← parse_sampleformat value s; mret (true, s, ctx)
  else mret (false, s, valuectx).

(** stream.c:84-111 stream_parse: the loop over the options; also without an
    option a value is looked for. *)
Fixpoint parse_options (fuel : nat) (optionctx valuectx : option bytes) s : res (bool * stream Dec Enc) :=
  match fuel with
  | O => Fault Diverges
  | S fuel =>
      '(token, optionctx) ← strtok_r None 38 optionctx;
      '(_, valuectx) ← strtok_r token 61 valuectx;
      '(value, valuectx) ← strtok_r None 61 valuectx;
      match token with
      | None => mret (true, s)
      | Some t =>
          '(known, s, valuectx) ← parse_option (cut_at 61 t) value valuectx s;
          if known : bool then parse_options fuel optionctx valuectx s else mret (false, s)
      end
  end.

(** stream.c:63-121 stream_parse: a null name or path is the empty string, which
    no token is.  The result tells whether the description could be
    parsed; [mtu] is that of the server. *)
Definition stream_parse (mtu : Z) s (text : bytes) : res (bool * stream Dec Enc) :=
  let s := with_opts (mkOpts (s_codec (opts s)) (protocol (opts s)) text) s in
  if negb (strncmp_eq 4 text (str "pipe")) then mret (false, s)
  else
    let s := with_opts (mkOpts (s_codec (opts s)) 1 text) s in
    match strstr text (str "://") with
    | None => Fault NullDeref
    | Some r =>
        '(token, optionctx) ← strtok_r (Some (drop 3 r)) 63 None;
        let s := on_pipe (with_fname (default [] token)) s in
        '(ok, s) ← match token with
                   | None => mret (true, s)
                   | Some _ => parse_options (S (length text)) optionctx None s
                   end;
        if negb ok then mret (false, s)
        else
          let o := opus s in
          ctx ← opus_init_encoder (mkOpus (decoder o) (encoder o) 96000 (mss o))
                  (mtu - 40 - HDR_SIZE - CHUNK_HEADER_SIZE - 8)
                  (s32 (ip_samples (inputpipe s))) (s32 (ip_channels (inputpipe s)));
          mret (true, with_encoder ctx s)
    end.
End stream.

(** ** Specification *)

(** An option as it is written, with the value the program takes. *)
Inductive option_spec :=
  | BufferMs (ms : Z)
  | Codec (opus : bool)
  | Name (n : bytes)
  | SampleFormat (rate sample_bytes chans : Z).

Definition option_key (o : option_spec) : bytes :=
  match o with
  | BufferMs _ => str "buffer_ms" | Codec _ => str "codec" | Name _ => str "name"
  | SampleFormat _ _ _ => str "sampleformat"
  end.

Definition option_value (o : option_spec) : bytes :=
  match o with
  | BufferMs ms => dec ms
  | Codec opus => if opus then str "opus" else str "pcm"
  | Name n => n
  | SampleFormat r b c => dec r ++ (58 :: (dec (b * 8) ++ (58 :: dec c)))
  end.

Definition render (o : option_spec) : bytes := option_key o ++ (61 :: option_value o).

Fixpoint render_all (os : list option_spec) : bytes :=
  match os with
  | [] => []
  | [o] => render o
  | o :: os => render o ++ (38 :: render_all os)
  end.

(** A name holds no delimiter, a number fits its field. *)
Definition valid_option (o : option_spec) : Prop :=
  match o with
  | BufferMs ms => 0 <= ms < 2 ^ 63
  | Codec _ => True
  | Name n => n <> [] /\ (38 ∉ n) /\ (61 ∉ n)
  | SampleFormat r b c => 0 <= r < 2 ^ 63 /\ 0 <= b < 2 ^ 31 /\ 0 <= c < 2 ^ 31
  end.

Definition apply_option {Dec Enc} (s : stream Dec Enc) (o : option_spec) : stream Dec Enc :=
  match o with
  | BufferMs ms => on_pipe (with_read_ms ms) s
  | Codec opus => with_opts (mkOpts (if opus then OPUS else PCM) (protocol (opts s)) (raw (opts s))) s
  | Name n => with_name n s
  | SampleFormat r b c => on_pipe (with_sampleformat r b c) s
  end.

(** *** Tokens *)

Lemma cut_delim d t r : d ∉ t -> cut d (t ++ (d :: r)) = (t, r).
Proof.
  induction t as [|x t IH]; intros Hd; simpl; [by rewrite Z.eqb_refl|].
  apply not_elem_of_cons in Hd as [Hx Hd]. rewrite (proj2 (Z.eqb_neq x d)) by congruence. by rewrite IH.
Qed.

Lemma cut_end d t : d ∉ t -> cut d t = (t, []).
Proof.
  induction t as [|x t IH]; intros Hd; simpl; [done|].
  apply not_elem_of_cons in Hd as [Hx Hd]. rewrite (proj2 (Z.eqb_neq x d)) by congruence. by rewrite IH.
Qed.

Lemma drop_delims_token d t r : t <> [] -> d ∉ t -> drop_delims d (t ++ r) = t ++ r.
Proof.
  destruct t as [|x t]; [done|]. intros _ [Hx _]%not_elem_of_cons. simpl.
  by rewrite (proj2 (Z.eqb_neq x d)) by congruence.
Qed.

(** A token that is followed by a delimiter, one at the end of the string. *)
Lemma strtok_delim d t r ctx : t <> [] -> d ∉ t ->
  strtok_r (Some (t ++ (d :: r))) d ctx = Ok (Some t, Some r) /\
  strtok_r None d (Some (t ++ (d :: r))) = Ok (Some t, Some r).
Proof.
  intros Ht Hd. unfold strtok_r. rewrite drop_delims_token by done.
  pose proof (cut_delim d t r Hd) as E. destruct t as [|x t]; [done|]. cbn [app] in *. by rewrite E.
Qed.

Lemma strtok_end d t ctx : t <> [] -> d ∉ t ->
  strtok_r (Some t) d ctx = Ok (Some t, Some []) /\ strtok_r None d (Some t) = Ok (Some t, Some []).
Proof.
  intros Ht Hd. unfold strtok_r. pose proof (drop_delims_token d t [] Ht Hd) as E.
  rewrite app_nil_r in E. rewrite E. pose proof (cut_end d t Hd) as E'.
  destruct t as [|x t]; [done|]. by rewrite E'.
Qed.

Lemma cut_at_token d t r : t <> [] -> d ∉ t -> cut_at d (t ++ (d :: r)) = t.
Proof.
  intros Ht Hd. unfold cut_at. rewrite drop_delims_token by done.
  replace (length _ - length _)%nat with 0%nat by lia. by rewrite cut_delim.
Qed.

(** *** Numbers *)

Definition is_digit (x : Z) : Prop := 48 <= x <= 57.

Lemma read_digit acc x rest : is_digit x -> read_digits acc (x :: rest) = read_digits (acc * 10 + (x - 48)) rest.
Proof.
  intros [H1 H2]. simpl. by rewrite (proj2 (Z.leb_le 48 x)), (proj2 (Z.leb_le x 57)) by lia.
Qed.

Lemma digits_spec f n : 0 <= n < 10 ^ Z.of_nat f -> (0 < f)%nat ->
  Forall is_digit (digits f n) /\ digits f n <> [] /\
  forall acc, exists k, forall rest, read_digits acc (digits f n ++ rest) = read_digits (acc * k + n) rest.
Proof.
  revert n. induction f as [|f IH]; intros n Hn Hf; [lia|]. cbn [digits].
  pose proof (Z.mod_pos_bound n 10). assert (is_digit (48 + n mod 10)) as Hd by (unfold is_digit; lia).
  destruct (Z.ltb_spec n 10) as [Hlt|Hge].
  - split; [by constructor|]. split; [done|]. intros acc. exists 10. intros rest.
    cbn [app]. rewrite read_digit, Z.mod_small by (done || lia). f_equal. lia.
  - rewrite Nat2Z.inj_succ, Z.pow_succ_r in Hn by lia. destruct f as [|f]; [simpl in Hn; lia|].
    assert (0 <= n / 10 < 10 ^ Z.of_nat (S f)) as Hq.
    { split; [apply Z.div_pos; lia|]. apply Z.div_lt_upper_bound; lia. }
    destruct (IH _ Hq) as (Hall & Hne & Hk); [lia|]. split; [apply Forall_app; by split; [|constructor]|].
    split; [by intros [_ ?]%app_nil|]. intros acc. destruct (Hk acc) as [k E]. exists (k * 10). intros rest.
    rewrite <- app_assoc, E. cbn [app]. rewrite read_digit by done. f_equal.
    pose proof (Z.div_mod n 10). lia.
Qed.

Lemma dec_spec n : 0 <= n < 2 ^ 63 -> Forall is_digit (dec n) /\ dec n <> [] /\ atol (Some (dec n)) = Ok n.
Proof.
  intros Hn. unfold dec. rewrite (proj2 (Z.ltb_ge n 0)) by lia.
  destruct (digits_spec 20 n) as (Hall & Hne & Hk); [simpl; lia|lia|]. split; [done|]. split; [done|].
  destruct (Hk 0) as [k E]. specialize (E []). rewrite app_nil_r in E.
  unfold atol. destruct (digits 20 n) as [|x l]; [done|]. apply Forall_cons in Hall as [Hx _].
  assert (drop_spaces (x :: l) = x :: l) as ->.
  { simpl. unfold is_space, is_digit in *. by cases_lt; try lia. }
  assert (match x :: l with 43 :: s => read_digits 0 s | 45 :: s => - read_digits 0 s
          | s => read_digits 0 s end = n) as ->; [|f_equal; lia].
  rewrite Z.mul_0_l, Z.add_0_l in E. simpl in E. unfold is_digit in Hx.
  assert (x = 48 \/ x = 49 \/ x = 50 \/ x = 51 \/ x = 52 \/ x = 53 \/ x = 54 \/ x = 55 \/ x = 56 \/ x = 57)
    as Hcases by lia. naive_solver.
Qed.

Lemma dec_no_delim d n : 0 <= n < 2 ^ 63 -> ~ is_digit d -> d ∉ dec n.
Proof. intros Hn Hd Hin. destruct (dec_spec n Hn) as [Hall _]. rewrite Forall_forall in Hall. auto. Qed.

(** *** Options *)

Lemma key_token o d : d = 61 \/ d = 38 -> option_key o <> [] /\ d ∉ option_key o.
Proof.
  intros [-> | ->]; destruct o; (split; [done|]); apply (bool_decide_unpack _); by vm_compute.
Qed.

Lemma value_token o d : valid_option o -> d = 61 \/ d = 38 -> option_value o <> [] /\ d ∉ option_value o.
Proof.
  intros Hv Hd. assert (~ is_digit d) as Hdd by (unfold is_digit; lia).
  destruct o as [ms|op|n|r b c]; simpl in Hv |- *.
  - split; [by apply dec_spec|by apply dec_no_delim].
  - destruct Hd as [-> | ->], op; (split; [done|]); apply (bool_decide_unpack _); by vm_compute.
  - destruct Hv as (? & ? & ?). by destruct Hd as [-> | ->].
  - destruct Hv as (Hr & Hb & Hc). destruct (dec_spec r Hr) as (_ & Hne & _).
    split; [by intros [? _]%app_nil|]. rewrite !elem_of_app, !elem_of_cons, elem_of_app, elem_of_cons.
    assert ((d ∉ dec r) /\ (d ∉ dec (b * 8)) /\ (d ∉ dec c)) as (? & ? & ?)
      by (split_and!; apply dec_no_delim; (done || lia)). naive_solver lia.
Qed.

Section parse.
Context {Dec Enc : Type} `{!OpusLib Dec Enc}.
Implicit Types (s : stream Dec Enc).

Lemma parse_option_spec o ctx s : valid_option o ->
  exists ctx', parse_option (option_key o) (Some (option_value o)) (Some ctx) s =
    Ok (true, apply_option s o, Some ctx').
Proof.
  intros Hv. destruct o as [ms|op|n|r b c]; simpl in Hv |- *.
  - exists ctx. unfold parse_option. rewrite bool_decide_true by done.
    destruct (dec_spec ms Hv) as (_ & _ & ->). done.
  - exists ctx. by destruct op.
  - by exists ctx.
  - exists []. destruct Hv as (Hr & Hb & Hc). unfold parse_option, parse_sampleformat.
    change (bool_decide (str "sampleformat" = str "sampleformat")) with true. cbv iota. simpl.
    assert (forall n, 0 <= n < 2 ^ 63 -> dec n <> [] /\ (58 ∉ dec n) /\ atol (Some (dec n)) = Ok n) as Hdec.
    { intros n Hn. destruct (dec_spec n Hn) as (_ & ? & ?). split; [done|]. split; [|done].
      apply dec_no_delim; [done|]. unfold is_digit. lia. }
    destruct (Hdec r) as (Nr & Dr & Ar); [lia|]. destruct (Hdec (b * 8)) as (Nb & Db & Ab); [lia|].
    destruct (Hdec c) as (Nc & Dc & Ac); [lia|].
    rewrite (proj1 (strtok_delim _ _ _ _ Nr Dr)). unfold mbind, res_bind. rewrite Ar.
    rewrite (proj2 (strtok_delim _ _ _ None Nb Db)), Ab, (proj2 (strtok_end _ _ None Nc Dc)), Ac.
    unfold mret, res_ret. rewrite Z.quot_mul, !s32_small by lia. done.
Qed.

Lemma strtok_again d c : exists t c', strtok_r None d (Some c) = Ok (t, Some c').
Proof.
  unfold strtok_r. destruct (drop_delims d c) as [|x l]; [by eexists _, _|].
  destruct (cut d (x :: l)) as [t r]. by eexists _, _.
Qed.

(** One round of the loop: the next option, and what follows it. *)
Lemma option_round o rest fuel ctx s : valid_option o ->
  (rest = [] \/ exists r, rest = 38 :: r) ->
  exists ctx', parse_options (S fuel) (Some (render o ++ rest)) ctx s =
    parse_options fuel (Some (tail rest)) (Some ctx') (apply_option s o).
Proof.
  intros Hv Hrest. destruct (key_token o 61) as [Nk Dk]; [by left|]. destruct (key_token o 38) as [_ Ak]; [by right|].
  destruct (value_token o 61 Hv) as [Nv Dv]; [by left|]. destruct (value_token o 38 Hv) as [_ Av]; [by right|].
  assert (render o <> [] /\ (38 ∉ render o)) as [Nr Dr].
  { unfold render. split; [by intros [? _]%app_nil|]. rewrite elem_of_app, elem_of_cons. naive_solver lia. }
  assert (strtok_r None 38 (Some (render o ++ rest)) = Ok (Some (render o), Some (tail rest))) as Et.
  { destruct Hrest as [-> | [r ->]]; [rewrite app_nil_r; by apply strtok_end|by apply (strtok_delim _ _ _ None)]. }
  destruct (parse_option_spec o [] s Hv) as [ctx' Eo]. exists ctx'.
  cbn [parse_options]. unfold mbind, res_bind. rewrite Et.
  unfold render at 1. rewrite (proj1 (strtok_delim _ _ _ _ Nk Dk)), (proj2 (strtok_end _ _ None Nv Dv)).
  unfold render. rewrite cut_at_token, Eo by done. done.
Qed.

Lemma parse_options_spec os fuel ctx s : os <> [] -> Forall valid_option os -> (length os < fuel)%nat ->
  parse_options fuel (Some (render_all os)) ctx s = Ok (true, fold_left apply_option os s).
Proof.
  revert fuel ctx s. induction os as [|o os IH]; intros fuel ctx s Hne Hv Hf; [done|].
  apply Forall_cons in Hv as [Ho Hv]. destruct fuel as [|fuel]; [simpl in Hf; lia|]. simpl in Hf.
  destruct os as [|o' os].
  - cbn [render_all]. rewrite <- (app_nil_r (render o)).
    destruct (option_round o [] fuel ctx s Ho) as [c ->]; [by left|]. destruct fuel as [|fuel]; [simpl in Hf; lia|].
    cbn [parse_options tail]. change (strtok_r None 38 (Some [])) with (Ok (@None bytes, Some ([] : bytes))).
    unfold mbind, res_bind. destruct (strtok_again 61 c) as (t1 & c1 & ->).
    destruct (strtok_again 61 c1) as (t2 & c2 & ->). done.
  - change (render_all (o :: o' :: os)) with (render o ++ (38 :: render_all (o' :: os))).
    destruct (option_round o (38 :: render_all (o' :: os)) fuel ctx s Ho) as [c ->]; [right; by eexists|].
    apply (IH fuel (Some c) (apply_option s o)); [done|done|lia].
Qed.
Lemma strstr_here t r : strstr (t ++ r) t = Some (t ++ r).
Proof.
  assert (t `prefix_of` t ++ r) as H by by exists r.
  destruct (t ++ r); simpl; by rewrite bool_decide_true.
Qed.

Lemma strstr_pipe r : strstr (str "pipe://" ++ r) (str "://") = Some (str "://" ++ r).
Proof.
  change (str "pipe://" ++ r) with (str "pipe" ++ (str "://" ++ r)).
  do 4 (cbn [strstr app str map list_ascii_of_string]; rewrite bool_decide_false by (intros [k Hk]; done)).
  exact (strstr_here (str "://") r).
Qed.

Lemma stream_parse_bare mtu s path : path <> [] -> 63 ∉ path ->
  stream_parse mtu s (str "pipe://" ++ path) = Fault NullDeref.
Proof.
  intros Hp Hd. unfold stream_parse. change (strncmp_eq 4 (str "pipe://" ++ path) (str "pipe")) with true.
  cbv iota delta [negb]. rewrite strstr_pipe. change (drop 3 (str "://" ++ path)) with path.
  unfold mbind, res_bind. rewrite (proj1 (strtok_end 63 path _ Hp Hd)). done.
Qed.

Lemma render_all_length os : (length os <= length (render_all os))%nat.
Proof.
  induction os as [|o os IH]; [done|].
  assert (1 <= length (render o))%nat by (unfold render; rewrite length_app; simpl; lia).
  destruct os as [|o' os]; [done|]. change (render_all (o :: o' :: os)) with (render o ++ (38 :: render_all (o' :: os))).
  rewrite length_app. simpl in *. lia.
Qed.

Lemma stream_parse_url mtu s path os :
  let text := str "pipe://" ++ path ++ (63 :: render_all os) in
  let s0 := on_pipe (with_fname path) (with_opts (mkOpts (s_codec (opts s)) 1 text) s) in
  let s' := fold_left apply_option os s0 in
  path <> [] -> 63 ∉ path -> os <> [] -> Forall valid_option os ->
  stream_parse mtu s text =
    (ctx ← opus_init_encoder (mkOpus (decoder (opus s')) (encoder (opus s')) 96000 (mss (opus s')))
             (mtu - 73) (s32 (ip_samples (inputpipe s'))) (s32 (ip_channels (inputpipe s')));
     Ok (true, with_encoder ctx s')).
Proof.
  intros text s0 s' Hp Hd Hne Hv. unfold stream_parse.
  change (strncmp_eq 4 text (str "pipe")) with true. cbv iota delta [negb].
  assert (strstr text (str "://") = Some (str "://" ++ (path ++ (63 :: render_all os)))) as -> by apply strstr_pipe.
  change (drop 3 _) with (path ++ (63 :: render_all os)).
  unfold mbind, res_bind. rewrite (proj1 (strtok_delim 63 path _ _ Hp Hd)).
  change (on_pipe _ _) with s0. rewrite parse_options_spec; [|done|done|].
  - replace (mtu - 40 - HDR_SIZE - CHUNK_HEADER_SIZE - 8) with (mtu - 73) by (unfold HDR_SIZE, CHUNK_HEADER_SIZE; lia).
    done.
  - pose proof (render_all_length os). unfold text. rewrite !length_app. simpl. lia.
Qed.

(** C29: the description of a stream is read as it is written: a path without a
    question mark, followed by options in any order, each with a number that fits
    its field or a name without delimiters, gives the stream these options
    describe, the later ones overriding the earlier ones, and an encoder for its
    sample format.  A description without options dereferences a null pointer,
    because a value is looked for even when there is no option left. *)
Theorem stream_parse_render mtu s path os :
  let text := str "pipe://" ++ path ++ (63 :: render_all os) in
  let s0 := on_pipe (with_fname path) (with_opts (mkOpts (s_codec (opts s)) 1 text) s) in
  let s' := fold_left apply_option os s0 in
  path <> [] -> 63 ∉ path -> os <> [] -> Forall valid_option os ->
  stream_parse mtu s text =
    (ctx ← opus_init_encoder (mkOpus (decoder (opus s')) (encoder (opus s')) 96000 (mss (opus s')))
             (mtu - 73) (s32 (ip_samples (inputpipe s'))) (s32 (ip_channels (inputpipe s')));
     Ok (true, with_encoder ctx s')) /\
  stream_parse mtu s (str "pipe://" ++ path) = Fault NullDeref.
Proof.
  intros text s0 s' Hp Hd Hne Hv. split; [by apply stream_parse_url|by apply stream_parse_bare].
Qed.
End parse.

(** ** A concrete stream *)

(** server.c: [stream s = {}] *)
Definition blank_stream : stream unit unit :=
  mkStream (mkPipe [] (mkChunk 0 0 0 0 0 0 0 None) IDLE 0 0 0 0 0 0 0 false None None)
    (mkOpus None None 0 0) [] [] 0 [] false (mkOpts 0 0 []).

Lemma stream_parse_render_witness :
  exists s, stream_parse 1500 blank_stream
      (str "pipe:///tmp/f?buffer_ms=120&codec=opus&name=default&sampleformat=48000:16:2") = Ok (true, s) /\
    name s = str "default" /\ read_ms (inputpipe s) = 120 /\ samplesize (inputpipe s) = 2 /\ mss (opus s) = 1427.
Proof.
  destruct (stream_parse_render 1500 blank_stream (str "/tmp/f")
    [BufferMs 120; Codec true; Name (str "default"); SampleFormat 48000 2 2]) as [E _].
  - done.
  - apply (bool_decide_unpack _). by vm_compute.
  - done.
  - repeat constructor; try lia; try done; apply (bool_decide_unpack _); by vm_compute.
  - eexists. split; [exact E|]. by vm_compute.
Defined.
