(* ===== verification/Tests.v ===== *)
(** * server-test.c, client-test.c: the test programs

    Each test is a function that gives 0, or 1 when an assertion fails;
    [_verify] runs them one after the other and counts them.  The theorems say
    that both programs pass; for the second one what the chunks' other fields
    hold is left open, as its chunks are not initialised. *)
From Stdlib Require Import Ascii String.
From S2P Require Import Prelude.
From S2P Require Import Vector.
From S2P Require Import PQueue.
From S2P Require Import Bytes.
From S2P Require Import CString.
From S2P Require Import PcmChunk.
From S2P Require Import TaskHeap.
From S2P Require Import Intercom.
From S2P Require Import ServerState.
From S2P Require Import Util.
From S2P Require Import Stream.

(** ** Running tests *)

(** server-test.c:54-63 _assert, FAIL: in a row *)
Fixpoint _assert (tests : list bool) : Z :=
  match tests with [] => 0 | t :: tests => if t then _assert tests else 1 end.

(** server-test.c:66-74 _verify: in a row, with the number of tests that ran *)
Fixpoint _verify (tests : list (res Z)) (tests_run : Z) : res (Z * Z) :=
  match tests with
  | [] => mret (0, tests_run)
  | test :: tests =>
      r ← test;
      let tests_run := tests_run + 1 in
      if r =? 0 then _verify tests tests_run else mret (r, tests_run)
  end.

(** server-test.c:133-144 main: what is printed, and the status *)
Definition test_main (all_tests : res (Z * Z)) : res (bytes * Z) :=
  '(result, tests_run) ← all_tests;
  mret ((if result =? 0 then str "PASSED" else str "FAILED") ++ [10] ++ str "Tests run: " ++ dec tests_run ++ [10],
        if result =? 0 then 0 else 1).

(** ** server-test.c *)
Module ServerTest.
Section test.
Context {Dec Enc : Type} `{!OpusLib Dec Enc}.

(** server-test.c:76-90 test_vector_init: the vector that is not initialised has
    any block. *)
Definition test_vector_init (block : list (option Z)) : res Z :=
  let v := mkVec (mkDesc 12 5) block in
  let v := VECTOR_INIT in
  if (vlength (desc v) =? 0) && (allocated (desc v) =? 0) then
    v ← VECTOR_ADD v 12 4;
    mret (_assert [vlength (desc v) =? 1])
  else mret 1.

(** server-test.c:92-96 pcmchunk_header *)
Definition pcmchunk_header : res Z := mret (_assert [17 =? CHUNK_HEADER_SIZE]).

(** server-test.c:100-101 parse_streaminfo *)
Definition zeroed_stream : stream Dec Enc :=
  mkStream (mkPipe [] (mkChunk 0 0 0 0 0 0 0 None) IDLE 0 0 0 0 0 0 0 false None None)
    (mkOpus None None 0 0) [] [] 0 [] false (mkOpts 0 0 []).

(** server-test.c:98-123 parse_streaminfo: the mtu of the context is 0. *)
Definition parse_streaminfo : res Z :=
  '(ok, s) ← stream_parse 0 zeroed_stream
    (str "pipe:///tmp/snapfifo?buffer_ms=20&codec=opus&name=default&sampleformat=48000:16:2");
  let p := inputpipe s in
  mret (_assert [ok; protocol (opts s) =? 1; bool_decide (fname p = str "/tmp/snapfifo");
    bool_decide (name s = str "default"); read_ms p =? 20; s_codec (opts s) =? OPUS; ip_samples p =? 48000;
    samplesize p =? 2; ip_channels p =? 2]).

(** server-test.c:126-131 all_tests *)
Definition server_all_tests (block : list (option Z)) : res (Z * Z) :=
  _verify [test_vector_init block; parse_streaminfo; pcmchunk_header] 0.

(** server-test.c:133-144 main *)
Definition server_test_main (block : list (option Z)) : res (bytes * Z) := test_main (server_all_tests block).
End test.
End ServerTest.

(** ** client-test.c *)
Module ClientTest.
Definition with_sec (sec : Z) (c : pcmChunk) : pcmChunk := with_play_at sec (play_at_tv_nsec c) c.

(** client-test.c:92-95 pqueue: taking one chunk out, and the two lines about it:
    the chunk, and the elements left *)
Definition take_out (q : option (PQueue pcmChunk)) : res (pcmChunk * (bytes * Z * Z) * option (PQueue pcmChunk)) :=
  '(t, q) ← pqueue_dequeue q;
  match t, q with
  | Some t, Some q' => mret (t, (print_chunk t, qsize q', capacity q'), q)
  | _, _ => Fault NullDeref
  end.

(** client-test.c:92-113 pqueue: [n] times *)
Fixpoint take_all (n : nat) (q : option (PQueue pcmChunk)) : res (list (pcmChunk * (bytes * Z * Z))) :=
  match n with
  | O => mret []
  | S n => '(t, l, q) ← take_out q; ts ← take_all n q; mret ((t, l) :: ts)
  end.

(** client-test.c:77-116 pqueue: [c1] to [c4] hold anything, [c5] is zeroed. *)
Definition pqueue (c1 c2 c3 c4 : pcmChunk) : res (Z * list (pcmChunk * (bytes * Z * Z))) :=
  q ← pqueue_new (Some receivebuffer_cmp) 40;
  q ← pqueue_enqueue (Some q) (with_sec 8 c1);
  q ← pqueue_enqueue (Some q) (with_sec 2 c2);
  q ← pqueue_enqueue (Some q) (with_sec 3 c3);
  q ← pqueue_enqueue (Some q) (with_sec 3 c4);
  q ← pqueue_enqueue (Some q) (with_sec 1 (mkChunk 0 0 0 0 0 0 0 None));
  ts ← take_all 5 (Some q);
  mret (0, ts).

(** client-test.c:118-121 all_tests *)
Definition client_all_tests (c1 c2 c3 c4 : pcmChunk) : res (Z * Z) :=
  _verify ['(r, _) ← pqueue c1 c2 c3 c4; mret r] 0.

(** client-test.c:123-134 main *)
Definition client_test_main (c1 c2 c3 c4 : pcmChunk) : res (bytes * Z) := test_main (client_all_tests c1 c2 c3 c4).
End ClientTest.

(** ** The tests pass *)

(** The server's tests pass, whatever the uninitialised vector points to, if
    libopus creates the encoder for 48 kHz stereo at 96 kbit/s: the program
    reports three tests and ends with the status 0. *)
Theorem server_test_passes `{!OpusLib Dec Enc} block err e rc e' :
  opus_encoder_create 48000 2 = (err, Some e) -> 0 <= err -> opus_set_bitrate e 96000 = (rc, e') -> 0 <= rc ->
  ServerTest.server_test_main (Dec := Dec) (Enc := Enc) block = Ok (str "PASSED" ++ [10] ++ str "Tests run: 3" ++ [10], 0).
Proof.
  intros He Herr Hb Hrc.
  assert (ServerTest.parse_streaminfo (Dec := Dec) (Enc := Enc) = Ok 0) as E.
  { unfold ServerTest.parse_streaminfo.
    change (str "pipe:///tmp/snapfifo?buffer_ms=20&codec=opus&name=default&sampleformat=48000:16:2") with
      (str "pipe://" ++ str "/tmp/snapfifo" ++ (63 :: render_all [BufferMs 20; Codec true; Name (str "default");
         SampleFormat 48000 2 2])).
    rewrite stream_parse_url; [|done|by apply no_byte|done|repeat constructor; try lia; try done; by apply no_byte].
    unfold opus_init_encoder. change (s32 (ip_samples _)) with 48000. change (s32 (ip_channels _)) with 2.
    rewrite He, (proj2 (Z.ltb_ge err 0)) by lia. cbn [bitrate]. rewrite Hb, (proj2 (Z.ltb_ge rc 0)) by lia.
    vm_compute. reflexivity. }
  unfold ServerTest.server_test_main, ServerTest.server_all_tests. unfold _verify. rewrite E. by vm_compute.
Qed.

Lemma server_test_passes_witness :
  ServerTest.server_test_main (Dec := unit) (Enc := unit) [Some 7] = Ok (str "PASSED" ++ [10] ++ str "Tests run: 3" ++ [10], 0).
Proof. apply (server_test_passes [Some 7] 0 tt 0 tt); done || (vm_compute; congruence). Defined.

(** The chunks of the client's test, and how they compare: by their seconds, and
    the two of the same second by what happens to be in them. *)
Inductive test_chunk := C1 | C2 | C3 | C4 | C5.

Definition test_sec (c : test_chunk) : Z := match c with C1 => 8 | C2 => 2 | C3 => 3 | C4 => 3 | C5 => 1 end.

Definition test_cmp (nsec34 : comparison) (x y : test_chunk) : Z :=
  if test_sec y >? test_sec x then 1
  else match x, y, nsec34 with C3, C4, Lt | C4, C3, Gt => 1 | _, _, _ => 0 end.

Definition test_value (c1 c2 c3 c4 : pcmChunk) (c : test_chunk) : pcmChunk :=
  ClientTest.with_sec (test_sec c)
    match c with C1 => c1 | C2 => c2 | C3 => c3 | C4 => c4 | C5 => mkChunk 0 0 0 0 0 0 0 None end.

Lemma test_cmp_spec c1 c2 c3 c4 x y :
  (receivebuffer_cmp (test_value c1 c2 c3 c4 x) (test_value c1 c2 c3 c4 y) >? 0) =
  (test_cmp (play_at_tv_nsec c3 ?= play_at_tv_nsec c4) x y >? 0).
Proof.
  unfold receivebuffer_cmp, chunk_cmp, test_cmp, test_value, ClientTest.with_sec.
  destruct (Z.compare_spec (play_at_tv_nsec c3) (play_at_tv_nsec c4)), x, y; simpl; try done; repeat case_match; lia.
Qed.

(** Taking out [n] elements, each with the number that is left and the capacity. *)
Fixpoint take_elements {A} (n : nat) (q : option (PQueue A)) : res (list (A * (Z * Z))) :=
  match n with
  | O => mret []
  | S n =>
      '(t, q) ← pqueue_dequeue q;
      match t, q with
      | Some t, Some q' => ts ← take_elements n q; mret ((t, (qsize q', capacity q')) :: ts)
      | _, _ => Fault NullDeref
      end
  end.

Definition test_queue (nsec34 : comparison) : res (PQueue test_chunk) :=
  q ← pqueue_new (Some (test_cmp nsec34)) 40;
  q ← pqueue_enqueue (Some q) C1;
  q ← pqueue_enqueue (Some q) C2;
  q ← pqueue_enqueue (Some q) C3;
  q ← pqueue_enqueue (Some q) C4;
  pqueue_enqueue (Some q) C5.

Lemma test_queue_spec o : exists q l, test_queue o = Ok q /\ qcmp q = test_cmp o /\
  take_elements 5 (Some q) = Ok l /\ test_sec ∘ fst <$> l = [1; 2; 3; 3; 8] /\
  snd <$> l = [(4, 40); (3, 40); (2, 40); (1, 40); (0, 40)].
Proof. destruct o; eexists _, _; (split; [vm_compute; reflexivity|]); by vm_compute. Qed.

Section client_test.
Context (c1 c2 c3 c4 : pcmChunk).
Let value := test_value c1 c2 c3 c4.
Let cmp := test_cmp (play_at_tv_nsec c3 ?= play_at_tv_nsec c4).

Lemma qcmp_enqueue {A} q (x : A) q' : pqueue_enqueue (Some q) x = Ok q' -> qcmp q' = qcmp q.
Proof.
  unfold pqueue_enqueue. destruct (_ >=? _); [by intros [= <-]|].
  destruct (run_loop _ _ _); [|done]. by intros [= <-].
Qed.

Lemma qcmp_dequeue {A} q (x : option A) q' : pqueue_dequeue (Some q) = Ok (x, Some q') -> qcmp q' = qcmp q.
Proof.
  unfold pqueue_dequeue. destruct (pqueue_peek (Some q)); [|by intros [= _ <-]].
  destruct (pqueue_heapify _ _ _); [|done]. by intros [= _ <-].
Qed.

(** The test's queue holds the values of the queue above. *)
Lemma enqueue_values q x (k : PQueue pcmChunk -> res (Z * list (pcmChunk * (bytes * Z * Z)))) q' :
  qcmp q = cmp -> pqueue_enqueue (Some q) x = Ok q' ->
  (q ← pqueue_enqueue (Some (map_queue value receivebuffer_cmp q)) (value x); k q) =
    k (map_queue value receivebuffer_cmp q').
Proof.
  intros Hq E. rewrite (enqueue_map value cmp receivebuffer_cmp (test_cmp_spec c1 c2 c3 c4)) by done.
  by rewrite E.
Qed.

Lemma take_values n q l : qcmp q = cmp -> take_elements n (Some q) = Ok l ->
  exists ts, ClientTest.take_all n (Some (map_queue value receivebuffer_cmp q)) = Ok ts /\
    fst <$> ts = value ∘ fst <$> l /\ (fun t => (t.2.1.2, t.2.2)) <$> ts = snd <$> l.
Proof.
  revert q l. induction n as [|n IH]; intros q l Hq E; [injection E as <-; by exists []|].
  cbn [take_elements] in E. cbn [ClientTest.take_all]. unfold ClientTest.take_out.
  rewrite (dequeue_map value cmp receivebuffer_cmp (test_cmp_spec c1 c2 c3 c4)) by done.
  destruct (pqueue_dequeue (Some q)) as [[[t|] [q'|]]|] eqn:Ed; try done.
  apply qcmp_dequeue in Ed as Hq'. cbn in E. destruct (take_elements n (Some q')) as [l'|] eqn:El; [|done].
  injection E as <-. destruct (IH q' l') as (ts & E2 & H1 & H2); [by rewrite Hq'|done|].
  eexists. split; [cbn; rewrite E2; reflexivity|]. cbn. rewrite H1, H2. unfold qsize, map_queue. simpl.
  by rewrite length_fmap.
Qed.

Lemma test_pops : exists ts, ClientTest.pqueue c1 c2 c3 c4 = Ok (0, ts) /\
  play_at_tv_sec ∘ fst <$> ts = [1; 2; 3; 3; 8] /\
  (fun t => (t.2.1.2, t.2.2)) <$> ts = [(4, 40); (3, 40); (2, 40); (1, 40); (0, 40)].
Proof.
  destruct (test_queue_spec (play_at_tv_nsec c3 ?= play_at_tv_nsec c4)) as (q & l & E & Hq & El & Hs & Hn).
  fold cmp in E, Hq, Hs, Hn. revert E. unfold test_queue. fold cmp. simpl (pqueue_new _ _).
  set (q0 := mkPQueue 40 [] cmp). assert (qcmp q0 = cmp) as H0 by done. cbn [mbind res_bind].
  intros E.
  destruct (pqueue_enqueue (Some q0) C1) as [q1|] eqn:E1; [|done]. cbn in E. pose proof (qcmp_enqueue _ _ _ E1) as H1.
  destruct (pqueue_enqueue (Some q1) C2) as [q2|] eqn:E2; [|done]. cbn in E. pose proof (qcmp_enqueue _ _ _ E2) as H2.
  destruct (pqueue_enqueue (Some q2) C3) as [q3|] eqn:E3; [|done]. cbn in E. pose proof (qcmp_enqueue _ _ _ E3) as H3.
  destruct (pqueue_enqueue (Some q3) C4) as [q4|] eqn:E4; [|done]. cbn in E. pose proof (qcmp_enqueue _ _ _ E4) as H4.
  destruct (take_values 5 q l Hq El) as (ts & Et & Hf & Hns). exists ts.
  rewrite Hns, Hn. split; [|split; [|done]].
  - unfold ClientTest.pqueue. change (pqueue_new (Some receivebuffer_cmp) 40) with
      (Ok (map_queue value receivebuffer_cmp q0)). cbn [mbind res_bind].
    rewrite (enqueue_values q0 C1 _ q1) by done. rewrite (enqueue_values q1 C2 _ q2) by congruence.
    rewrite (enqueue_values q2 C3 _ q3) by congruence. rewrite (enqueue_values q3 C4 _ q4) by congruence.
    rewrite (enqueue_values q4 C5 _ q) by congruence. by rewrite Et.
  - rewrite list_fmap_compose, Hf, <- Hs, <- list_fmap_compose. by apply list_fmap_ext.
Qed.
End client_test.

(** The client's test passes whatever its uninitialised chunks hold: the five
    chunks are taken out in the order of their seconds, the queue shrinks to
    nothing, and the program ends with the status 0. *)
Theorem client_test_passes c1 c2 c3 c4 :
  (exists ts, ClientTest.pqueue c1 c2 c3 c4 = Ok (0, ts) /\
    play_at_tv_sec ∘ fst <$> ts = [1; 2; 3; 3; 8] /\
    (fun t => (t.2.1.2, t.2.2)) <$> ts = [(4, 40); (3, 40); (2, 40); (1, 40); (0, 40)]) /\
  ClientTest.client_test_main c1 c2 c3 c4 = Ok (str "PASSED" ++ [10] ++ str "Tests run: 1" ++ [10], 0).
Proof.
  destruct (test_pops c1 c2 c3 c4) as (ts & E & H). split; [by exists ts|].
  unfold ClientTest.client_test_main, ClientTest.client_all_tests. rewrite E. reflexivity.
Qed.
