(* ===== verification/ServerLoop.v ===== *)
(** * server.c: the main loop

    What epoll reports is a list of events.  The events that carry input from
    outside come with it: the datagrams that [recvfrom] returns until it fails,
    the descriptor [accept] returns, what [read] returns on a control
    connection. *)
From S2P Require Import Prelude.
From S2P Require Import Timespec.
From S2P Require Import Bytes.
From S2P Require Import PcmChunk.
From S2P Require Import TaskHeap.
From S2P Require Import TaskSched.
From S2P Require Import Intercom.
From S2P Require Import ServerState.
From S2P Require Import InputPipe.
From S2P Require Import ClientMgr.
From S2P Require Import IntercomSrv.
From S2P Require Import JsonRpc.
From S2P Require Import Util.
From S2P Require Import Control.

(** An event of epoll: the descriptor, whether it is an error or a hangup,
    whether it is (also, or only) readable, and the input. *)
Record event := mkEvent {
  ev_fd : Z;
  ev_error : bool;
  ev_in : bool;
  ev_only_in : bool;
  ev_datagrams : list received;
  ev_accepted : Z;
  ev_input : sock_input;
}.

(** The descriptors of the timer, of the intercom and of the control socket. *)
Record server_fds := mkFds { taskqueue_fd : Z; intercom_fd : Z; socket_fd : Z }.

Section loop.
Context {Q Dec Enc J : Type}
  `{!TimerQueue Q, !OpusLib Dec Enc, !JsonLib J, !HostLib, !UnionLib J} (fds : server_fds).
Abbreviation W := (server Q Dec Enc).

(** intercom.c:55-90 intercom_handle_in: until nothing is left to receive; an
    empty datagram also ends the loop. *)
Fixpoint srv_handle_in (rs : list received) : M W unit :=
  match rs with
  | [] | RecvError :: _ => skip
  | Received buf count peer port :: rs =>
      if count =? 0 then skip
      else
        srv_handle_packet (S (Z.to_nat count)) buf count peer (ntohs port) ;;
        srv_handle_in rs
  end.

(** server.c:98-103 loop: an error on a control connection *)
Definition close_socket (k : nat) (fd : Z) : M W unit := del_fd fd ;; socket_client_remove k.

(** server.c:86-105 loop: an error or a hangup; a descriptor that is neither a
    pipe's nor a control connection's ends the server. *)
Definition handle_error_event (fd : Z) : M W unit :=
  p ← stream_find_fd fd;
  match p with
  | Some i => srv_pipe_hangup i
  | None =>
      k ← socket_get_client fd;
      match k with
      | Some k => close_socket k fd
      | None => fail ExitSuccess
      end
  end.

(** server.c:134-138 loop: a new control connection *)
Definition handle_accept (accepted : Z) : M W unit :=
  cfd ← socket_handle_in accepted;
  if cfd >? 0 then add_fd cfd else skip.

(** server.c:139-149 loop: a control connection is readable *)
Definition handle_socket (k : nat) (fd : Z) (r : sock_input) : M W unit :=
  ret ← socket_handle_client (J := J) k r;
  if ret <? 0 then close_socket k fd else skip.

(** server.c:83-169 loop: one event, in [fuel] rounds of the task queue; whether
    the loop over the events goes on. *)
Definition handle_event (fuel : nat) (e : event) : M W bool :=
  let fd := ev_fd e in
  p ← stream_find_fd fd;
  k ← socket_get_client fd;
  if ev_error e then handle_error_event fd ;; mret true
  else if (taskqueue_fd fds =? fd) && ev_in e then srv_timer_event fuel ;; mret true
  else if bool_decide (is_Some p) && ev_in e then srv_pipe_event (default 0%nat p) ;; mret true
  else if (intercom_fd fds =? fd) && ev_in e then srv_handle_in (ev_datagrams e) ;; mret true
  else if (socket_fd fds =? fd) && ev_in e then handle_accept (ev_accepted e) ;; mret true
  else if bool_decide (is_Some k) && ev_in e then handle_socket (default 0%nat k) fd (ev_input e) ;; mret true
  else mret (negb (ev_only_in e)).

(** server.c:80-172 loop: the events of one call of [epoll_wait] *)
Fixpoint handle_events (fuel : nat) (es : list event) : M W unit :=
  match es with
  | [] => skip
  | e :: es => go ← handle_event fuel e; if go : bool then handle_events fuel es else skip
  end.
End loop.
