(* ===== verification/ServerInv.v ===== *)
(** * Invariants of the server

    What an invariant of the server has to be kept by ([base_invariant] for the
    operations beneath, [server_invariant] for those that change which clients
    there are), and that every handler then keeps it.  Predicates that are not
    about the clients, or not about the pipes, need less.  First of them: the
    scheduler stays in order with its timer armed. *)
From S2P Require Import Prelude.
From S2P Require Import Timespec.
From S2P Require Import Bytes.
From S2P Require Import PcmChunk.
From S2P Require Import TaskHeap.
From S2P Require Import TaskSched.
From S2P Require Import Invariant.
From S2P Require Import Intercom.
From S2P Require Import ServerState.
From S2P Require Import InputPipe.
From S2P Require Import ClientMgr.
From S2P Require Import IntercomSrv.
From S2P Require Import JsonRpc.
From S2P Require Import Util.
From S2P Require Import Control.
From S2P Require Import ServerLoop.

(** ** What an invariant of the server is about *)

(** What the invariants see of a pipe. *)
Record view := mkView { v_fd : Z; v_state : inputpipe_state; v_open : bool; v_resume : option addr }.

Definition view_of (x : inputpipe_ctx) : view := mkView (fd x) (state x) (ip_initialized x) (resume_task x).

(** What a handler keeps, from what the operations it is composed of keep. *)
Ltac keep h := unfold h; preserve.

Section handlers.
Context {Q Dec Enc J : Type}
  `{!TimerQueue Q, !TimerQueueLaws Q, !OpusLib Dec Enc, !JsonLib J, !HostLib, !UnionLib J}.
Abbreviation W := (server Q Dec Enc).
Implicit Types (w : W).

Definition views w : list view := (fun s => view_of (inputpipe s)) <$> streams w.
Definition socks w : list Z := sc_fd <$> sclients (control_ctx w).
Definition ids_of (s : stream Dec Enc) : list Z := id <$> clients s.
(** The ids of the clients of each stream. *)
Definition cids w : list (list Z) := ids_of <$> streams w.

(** States that differ only in the clients and in what no invariant is about: the
    packets that are kept or were sent, the nonces, the system clock. *)
Definition alike w w' : Prop :=
  stasks w' = stasks w /\ views w' = views w /\ efd w' = efd w /\ opens w' = opens w /\ socks w' = socks w.

(** What makes a predicate an invariant of the handlers: the scheduler's and the
    pipes' operations keep it ... *)
Record base_invariant (I : W -> Prop) : Prop := {
  sv_alike : forall w w', alike w w' -> cids w' = cids w -> I w -> I w';
  sv_post : forall timeout ms (t : stask), preserves I (post_task timeout ms t);
  sv_drop : forall p, preserves I (drop_task stask_cleanup p);
  sv_reschedule : forall p timeout ms, preserves I (reschedule_task (P := stask) p timeout ms);
  sv_hold : forall i, preserves I (inputpipe_hold i);
  sv_resume : forall i, preserves I (inputpipe_resume_read i);
  sv_with_resume : forall i w s, streams w !! i = Some s -> state (inputpipe s) = IDLE -> I w ->
    I (set_streams (alter (on_pipe (with_resume None)) i (streams w)) w);
}.
(** ... and so do the operations that change which clients there are. *)
Record server_invariant (I : W -> Prop) : Prop := {
  sv_base : base_invariant I;
  sv_remove : forall i j, preserves I (stream_client_remove i j);
  sv_refresh : forall c, preserves I (clientmgr_refresh_client c);
  sv_move : forall i j n, preserves I (move_client i j n);
}.

Lemma alike_refl w : alike w w.
Proof. done. Qed.

Lemma fmap_alter_same {A B} (g : A -> B) (f : A -> A) (i : nat) (l : list A) :
  (forall x, g (f x) = g x) -> g <$> alter f i l = g <$> l.
Proof.
  intros Hf. apply list_eq. intros j. rewrite !list_lookup_fmap.
  destruct (decide (i = j)) as [<-|Hij]; [|by rewrite list_lookup_alter_ne].
  rewrite list_lookup_alter_eq. destruct (l !! i); [|done]. simpl. by rewrite Hf.
Qed.

Lemma alike_streams w i f : (forall s, view_of (inputpipe (f s)) = view_of (inputpipe s)) ->
  alike w (set_streams (alter f i (streams w)) w).
Proof. intros Hf. split_and!; try done. by apply (fmap_alter_same (fun s => view_of (inputpipe s))). Qed.

(** *** Inverting the operations *)

Lemma the_stream_inv i w s w' : the_stream i w = Ok (s, w') -> w' = w /\ streams w !! i = Some s.
Proof. unfold the_stream. destruct (streams w !! i) as [s'|]; [|done]. by intros [= <- <-]. Qed.

Lemma the_pipe_inv i w x w' : the_pipe i w = Ok (x, w') ->
  w' = w /\ exists s, streams w !! i = Some s /\ x = inputpipe s.
Proof.
  unfold the_pipe. intros (s & w1 & E & [= <- <-])%M_bind_inv. apply the_stream_inv in E as [-> Hs].
  split; [done|]. by exists s.
Qed.

Lemma upd_pipe_inv i f w u w' : upd_pipe i f w = Ok (u, w') ->
  w' = set_streams (alter (on_pipe f) i (streams w)) w.
Proof. by intros [= _ <-]. Qed.

Lemma add_fd_inv f w u w' : add_fd f w = Ok (u, w') -> w' = set_efd ({[f]} ∪ efd w) w /\ (f ∉ efd w).
Proof. unfold add_fd. case_decide; [done|]. by intros [= _ <-]. Qed.

Lemma del_fd_inv f w u w' : del_fd f w = Ok (u, w') -> w' = set_efd (efd w ∖ {[f]}) w /\ f ∈ efd w.
Proof. unfold del_fd. case_decide; [|done]. by intros [= _ <-]. Qed.

(** Dropping and posting tasks changes nothing but the scheduler. *)
Definition only_sched w0 w : Prop := exists sch, w = set_stasks sch w0.

Lemma only_sched_apart w0 : apart_from_sched (only_sched w0).
Proof. intros s w [sch ->]. by exists s. Qed.

Lemma only_sched_refl w : only_sched w w.
Proof. exists (stasks w). by destruct w. Qed.

Lemma drop_only p w u w' : drop_task stask_cleanup p w = Ok (u, w') -> only_sched w w'.
Proof.
  apply (apart_drop (only_sched w) (only_sched_apart w)); [|apply only_sched_refl].
  intros pl. apply preserves_skip.
Qed.

Lemma post_only timeout ms (t : stask) w a w' : post_task timeout ms t w = Ok (a, w') -> only_sched w w'.
Proof. apply (apart_post (only_sched w) (only_sched_apart w)), only_sched_refl. Qed.

Lemma reschedule_only p timeout ms w b w' :
  reschedule_task (P := stask) p timeout ms w = Ok (b, w') -> only_sched w w'.
Proof. apply (apart_reschedule (only_sched w) (only_sched_apart w)), only_sched_refl. Qed.

(** *** The operations beneath the handlers *)

Section base.
Context (I : W -> Prop) (HI : base_invariant I).

(** A computation that reads, or changes what the invariant is not about. *)
Lemma hold_step {A} (m : M W A) :
  (forall w a w', m w = Ok (a, w') -> alike w w' /\ cids w' = cids w) -> preserves I m.
Proof. intros Hm w a w' Hw E. destruct (Hm w a w' E). by eapply (sv_alike _ HI). Qed.
Lemma hold_modify f : (forall w, alike w (f w) /\ cids (f w) = cids w) -> preserves I (modify f).
Proof. intros Hf. apply hold_step. by intros w a w' [= _ <-]. Qed.

Lemma hold_post timeout ms (t : stask) : preserves I (post_task timeout ms t).
Proof. apply HI. Qed.
Lemma hold_drop p : preserves I (drop_task stask_cleanup p).
Proof. apply HI. Qed.
Lemma hold_reschedule p timeout ms : preserves I (reschedule_task (P := stask) p timeout ms).
Proof. apply HI. Qed.
Lemma hold_hold i : preserves I (inputpipe_hold i).
Proof. apply HI. Qed.
Lemma hold_resume i : preserves I (inputpipe_resume_read i).
Proof. apply HI. Qed.
Lemma hold_upd_stream i f :
  (forall s, view_of (inputpipe (f s)) = view_of (inputpipe s) /\ ids_of (f s) = ids_of s) ->
  preserves I (upd_stream i f).
Proof.
  intros Hf. apply hold_modify. intros w. split; [apply alike_streams|apply fmap_alter_same]; intros s; apply Hf.
Qed.
Lemma hold_upd_client i j f : (forall c, id (f c) = id c) -> preserves I (upd_client i j f).
Proof. intros Hf. apply hold_upd_stream. intros s. split; [done|]. by apply (fmap_alter_same id). Qed.
Lemma hold_upd_control f : (forall x, sc_fd <$> sclients (f x) = sc_fd <$> sclients x) ->
  preserves I (upd_control f : M W unit).
Proof. intros Hf. apply hold_modify. intros w. split; [|done]. split_and!; try done. apply Hf. Qed.
Lemma hold_send r p port : preserves I (send_unicast r p port).
Proof. by apply hold_modify. Qed.
Lemma hold_the_stream i : preserves I (the_stream i).
Proof. apply hold_step. intros w a w'. unfold the_stream. destruct (_ !! _); intros [=]; by subst. Qed.
Lemma hold_time : preserves I sobtainsystime.
Proof. apply hold_step. by intros w a w' [= _ <-]. Qed.

#[local] Hint Resolve hold_post hold_drop hold_reschedule hold_hold hold_resume hold_send
  hold_the_stream hold_time : preserve.
#[local] Hint Extern 1 (preserves _ (upd_client _ _ _)) => by apply hold_upd_client : preserve.
#[local] Hint Extern 1 (preserves _ (upd_stream _ _)) => by apply hold_upd_stream : preserve.
#[local] Hint Extern 1 (preserves _ (modify _)) => by apply hold_modify : preserve.
#[local] Hint Extern 1 (preserves _ (upd_control _)) => by apply hold_upd_control : preserve.

(** *** Streams and clients *)

Lemma hold_the_pipe i : preserves I (the_pipe i). Proof. keep @the_pipe. Qed.
#[local] Hint Resolve hold_the_pipe : preserve.

Lemma hold_find_client cid : preserves I (find_client cid). Proof. keep @find_client. Qed.
#[local] Hint Resolve hold_find_client : preserve.
Lemma hold_stream_find cid : preserves I (stream_find cid). Proof. keep @stream_find. Qed.
Lemma hold_the_client i j : preserves I (the_client i j). Proof. keep @the_client. Qed.
Lemma hold_stop c : preserves I (intercom_stop_client c). Proof. keep @intercom_stop_client. Qed.
Lemma hold_volume c v : preserves I (clientmgr_client_refreshvolume c v).
Proof. unfold clientmgr_client_refreshvolume. keep @intercom_set_volume. Qed.
#[local] Hint Resolve hold_stream_find hold_the_client hold_stop hold_volume : preserve.
Lemma hold_buffer c : preserves I (clientmgr_send_audio_buffer_to_client c).
Proof. keep @clientmgr_send_audio_buffer_to_client. Qed.
#[local] Hint Resolve hold_buffer : preserve.
Lemma hold_setmute i j m : preserves I (clientmgr_client_setmute i j m).
Proof. keep @clientmgr_client_setmute. Qed.
Lemma hold_stop_clients i : preserves I (clientmgr_stop_clients i). Proof. keep @clientmgr_stop_clients. Qed.
Lemma hold_new_client cid host port : preserves I (new_client cid host port). Proof. keep @new_client. Qed.
End base.

#[local] Hint Resolve hold_post hold_drop hold_reschedule hold_hold hold_resume hold_send
  hold_the_stream hold_the_pipe hold_time hold_find_client hold_stream_find hold_the_client hold_stop hold_volume
  hold_buffer hold_setmute hold_stop_clients hold_new_client : preserve.
#[local] Hint Extern 1 (preserves _ (upd_client _ _ _)) => by apply hold_upd_client : preserve.
#[local] Hint Extern 1 (preserves _ (upd_stream _ _)) => by apply hold_upd_stream : preserve.
#[local] Hint Extern 1 (preserves _ (modify _)) => by apply hold_modify : preserve.
#[local] Hint Extern 1 (preserves _ (upd_control _)) => by apply hold_upd_control : preserve.

(** *** Invariants that are not about the clients *)

Section blind.
Context (I : W -> Prop) (HI : base_invariant I) (Hblind : forall w w', alike w w' -> I w -> I w').

Lemma blind_upd_stream i f : (forall s, view_of (inputpipe (f s)) = view_of (inputpipe s)) ->
  preserves I (upd_stream i f).
Proof. intros Hf. apply preserves_modify. intros w. by apply Hblind, alike_streams. Qed.
#[local] Hint Extern 0 (preserves _ (upd_stream _ _)) => by apply blind_upd_stream : preserve.

(** The pipe of a first client is idle: it has no task to resume. *)
Lemma blind_client_add i c : preserves I (stream_client_add i c).
Proof.
  unfold stream_client_add. apply preserves_bind; [preserve|intros _].
  intros w a w' Hw (s & w1 & E1 & E2)%M_bind_inv.
  unfold the_stream in E1. destruct (streams w !! i) as [s'|] eqn:Hs; [|done]. injection E1 as -> <-.
  destruct ((_ =? 1) && bool_decide (state (inputpipe s) = IDLE)) eqn:Eidle; [|by injection E2 as _ <-].
  apply andb_prop in Eidle as [_ Hidle%bool_decide_eq_true].
  apply M_bind_inv in E2 as ([] & w2 & E2 & E3). apply M_bind_inv in E3 as ([] & w3 & [= <-] & E4).
  assert (I w2 /\ streams w2 = streams w) as [Hw2 Est].
  { destruct (resume_task (inputpipe s)); [|by injection E2 as <-].
    split; [by eapply hold_drop|]. assert (only_sched w w2) as [sch ->] by by eapply drop_only. done. }
  eapply hold_resume, E4; [done|]. eapply (sv_with_resume _ HI); [|exact Hidle|exact Hw2]. by rewrite Est.
Qed.
Lemma blind_client_remove i j : preserves I (stream_client_remove i j).
Proof. keep @stream_client_remove. Qed.
#[local] Hint Resolve blind_client_add blind_client_remove : preserve.
Lemma blind_delete cid : preserves I (clientmgr_delete_client cid).
Proof. unfold clientmgr_delete_client. keep @delete_client_internal. Qed.
Lemma blind_register c : preserves I (register_client c). Proof. keep @register_client. Qed.
#[local] Hint Resolve blind_delete blind_register : preserve.

Lemma blind_invariant : server_invariant I.
Proof.
  split.
  - done.
  - apply blind_client_remove.
  - intros c. keep @clientmgr_refresh_client.
  - intros i j n. keep @move_client.
Qed.
End blind.

(** *** Handlers that neither bring nor take clients *)

Section rest.
Context (I : W -> Prop) (HB : base_invariant I).

Lemma hold_remove_old i : preserves I (remove_old_audiodata_task i).
Proof. keep @remove_old_audiodata_task. Qed.
Lemma hold_send_audio i : preserves I (intercom_send_audio i). Proof. keep @intercom_send_audio. Qed.
Lemma hold_encode i : preserves I (encode_chunk i). Proof. keep @encode_chunk. Qed.
Lemma hold_request_segment p o peer port : preserves I (handle_request_segment p o peer port).
Proof. keep @handle_request_segment. Qed.
Lemma hold_print fd (o : J) : preserves I (json_object_print_and_put fd o).
Proof. keep @json_object_print_and_put. Qed.
Lemma hold_find_name n : preserves I (stream_find_name n). Proof. keep @stream_find_name. Qed.
Lemma hold_find_fd f : preserves I (stream_find_fd f). Proof. keep @stream_find_fd. Qed.
Lemma hold_apply (v : volume_request) : preserves I (apply_volume (J := J) v). Proof. keep @apply_volume. Qed.
#[local] Hint Resolve hold_find_name : preserve.
Lemma hold_setstream_params (ps : list (parameter J)) c n : preserves I (setstream_params ps c n).
Proof. revert c n. induction ps as [|p ps IH]; intros c n; cbn [setstream_params]; preserve. Qed.
Lemma hold_setvolume_params (ps : list (parameter J)) v : preserves I (setvolume_params ps v).
Proof. revert v. induction ps as [|p ps IH]; intros v; cbn [setvolume_params]; preserve. Qed.
Lemma hold_get_client f : preserves I (socket_get_client f : M W _). Proof. keep @socket_get_client. Qed.
End rest.

#[local] Hint Resolve hold_remove_old hold_send_audio hold_encode hold_request_segment hold_print hold_find_name
  hold_apply hold_setstream_params hold_setvolume_params : preserve.

(** *** The network: only a hello brings a client or takes it away. *)

Section network.
Context (I : W -> Prop) (HB : base_invariant I) (Hrefresh : forall c, preserves I (clientmgr_refresh_client c)).

Lemma net_hello_segment p o peer port : preserves I (handle_hello_segment p o peer port).
Proof. keep @handle_hello_segment. Qed.
#[local] Hint Resolve net_hello_segment : preserve.
Lemma net_cop_loop fuel p len off peer port : preserves I (cop_loop fuel p len off peer port).
Proof. revert off. induction fuel as [|fuel IH]; intros off; cbn [cop_loop]; preserve. Qed.
#[local] Hint Resolve net_cop_loop : preserve.
Lemma net_packet fuel p len peer port : preserves I (srv_handle_packet fuel p len peer port).
Proof. unfold srv_handle_packet. keep @intercom_handle_client_operation. Qed.
#[local] Hint Resolve net_packet : preserve.
Lemma net_handle_in rs : preserves I (srv_handle_in rs : M W unit).
Proof. induction rs as [|[|buf count peer port] rs IH]; cbn [srv_handle_in]; preserve. Qed.
End network.

(** *** Control requests: they only move clients. *)

Section requests.
Context (I : W -> Prop) (HB : base_invariant I) (Hmove : forall i j n, preserves I (move_client i j n)).

Lemma ctl_request (r : jsonrpc_request J) fd : preserves I (handle_request r fd).
Proof.
  unfold handle_request, handle_GetRPCVersion, handle_client_setstream, handle_client_setvolume,
    handle_server_getstatus. preserve.
Qed.
#[local] Hint Resolve ctl_request : preserve.
Lemma ctl_line sc : preserves I (handle_line (J := J) sc). Proof. keep @handle_line. Qed.
End requests.

(** *** All handlers *)

Context (I : W -> Prop) (HI : server_invariant I).
Let HB := sv_base _ HI.

Lemma hold_remove i j : preserves I (stream_client_remove i j). Proof. apply HI. Qed.
Lemma hold_refresh c : preserves I (clientmgr_refresh_client c). Proof. apply HI. Qed.
Lemma hold_move i j n : preserves I (move_client i j n). Proof. apply HI. Qed.
#[local] Hint Resolve hold_remove : preserve.
Lemma hold_delete_internal r : preserves I (delete_client_internal r).
Proof. keep @delete_client_internal. Qed.
#[local] Hint Resolve hold_delete_internal : preserve.
Lemma hold_delete cid : preserves I (clientmgr_delete_client cid). Proof. keep @clientmgr_delete_client. Qed.
Lemma hold_handle_in rs : preserves I (srv_handle_in rs : M W unit).
Proof. apply net_handle_in; [exact HB|apply hold_refresh]. Qed.
Lemma hold_line sc : preserves I (handle_line (J := J) sc).
Proof. apply ctl_line; [exact HB|apply hold_move]. Qed.
End handlers.

#[export] Hint Resolve sv_base hold_hold hold_resume hold_send hold_the_stream hold_the_pipe hold_time
  hold_stop_clients hold_delete hold_remove_old hold_send_audio hold_encode
  hold_handle_in hold_find_fd hold_get_client hold_line : preserve.

(** ** Invariants that are not about the pipes *)

Section pipeless.
Context {Q Dec Enc J : Type}
  `{!TimerQueue Q, !TimerQueueLaws Q, !OpusLib Dec Enc, !JsonLib J, !HostLib, !UnionLib J}.
Abbreviation W := (server Q Dec Enc).

(** About the tasks and the clients only. *)
Record pipeless_invariant (I : W -> Prop) : Prop := {
  pi_frame : forall w w', stasks w' = stasks w -> cids w' = cids w -> I w -> I w';
  pi_post : forall timeout ms (t : stask), preserves I (post_task timeout ms t);
  pi_drop : forall p, preserves I (drop_task stask_cleanup p);
  pi_reschedule : forall p timeout ms, preserves I (reschedule_task (P := stask) p timeout ms);
}.

Context (I : W -> Prop) (HI : pipeless_invariant I).

(** A computation that reads, or changes neither tasks nor clients. *)
Lemma keep_step {A} (m : M W A) :
  (forall w a w', m w = Ok (a, w') -> stasks w' = stasks w /\ cids w' = cids w) -> preserves I m.
Proof. intros Hm w a w' Hw E. destruct (Hm w a w' E). by eapply (pi_frame _ HI). Qed.
Lemma keep_modify f : (forall w, stasks (f w) = stasks w /\ cids (f w) = cids w) -> preserves I (modify f).
Proof. intros Hf. apply keep_step. by intros w a w' [= _ <-]. Qed.
Lemma keep_post timeout ms (t : stask) : preserves I (post_task timeout ms t).
Proof. apply (pi_post _ HI). Qed.
Lemma keep_drop p : preserves I (drop_task stask_cleanup p).
Proof. apply (pi_drop _ HI). Qed.
Lemma keep_reschedule p timeout ms : preserves I (reschedule_task (P := stask) p timeout ms).
Proof. apply (pi_reschedule _ HI). Qed.
Lemma keep_upd_pipe i f : preserves I (upd_pipe i f).
Proof. apply keep_modify. intros w. split; [done|]. by apply fmap_alter_same. Qed.
Lemma keep_upd_control f : preserves I (upd_control f : M W unit).
Proof. by apply keep_modify. Qed.
Lemma keep_the_pipe i : preserves I (the_pipe i).
Proof. apply keep_step. by intros w a w' [-> _]%the_pipe_inv. Qed.
Lemma keep_the_stream i : preserves I (the_stream i).
Proof. apply keep_step. by intros w a w' [-> _]%the_stream_inv. Qed.
Lemma keep_time : preserves I sobtainsystime.
Proof. apply keep_step. by intros w a w' [= _ <-]. Qed.
Lemma keep_read n : preserves I (read_pipe n).
Proof. apply keep_step. by intros w a w' [= _ <-]. Qed.
Lemma keep_open : preserves I open_pipe.
Proof. apply keep_step. by intros w a w' [= _ <-]. Qed.
Lemma keep_add_fd f : preserves I (add_fd f).
Proof. apply keep_step. by intros w a w' [-> _]%add_fd_inv. Qed.
Lemma keep_del_fd f : preserves I (del_fd f).
Proof. apply keep_step. by intros w a w' [-> _]%del_fd_inv. Qed.

#[local] Hint Resolve keep_post keep_drop keep_reschedule keep_upd_pipe keep_upd_control keep_the_pipe
  keep_the_stream keep_time keep_read keep_open keep_add_fd keep_del_fd : preserve.
#[local] Hint Extern 1 (preserves _ (modify _)) => by apply keep_modify : preserve.

Lemma keep_set_idle i : preserves I (set_idle i). Proof. keep @set_idle. Qed.
#[local] Hint Resolve keep_set_idle : preserve.
Lemma keep_hold i : preserves I (inputpipe_hold i). Proof. keep @inputpipe_hold. Qed.
Lemma keep_init i : preserves I (inputpipe_init i). Proof. keep @inputpipe_init. Qed.
#[local] Hint Resolve keep_hold keep_init : preserve.
Lemma keep_resume i : preserves I (inputpipe_resume_read i). Proof. keep @inputpipe_resume_read. Qed.
Lemma keep_uninit i : preserves I (inputpipe_uninit i). Proof. keep @inputpipe_uninit. Qed.
#[local] Hint Resolve keep_resume keep_uninit : preserve.

Lemma pipeless_base : base_invariant I.
Proof.
  split; try by intros; preserve.
  - intros w w' [E _]. by apply (pi_frame _ HI).
  - intros i w s _ _. apply (pi_frame _ HI); [done|]. by apply fmap_alter_same.
Qed.

(** *** The handlers of the main loop *)

Let HB := pipeless_base.

Lemma keep_received i c l r : preserves I (pipe_received i c l r). Proof. keep @pipe_received. Qed.
Lemma keep_finish i c : preserves I (finish_chunk i c). Proof. keep @finish_chunk. Qed.
#[local] Hint Resolve keep_received keep_finish : preserve.
Lemma keep_handle i : preserves I (inputpipe_handle i). Proof. keep @inputpipe_handle. Qed.
#[local] Hint Resolve keep_handle : preserve.
Lemma keep_pipe_event i : preserves I (srv_pipe_event i). Proof. keep @srv_pipe_event. Qed.
Lemma keep_hangup i : preserves I (srv_pipe_hangup i). Proof. keep @srv_pipe_hangup. Qed.
Lemma keep_sock_remove k : preserves I (socket_client_remove k : M W unit).
Proof. keep @socket_client_remove. Qed.
Lemma keep_accept n : preserves I (handle_accept n : M W unit).
Proof. unfold handle_accept. keep @socket_handle_in. Qed.

Context (HS : server_invariant I).

Lemma keep_stask t : preserves I (run_stask t). Proof. destruct t; simpl; preserve. Qed.
Lemma keep_handle_client k r : preserves I (socket_handle_client (J := J) k r).
Proof. unfold socket_handle_client. keep @upd_sock. Qed.
#[local] Hint Resolve keep_pipe_event keep_hangup keep_sock_remove keep_handle_client keep_accept : preserve.
Lemma keep_close k fd : preserves I (close_socket k fd : M W unit). Proof. keep @close_socket. Qed.
#[local] Hint Resolve keep_close : preserve.
Lemma keep_socket k fd r : preserves I (handle_socket (J := J) k fd r). Proof. keep @handle_socket. Qed.
Lemma keep_error fd : preserves I (handle_error_event fd : M W unit). Proof. keep @handle_error_event. Qed.
#[local] Hint Resolve keep_socket keep_error : preserve.

(** Every event but the timer's. *)
Lemma keep_event fds fuel e : preserves I (srv_timer_event fuel : M W unit) ->
  preserves I (handle_event (J := J) fds fuel e).
Proof. intros Htimer. keep @handle_event. Qed.
End pipeless.

(** ** The scheduler *)

Section armed.
Context {Q Dec Enc J : Type}
  `{!TimerQueue Q, !TimerQueueLaws Q, !OpusLib Dec Enc, !JsonLib J, !HostLib, !UnionLib J}.
Abbreviation W := (server Q Dec Enc).

(** What the scheduler's steps keep is an invariant of all handlers. *)
Lemma sched_pipeless (I : W -> Prop) : sched_invariant (Q := Q) (P := stask) I -> pipeless_invariant I.
Proof.
  intros HI. split.
  - intros w w' E _. by apply (si_frame _ HI).
  - apply (si_post _ HI).
  - intros p. apply (si_drop _ HI). intros pl w. by exists w.
  - apply (si_reschedule _ HI).
Qed.

Lemma sched_server_invariant (I : W -> Prop) :
  sched_invariant (Q := Q) (P := stask) I -> server_invariant I.
Proof.
  intros HI. apply blind_invariant; [by apply pipeless_base, sched_pipeless|].
  intros w w' [E _]. by apply (si_frame _ HI).
Qed.

Lemma keeps_stask (K : W -> Prop) : (forall t, preserves K (run_stask t)) -> keeps (Q := Q) K run_stask.
Proof.
  intros HK t I HI. apply preserves_and; [apply HK|].
  apply keep_stask; [by apply sched_pipeless|by apply sched_server_invariant].
Qed.

Lemma keeps_cleanup (K : W -> Prop) : keeps (Q := Q) K stask_cleanup.
Proof. intros t I _ w a w' Hw [= _ <-]. done. Qed.

(** The scheduler of the server is in order, and its timer armed. *)
Definition sched_armed (w : W) : Prop := sched_ok (stasks w) /\ armed (stasks w).

Lemma armed_event fds fuel e : preserves sched_armed (handle_event (J := J) fds fuel e).
Proof.
  pose proof (armed_invariant (HasSched0 := server_sched (Q := Q) (Dec := Dec) (Enc := Enc))) as HI.
  apply keep_event; [exact (sched_pipeless _ HI)|exact (sched_server_invariant _ HI)|].
  intros w a w' Hw E. edestruct (run_keeps (fun _ : W => True)) as [_ H2]; [..|exact H2]; [done| | |by split|exact E].
  - by apply keeps_stask.
  - apply keeps_cleanup.
Qed.
End armed.
