(* ===== verification/Pointers.v ===== *)
(** * The pointers of the server to its tasks

    A client points to the task that purges it, a throttled pipe to the one that
    resumes it, and a pipe to the one that declares it idle.  [pointers] says that
    each of them is allocated and has the right function; it is about the views
    of the streams and the tasks' payloads only. *)
From S2P Require Import Prelude.
From S2P Require Import Timespec.
From S2P Require Import Bytes.
From S2P Require Import PcmChunk.
From S2P Require Import TaskHeap.
From S2P Require Import TaskSched.
From S2P Require Import Invariant.
From S2P Require Import Safety.
From S2P Require Import Intercom.
From S2P Require Import ServerState.
From S2P Require Import InputPipe.
From S2P Require Import ClientMgr.
From S2P Require Import IntercomSrv.
From S2P Require Import ServerInv.

(** ** Views *)

(** What matters of a stream: its pipe's state and tasks, the ids of its clients
    with the tasks that purge them, and whether it was initialised. *)
Record tview := mkTv {
  tv_state : inputpipe_state;
  tv_resume : option addr;
  tv_idle : option addr;
  tv_clients : list (Z * option addr);
  tv_init : bool;
}.

Record pointers (vs : list tview) (m : gmap addr stask) : Prop := {
  pt_idle : forall i v, vs !! i = Some v -> tv_idle v = None;
  pt_resume : forall i v a, vs !! i = Some v -> tv_resume v = Some a ->
    tv_state v = THROTTLE /\ m !! a = Some (ResumeRead i);
  pt_purge : forall i v cid p, vs !! i = Some v -> (cid, p) ∈ tv_clients v ->
    exists a, p = Some a /\ m !! a = Some (DeleteClient cid);
  pt_no_idle : forall a i, m !! a <> Some (SetIdle i);
}.

(** A pipe that is not idle has a client - but for that of stream [i]. *)
Definition active_but (i : option nat) (vs : list tview) : Prop :=
  forall j v, Some j <> i -> vs !! j = Some v -> tv_state v <> IDLE -> tv_clients v <> [].

(** The first stream is initialised before there is a client. *)
Definition first_init (vs : list tview) : Prop :=
  forall v0 i v, vs !! 0%nat = Some v0 -> tv_init v0 = false -> vs !! i = Some v -> tv_clients v = [].

(** ** Changing the tasks *)

Lemma pointers_grow vs m m' : pointers vs m -> m ⊆ m' -> (forall a i, m' !! a <> Some (SetIdle i)) -> pointers vs m'.
Proof.
  intros [H1 H2 H3 H4] Hm Hn. split; [done| | |done].
  - intros i v a Hv Ha. destruct (H2 i v a Hv Ha). split; [done|]. by eapply lookup_weaken.
  - intros i v cid p Hv Hp. destruct (H3 i v cid p Hv Hp) as (a & -> & Ha). exists a. split; [done|].
    by eapply lookup_weaken.
Qed.

(** No pointer to the task [a]. *)
Definition unreferenced (a : addr) (vs : list tview) : Prop :=
  forall i v, vs !! i = Some v -> tv_resume v <> Some a /\ forall cid, (cid, Some a) ∉ tv_clients v.

Lemma pointers_shrink vs m a : pointers vs m -> unreferenced a vs -> pointers vs (delete a m).
Proof.
  intros [H1 H2 H3 H4] Hu. split; [done| | |].
  - intros i v b Hv Hb. destruct (H2 i v b Hv Hb). split; [done|]. rewrite lookup_delete_ne; [done|].
    intros ->. by destruct (Hu i v Hv).
  - intros i v cid p Hv Hp. destruct (H3 i v cid p Hv Hp) as (b & -> & Hb). exists b. split; [done|].
    rewrite lookup_delete_ne; [done|]. intros ->. destruct (Hu i v Hv) as [_ Hc]. by eapply Hc.
  - intros b i Hb. apply lookup_delete_Some in Hb as [_ Hb]. by eapply H4.
Qed.

(** Who may point to a task depends on its function. *)
Lemma unreferenced_by vs m a t : pointers vs m -> m !! a = Some t ->
  (forall i v, t = ResumeRead i -> vs !! i = Some v -> tv_resume v <> Some a) ->
  (forall i v cid, t = DeleteClient cid -> vs !! i = Some v -> (cid, Some a) ∉ tv_clients v) ->
  unreferenced a vs.
Proof.
  intros [H1 H2 H3 H4] Ha Hr Hd i v Hv. split.
  - intros E. destruct (H2 i v a Hv E) as [_ Ht]. eapply Hr; [|exact Hv|exact E]. congruence.
  - intros cid Hin. destruct (H3 i v cid _ Hv Hin) as (b & [= <-] & Ht). eapply Hd; [|exact Hv|exact Hin]. congruence.
Qed.

(** ** Changing a stream *)

Lemma lookup_set {A} (l : list A) i j x y : <[i := x]> l !! j = Some y -> j = i /\ x = y \/ j <> i /\ l !! j = Some y.
Proof. intros [(-> & <- & _)|[? ?]]%list_lookup_insert_Some; auto. Qed.

Lemma pointers_set vs m i v' : pointers vs m -> tv_idle v' = None ->
  (forall a, tv_resume v' = Some a -> tv_state v' = THROTTLE /\ m !! a = Some (ResumeRead i)) ->
  (forall cid p, (cid, p) ∈ tv_clients v' -> exists a, p = Some a /\ m !! a = Some (DeleteClient cid)) ->
  pointers (<[i := v']> vs) m.
Proof.
  intros [H1 H2 H3 H4] Hi Hr Hc. split; [| | |done].
  - intros j u [[-> <-]|[? ?]]%lookup_set; [done|by eapply H1].
  - intros j u a [[-> <-]|[? ?]]%lookup_set; [by apply Hr|by eapply H2].
  - intros j u cid p [[-> <-]|[? ?]]%lookup_set; [by apply Hc|by eapply H3].
Qed.

Lemma active_set vs i k v' : active_but k vs -> (k = None \/ k = Some i) ->
  (tv_state v' <> IDLE -> tv_clients v' <> []) -> active_but None (<[i := v']> vs).
Proof.
  intros Ha Hk Hv j u _ [[-> <-]|[? ?]]%lookup_set; [done|]. apply (Ha j); [|done]. by destruct Hk as [-> | ->]; congruence.
Qed.

Lemma active_weaken i vs : active_but None vs -> active_but i vs.
Proof. intros Ha j v _. by apply Ha. Qed.

Lemma first_init_set vs i v v' : first_init vs -> vs !! i = Some v ->
  (tv_init v = true -> tv_init v' = true) ->
  (tv_clients v' <> [] -> tv_clients v <> [] \/ exists v0, vs !! 0%nat = Some v0 /\ tv_init v0 = true) ->
  first_init (<[i := v']> vs).
Proof.
  intros Hf Hv Hi Hc v0 j u Hv0 Hinit Hu.
  assert (exists u0, vs !! 0%nat = Some u0 /\ tv_init u0 = false) as (u0 & Hu0 & Hinit0).
  { apply lookup_set in Hv0 as [[<- <-]|[? ?]]; [|by exists v0]. exists v. split; [done|].
    destruct (tv_init v); [by rewrite Hi in Hinit|done]. }
  apply lookup_set in Hu as [[-> <-]|[_ Hu]]; [|by eapply Hf].
  destruct (tv_clients v') eqn:E; [done|]. destruct Hc as [Hc|(w0 & Hw0 & Hinit')]; [done| |congruence].
  destruct Hc. by eapply Hf.
Qed.

(** ** The server *)

(** All faults but those that access memory that was freed are allowed. *)
Section server.
Context {Q Dec Enc : Type} `{!TimerQueue Q, !TimerQueueLaws Q, !OpusLib Dec Enc}.
Context (F : fault -> Prop) (HF : forall f, f <> UseAfterFree -> F f).
Abbreviation W := (server Q Dec Enc).
Implicit Types (w : W).

Definition tview_of (s : stream Dec Enc) : tview :=
  mkTv (state (inputpipe s)) (resume_task (inputpipe s)) (idle_task (inputpipe s))
    ((fun c => (id c, purge_task c)) <$> clients s) (s_initialized s).
Definition tvs w : list tview := tview_of <$> streams w.
Definition pend w : gmap addr stask := payloads (Q := Q) w.

Definition pointers_ok w : Prop :=
  pointers (tvs w) (pend w) /\ active_but None (tvs w) /\ first_init (tvs w).

Lemma tvs_lookup w i s : streams w !! i = Some s -> tvs w !! i = Some (tview_of s).
Proof. intros Hs. unfold tvs. by rewrite list_lookup_fmap, Hs. Qed.

Lemma tvs_inv w i v : tvs w !! i = Some v -> exists s, streams w !! i = Some s /\ v = tview_of s.
Proof. unfold tvs. rewrite list_lookup_fmap. destruct (streams w !! i) as [s|]; [|done]. intros [= <-]. by exists s. Qed.

Lemma tvs_alter w i s f : streams w !! i = Some s ->
  tview_of <$> alter f i (streams w) = <[i := tview_of (f s)]> (tvs w).
Proof.
  intros Hs. unfold tvs. apply list_eq. intros j. rewrite list_lookup_fmap. destruct (decide (i = j)) as [<-|Hij].
  - rewrite list_lookup_alter_eq, Hs, list_lookup_insert_eq; [done|]. rewrite length_fmap. by eapply lookup_lt_Some.
  - by rewrite list_lookup_alter_ne, list_lookup_insert_ne, list_lookup_fmap.
Qed.

(** The ids of the clients can be read off the views. *)
Lemma cids_tvs w : cids w = (fun v => fst <$> tv_clients v) <$> tvs w.
Proof.
  unfold cids, tvs. rewrite <- list_fmap_compose. apply list_fmap_ext. intros i s _. simpl.
  unfold ids_of. by rewrite <- list_fmap_compose.
Qed.

(** States with the same views, the same functions of the tasks, and the same queue. *)
Definition same w w' : Prop := tvs w' = tvs w /\ pend w' = pend w.

Lemma pointers_same w w' : same w w' -> pointers_ok w -> pointers_ok w'.
Proof. unfold pointers_ok. by intros [-> ->]. Qed.

(** *** Tasks *)

Lemma only_sched_streams w w' : only_sched w w' -> streams w' = streams w.
Proof. by intros [sch ->]. Qed.

Lemma post_wp timeout ms t w (K : addr -> W -> Prop) :
  (forall a w', only_sched w w' -> pend w !! a = None -> pend w' = <[a := t]> (pend w) -> K a w') ->
  wp F (post_task timeout ms t) K w.
Proof.
  intros HK. unfold wp. pose proof (post_cases w timeout ms t) as H.
  destruct (post_task timeout ms t w) as [[a w']|f] eqn:E; [|by apply HF].
  destruct H as [Ha Hw]. by apply HK; [eapply post_only|..].
Qed.

Lemma drop_wp p w (K : unit -> W -> Prop) : is_Some (pend w !! p) ->
  (forall w', only_sched w w' -> pend w' = pend w \/ pend w' = delete p (pend w) -> K tt w') ->
  wp F (drop_task stask_cleanup (Some p)) K w.
Proof.
  intros Hp HK. destruct (drop_cases stask_cleanup w p) as (w' & E & Hw'); [intros pl v; by exists v|done|].
  unfold wp. rewrite E. apply HK; [by eapply drop_only|done].
Qed.

Lemma reschedule_wp p timeout ms w (K : bool -> W -> Prop) : (forall a, p = Some a -> is_Some (pend w !! a)) ->
  (forall b w', only_sched w w' -> pend w' = pend w -> K b w') ->
  wp F (reschedule_task (P := stask) p timeout ms) K w.
Proof.
  intros Hp HK. unfold wp. pose proof (reschedule_cases w p timeout ms Hp) as H.
  destruct (reschedule_task p timeout ms w) as [[b w']|f] eqn:E; [|by apply HF].
  apply HK; [by eapply reschedule_only|done].
Qed.

(** *** Stepping through a handler *)

Lemma stream_wp i w (K : stream Dec Enc -> W -> Prop) :
  (forall s, streams w !! i = Some s -> K s w) -> wp F (the_stream i) K w.
Proof. intros HK. unfold wp, the_stream. destruct (streams w !! i); [by apply HK|by apply HF]. Qed.

Lemma pipe_wp i w (K : inputpipe_ctx -> W -> Prop) :
  (forall s, streams w !! i = Some s -> K (inputpipe s) w) -> wp F (the_pipe i) K w.
Proof. intros HK. apply wp_bind, stream_wp. intros s Hs. by apply HK. Qed.

Lemma upd_stream_wp i f w (K : unit -> W -> Prop) :
  K tt (set_streams (alter f i (streams w)) w) -> wp F (upd_stream i f) K w.
Proof. done. Qed.

Lemma upd_pipe_wp i f w (K : unit -> W -> Prop) :
  K tt (set_streams (alter (on_pipe f) i (streams w)) w) -> wp F (upd_pipe i f) K w.
Proof. done. Qed.

Lemma add_fd_wp f w (K : unit -> W -> Prop) : K tt (set_efd ({[f]} ∪ efd w) w) -> wp F (add_fd f) K w.
Proof. intros HK. unfold wp, add_fd. case_decide; [by apply HF|done]. Qed.

Lemma del_fd_wp f w (K : unit -> W -> Prop) : K tt (set_efd (efd w ∖ {[f]}) w) -> wp F (del_fd f) K w.
Proof. intros HK. unfold wp, del_fd. case_decide; [done|by apply HF]. Qed.

Lemma set_stream_tvs w i s f : streams w !! i = Some s ->
  tvs (set_streams (alter f i (streams w)) w) = <[i := tview_of (f s)]> (tvs w).
Proof. apply tvs_alter. Qed.

Lemma set_stream_lookup w i s f : streams w !! i = Some s ->
  streams (set_streams (alter f i (streams w)) w) !! i = Some (f s).
Proof. intros Hs. simpl. by rewrite list_lookup_alter_eq, Hs. Qed.

Lemma only_sched_tvs w w' : only_sched w w' -> tvs w' = tvs w /\ streams w' = streams w.
Proof. by intros [sch ->]. Qed.

(** *** Pipes *)

Lemma set_idle_wp i w s (K : unit -> W -> Prop) : streams w !! i = Some s -> idle_task (inputpipe s) = None ->
  K tt (set_streams (alter (on_pipe (fun x => with_data_read 0 (with_idle None (with_state IDLE x)))) i (streams w)) w) ->
  wp F (set_idle i) K w.
Proof.
  intros Hs Hi HK. apply wp_bind, pipe_wp. intros s' Hs'. assert (s' = s) as -> by congruence. rewrite Hi. exact HK.
Qed.

(** What is left of stream [i] when its pipe is held. *)
Definition held (v : tview) : tview := mkTv IDLE None None (tv_clients v) (tv_init v).

(** A pipe that is held may have lost its last client. *)
Definition before_hold i (vs : list tview) (m : gmap addr stask) : Prop :=
  pointers vs m /\ active_but (Some i) vs /\ first_init vs.

Lemma held_ok i vs m v : before_hold i vs m -> vs !! i = Some v ->
  pointers (<[i := held v]> vs) m /\ active_but None (<[i := held v]> vs) /\ first_init (<[i := held v]> vs).
Proof.
  intros (Hp & Ha & Hf) Hv. split_and!.
  - apply pointers_set; [done..|]. intros cid p. by apply (pt_purge _ _ Hp i v).
  - eapply active_set; [exact Ha|by right|done].
  - by eapply first_init_set; [exact Hf|exact Hv|auto|auto].
Qed.

Lemma held_unreferenced i vs m v a : pointers vs m -> vs !! i = Some v -> m !! a = Some (ResumeRead i) ->
  pointers (<[i := held v]> vs) m -> unreferenced a (<[i := held v]> vs).
Proof.
  intros Hp Hv Ha Hp'. eapply unreferenced_by; [exact Hp'|exact Ha| |done].
  intros j u [= <-]. intros [[_ <-]|[Hne _]]%lookup_set; [done|by destruct Hne].
Qed.

Lemma hold_wp i w (K : unit -> W -> Prop) :
  before_hold i (tvs w) (pend w) -> (forall w', pointers_ok w' -> K tt w') -> wp F (inputpipe_hold i) K w.
Proof.
  intros Hw HK. apply wp_bind, pipe_wp. intros s Hs. pose proof (tvs_lookup w i s Hs) as Hv.
  pose proof (held_ok _ _ _ _ Hw Hv) as Hheld. destruct Hw as (Hp & _). pose proof (pt_idle _ _ Hp i _ Hv) as Hidle.
  simpl in Hidle. apply wp_bind.
  assert (forall w1, streams w1 = streams w -> pend w1 = pend w ->
    wp F ((if decide (state (inputpipe s) = THROTTLE) then
             drop_task stask_cleanup (resume_task (inputpipe s)) ;; upd_pipe i (with_resume None)
           else skip) ;; set_idle i) K w1) as Hrest.
  { intros w1 E1 E2. assert (streams w1 !! i = Some s) as Hs1 by by rewrite E1.
    assert (tvs w1 = tvs w) as E3 by (unfold tvs; by rewrite E1). apply wp_bind. case_decide as Ht.
    - destruct (resume_task (inputpipe s)) as [a|] eqn:Er; [|by apply wp_bind, HF].
      destruct (pt_resume _ _ Hp i _ a Hv Er) as [_ Ha]. apply wp_bind, drop_wp; [rewrite E2; by eexists|].
      intros w2 Ho Hpend. destruct (only_sched_tvs _ _ Ho) as [E4 E5]. apply upd_pipe_wp.
      assert (streams w2 !! i = Some s) as Hs2 by by rewrite E5.
      eapply set_idle_wp; [by apply set_stream_lookup|exact Hidle|]. apply HK. unfold pointers_ok.
      erewrite set_stream_tvs by by apply set_stream_lookup. erewrite set_stream_tvs by exact Hs2.
      rewrite list_insert_insert_eq, E4, E3. change (tview_of _) with (held (tview_of s)).
      change (pend _) with (pend w2). destruct Hheld as (H1 & H2). split; [|exact H2].
      rewrite E2 in Hpend. destruct Hpend as [-> | ->]; [exact H1|]. apply pointers_shrink; [exact H1|].
      by eapply held_unreferenced.
    - apply wp_skip. eapply set_idle_wp; [exact Hs1|exact Hidle|]. apply HK. unfold pointers_ok.
      erewrite set_stream_tvs by exact Hs1. rewrite E3. change (pend _) with (pend w1). rewrite E2.
      assert (resume_task (inputpipe s) = None) as Er.
      { destruct (resume_task (inputpipe s)) as [a|] eqn:Er; [|done]. by destruct (pt_resume _ _ Hp i _ a Hv Er). }
      assert (tview_of (on_pipe (fun x => with_data_read 0 (with_idle None (with_state IDLE x))) s) = held (tview_of s)) as ->.
      { unfold tview_of, held. simpl. by rewrite Er. }
      exact Hheld. }
  destruct (decide (state (inputpipe s) = PLAYING)); [apply del_fd_wp|apply wp_skip]; by apply Hrest.
Qed.

Lemma init_wp i w (K : unit -> W -> Prop) :
  (forall w', same w w' -> K tt w') -> wp F (inputpipe_init i) K w.
Proof.
  intros HK. apply wp_bind, pipe_wp. intros s Hs. cbv zeta. apply wp_bind. unfold open_pipe at 1, wp at 1.
  destruct (_ =? -1); [by apply HF|]. apply upd_pipe_wp, HK. split; [|done].
  erewrite (set_stream_tvs (opentick w)) by exact Hs. change (tvs (opentick w)) with (tvs w).
  rewrite list_insert_id; [done|]. exact (tvs_lookup w i s Hs).
Qed.

Definition no_resume i w : Prop := forall v, tvs w !! i = Some v -> tv_resume v = None.

Lemma resume_wp i w (K : unit -> W -> Prop) :
  pointers_ok w -> (forall w', pointers_ok w' -> no_resume i w' -> K tt w') -> wp F (inputpipe_resume_read i) K w.
Proof.
  intros Hw HK. pose proof Hw as (Hp & Ha & Hf). apply wp_bind, stream_wp. intros s Hs.
  pose proof (tvs_lookup w i s Hs) as Hv. destruct (_ && _) eqn:Eb.
  - apply andb_prop in Eb as [Hc _].
    assert (clients s <> []) as Hne by (intros Ec; rewrite Ec in Hc; done). clear Hc. apply wp_bind.
    assert (forall w1, same w w1 -> wp F (x ← the_pipe i; add_fd (fd x) ;;
      upd_pipe i (fun x => with_resume None (with_state PLAYING x))) K w1) as Hrest.
    { intros w1 [E1 E2]. apply wp_bind, pipe_wp. intros s1 Hs1. apply wp_bind, add_fd_wp, upd_pipe_wp.
      assert (tview_of s1 = tview_of s) as E3.
      { apply tvs_lookup in Hs1. rewrite E1, Hv in Hs1. symmetry. by apply (inj Some) in Hs1. }
      assert (streams (set_efd ({[fd (inputpipe s1)]} ∪ efd w1) w1) !! i = Some s1) as Hs2 by exact Hs1.
      set (w2 := set_efd _ w1) in *. apply HK.
      - unfold pointers_ok. erewrite set_stream_tvs by exact Hs2. change (tvs w2) with (tvs w1).
        change (pend _) with (pend w1). rewrite E1, E2. unfold tview_of in E3. injection E3 as _ _ Ei Ec En.
        unfold tview_of. simpl. rewrite Ei, Ec, En. split_and!.
        + apply pointers_set; [done|by apply (pt_idle _ _ Hp i _ Hv)|done|]. intros cid p. by apply (pt_purge _ _ Hp i _ cid p Hv).
        + eapply active_set; [exact Ha|by left|]. intros _. by destruct (clients s).
        + eapply first_init_set; [exact Hf|exact Hv|done|auto].
      - intros v. erewrite set_stream_tvs by exact Hs2. by intros [[_ <-]|[? ?]]%lookup_set. }
    destruct (ip_initialized _); [apply wp_skip|apply init_wp]; auto. by apply Hrest.
  - apply wp_skip, HK; [done|]. intros v. rewrite Hv. intros [= <-]. simpl.
    destruct (resume_task (inputpipe s)) as [a|] eqn:Er; [|done].
    destruct (pt_resume _ _ Hp i _ a Hv Er) as [Ht _]. simpl in Ht. rewrite Ht in Eb. simpl in Eb. rewrite andb_true_r in Eb.
    destruct (Ha i (tview_of s)) as []; [done|exact Hv|simpl; congruence|]. simpl.
    destruct (clients s); [done|]. simpl in Eb. discriminate.
Qed.

(** *** Clients *)

Definition purged c w : Prop := exists a, purge_task c = Some a /\ pend w !! a = Some (DeleteClient (id c)).

Lemma add_wp i c w (K : unit -> W -> Prop) : pointers_ok w -> purged c w ->
  (exists v, tvs w !! 0%nat = Some v /\ tv_init v = true) ->
  (forall w', pointers_ok w' -> K tt w') -> wp F (stream_client_add i c) K w.
Proof.
  intros (Hp & Ha & Hf) (a & Hpa & Hpend) Hinit HK. apply wp_bind, upd_stream_wp. set (w1 := set_streams _ w).
  apply wp_bind, stream_wp. intros s1 Hs1. pose proof Hs1 as Hs. unfold w1 in Hs. simpl in Hs.
  destruct (streams w !! i) as [s|] eqn:Es; [|by rewrite list_lookup_alter_eq, Es in Hs].
  rewrite list_lookup_alter_eq, Es in Hs. injection Hs as <-. pose proof (tvs_lookup w i s Es) as Hv.
  assert (pointers_ok w1) as Hw1.
  { unfold pointers_ok, w1. erewrite set_stream_tvs by exact Es. change (pend _) with (pend w). split_and!.
    - apply pointers_set; [done|by apply (pt_idle _ _ Hp i _ Hv)|intros b Hb; exact (pt_resume _ _ Hp i _ b Hv Hb)|].
      intros cid p. simpl. rewrite fmap_app, elem_of_app. intros [Hin|Hin]; [by apply (pt_purge _ _ Hp i _ cid p Hv)|].
      apply list_elem_of_singleton in Hin as [= -> ->]. by exists a.
    - eapply active_set; [exact Ha|by left|]. simpl. rewrite fmap_app. by destruct (_ <$> clients s).
    - eapply first_init_set; [exact Hf|exact Hv|done|auto]. }
  destruct (_ && _) eqn:Eb; [|by apply wp_skip, HK].
  apply andb_prop in Eb as [_ Hidle%bool_decide_eq_true]. simpl in Hidle. cbn [resume_task inputpipe with_clients].
  destruct (resume_task (inputpipe s)) as [b|] eqn:Er.
  { destruct (pt_resume _ _ Hp i _ b Hv Er) as [Ht _]. simpl in Ht. congruence. }
  apply wp_bind, wp_skip. apply wp_bind, upd_pipe_wp. apply resume_wp; [|intros w' Hw' _; by apply HK].
  eapply pointers_same, Hw1. split; [|done]. erewrite set_stream_tvs by exact Hs1.
  rewrite list_insert_id; [done|]. rewrite (tvs_lookup w1 i _ Hs1). unfold tview_of. simpl. by rewrite Er.
Qed.

(** A stream without its [j]-th client. *)
Definition without (j : nat) (v : tview) : tview :=
  mkTv (tv_state v) (tv_resume v) (tv_idle v) (delete j (tv_clients v)) (tv_init v).

Lemma remove_wp i j w (K : unit -> W -> Prop) :
  (forall s, streams w !! i = Some s -> before_hold i (<[i := without j (tview_of s)]> (tvs w)) (pend w)) ->
  (forall w', pointers_ok w' -> K tt w') -> wp F (stream_client_remove i j) K w.
Proof.
  intros Hw HK. apply wp_bind, upd_stream_wp. set (w1 := set_streams _ w).
  apply wp_bind, stream_wp. intros s1 Hs1. pose proof Hs1 as Hs. unfold w1 in Hs. simpl in Hs.
  destruct (streams w !! i) as [s|] eqn:Es; [|by rewrite list_lookup_alter_eq, Es in Hs].
  rewrite list_lookup_alter_eq, Es in Hs. injection Hs as <-. specialize (Hw s eq_refl).
  assert (before_hold i (tvs w1) (pend w1)) as Hw1.
  { unfold w1. erewrite set_stream_tvs by exact Es. change (pend _) with (pend w).
    assert (tview_of (with_clients (delete j (clients s)) s) = without j (tview_of s)) as ->; [|exact Hw].
    unfold tview_of, without. simpl. by rewrite list_fmap_delete. }
  destruct (_ =? 0) eqn:El; [by apply hold_wp|]. apply wp_skip, HK. destruct Hw1 as (H1 & H2 & H3).
  split; [done|]. split; [|done]. intros k v _ Hk Hst. destruct (decide (k = i)) as [->|Hne].
  - rewrite (tvs_lookup w1 i _ Hs1) in Hk. injection Hk as <-. simpl in *. by destruct (delete j (clients s)).
  - apply (H2 k); congruence.
Qed.
End server.
