(* ===== verification/PipeInv.v ===== *)
(** * The pipes and the epoll set

    A pipe that is playing is open and watched by epoll; a throttled one is open,
    not watched, and has a task to resume it; a closed one is not watched.  The
    descriptors of open pipes are different from those of all other pipes and of
    the control connections.  [pipes_ok] is kept by every handler, provided that
    the descriptors [open] and [accept] return are not in use. *)
From S2P Require Import Prelude.
From S2P Require Import Timespec.
From S2P Require Import Bytes.
From S2P Require Import PcmChunk.
From S2P Require Import TaskHeap.
From S2P Require Import TaskSched.
From S2P Require Import Invariant.
From S2P Require Import Intercom.
From S2P Require Import ServerState.
From S2P Require Import InputPipe.
From S2P Require Import ClientMgr.
From S2P Require Import IntercomSrv.
From S2P Require Import JsonRpc.
From S2P Require Import Util.
From S2P Require Import Control.
From S2P Require Import ServerLoop.
From S2P Require Import ServerInv.

(** ** The invariant *)

Section views.
Context (quiet : bool).

Definition view_ok (E : gset Z) (v : view) : Prop :=
  match v_state v with
  | PLAYING => v_open v = true /\ v_fd v ∈ E
  | THROTTLE => v_open v = true /\ (v_fd v ∉ E) /\ is_Some (v_resume v)
  | IDLE => quiet = true -> v_open v = true -> v_fd v ∉ E
  end.

(** The views [vs], the epoll set [E], the descriptors [S] of the control
    connections, and those [B] of the timer, the intercom and the control socket. *)
Record views_ok (vs : list view) (E : gset Z) (S : list Z) (B : gset Z) : Prop := {
  vo_each : forall i v, vs !! i = Some v -> view_ok E v;
  vo_distinct : forall i j v v', i <> j -> vs !! i = Some v -> vs !! j = Some v' ->
    v_open v = true -> v_open v' = true -> v_fd v <> v_fd v';
  vo_socks : forall i v, vs !! i = Some v -> v_open v = true -> v_fd v ∉ S;
  vo_nodup : NoDup S;
  vo_base : forall f, f ∈ B -> (f ∈ E) /\ (f ∉ S) /\ forall i v, vs !! i = Some v -> v_open v = true -> v_fd v <> f;
  vo_watched : forall f, f ∈ E -> f ∈ B \/ f ∈ S \/ exists i v, vs !! i = Some v /\ v_open v = true /\ v_fd v = f;
}.

(** The pipe that is not changed, the one that is. *)
Ltac at_insert Hlt :=
  repeat match goal with
  | |- context [<[?i := _]> _ !! ?j] =>
      destruct (decide (i = j)) as [<-|?];
      [rewrite (list_lookup_insert_eq _ i) by exact Hlt|rewrite (list_lookup_insert_ne _ i j) by done]
  end.

(** Pipe [i] changes and with it what is watched of its descriptor. *)
Lemma views_change vs E S B i v v' E' :
  views_ok vs E S B -> vs !! i = Some v ->
  (v_open v' = true -> v_fd v' = v_fd v /\ v_open v = true) ->
  (v_open v = true /\ (v_open v' = true \/ v_fd v ∉ E') \/ E' = E /\ v_open v' = v_open v) -> view_ok E' v' ->
  (forall f, f <> v_fd v -> f ∈ E' <-> f ∈ E) ->
  views_ok (<[i := v']> vs) E' S B.
Proof.
  intros [He Hd Hs Hn Hb Hw] Hv Hfd Hopen Hok HE. assert (i < length vs)%nat as Hlt by by eapply lookup_lt_Some.
  split.
  - intros j u. at_insert Hlt; [by intros [= <-]|]. intros Hu. destruct Hopen as [[Hop _]|[-> _]]; [|by eapply He].
    pose proof (He j u Hu) as H1. unfold view_ok in *.
    assert (v_open u = true -> v_fd u ∈ E' <-> v_fd u ∈ E) as Eq by (intros; apply HE, (Hd j i); naive_solver).
    destruct (v_state u); tauto.
  - intros j k u u' Hjk. at_insert Hlt; [done| | |by apply Hd].
    + intros [= <-] Hu' Hop Hop'. destruct (Hfd Hop) as [-> ?]. by eapply (Hd i k).
    + intros Hu [= <-] Hop Hop'. destruct (Hfd Hop') as [-> ?]. by eapply (Hd j i).
  - intros j u. at_insert Hlt; [|by apply Hs]. intros [= <-] Hop. destruct (Hfd Hop) as [-> ?]. by eapply Hs.
  - done.
  - intros f Hf. destruct (Hb f Hf) as (H1 & H2 & H3). split_and!; [|done|].
    + destruct Hopen as [[Hop _]|[-> _]]; [|done]. apply HE; [|done]. apply not_eq_sym. by eapply H3.
    + intros j u. at_insert Hlt; [|by apply H3]. intros [= <-] Hop. destruct (Hfd Hop) as [-> ?]. by eapply H3.
  - intros f Hf. destruct (decide (f = v_fd v)) as [->|Hne].
    + destruct Hopen as [[Hop [Hop'|?]]|[-> Hop]]; [|done|].
      * right. right. exists i, v'. rewrite list_lookup_insert_eq by done. by destruct (Hfd Hop').
      * destruct (Hw _ Hf) as [|[|(j & u & Hu & Hju & Hfu)]]; [by left|by right; left|]. right. right.
        destruct (decide (i = j)) as [<-|]; [|exists j, u; by rewrite list_lookup_insert_ne].
        exists i, v'. rewrite list_lookup_insert_eq by done. assert (u = v) as -> by congruence.
        rewrite Hop. by destruct (Hfd ltac:(congruence)).
    + apply HE in Hf; [|done]. destruct (Hw f Hf) as [|[|(j & u & Hu & Hju & Hfu)]]; [by left|by right; left|].
      right. right. exists j, u. rewrite list_lookup_insert_ne by naive_solver. done.
Qed.

(** A closed pipe is opened. *)
Lemma views_open vs E S B i v f :
  views_ok vs E S B -> vs !! i = Some v -> v_open v = false ->
  f ∉ E -> f ∉ S -> (forall j u, vs !! j = Some u -> v_open u = true -> v_fd u <> f) ->
  views_ok (<[i := mkView f (v_state v) true (v_resume v)]> vs) E S B.
Proof.
  intros [He Hd Hs Hn Hb Hw] Hv Hop HfE HfS Hfo. assert (i < length vs)%nat as Hlt by by eapply lookup_lt_Some.
  assert (v_state v = IDLE) as Hidle.
  { pose proof (He i v Hv) as H. unfold view_ok in H. destruct (v_state v); naive_solver congruence. }
  split.
  - intros j u. at_insert Hlt; [|by apply He]. intros [= <-]. unfold view_ok. simpl. by rewrite Hidle.
  - intros j k u u' Hjk. at_insert Hlt; [done| | |by apply Hd].
    + intros [= <-] Hu' _ Hop'. simpl. apply not_eq_sym. by eapply Hfo.
    + intros Hu [= <-] Hop' _. simpl. by eapply Hfo.
  - intros j u. at_insert Hlt; [|by apply Hs]. by intros [= <-].
  - done.
  - intros g Hg. destruct (Hb g Hg) as (H1 & H2 & H3). split_and!; [done..|].
    intros j u. at_insert Hlt; [|by apply H3]. intros [= <-] _. simpl. congruence.
  - intros g Hg. destruct (Hw g Hg) as [|[|(j & u & Hu & Hju & Hfu)]]; [by left|by right; left|].
    right. right. exists j, u. rewrite list_lookup_insert_ne by naive_solver congruence. done.
Qed.

(** A control connection comes; its descriptor is then watched. *)
Lemma views_accept vs E S B f :
  views_ok vs E S B -> f ∉ E -> f ∉ S -> (forall j u, vs !! j = Some u -> v_open u = true -> v_fd u <> f) ->
  forall E', E' = E \/ E' = {[f]} ∪ E -> views_ok vs E' (S ++ [f]) B.
Proof.
  intros [He Hd Hs Hn Hb Hw] HfE HfS Hfo E' HE. split.
  - intros i v Hv. pose proof (He i v Hv) as H. unfold view_ok in *. pose proof (Hfo i v Hv).
    destruct (v_state v); set_solver.
  - done.
  - intros i v Hv Hop. rewrite elem_of_app, list_elem_of_singleton. intros [?|?]; [by eapply Hs|by eapply Hfo].
  - apply NoDup_app. split_and!; [done| |apply NoDup_singleton]. set_solver.
  - intros g Hg. destruct (Hb g Hg) as (H1 & H2 & H3). split_and!; [set_solver|set_solver|done].
  - intros g Hg. rewrite elem_of_app, list_elem_of_singleton.
    assert (g = f \/ g ∈ E) as [?|H]; [destruct HE as [->| ->]; [by right|by apply elem_of_union in Hg; rewrite elem_of_singleton in Hg]|tauto|].
    destruct (Hw g H) as [?|[?|?]]; tauto.
Qed.

(** A control connection is closed. *)
Lemma views_leave vs E S B k f :
  views_ok vs E S B -> S !! k = Some f -> views_ok vs (E ∖ {[f]}) (delete k S) B.
Proof.
  intros [He Hd Hs Hn Hb Hw] Hk.
  pose proof (delete_Permutation S k f Hk) as P.
  assert ((f ∉ delete k S) /\ NoDup (delete k S)) as [Hf Hn'].
  { apply NoDup_cons. by rewrite <- P. }
  assert (forall g, g ∈ delete k S <-> g ∈ S /\ g <> f) as Hin.
  { intros g. assert (g ∈ S <-> g = f \/ g ∈ delete k S) as -> by (rewrite <- elem_of_cons; by f_equiv).
    set_solver. }
  assert (f ∈ S) as HfS by by eapply list_elem_of_lookup_2.
  split.
  - intros i v Hv. pose proof (He i v Hv) as H. unfold view_ok in *. pose proof (Hs i v Hv).
    destruct (v_state v); set_solver.
  - done.
  - intros i v Hv Hop. rewrite Hin. pose proof (Hs i v Hv Hop). tauto.
  - done.
  - intros g Hg. destruct (Hb g Hg) as (H1 & H2 & H3). rewrite Hin. set_solver.
  - intros g Hg. destruct (Hw g) as [|[|]]; [set_solver..| |]; rewrite ?Hin; set_solver.
Qed.

End views.

Section pipes.
Context {Q Dec Enc J : Type}
  `{!TimerQueue Q, !TimerQueueLaws Q, !OpusLib Dec Enc, !JsonLib J, !HostLib, !UnionLib J} (quiet : bool) (B : gset Z).
Abbreviation W := (server Q Dec Enc).
Implicit Types (w : W) (s : stream Dec Enc).

(** [open] returns a descriptor that is not in use. *)
Definition opens_fresh w : Prop := forall n U, opens w n U ∉ U.

Definition pipes_ok w : Prop := views_ok quiet (views w) (efd w) (socks w) B /\ opens_fresh w.

Lemma pipes_frame w w' : views w' = views w -> efd w' = efd w -> opens w' = opens w ->
  socks w' = socks w -> pipes_ok w -> pipes_ok w'.
Proof. unfold pipes_ok, opens_fresh. by intros -> -> -> ->. Qed.

Lemma pipes_apart : apart_from_sched pipes_ok.
Proof. by intros s w. Qed.

Lemma views_alter w i s f : streams w !! i = Some s ->
  (fun s => view_of (inputpipe s)) <$> alter (on_pipe f) i (streams w) =
  <[i := view_of (f (inputpipe s))]> (views w).
Proof.
  intros Hs. unfold views. apply list_eq. intros j. rewrite list_lookup_fmap.
  destruct (decide (i = j)) as [<-|Hij].
  - rewrite list_lookup_alter_eq, Hs. rewrite list_lookup_insert_eq; [done|].
    rewrite length_fmap. by eapply lookup_lt_Some.
  - by rewrite list_lookup_alter_ne, list_lookup_insert_ne, list_lookup_fmap.
Qed.

(** A change of one pipe and of what is watched of it. *)
Lemma pipes_upd i f E' w s :
  let v := view_of (inputpipe s) in let v' := view_of (f (inputpipe s)) in
  pipes_ok w -> streams w !! i = Some s ->
  (v_open v' = true -> v_fd v' = v_fd v /\ v_open v = true) ->
  (v_open v = true /\ (v_open v' = true \/ v_fd v ∉ E') \/ E' = efd w /\ v_open v' = v_open v) -> view_ok quiet E' v' ->
  (forall fd, fd <> v_fd v -> fd ∈ E' <-> fd ∈ efd w) ->
  pipes_ok (set_streams (alter (on_pipe f) i (streams w)) (set_efd E' w)).
Proof.
  intros v v' [Hw Ho] Hs Hfd Hopen Hok HE. split; [|done]. unfold views, socks. simpl.
  rewrite (views_alter w i s f Hs). eapply views_change; [exact Hw| |done..].
  unfold views. by rewrite list_lookup_fmap, Hs.
Qed.

Lemma pipes_upd_same i f w s :
  let v := view_of (inputpipe s) in let v' := view_of (f (inputpipe s)) in
  pipes_ok w -> streams w !! i = Some s ->
  v_fd v' = v_fd v -> v_open v' = v_open v -> view_ok quiet (efd w) v' ->
  pipes_ok (set_streams (alter (on_pipe f) i (streams w)) w).
Proof.
  intros v v' Hw Hs Hfd Hopen Hok.
  assert (set_efd (efd w) w = w) as E by by destruct w. rewrite <- E.
  apply (pipes_upd i f (efd w) w s); [done|done| |by right|done..]. fold v v'. by rewrite Hfd, Hopen.
Qed.

Lemma pipe_view w i s : pipes_ok w -> streams w !! i = Some s -> view_ok quiet (efd w) (view_of (inputpipe s)).
Proof.
  intros [Hw _] Hs. eapply (vo_each _ _ _ _ _ Hw i). unfold views. by rewrite list_lookup_fmap, Hs.
Qed.

(** *** Pipes *)

Definition idle_at (i : nat) w : Prop :=
  forall s, streams w !! i = Some s -> state (inputpipe s) = IDLE.

Definition to_idle (x : inputpipe_ctx) : inputpipe_ctx := with_data_read 0 (with_idle None (with_state IDLE x)).

Lemma set_idle_inv i w u w' : set_idle i w = Ok (u, w') ->
  exists sch, w' = set_streams (alter (on_pipe to_idle) i (streams w)) (set_stasks sch w).
Proof.
  intros (x & w1 & E1 & E2)%M_bind_inv. apply the_pipe_inv in E1 as (-> & s & Hs & ->).
  apply M_bind_inv in E2 as ([] & w2 & E2 & E3). assert (only_sched w w2) as [sch ->].
  { destruct (idle_task _); [by eapply drop_only|]. injection E2 as <-. apply only_sched_refl. }
  apply upd_pipe_inv in E3 as ->. by exists sch.
Qed.

Lemma alter_idle i (l : list (stream Dec Enc)) f s : l !! i = Some s ->
  alter (on_pipe f) i l !! i = Some (on_pipe f s).
Proof. intros Hs. by rewrite list_lookup_alter_eq, Hs. Qed.

(** A pipe is made idle; if it was open it may be no longer watched. *)
Lemma to_idle_pipes i f E' w s : pipes_ok w -> streams w !! i = Some s ->
  view_of (f (inputpipe s)) = mkView (fd (inputpipe s)) IDLE (ip_initialized (inputpipe s)) (resume_task (f (inputpipe s))) ->
  (E' = efd w /\ (quiet = true -> state (inputpipe s) <> PLAYING) \/
     ip_initialized (inputpipe s) = true /\ E' = efd w ∖ {[fd (inputpipe s)]}) ->
  pipes_ok (set_streams (alter (on_pipe f) i (streams w)) (set_efd E' w)).
Proof.
  intros Hw Hs Hf HE.
  eapply pipes_upd; [done|exact Hs|rewrite ?Hf; simpl..].
  - done.
  - destruct HE as [[-> _]|[Hop ->]]; [by right|left; auto].
  - pose proof (pipe_view _ _ _ Hw Hs) as Hv. unfold view_ok in *. simpl in *.
    destruct HE as [[-> Hst]|[_ ->]]; [|set_solver]. destruct (state (inputpipe s)); naive_solver.
  - intros fd' Hne. destruct HE as [[-> _]|[_ ->]]; set_solver.
Qed.

(** A pipe that is held is idle; it stays open or closed, with its descriptor. *)
Lemma hold_inv i w u w' s : pipes_ok w -> streams w !! i = Some s -> inputpipe_hold i w = Ok (u, w') ->
  pipes_ok w' /\ exists s', streams w' !! i = Some s' /\ state (inputpipe s') = IDLE /\
    fd (inputpipe s') = fd (inputpipe s) /\ ip_initialized (inputpipe s') = ip_initialized (inputpipe s).
Proof.
  intros Hw Hs (x & w1 & E1 & E2)%M_bind_inv. apply the_pipe_inv in E1 as (-> & s0 & Hs0 & ->).
  assert (s0 = s) as -> by congruence. clear Hs0.
  apply M_bind_inv in E2 as ([] & w2 & E2 & E3). apply M_bind_inv in E3 as ([] & w3 & E3 & E4).
  pose proof (pipe_view _ _ _ Hw Hs) as Hst. unfold view_ok, view_of in Hst; simpl in Hst.
  assert (exists sch E' f, w' = set_streams (alter (on_pipe f) i (streams w)) (set_efd E' (set_stasks sch w)) /\
    view_of (f (inputpipe s)) = mkView (fd (inputpipe s)) IDLE (ip_initialized (inputpipe s)) (resume_task (f (inputpipe s))) /\
    (E' = efd w /\ (quiet = true -> state (inputpipe s) <> PLAYING) \/
       ip_initialized (inputpipe s) = true /\ E' = efd w ∖ {[fd (inputpipe s)]}))
    as (sch & E' & f & -> & Hf & HE).
  { destruct (state (inputpipe s)); repeat case_decide; try done.
    - injection E2 as <-. injection E3 as <-. apply set_idle_inv in E4 as [sch ->].
      exists sch, (efd w), to_idle. split; [by destruct w|]. split; [done|]. by left.
    - injection E3 as <-. apply del_fd_inv in E2 as [-> _]. apply set_idle_inv in E4 as [sch ->].
      exists sch, (efd w ∖ {[fd (inputpipe s)]}), to_idle. split; [done|]. split; [done|]. right. by split; [apply Hst|].
    - injection E2 as <-. apply M_bind_inv in E3 as ([] & w4 & E3 & E5). apply upd_pipe_inv in E5 as ->.
      apply drop_only in E3 as [sch ->]. apply set_idle_inv in E4 as [sch' ->].
      exists sch', (efd w), (to_idle ∘ with_resume None). split; [|auto]. simpl.
      rewrite list_alter_alter_eq. by destruct w. }
  split; [by apply (to_idle_pipes i f E' (set_stasks sch w) s)|]. simpl. exists (on_pipe f s).
  split; [by apply alter_idle|]. simpl. by injection Hf as -> -> ->.
Qed.
Lemma hold_pipes i : preserves pipes_ok (inputpipe_hold i).
Proof.
  intros w u w' Hw E. assert (exists s, streams w !! i = Some s) as [s Hs].
  { apply M_bind_inv in E as (x & w1 & E & _). apply the_pipe_inv in E as (_ & s & Hs & _). by exists s. }
  by eapply hold_inv.
Qed.

(** Not the same without holding it: the pipe is watched as before. *)
Lemma set_idle_pipes i : quiet = false -> preserves pipes_ok (set_idle i).
Proof.
  intros Hq w u w' Hw E. assert (exists s, streams w !! i = Some s) as [s Hs].
  { apply M_bind_inv in E as (x & w1 & E & _). apply the_pipe_inv in E as (_ & s & Hs & _). by exists s. }
  apply set_idle_inv in E as [sch ->]. apply (pipes_upd_same i to_idle (set_stasks sch w) s); try done.
  unfold view_ok. simpl. congruence.
Qed.

(** Closing a pipe that is open. *)
Lemma uninit_pipes i w u w' s : pipes_ok w -> streams w !! i = Some s -> ip_initialized (inputpipe s) = true ->
  inputpipe_uninit i w = Ok (u, w') -> pipes_ok w'.
Proof.
  intros Hw Hs Hop ([] & w1 & E1 & E2)%M_bind_inv.
  destruct (hold_inv i w tt w1 s Hw Hs E1) as (Hw1 & s1 & Hs1 & Hst & Hfd & Hop1).
  apply M_bind_inv in E2 as (x & w2 & E2 & E3). apply the_pipe_inv in E2 as (-> & s2 & Hs2 & ->).
  assert (s2 = s1) as -> by congruence. apply M_bind_inv in E3 as ([] & w3 & E3 & E4).
  apply upd_pipe_inv in E3 as ->. apply M_bind_inv in E4 as ([] & w4 & [= <-] & E5).
  apply upd_pipe_inv in E5.
  set (g := fun x => with_fd_open (fd x) (chunksize x) false
                       (with_chunk (default (chunk x) (chunk_free_members (Some (chunk x)))) x)).
  assert (w' = set_streams (alter (on_pipe g) i (streams w1)) (set_efd (efd w1 ∖ {[fd (inputpipe s1)]}) w1)) as ->.
  { rewrite E5. unfold set_streams. simpl. by rewrite list_alter_alter_eq. }
  apply (pipes_upd i g _ w1 s1 Hw1 Hs1); simpl.
  - done.
  - left. split; [congruence|]. right. set_solver.
  - unfold view_ok. simpl. by rewrite Hst.
  - intros h Hh. set_solver.
Qed.

(** What [open] returns is not the descriptor of another open pipe. *)
Lemma used_pipe w i s : streams w !! i = Some s -> ip_initialized (inputpipe s) = true ->
  fd (inputpipe s) ∈ used w.
Proof.
  intros Hs Hop. unfold used, pipe_fds. apply elem_of_union. left. apply elem_of_union. right.
  apply elem_of_list_to_set, list_elem_of_fmap. exists s. split; [done|].
  apply list_elem_of_filter. split; [done|]. by eapply list_elem_of_lookup_2.
Qed.

Lemma init_pipes i w u w' s : pipes_ok w -> streams w !! i = Some s -> ip_initialized (inputpipe s) = false ->
  inputpipe_init i w = Ok (u, w') ->
  pipes_ok w' /\ exists s', streams w' !! i = Some s' /\ ip_initialized (inputpipe s') = true /\
    state (inputpipe s') = state (inputpipe s) /\ resume_task (inputpipe s') = resume_task (inputpipe s).
Proof.
  intros [Hw Ho] Hs Hop. unfold inputpipe_init.
  intros (x & w1 & E1 & E2)%M_bind_inv. apply the_pipe_inv in E1 as (-> & s0 & Hs0 & ->).
  assert (s0 = s) as -> by congruence. clear Hs0. cbv zeta in E2.
  apply M_bind_inv in E2 as (f & w2 & [= <- <-] & E2). destruct (_ =? -1); [done|].
  apply upd_pipe_inv in E2 as ->. simpl.
  assert (opens w (nopens w) (used w) ∉ used w) as Hf by apply Ho.
  set (f := opens w (nopens w) (used w)) in *. clearbody f. pose proof Hf as Hused. unfold used in Hused.
  split; [split; [|done]|].
  - unfold views. simpl. rewrite (views_alter w i s _ Hs).
    refine (views_open quiet (views w) (efd w) (socks w) B i (view_of (inputpipe s)) _ Hw _ Hop _ _ _).
    + unfold views. by rewrite list_lookup_fmap, Hs.
    + set_solver.
    + unfold socks. set_solver.
    + intros j v. unfold views. rewrite list_lookup_fmap. destruct (streams w !! j) as [s'|] eqn:Hj; [|done].
      intros [= <-] Hop' E. simpl in *. apply Hf. rewrite <- E. by eapply used_pipe.
  - eexists. rewrite (alter_idle i _ _ s Hs). done.
Qed.
Lemma pipes_alike w w' : alike w w' -> pipes_ok w -> pipes_ok w'.
Proof. intros (_ & ? & ? & ? & ?). by apply pipes_frame. Qed.

Lemma resume_pipes i : preserves pipes_ok (inputpipe_resume_read i).
Proof.
  intros w u w' Hw (s & w1 & E1 & E2)%M_bind_inv. apply the_stream_inv in E1 as [-> Hs].
  destruct (_ && _) eqn:Eb; [|by injection E2 as _ <-].
  apply M_bind_inv in E2 as ([] & w1 & E1 & E2).
  assert (pipes_ok w1 /\ exists s1, streams w1 !! i = Some s1 /\ ip_initialized (inputpipe s1) = true)
    as (Hw1 & s1 & Hs1 & Hop1).
  { destruct (ip_initialized (inputpipe s)) eqn:Hop; [injection E1 as <-; eauto|].
    destruct (init_pipes i w tt w1 s Hw Hs Hop E1) as (? & s1 & ? & ? & _). eauto. }
  apply M_bind_inv in E2 as (x & w2 & E2 & E3). apply the_pipe_inv in E2 as (-> & s2 & Hs2 & ->).
  assert (s2 = s1) as -> by congruence. apply M_bind_inv in E3 as ([] & w3 & E3 & E4).
  apply add_fd_inv in E3 as [-> Hnew]. apply upd_pipe_inv in E4 as ->.
  apply (pipes_upd i (fun x => with_resume None (with_state PLAYING x)) _ w1 s1 Hw1 Hs1); simpl.
  - done.
  - left. auto.
  - split; simpl; [done|set_solver].
  - intros f Hf. set_solver.
Qed.

Lemma sched_pipes {A} (m : M W A) : (forall K, apart_from_sched K -> preserves K m) -> preserves pipes_ok m.
Proof. intros Hm. apply Hm, pipes_apart. Qed.

Lemma pipes_invariant : server_invariant pipes_ok.
Proof.
  apply blind_invariant; [|exact pipes_alike]. split.
  - intros w w' E _. by apply pipes_alike.
  - intros timeout ms t. apply sched_pipes. intros K HK. by apply apart_post.
  - intros p. apply sched_pipes. intros K HK. apply apart_drop; [done|]. intros t. apply preserves_skip.
  - intros p timeout ms. apply sched_pipes. intros K HK. by apply apart_reschedule.
  - apply hold_pipes.
  - apply resume_pipes.
  - intros i w s Hs Hidle Hw. apply (pipes_upd_same i _ w s); [done..|].
    pose proof (pipe_view _ _ _ Hw Hs) as Hv. unfold view_ok in *. simpl in *. by rewrite Hidle in *.
Qed.
Let HP := pipes_invariant.

(** *** Pipe events *)

(** Pipe [i] is open and epoll watches its descriptor. *)
Definition live (i : nat) w : Prop :=
  exists s, streams w !! i = Some s /\ ip_initialized (inputpipe s) = true /\ fd (inputpipe s) ∈ efd w.

Definition live_ok i w : Prop := pipes_ok w /\ live i w.

Lemma live_apart i : apart_from_sched (live_ok i).
Proof. by intros s w. Qed.

(** While a watched pipe is being read, it becomes idle or is playing; not idle
    where idle pipes are not to be watched. *)
Lemma live_upd i f :
  (forall x, fd (f x) = fd x /\ ip_initialized (f x) = ip_initialized x) ->
  (forall x, state (f x) <> THROTTLE /\ (quiet = true -> state (f x) <> IDLE) \/
             state (f x) = state x /\ resume_task (f x) = resume_task x) ->
  preserves (live_ok i) (upd_pipe i f).
Proof.
  intros Hf Hst w u w' [Hw (s & Hs & Hop & Hfd)] E. apply upd_pipe_inv in E as ->.
  destruct (Hf (inputpipe s)) as [Hf1 Hf2]. split.
  - apply (pipes_upd_same i f w s Hw Hs); simpl; [done..|]. unfold view_ok. simpl. rewrite Hf1, Hf2.
    pose proof (pipe_view _ _ _ Hw Hs) as Hv. unfold view_ok in Hv. simpl in Hv.
    destruct (Hst (inputpipe s)) as [[Hne Hq]|[-> ->]]; [|done].
    destruct (state (f (inputpipe s))); [|done..]. intros Hqt. by destruct (Hq Hqt).
  - exists (on_pipe f s). simpl. rewrite (alter_idle i _ f s Hs), Hf1, Hf2. done.
Qed.

Lemma live_step {A} i (m : M W A) :
  (forall w a w', m w = Ok (a, w') -> streams w' = streams w /\ efd w' = efd w /\ opens w' = opens w /\ socks w' = socks w) ->
  preserves (live_ok i) m.
Proof.
  intros Hm w a w' [Hw (s & Hs & Hop & Hfd)] E. destruct (Hm w a w' E) as (E1 & E2 & E3 & E4). split.
  - eapply pipes_frame, Hw; [|done..]. unfold views. by rewrite E1.
  - exists s. by rewrite E1, E2.
Qed.
Lemma live_post i timeout ms (t : stask) : preserves (live_ok i) (post_task timeout ms t).
Proof. apply apart_post, live_apart. Qed.
Lemma live_reschedule i p timeout ms : preserves (live_ok i) (reschedule_task (P := stask) p timeout ms).
Proof. apply apart_reschedule, live_apart. Qed.
Lemma live_the_pipe i j : preserves (live_ok i) (the_pipe j).
Proof. apply live_step. by intros w a w' [-> _]%the_pipe_inv. Qed.
Lemma live_time i : preserves (live_ok i) sobtainsystime.
Proof. apply live_step. by intros w a w' [= _ <-]. Qed.
Lemma live_read i n : preserves (live_ok i) (read_pipe n).
Proof. apply live_step. by intros w a w' [= _ <-]. Qed.

#[local] Hint Resolve live_post live_reschedule live_the_pipe live_time live_read : preserve.
#[local] Hint Extern 1 (preserves (live_ok _) (upd_pipe _ _)) => apply live_upd; [done|by auto] : preserve.

Lemma live_received i ct lc r : (quiet = true -> r <> ReadBytes []) ->
  preserves (live_ok i) (pipe_received i ct lc r).
Proof.
  intros Hr. unfold pipe_received.
  assert (quiet = false \/ r <> ReadBytes []) as [Hq|Hne] by (destruct quiet; auto).
  - assert (preserves (live_ok i) (upd_pipe i (with_state IDLE))).
    { apply live_upd; [done|]. intros x. left. split; [done|]. congruence. }
    preserve.
  - destruct r as [|[|]]; [|done|]; preserve.
Qed.
Lemma live_finish i ct : preserves (live_ok i) (finish_chunk i ct).
Proof. unfold finish_chunk. preserve. Qed.

(** The next read from pipe [i], if it is not an error, gives at least a byte. *)
Definition delivers i w : Prop := forall s b, streams w !! i = Some s -> reads w (nreads w) = ReadBytes b ->
  take (Z.to_nat (chunksize (inputpipe s) - data_read (inputpipe s))) b <> [].

(** Reading a pipe: nothing is read because the buffer is full, or the input is
    processed. *)
Lemma handle_inv i w a w' : inputpipe_handle i w = Ok (a, w') ->
  a = -1 /\ w' = ssystick w \/
  exists s ct lc r w1 u w2, streams w !! i = Some s /\ w1 = readtick (ssystick w) /\
    r = match reads w (nreads w) with ReadError => ReadError
        | ReadBytes b => ReadBytes (take (Z.to_nat (chunksize (inputpipe s) - data_read (inputpipe s))) b) end /\
    pipe_received i ct lc r w1 = Ok (u, w2) /\ finish_chunk i ct w2 = Ok (a, w').
Proof.
  unfold inputpipe_handle. intros (ct & w1 & E1 & E)%M_bind_inv. injection E1 as <- <-.
  apply M_bind_inv in E as (b & w1 & E1 & E). injection E1 as <- <-.
  apply M_bind_inv in E as (full & w1 & E1 & E). apply lift_inv in E1 as [_ ->].
  apply M_bind_inv in E as (x & w1 & E1 & E). apply the_pipe_inv in E1 as (-> & s & Hs & ->).
  cbv zeta in E. destruct (_ >? 0); [injection E as <- <-; by left|]. right.
  apply M_bind_inv in E as (r & w1 & E1 & E). injection E1 as <- <-.
  apply M_bind_inv in E as (u & w2 & E1 & E). by eexists s, _, _, _, _, u, w2.
Qed.

Lemma live_handle i w a w' : (quiet = true -> delivers i w) -> live_ok i w ->
  inputpipe_handle i w = Ok (a, w') -> live_ok i w'.
Proof.
  intros Hd Hw [[_ ->]|(s & ct & lc & r & w1 & u & w2 & Hs & -> & -> & E1 & E2)]%handle_inv.
  { eapply live_time; [exact Hw|reflexivity]. }
  eapply live_finish, E2. eapply live_received, E1.
  - intros Hq. destruct (reads w (nreads w)) as [|b] eqn:Er; [done|]. intros [= E]. by eapply (Hd Hq s b).
  - eapply (live_read i 0); [|reflexivity]. eapply live_time; [exact Hw|reflexivity].
Qed.

(** A pipe is throttled: it is no longer watched, and is to be resumed. *)
Lemma throttle_pipes i w a w' :
  live_ok i w ->
  (x ← the_pipe i; del_fd (fd x) ;; upd_pipe i (with_state THROTTLE) ;;
   t ← post_task (Z.quot (read_ms x) 1000) (Z.rem (read_ms x) 1000) (ResumeRead i);
   upd_pipe i (with_resume (Some t))) w = Ok (a, w') -> pipes_ok w'.
Proof.
  intros [Hw (s & Hs & Hop & _)] (x & w1 & E1 & E2)%M_bind_inv. apply the_pipe_inv in E1 as (-> & s0 & Hs0 & ->).
  assert (s0 = s) as -> by congruence. apply M_bind_inv in E2 as ([] & w1 & E1 & E2).
  apply del_fd_inv in E1 as [-> _]. apply M_bind_inv in E2 as ([] & w2 & E1 & E2). apply upd_pipe_inv in E1 as ->.
  apply M_bind_inv in E2 as (t & w3 & E1 & E2). apply post_only in E1 as [sch ->]. apply upd_pipe_inv in E2.
  set (f := fun x => with_resume (Some t) (with_state THROTTLE x)).
  assert (w' = set_streams (alter (on_pipe f) i (streams w))
                 (set_efd (efd w ∖ {[fd (inputpipe s)]}) (set_stasks sch w))) as ->.
  { rewrite E2. unfold set_streams. simpl. by rewrite list_alter_alter_eq. }
  apply (pipes_upd i f _ (set_stasks sch w) s); simpl; [by apply pipes_apart|done..|by left; auto| |].
  - split_and!; simpl; [done|set_solver|done].
  - intros g Hg. set_solver.
Qed.

Lemma chunk_pipes i (ret : Z) : preserves pipes_ok (if ret >? 0 then
  (if ret =? 2 then clientmgr_stop_clients i else skip) ;; encode_chunk i ;; intercom_send_audio i else skip).
Proof. preserve. Qed.

Lemma pipe_event_pipes i w u w' : (quiet = true -> delivers i w) -> live_ok i w -> srv_pipe_event i w = Ok (u, w') -> pipes_ok w'.
Proof.
  intros Hd Hw. unfold srv_pipe_event. intros E. apply M_bind_inv in E as (ret & w1 & E1 & E2).
  pose proof (live_handle i w ret w1 Hd Hw E1) as Hw1. revert E2.
  destruct (ret =? -1); [by apply throttle_pipes|]. apply chunk_pipes, Hw1.
Qed.

Lemma hangup_pipes i w u w' s : pipes_ok w -> streams w !! i = Some s -> ip_initialized (inputpipe s) = true ->
  srv_pipe_hangup i w = Ok (u, w') -> pipes_ok w'.
Proof.
  intros Hw Hs Hop ([] & w1 & E1 & E2)%M_bind_inv. eapply resume_pipes, E2. by eapply uninit_pipes.
Qed.

(** *** Tasks *)

Lemma stask_pipes t : (quiet = true -> forall i, t <> SetIdle i) -> preserves pipes_ok (run_stask t).
Proof.
  intros Ht. destruct t as [| |i|]; simpl; [preserve..| |preserve].
  apply set_idle_pipes. destruct quiet; [|done]. by destruct (Ht eq_refl i).
Qed.
(** *** Control connections *)

(** The handlers do not change which connections there are. *)
Lemma socks_step {A} (l : list Z) (m : M W A) :
  (forall w a w', m w = Ok (a, w') -> control_ctx w' = control_ctx w) -> preserves (fun w => socks w = l) m.
Proof. intros Hm w a w' Hw E. unfold socks. by rewrite (Hm w a w' E). Qed.

Lemma socks_apart l : apart_from_sched (fun w : W => socks w = l).
Proof. by intros s w. Qed.

Lemma socks_invariant l : server_invariant (fun w : W => socks w = l).
Proof.
  pose proof (apart_drop (W := W) _ (socks_apart l) stask_cleanup) as Hd.
  assert (forall f, preserves (fun w : W => socks w = l) (del_fd f)) as Hdel
    by (intros f; apply socks_step; by intros w a w' [-> _]%del_fd_inv).
  assert (forall f, preserves (fun w : W => socks w = l) (add_fd f)) as Hadd
    by (intros f; apply socks_step; by intros w a w' [-> _]%add_fd_inv).
  assert (forall i, preserves (fun w : W => socks w = l) (the_pipe i)) as Hp
    by (intros i; apply socks_step; by intros w a w' [-> _]%the_pipe_inv).
  assert (forall i, preserves (fun w : W => socks w = l) (the_stream i)) as Hs
    by (intros i; apply socks_step; by intros w a w' [-> _]%the_stream_inv).
  assert (forall i f, preserves (fun w : W => socks w = l) (upd_pipe i f)) as Hu
    by (intros i f; apply socks_step; by intros w a w' ->%upd_pipe_inv).
  assert (preserves (fun w : W => socks w = l) open_pipe) as Ho by (apply socks_step; by intros w a w' [= _ <-]).
  assert (forall p, preserves (fun w : W => socks w = l) (drop_task stask_cleanup p)) as Hd'
    by (intros p; apply Hd; intros t; apply preserves_skip).
  apply blind_invariant; [|by intros w w' (_ & _ & _ & _ & E); rewrite E].
  split; try done.
  - intros w w' (_ & _ & _ & _ & E) _. by rewrite E.
  - intros timeout ms t. apply apart_post, socks_apart.
  - intros p timeout ms. apply apart_reschedule, socks_apart.
  - intros i. unfold inputpipe_hold, set_idle. preserve.
  - intros i. unfold inputpipe_resume_read, inputpipe_init. preserve.
Qed.

Lemma both_invariant (I K : W -> Prop) : server_invariant I -> server_invariant K ->
  server_invariant (fun w => I w /\ K w).
Proof.
  intros [[A1 A2 A3 A4 A5 A6 A7] D1 D2 D3] [[C1 C2 C3 C4 C5 C6 C7] G1 G2 G3].
  split; [split|..]; try (by intros; apply preserves_and).
  - intros w w' E E' [H1 H2]. eauto.
  - intros i w s Hs Hst [H1 H2]. eauto.
Qed.

Lemma upd_sock_pipes k sc l w u w' : l !! k = Some (sc_fd sc) -> pipes_ok w /\ socks w = l ->
  upd_sock k sc w = Ok (u, w') -> pipes_ok w' /\ socks w' = l.
Proof.
  intros Hk [Hw Hl] E. injection E as _ <-.
  assert (socks (set_control (with_sclients (<[k := sc]> (sclients (control_ctx w))) (control_ctx w)) w) = socks w) as E.
  { unfold socks in *. simpl. rewrite list_fmap_insert, list_insert_id; [done|]. by rewrite Hl. }
  split; [by apply (pipes_frame w)|by rewrite E].
Qed.

Lemma handle_client_pipes k r w a w' : pipes_ok w -> socket_handle_client (J := J) k r w = Ok (a, w') ->
  pipes_ok w' /\ socks w' = socks w.
Proof.
  intros Hw. unfold socket_handle_client. intros (l & w1 & [= <- <-] & E)%M_bind_inv.
  destruct (sclients (control_ctx w) !! k) as [sc|] eqn:Hk; [|done].
  assert (socks w !! k = Some (sc_fd sc)) as Hs by (unfold socks; by rewrite list_lookup_fmap, Hk).
  destruct (_ <? _); [|by injection E as _ <-]. destruct r as [|b]; [by injection E as _ <-|].
  cbv zeta in E. destruct (_ =? 0); [by injection E as _ <-|].
  apply M_bind_inv in E as (ln & w1 & E1 & E).
  apply lift_inv in E1 as [_ ->].
  destruct (has_line_end _ _).
  - apply M_bind_inv in E as (ln' & w1 & E1 & E).
    apply lift_inv in E1 as [_ ->].
    apply M_bind_inv in E as (ret & w1 & E1 & E).
    pose proof (hold_line _ (both_invariant _ _ HP (socks_invariant (socks w))) _ _ _ _ (conj Hw eq_refl) E1) as Hw1.
    destruct (ret <? 0); [injection E as _ <-; apply Hw1|].
    apply M_bind_inv in E as (ln2 & w2 & E2 & E).
    apply lift_inv in E2 as [_ ->].
    apply M_bind_inv in E as ([] & w3 & E3 & [= _ <-]). eapply upd_sock_pipes, E3; [exact Hs|exact Hw1].
  - apply M_bind_inv in E as ([] & w3 & E3 & [= _ <-]). eapply upd_sock_pipes, E3; [exact Hs|by split].
Qed.
Lemma used_fresh w f : f ∉ used w ->
  (f ∉ efd w) /\ (f ∉ socks w) /\
  forall i v, views w !! i = Some v -> v_open v = true -> v_fd v <> f.
Proof.
  intros Hf. split_and!.
  - intros H1. apply Hf. unfold used. set_solver.
  - intros H1. apply Hf. unfold used. apply elem_of_union. right. by apply elem_of_list_to_set.
  - intros i v. unfold views. rewrite list_lookup_fmap. destruct (streams w !! i) as [s|] eqn:Hs; [|done].
    intros [= <-] Hop <-. by apply Hf, (used_pipe w i s).
Qed.

Lemma accept_pipes f w u w' : pipes_ok w -> f ∉ used w -> handle_accept f w = Ok (u, w') -> pipes_ok w'.
Proof.
  intros [Hw Ho] (HfE & HfS & Hfo)%used_fresh (cfd & w1 & E1 & E2)%M_bind_inv. unfold socket_handle_in in E1.
  destruct (f =? -1); [done|]. apply M_bind_inv in E1 as ([] & w2 & [= <-] & [= <- <-]).
  destruct (f >? 0).
  - apply add_fd_inv in E2 as [-> _]. split; [|done]. unfold socks. simpl. rewrite fmap_app.
    eapply views_accept; [exact Hw|done..|by right].
  - injection E2 as _ <-. split; [|done]. unfold socks. simpl. rewrite fmap_app.
    eapply views_accept; [exact Hw|done..|by left].
Qed.

Lemma close_pipes k f w u w' : pipes_ok w -> socks w !! k = Some f -> close_socket k f w = Ok (u, w') -> pipes_ok w'.
Proof.
  intros [Hw Ho] Hk ([] & w1 & E1 & E2)%M_bind_inv. apply del_fd_inv in E1 as [-> _].
  unfold socks in Hk. rewrite list_lookup_fmap in Hk.
  apply M_bind_inv in E2 as (l & w1 & [= <- <-] & E2). simpl in E2.
  destruct (sclients (control_ctx w) !! k) as [sc|] eqn:Hsc; [|done]. injection Hk as Hk.
  injection E2 as _ <-. split; [|done]. unfold socks. simpl. rewrite list_fmap_delete.
  rewrite <- Hk. replace (_ ∖ _ ∖ _) with (efd w ∖ {[sc_fd sc]}) by set_solver.
  apply views_leave; [done|]. by rewrite list_lookup_fmap, Hsc.
Qed.

Lemma last_filter_inv {A} (P : nat * A -> Prop) `{!forall x, Decision (P x)} (l : list A) i :
  fst <$> last (filter P (imap pair l)) = Some i -> exists x, l !! i = Some x /\ P (i, x).
Proof.
  destruct (last _) as [[j x]|] eqn:E; [|done]. intros [= <-]. apply last_Some_elem_of in E.
  apply list_elem_of_filter in E as [Hx Hin]. exists x. split; [|done].
  apply list_elem_of_lookup_1 in Hin as [n Hn]. rewrite list_lookup_imap in Hn.
  destruct (l !! n) eqn:El; [|done]. by injection Hn as <- <-.
Qed.

Lemma find_fd_inv f w i w' : stream_find_fd f w = Ok (Some i, w') ->
  w' = w /\ exists s, streams w !! i = Some s /\ fd (inputpipe s) = f.
Proof. unfold stream_find_fd. intros [= E <-]. split; [done|]. by apply last_filter_inv in E. Qed.

Lemma get_client_inv f w k w' : socket_get_client f w = Ok (Some k, w' : W) ->
  w' = w /\ socks w !! k = Some f.
Proof.
  unfold socket_get_client. intros [= E <-]. split; [done|]. apply last_filter_inv in E as (sc & Hk & <-).
  unfold socks. by rewrite list_lookup_fmap, Hk.
Qed.

Lemma find_fd_same f w i w' : stream_find_fd f w = Ok (i, w') -> w' = w.
Proof. by intros [= _ <-]. Qed.
Lemma get_client_same f w k w' : socket_get_client f w = Ok (k, w' : W) -> w' = w.
Proof. by intros [= _ <-]. Qed.

(** *** Events *)

(** What epoll and the kernel guarantee of an event: its descriptor is watched;
    an accepted connection has a descriptor that is not in use.  And no pipe that
    was closed still has the descriptor, which can be that of another by now. *)
Record proper w (e : event) : Prop := {
  pr_watched : ev_fd e ∈ efd w;
  pr_open : forall i s, streams w !! i = Some s -> fd (inputpipe s) = ev_fd e -> ip_initialized (inputpipe s) = true;
  pr_accepted : ev_accepted e ∉ used w;
}.

Lemma error_pipes w e u w' : pipes_ok w -> proper w e -> handle_error_event (ev_fd e) w = Ok (u, w') -> pipes_ok w'.
Proof.
  intros Hw [Hin Hop _]. unfold handle_error_event. intros (p & w1 & E1 & E2)%M_bind_inv.
  destruct p as [i|].
  - apply find_fd_inv in E1 as (-> & s & Hs & Hfd). eapply hangup_pipes; [done|exact Hs|by eapply Hop|exact E2].
  - apply find_fd_same in E1 as ->. apply M_bind_inv in E2 as (k & w1 & E1 & E2). destruct k as [k|]; [|done].
    apply get_client_inv in E1 as [-> Hk]. by eapply close_pipes.
Qed.

Lemma socket_pipes k f r w u w' : pipes_ok w -> socks w !! k = Some f ->
  handle_socket (J := J) k f r w = Ok (u, w') -> pipes_ok w'.
Proof.
  intros Hw Hk. unfold handle_socket. intros (ret & w1 & E1 & E2)%M_bind_inv.
  destruct (handle_client_pipes k r w ret w1 Hw E1) as [Hw1 Hs]. destruct (ret <? 0); [|by injection E2 as _ <-].
  eapply close_pipes; [exact Hw1| |exact E2]. by rewrite Hs.
Qed.
Lemma timer_pipes fuel w u w' : quiet = false -> pipes_ok w -> sched_armed w -> srv_timer_event fuel w = Ok (u, w') -> pipes_ok w'.
Proof.
  intros Hq Hw Hs E. eapply (run_keeps pipes_ok run_stask stask_cleanup fuel); [| | |by split|exact E].
  - apply pipes_apart.
  - apply keeps_stask. intros t. apply stask_pipes. congruence.
  - apply keeps_cleanup.
Qed.

(** The outermost branch of the computation in [E]. *)
Ltac branch E Eb :=
  match type of E with (if ?b then _ else _) _ = _ => destruct b eqn:Eb end.

Lemma event_pipes fds fuel e w go w' : pipes_ok w -> proper w e ->
  (forall u w', srv_timer_event fuel w = Ok (u, w') -> pipes_ok w') ->
  (quiet = true -> forall i s, streams w !! i = Some s -> fd (inputpipe s) = ev_fd e -> delivers i w) ->
  handle_event (J := J) fds fuel e w = Ok (go, w') -> pipes_ok w'.
Proof.
  intros Hw Hp Htimer Hd. unfold handle_event. cbv zeta. intros (p & w1 & E1 & E)%M_bind_inv.
  pose proof (find_fd_same _ _ _ _ E1) as ->. apply M_bind_inv in E as (k & w1 & E2 & E).
  pose proof (get_client_same _ _ _ _ E2) as ->.
  branch E Eb.
  { apply M_bind_inv in E as ([] & w1 & E & [= _ <-]). by eapply error_pipes. }
  clear Eb. branch E Eb.
  { apply M_bind_inv in E as ([] & w1 & E & [= _ <-]). by eapply Htimer. }
  branch E Epipe.
  { apply M_bind_inv in E as ([] & w1 & E & [= _ <-]). apply andb_prop in Epipe as [[i ->]%bool_decide_eq_true _].
    apply find_fd_inv in E1 as (_ & s & Hi & Hfd). simpl in E. eapply pipe_event_pipes; [by intros; eapply Hd| |exact E].
    split; [done|]. exists s. split; [done|]. split; [by eapply Hp|]. rewrite Hfd. apply Hp. }
  clear Eb. branch E Eb.
  { apply M_bind_inv in E as ([] & w1 & E & [= _ <-]). by eapply hold_handle_in. }
  clear Eb. branch E Eb.
  { apply M_bind_inv in E as ([] & w1 & E & [= _ <-]). eapply accept_pipes; [done|apply Hp|exact E]. }
  branch E Esock; [|by injection E as _ <-].
  apply M_bind_inv in E as ([] & w1 & E & [= _ <-]). apply andb_prop in Esock as [[j ->]%bool_decide_eq_true _].
  apply get_client_inv in E2 as [_ Hk]. simpl in E. by eapply socket_pipes.
Qed.
End pipes.
