(* ===== verification/ServerMain.v ===== *)
(** * server.c: main, and the states the server can reach

    The options, the state the main loop starts in, and the states that it
    reaches when events are handled one after the other.  [getopt_long] of the C
    library is represented by the options it returns, each with its argument. *)
From Stdlib Require Import Ascii String.
From S2P Require Import Prelude.
From S2P Require Import Timespec.
From S2P Require Import Bytes.
From S2P Require Import PcmChunk.
From S2P Require Import TaskHeap.
From S2P Require Import TaskSched.
From S2P Require Import Invariant.
From S2P Require Import Intercom.
From S2P Require Import ServerState.
From S2P Require Import InputPipe.
From S2P Require Import ClientMgr.
From S2P Require Import IntercomSrv.
From S2P Require Import CString.
From S2P Require Import JsonRpc.
From S2P Require Import Util.
From S2P Require Import Control.
From S2P Require Import Stream.
From S2P Require Import ServerLoop.
From S2P Require Import ServerInv.
From S2P Require Import PipeInv.

(** What the options set. *)
Record server_opts (Dec Enc : Type) := mkServerOpts {
  so_verbose : bool;
  so_debug : bool;
  so_port : Z;
  so_control_port : Z;
  so_bufferms : Z;
  so_input : bool;
  so_streams : list (stream Dec Enc);
}.
#[global] Arguments mkServerOpts {Dec Enc}.
#[global] Arguments so_verbose {Dec Enc}.
#[global] Arguments so_debug {Dec Enc}.
#[global] Arguments so_port {Dec Enc}.
#[global] Arguments so_control_port {Dec Enc}.
#[global] Arguments so_bufferms {Dec Enc}.
#[global] Arguments so_input {Dec Enc}.
#[global] Arguments so_streams {Dec Enc}.

(** The outside of the server: the clocks, the pipes' input, the descriptors
    [open] returns, the resolver's names. *)
Record outside := mkOutside {
  out_clock : nat -> timespec;
  out_sysclock : nat -> timespec;
  out_reads : nat -> pipe_input;
  out_opens : nat -> gset Z -> Z;
  out_names : Z -> bytes;
}.

Section main.
Context {Q Dec Enc J : Type}
  `{!TimerQueue Q, !TimerQueueLaws Q, !OpusLib Dec Enc, !JsonLib J, !HostLib, !UnionLib J}.
Abbreviation W := (server Q Dec Enc).

(** server.c:247-247 main: [stream s = {}] *)
Definition no_stream : stream Dec Enc :=
  mkStream (mkPipe [] (mkChunk 0 0 0 0 0 0 0 None) IDLE 0 0 0 0 0 0 0 false None None)
    (mkOpus None None 0 0) [] [] 0 [] false (mkOpts 0 0 []).

(** server.c:210-218 main: the state before the options *)
Definition default_opts : server_opts Dec Enc := mkServerOpts false false INTERCOM_PORT 1705 0 false [].

(** server.c:250-250 main *)
Definition closed (x : inputpipe_ctx) : inputpipe_ctx := with_fd_open (fd x) (chunksize x) false x.

(** server.c:224-258 main: one option; the version and the usage end the
    program. *)
Definition server_option (mtu : Z) (o : server_opts Dec Enc) (opt : Z * bytes) : res (server_opts Dec Enc) :=
  let '(c, optarg) := opt in
  if c =? 86 (* V *) then Fault ExitSuccess
  else if c =? 100 (* d *) then
    Ok (mkServerOpts true true (so_port o) (so_control_port o) (so_bufferms o) (so_input o) (so_streams o))
  else if c =? 118 (* v *) then
    Ok (mkServerOpts true (so_debug o) (so_port o) (so_control_port o) (so_bufferms o) (so_input o) (so_streams o))
  else if c =? 80 (* P *) then
    Ok (mkServerOpts (so_verbose o) (so_debug o) (so_port o) (u16 (atoi optarg)) (so_bufferms o) (so_input o)
          (so_streams o))
  else if c =? 112 (* p *) then
    Ok (mkServerOpts (so_verbose o) (so_debug o) (u16 (atoi optarg)) (so_control_port o) (so_bufferms o)
          (so_input o) (so_streams o))
  else if c =? 98 (* b *) then
    Ok (mkServerOpts (so_verbose o) (so_debug o) (so_port o) (so_control_port o) (u16 (atoi optarg)) (so_input o)
          (so_streams o))
  else if c =? 115 (* s *) then
    '(ok, s) ← stream_parse mtu no_stream optarg;
    if ok : bool then
      Ok (mkServerOpts (so_verbose o) (so_debug o) (so_port o) (so_control_port o) (so_bufferms o) true
            (so_streams o ++ [on_pipe closed s]))
    else Fault ExitError
  else Fault ExitSuccess.

(** server.c:223-258 main: the options, in their order *)
Fixpoint server_options (mtu : Z) (o : server_opts Dec Enc) (args : list (Z * bytes)) : res (server_opts Dec Enc) :=
  match args with
  | [] => Ok o
  | a :: args => o ← server_option mtu o a; server_options mtu o args
  end.

(** taskqueue.c:39-42 taskqueue_init: no task, and the timer unset *)
Definition taskqueue_init (clk : nat -> timespec) : sched Q stask := mkSched tq_empty ∅ None clk 0.

(** server.c:73-75 loop: what is watched from the start *)
Definition watch_all (fds : server_fds) : M W unit :=
  add_fd (taskqueue_fd fds) ;; add_fd (intercom_fd fds) ;; add_fd (socket_fd fds).

(** server.c:259-270 main: up to the first call of [epoll_wait] *)
Definition server_main (fds : server_fds) (out : outside) (args : list (Z * bytes)) : res W :=
  let mtu := 1500 in
  o ← server_options mtu default_opts args;
  if negb (so_input o) then Fault ExitError
  else
    '(_, w) ← watch_all fds
      (mkServer (so_streams o) (taskqueue_init (out_clock out)) [] mtu (so_bufferms o) ∅ [] (out_sysclock out) 0
         (out_reads out) 0 (out_opens out) 0 (mkControl [] [] (out_names out)));
    Ok w.

(** What the system calls return that open the timer, the two sockets and epoll; a
    socket is bound to a port. *)
Record set_up := mkSetUp {
  su_timer : Z;
  su_socket_dgram : Z;
  su_socket_stream : Z;
  su_setsockopt : Z;
  su_bind : Z -> Z -> Z;
  su_listen : Z;
  su_epoll : Z;
}.

(** intercom_srv.c:226-240 intercom_init: the socket for the intercom; that it is
    bound is logged. *)
Definition srv_intercom_init (sys : set_up) (port : Z) : res Z :=
  if su_socket_dgram sys <? 0 then Fault ExitError
  else if su_bind sys (su_socket_dgram sys) (htons port) <? 0 then Fault ExitError
  else Ok (su_socket_dgram sys).

(** socket.c:238-258 socket_init: the socket for the control connections *)
Definition socket_init (sys : set_up) (port : Z) : res Z :=
  if su_socket_stream sys <? 0 then Fault ExitError
  else if su_setsockopt sys <? 0 then Fault ExitError
  else if su_bind sys (su_socket_stream sys) (htons port) <? 0 then Fault ExitError
  else if su_listen sys <? 0 then Fault ExitError
  else Ok (su_socket_stream sys).

(** server.c:63-78 loop: opening epoll; watching a descriptor that was not opened
    ends the program.  The timer is the one that was not looked at before. *)
Definition loop_init (sys : set_up) : res unit :=
  if su_epoll sys =? -1 then Fault ExitBug
  else if su_timer sys <? 0 then Fault ExitError
  else Ok tt.

(** server.c:210-273 main: with the system calls *)
Definition server_boot (sys : set_up) (out : outside) (args : list (Z * bytes)) : res (server_fds * W) :=
  o ← server_options 1500 default_opts args;
  if negb (so_input o) then Fault ExitError
  else
    udp ← srv_intercom_init sys (so_port o);
    tcp ← socket_init sys (so_control_port o);
    let fds := mkFds (su_timer sys) udp tcp in
    loop_init sys ;;
    w ← server_main fds out args;
    mret (fds, w).

(** A started server has three descriptors, and its sockets are bound to the
    ports of the options. *)
Lemma server_boot_inv sys out args fds w : server_boot sys out args = Ok (fds, w) ->
  server_main fds out args = Ok w /\
  0 <= taskqueue_fd fds /\ 0 <= intercom_fd fds /\ 0 <= socket_fd fds /\
  exists o, server_options 1500 default_opts args = Ok o /\
    su_bind sys (intercom_fd fds) (htons (so_port o)) >= 0 /\
    su_bind sys (socket_fd fds) (htons (so_control_port o)) >= 0.
Proof.
  unfold server_boot. destruct (server_options _ _ _) as [o|] eqn:Eo; [|done]. simpl.
  destruct (negb (so_input o)); [done|]. unfold srv_intercom_init, socket_init.
  destruct (Z.ltb_spec (su_socket_dgram sys) 0) as [|H1]; [done|].
  destruct (Z.ltb_spec (su_bind sys (su_socket_dgram sys) (htons (so_port o))) 0) as [|H2]; [done|]. simpl.
  destruct (Z.ltb_spec (su_socket_stream sys) 0) as [|H3]; [done|].
  destruct (Z.ltb_spec (su_setsockopt sys) 0); [done|].
  destruct (Z.ltb_spec (su_bind sys (su_socket_stream sys) (htons (so_control_port o))) 0) as [|H4]; [done|].
  destruct (Z.ltb_spec (su_listen sys) 0); [done|]. simpl.
  unfold loop_init. destruct (su_epoll sys =? -1); [done|]. destruct (Z.ltb_spec (su_timer sys) 0); [done|]. simpl.
  destruct (server_main _ out args) as [w'|] eqn:Em; [|done]. intros [= <- <-]. simpl.
  split; [done|]. split; [done|]. split; [done|]. split; [done|]. exists o. split; [done|]. lia.
Qed.

(** ** The states the server reaches *)

Definition base_fds (fds : server_fds) : gset Z := {[taskqueue_fd fds; intercom_fd fds; socket_fd fds]}.

(** Events one at a time; [good] restricts them. *)
Inductive reachable (good : W -> event -> Prop) (fds : server_fds) (w0 : W) : W -> Prop :=
  | reach_start : reachable good fds w0 w0
  | reach_event w fuel e go w' :
      reachable good fds w0 w -> good w e -> handle_event (J := J) fds fuel e w = Ok (go, w') ->
      reachable good fds w0 w'.

(** *** The state the server starts in *)

(** What parsing a stream's options leaves alone. *)
Definition at_start (s : stream Dec Enc) : inputpipe_state * option addr * option addr * list sclient * list audio_packet * option bytes :=
  (state (inputpipe s), resume_task (inputpipe s), idle_task (inputpipe s), clients s, packet_buffer s,
   data (chunk (inputpipe s))).

Lemma parse_option_state k v c s r s' c' : parse_option k v c s = Ok (r, s', c') ->
  at_start s' = at_start s.
Proof.
  unfold parse_option, parse_sampleformat, mbind, res_bind, mret, res_ret. intros E.
  repeat case_bool_decide; repeat case_match; simplify_eq; done.
Qed.

Lemma parse_options_state fuel oc vc s r s' : parse_options fuel oc vc s = Ok (r, s') ->
  at_start s' = at_start s.
Proof.
  revert oc vc s. induction fuel as [|fuel IH]; intros oc vc s; [done|]. cbn [parse_options].
  unfold mbind, res_bind, mret, res_ret.
  destruct (strtok_r None 38 oc) as [[token oc']|]; [|done]. destruct (strtok_r token 61 vc) as [[t vc']|]; [|done].
  destruct (strtok_r None 61 vc') as [[value vc2]|]; [|done]. destruct token as [k|]; [|by intros [= _ <-]].
  destruct (parse_option _ _ _ s) as [[[known s1] vc3]|] eqn:E; [|done]. apply parse_option_state in E as <-.
  destruct known; [apply IH|by intros [= _ <-]].
Qed.

Lemma stream_parse_state mtu s text r s' : stream_parse mtu s text = Ok (r, s') ->
  at_start s' = at_start s.
Proof.
  unfold stream_parse, mbind, res_bind, mret, res_ret. destruct (negb _); [by intros [= _ <-]|].
  destruct (strstr _ _) as [t|]; [|done]. destruct (strtok_r _ 63 None) as [[token oc]|]; [|done].
  match goal with |- context [match token with _ => _ end] =>
    destruct (match token with None => _ | Some _ => _ end) as [[ok s1]|] eqn:E end; [|done].
  assert (at_start s1 = at_start s) as <-.
  { destruct token; [by apply parse_options_state in E|by injection E as _ <-]. }
  destruct ok; [|by intros [= _ <-]]. destruct (opus_init_encoder _ _ _ _); [|done]. by intros [= _ <-].
Qed.

(** A stream as main adds it. *)
Definition at_rest (s : stream Dec Enc) : Prop :=
  state (inputpipe s) = IDLE /\ ip_initialized (inputpipe s) = false /\ clients s = [] /\
  resume_task (inputpipe s) = None /\ idle_task (inputpipe s) = None /\ packet_buffer s = [] /\
  data (chunk (inputpipe s)) = None.

Lemma server_options_rest mtu o args o' : Forall at_rest (so_streams o) ->
  server_options mtu o args = Ok o' -> Forall at_rest (so_streams o').
Proof.
  revert o. induction args as [|[c arg] args IH]; intros o Ho; [by intros [= <-]|]. cbn [server_options].
  unfold mbind, res_bind. destruct (server_option mtu o (c, arg)) as [o1|] eqn:E; [|done]. apply IH.
  revert E. unfold server_option.
  repeat (destruct (c =? _); [first [done|by intros [= <-]|idtac]|]); [|done].
  unfold mbind, res_bind. destruct (stream_parse mtu no_stream arg) as [[ok s]|] eqn:Ep; [|done].
  destruct ok; [|done]. intros [= <-]. simpl. apply Forall_app. split; [done|]. constructor; [|done].
  apply stream_parse_state in Ep. unfold at_start in Ep. injection Ep as E1 E2 E3 E4 E5 E6.
  split_and!; [exact E1|done|exact E4|exact E2|exact E3|exact E5|exact E6].
Qed.
Lemma main_inv fds out args w0 : server_main fds out args = Ok w0 ->
  exists ss b, w0 = mkServer ss (taskqueue_init (out_clock out)) [] 1500 b (base_fds fds) [] (out_sysclock out) 0
                      (out_reads out) 0 (out_opens out) 0 (mkControl [] [] (out_names out)) /\
    Forall at_rest ss.
Proof.
  unfold server_main, mbind, res_bind.
  destruct (server_options 1500 default_opts args) as [o|] eqn:E; [|done].
  apply server_options_rest in E; [|constructor]. destruct (negb _); [done|].
  destruct (watch_all fds _) as [[[] w]|] eqn:Ew; [|done]. intros [= <-].
  apply M_bind_inv in Ew as ([] & w1 & E1 & Ew). apply add_fd_inv in E1 as [-> _].
  apply M_bind_inv in Ew as ([] & w1 & E1 & Ew). apply add_fd_inv in E1 as [-> _]. apply add_fd_inv in Ew as [-> _].
  exists (so_streams o), (so_bufferms o). split; [|done]. unfold set_efd. simpl. f_equal.
  unfold base_fds. set_solver.
Qed.

Lemma main_armed fds out args w0 : server_main fds out args = Ok w0 -> sched_armed w0.
Proof.
  intros (ss & b & -> & _)%main_inv. destruct tq_empty_ok as [Hq He]. split; simpl.
  - split; simpl; [done|]. intros p d. rewrite He. split; [by intros ?%not_elem_of_nil|].
    intros (t & Ht & _). by rewrite lookup_empty in Ht.
  - unfold armed. simpl. by destruct (tq_first_none tq_empty Hq) as [_ ->].
Qed.

Lemma main_pipes quiet fds out args w0 : (forall n U, out_opens out n U ∉ U) ->
  server_main fds out args = Ok w0 -> pipes_ok quiet (base_fds fds) w0.
Proof.
  intros Ho (ss & b & -> & Hss)%main_inv. split; [|done].
  assert (forall i v, views (mkServer ss (taskqueue_init (out_clock out)) [] 1500 b (base_fds fds) []
    (out_sysclock out) 0 (out_reads out) 0 (out_opens out) 0 (mkControl [] [] (out_names out))) !! i = Some v ->
    v_state v = IDLE /\ v_open v = false) as Hv.
  { intros i v. unfold views. simpl. rewrite list_lookup_fmap. destruct (ss !! i) as [s|] eqn:Hs; [|done].
    intros [= <-]. destruct (proj1 (Forall_lookup _ _) Hss i s Hs) as (E1 & E2 & _). done. }
  split; simpl.
  - intros i v Hi. unfold view_ok. by destruct (Hv i v Hi) as [-> ->].
  - intros i j v v' _ Hi _. destruct (Hv i v Hi) as [_ ->]. done.
  - intros i v Hi. destruct (Hv i v Hi) as [_ ->]. done.
  - constructor.
  - intros f Hf. split; [done|]. split; [by apply not_elem_of_nil|]. intros i v Hi. by destruct (Hv i v Hi) as [_ ->].
  - intros f Hf. by left.
Qed.

(** C10: whatever happens to the server - any events in any order, any input from
    the network, the pipes and the control connections - the queue of its tasks
    stays in order, and its timer is set for the task that is due first: no
    task is ever forgotten. *)
Theorem server_timer_armed fds out args w0 w :
  server_main fds out args = Ok w0 -> reachable (fun _ _ => True) fds w0 w -> sched_armed w.
Proof.
  intros Hmain Hr. induction Hr as [|w fuel e go w' _ IH _ E]; [by eapply main_armed|]. by eapply armed_event.
Qed.

(** C6: the pipes and the epoll set always agree.  A pipe that is playing is open
    and watched; one that is throttled is open, not watched, and has a task to
    resume it.  What is watched is the timer, the intercom, the control socket, a
    control connection or an open pipe, and no two open pipes have the same
    descriptor, so that every event finds its owner.  This needs that [open] and
    [accept] return descriptors that are not in use, and that every event is for a
    descriptor that is watched when it is handled and that no closed pipe once
    had. *)
Theorem server_pipes fds out args w0 w :
  (forall n U, out_opens out n U ∉ U) ->
  server_main fds out args = Ok w0 -> reachable proper fds w0 w ->
  (forall i s, streams w !! i = Some s ->
     match state (inputpipe s) with
     | PLAYING => ip_initialized (inputpipe s) = true /\ fd (inputpipe s) ∈ efd w
     | THROTTLE => ip_initialized (inputpipe s) = true /\ (fd (inputpipe s) ∉ efd w) /\
                   is_Some (resume_task (inputpipe s))
     | IDLE => True
     end) /\
  (forall f, f ∈ efd w -> f ∈ base_fds fds \/ f ∈ socks w \/
     exists i s, streams w !! i = Some s /\ ip_initialized (inputpipe s) = true /\ fd (inputpipe s) = f) /\
  (forall i j s s', i <> j -> streams w !! i = Some s -> streams w !! j = Some s' ->
     ip_initialized (inputpipe s) = true -> ip_initialized (inputpipe s') = true ->
     fd (inputpipe s) <> fd (inputpipe s')).
Proof.
  intros Ho Hmain Hr. assert (sched_armed w /\ pipes_ok false (base_fds fds) w) as [_ [Hw _]].
  { induction Hr as [|w fuel e go w' _ [IH1 IH2] Hp E]; [split; [by eapply main_armed|by eapply main_pipes]|].
    split; [by eapply armed_event|]. eapply event_pipes, E; [done|done| |done]. intros. by eapply timer_pipes. }
  assert (forall i s, streams w !! i = Some s -> views w !! i = Some (view_of (inputpipe s))) as Hv
    by (intros i s Hs; unfold views; by rewrite list_lookup_fmap, Hs).
  split_and!.
  - intros i s Hs. pose proof (vo_each _ _ _ _ _ Hw i _ (Hv i s Hs)) as Hi. unfold view_ok in Hi. simpl in Hi.
    by destruct (state (inputpipe s)).
  - intros f Hf. destruct (vo_watched _ _ _ _ _ Hw f Hf) as [?|[?|(i & v & Hi & Hop & Hfd)]]; [auto..|].
    right. right. unfold views in Hi. rewrite list_lookup_fmap in Hi.
    destruct (streams w !! i) as [s|] eqn:Hs; [|done]. injection Hi as <-. by exists i, s.
  - intros i j s s' Hij Hs Hs'. exact (vo_distinct _ _ _ _ _ Hw i j _ _ Hij (Hv i s Hs) (Hv j s' Hs')).
Qed.
End main.

(** ** A concrete server *)

(** The descriptor after all those in use. *)
Definition next_fd (n : nat) (U : gset Z) : Z := foldr Z.max 0 (elements U) + 1.

Lemma next_fd_fresh n U : next_fd n U ∉ U.
Proof.
  assert (forall l x, x ∈ l -> x <= foldr Z.max 0 l) as H.
  { induction l as [|y l IH]; intros x; [by intros ?%not_elem_of_nil|].
    intros [->|Hx]%elem_of_cons; simpl; [lia|]. specialize (IH x Hx). lia. }
  intros Hin%elem_of_elements%H. unfold next_fd in Hin. lia.
Qed.

Definition demo_fds : server_fds := mkFds 3 4 5.
(** The clock of the task queue shows 20 s from the third time on; all pipes give [input]. *)
Definition demo_outside (input : pipe_input) : outside :=
  mkOutside (fun n => mkTime (if (n <? 2)%nat then 7 else 20) 0) (fun _ => mkTime 990 0) (fun _ => input) next_fd
    (fun _ => []).
Definition demo_args : list (Z * bytes) :=
  [(98, str "500"); (115, str "pipe:///tmp/f?buffer_ms=10&codec=opus&name=default&sampleformat=1000:16:2")].

(** The datagram of a client that says hello. *)
Definition demo_hello : bytes :=
  match p ← wr (zeros 64) 0 (hdr_bytes (assemble_header CLIENT_OPERATION None 0).1.1);
        assemble_hello p HDR_SIZE 3 100 55 with Ok (p, _) => p | Fault _ => [] end.

Definition readable (f : Z) (ds : list received) (accepted : Z) (input : sock_input) : event :=
  mkEvent f false true true ds accepted input.
Definition hello_event : event := readable 4 [Received demo_hello (HDR_SIZE + 9) 9 5000] (-1) (SockError true).
Definition timer_event : event := readable 3 [] (-1) (SockError true).
Definition pipe_event (f : Z) : event := readable f [] (-1) (SockError true).
Definition hangup_event (f : Z) : event := mkEvent f true false false [] (-1) (SockError true).

Definition demo_start (input : pipe_input) : res (server forest unit unit) :=
  server_main demo_fds (demo_outside input) demo_args.

(** The server after calls of [epoll_wait] that return these events. *)
Definition after (calls : list (list event)) (r : res (server forest unit unit)) : res (server forest unit unit) :=
  foldl (fun r es => w ← r; '(_, w) ← handle_events (J := unit) demo_fds 10 es w; Ok w) r calls.

(** The pipes - state, descriptor, whether it is open - the number of clients of
    each stream, what is watched, and the control connections with the number of
    bytes in their line buffers. *)
Definition summary (r : res (server forest unit unit)) :=
  match r with
  | Ok w => Some ((fun s => (state (inputpipe s), fd (inputpipe s), ip_initialized (inputpipe s))) <$> streams w,
                  (fun s => length (clients s)) <$> streams w,
                  filter (fun f => f ∈ efd w) [3; 4; 5; 6],
                  (fun sc => (sc_fd sc, line_offset sc)) <$> sclients (control_ctx w))
  | Fault _ => None
  end.

(** An event that is no longer true is obeyed: when the purge of the last
    client and data in the pipe are reported by one call of [epoll_wait], the pipe
    that was just taken out of the epoll set is read all the same and is playing
    without being watched.  The next client is registered but the pipe is not
    resumed, as it already seems to play. *)
Theorem stale_event_stops_stream :
  summary (after [[hello_event]] (demo_start (ReadBytes (zeros 8)))) =
    Some ([(PLAYING, 6, true)], [1%nat], [3; 4; 5; 6], []) /\
  summary (after [[hello_event]; [timer_event; pipe_event 6]; [hello_event]] (demo_start (ReadBytes (zeros 8)))) =
    Some ([(PLAYING, 6, true)], [1%nat], [3; 4; 5], []).
Proof. split; vm_compute; reflexivity. Qed.

(** A pipe that was closed keeps its descriptor: the pipe ends, its last
    client leaves, the writer hangs up, and the pipe is closed; the kernel then
    gives the descriptor to a control connection, whose data the server takes for
    the pipe's: nothing of it ever reaches the line buffer. *)
Theorem closed_pipe_takes_connection :
  summary (after [[hello_event]; [pipe_event 6]; [timer_event]; [hangup_event 6];
                  [readable 5 [] 6 (SockError true)]; [readable 6 [] (-1) (SockData (str "{}" ++ [10]))]]
             (demo_start (ReadBytes []))) =
    Some ([(IDLE, 6, false)], [0%nat], [3; 4; 5; 6], [(6, 0)]).
Proof. vm_compute. reflexivity. Qed.

Definition demo_playing : server forest unit unit :=
  match after [[hello_event]] (demo_start (ReadBytes (zeros 8))) with
  | Ok w => w
  | Fault _ => mkServer [] (taskqueue_init (fun _ => zero_time)) [] 0 0 ∅ [] (fun _ => zero_time) 0
                 (fun _ => ReadError) 0 next_fd 0 (mkControl [] [] (fun _ => []))
  end.

Lemma demo_step good w0 : demo_start (ReadBytes (zeros 8)) = Ok w0 -> good w0 hello_event ->
  reachable (J := unit) good demo_fds w0 demo_playing.
Proof.
  intros Hw0 Hg. eapply reach_event; [apply reach_start|exact Hg|].
  instantiate (2 := 10%nat). instantiate (1 := true). unfold demo_playing, after, foldl. rewrite Hw0.
  injection Hw0 as <-. vm_compute. reflexivity.
Qed.

Lemma server_timer_armed_witness :
  exists w0, demo_start (ReadBytes (zeros 8)) = Ok w0 /\ sched_armed demo_playing /\
    s_timer (stasks demo_playing) = Some (mkTime 12 0).
Proof.
  destruct (demo_start (ReadBytes (zeros 8))) as [w0|] eqn:E; [|vm_compute in E; discriminate].
  exists w0. split; [done|]. split; [|vm_compute; reflexivity].
  exact (server_timer_armed demo_fds _ demo_args w0 demo_playing E (demo_step _ w0 E I)).
Defined.

Lemma server_pipes_witness :
  exists s, streams demo_playing !! 0%nat = Some s /\ state (inputpipe s) = PLAYING /\
    fd (inputpipe s) ∈ efd demo_playing.
Proof.
  destruct (demo_start (ReadBytes (zeros 8))) as [w0|] eqn:E; [|vm_compute in E; discriminate].
  assert (proper w0 hello_event) as Hp.
  { vm_compute in E. injection E as <-. split; [apply (bool_decide_unpack _); vm_compute; exact I| |].
    - intros [|i] s; [intros [= <-]; vm_compute; discriminate|done].
    - apply (bool_decide_unpack _). vm_compute. exact I. }
  destruct (server_pipes demo_fds (demo_outside (ReadBytes (zeros 8))) demo_args w0 demo_playing next_fd_fresh E (demo_step _ w0 E Hp)) as [H _].
  destruct (streams demo_playing !! 0%nat) as [s|] eqn:Es; [|vm_compute in Es; discriminate].
  exists s. split; [done|]. assert (state (inputpipe s) = PLAYING) as Est by (vm_compute in Es; by injection Es as <-).
  split; [done|]. specialize (H 0%nat s Es). rewrite Est in H. apply H.
Defined.
