(* ===== verification/ServerClients.v ===== *)
(** * The ids of the server's clients

    No two clients that the server has registered, on whatever streams, have the
    same id: registering, refreshing, moving, deleting and purging clients keep
    them apart, so that a control request or a packet for a client is never
    ambiguous.  An invariant over all handlers of the main loop (ServerLoop.v),
    with the sweep of ServerInv.v. *)
From Stdlib Require Import Ascii String.
From S2P Require Import Prelude.
From S2P Require Import Timespec.
From S2P Require Import Bytes.
From S2P Require Import CString.
From S2P Require Import PcmChunk.
From S2P Require Import TaskHeap.
From S2P Require Import TaskSched.
From S2P Require Import Invariant.
From S2P Require Import Intercom.
From S2P Require Import ServerState.
From S2P Require Import InputPipe.
From S2P Require Import ClientMgr.
From S2P Require Import IntercomSrv.
From S2P Require Import JsonRpc.
From S2P Require Import Util.
From S2P Require Import Control.
From S2P Require Import Stream.
From S2P Require Import ServerLoop.
From S2P Require Import ServerInv.
From S2P Require Import PipeInv.
From S2P Require Import ServerMain.

(** ** Lists of lists *)

Lemma concat_insert {A} (L : list (list A)) i l l' :
  L !! i = Some l -> concat (<[i := l']> L) ++ l ≡ₚ concat L ++ l'.
Proof.
  intros Hi. rewrite <- (take_drop_middle L i l Hi) at 2. rewrite insert_take_drop by by eapply lookup_lt_Some.
  rewrite !concat_app. simpl. solve_Permutation.
Qed.

Lemma concat_append {A} (L : list (list A)) i l x :
  L !! i = Some l -> concat (<[i := l ++ [x]]> L) ≡ₚ x :: concat L.
Proof.
  intros Hi. apply (Permutation_app_inv_r l). rewrite (concat_insert L i l _ Hi). simpl. solve_Permutation.
Qed.

Lemma concat_delete {A} (L : list (list A)) i l j x :
  L !! i = Some l -> l !! j = Some x -> x :: concat (<[i := delete j l]> L) ≡ₚ concat L.
Proof.
  intros Hi Hj. apply (Permutation_app_inv_r l). simpl. rewrite (concat_insert L i l _ Hi).
  rewrite (delete_Permutation l j x Hj) at 2. solve_Permutation.
Qed.

Section ids.
Context {Q Dec Enc J : Type}
  `{!TimerQueue Q, !TimerQueueLaws Q, !OpusLib Dec Enc, !JsonLib J, !HostLib, !UnionLib J}.
Abbreviation W := (server Q Dec Enc).
Implicit Types (w : W).

Definition ids w : list Z := concat (cids w).
Definition ids_ok w : Prop := NoDup (ids w).

(** *** Operations that leave the clients alone *)

Lemma cids_apart L : apart_from_sched (fun w => cids w = L).
Proof. by intros s w. Qed.

Lemma cids_pipeless L : pipeless_invariant (fun w => cids w = L).
Proof.
  split.
  - by intros w w' _ ->.
  - intros timeout ms t. apply apart_post, cids_apart.
  - intros p. apply apart_drop; [apply cids_apart|]. intros t. apply preserves_skip.
  - intros p timeout ms. apply apart_reschedule, cids_apart.
Qed.
Lemma cids_base L : base_invariant (fun w => cids w = L).
Proof. apply pipeless_base, cids_pipeless. Qed.

(** What keeps the clients of every state keeps those of this one. *)
Lemma cids_same {A} (m : M W A) w a w' :
  (forall L, base_invariant (fun w => cids w = L) -> preserves (fun w => cids w = L) m) ->
  m w = Ok (a, w') -> cids w' = cids w.
Proof. intros Hm E. exact (Hm (cids w) (cids_base _) w a w' eq_refl E). Qed.

(** What depends on the ids of the clients only. *)
Lemma ids_pipeless (I : W -> Prop) : (forall w w', cids w' = cids w -> I w -> I w') -> pipeless_invariant I.
Proof.
  intros HI. split.
  - intros w w' _. apply HI.
  - intros timeout ms t w a w' Hw E. eapply HI, Hw. eapply cids_same, E. intros L HL. by apply hold_post.
  - intros p w a w' Hw E. eapply HI, Hw. eapply cids_same, E. intros L HL. by apply hold_drop.
  - intros p timeout ms w a w' Hw E. eapply HI, Hw. eapply cids_same, E. intros L HL. by apply hold_reschedule.
Qed.

Lemma ids_ok_pipeless : pipeless_invariant ids_ok.
Proof. apply ids_pipeless. intros w w' E. unfold ids_ok, ids. by rewrite E. Qed.

(** No id occurs twice, and [cid] does not occur. *)
Definition free (cid : Z) w : Prop := ids_ok w /\ cid ∉ ids w.

Lemma free_base cid : base_invariant (free cid).
Proof. apply pipeless_base, ids_pipeless. intros w w' E. unfold free, ids_ok, ids. by rewrite E. Qed.

(** *** Looking clients up *)

Lemma cids_stream w i s : streams w !! i = Some s -> cids w !! i = Some (ids_of s).
Proof. intros Hs. unfold cids. by rewrite list_lookup_fmap, Hs. Qed.

Lemma the_client_inv i j w c w' : the_client i j w = Ok (c, w') ->
  w' = w /\ exists s, streams w !! i = Some s /\ clients s !! j = Some c.
Proof.
  unfold the_client. intros (s & w1 & E1 & E2)%M_bind_inv. apply the_stream_inv in E1 as [-> Hs].
  destruct (clients s !! j) eqn:Hc; [|done]. injection E2 as -> <-. split; [done|]. by exists s.
Qed.

Lemma get_client_some (s : stream Dec Enc) cid j : get_client s cid = Some j ->
  exists c, clients s !! j = Some c /\ id c = cid.
Proof.
  unfold get_client. destruct (list_find _ _) as [[k c]|] eqn:E; [|done]. intros [= <-].
  apply list_find_Some in E as (? & ? & _). by exists c.
Qed.

Lemma get_client_none (s : stream Dec Enc) cid : get_client s cid = None -> cid ∉ ids_of s.
Proof.
  unfold get_client. rewrite fmap_None. intros Hn%list_find_None (c & -> & Hc)%list_elem_of_fmap.
  by eapply Forall_forall in Hn; [|exact Hc].
Qed.

Lemma find_client_none w cid : find_client_in (streams w) cid = None -> cid ∉ ids w.
Proof.
  unfold find_client_in, ids, cids. destruct (list_find _ _) as [[i s]|] eqn:E.
  { apply list_find_Some in E as (_ & [j Hj] & _). simpl. by rewrite Hj. }
  intros _ Hin. apply list_find_None in E. apply list_elem_of_In, in_concat in Hin as (l & Hl & Hin).
  apply list_elem_of_In, list_elem_of_fmap in Hl as (s & -> & Hs).
  eapply Forall_forall in E; [|exact Hs]. apply list_elem_of_In in Hin. revert Hin. apply get_client_none.
  destruct (get_client s cid); [exfalso; by apply E|done].
Qed.

Lemma find_client_some w cid i j : find_client_in (streams w) cid = Some (i, j) ->
  exists s c, streams w !! i = Some s /\ clients s !! j = Some c /\ id c = cid.
Proof.
  unfold find_client_in. destruct (list_find _ _) as [[i' s]|] eqn:E; [|done]. simpl.
  destruct (get_client s cid) as [j'|] eqn:Ej; [|done]. intros [= -> ->].
  apply list_find_Some in E as (Hs & _ & _). apply get_client_some in Ej as (c & Hc & Hid). by exists s, c.
Qed.

(** Where ids are unique a client is in one place. *)
Lemma ids_place w i j i' j' s s' c c' : ids_ok w ->
  streams w !! i = Some s -> clients s !! j = Some c ->
  streams w !! i' = Some s' -> clients s' !! j' = Some c' -> id c = id c' -> i = i' /\ j = j'.
Proof.
  intros Hw Hs Hc Hs' Hc' E. unfold ids_ok, ids in Hw.
  apply cids_stream in Hs, Hs'. assert (ids_of s !! j = Some (id c)) as Hj by (unfold ids_of; by rewrite list_lookup_fmap, Hc).
  assert (ids_of s' !! j' = Some (id c)) as Hj' by (unfold ids_of; by rewrite list_lookup_fmap, Hc', E).
  pose proof (concat_delete _ i (ids_of s) j (id c) Hs Hj) as Hp.
  rewrite <- Hp in Hw. apply NoDup_cons in Hw as [Hnot _].
  destruct (decide (i = i')) as [<-|Hne].
  - split; [done|]. assert (ids_of s' = ids_of s) as E' by congruence. rewrite E' in Hj'.
    destruct (decide (j = j')) as [|Hj2]; [done|]. exfalso. apply Hnot. apply list_elem_of_In, in_concat.
    exists (delete j (ids_of s)). split.
    + apply list_elem_of_In, (list_elem_of_lookup_2 _ i). by rewrite list_lookup_insert_eq by by eapply lookup_lt_Some.
    + apply list_elem_of_In. pose proof (delete_Permutation (ids_of s) j (id c) Hj) as Hp2.
      destruct (decide (j' < j)%nat) as [Hlt|Hge].
      * apply (list_elem_of_lookup_2 _ j'). by rewrite list_lookup_delete_lt.
      * apply (list_elem_of_lookup_2 _ (j' - 1)%nat). rewrite list_lookup_delete_ge by lia.
        by replace (S (j' - 1)) with j' by lia.
  - exfalso. apply Hnot. apply list_elem_of_In, in_concat. exists (ids_of s'). split.
    + apply list_elem_of_In, (list_elem_of_lookup_2 _ i'). by rewrite list_lookup_insert_ne.
    + by apply list_elem_of_In, (list_elem_of_lookup_2 _ j').
Qed.

(** *** Adding and removing *)

Lemma cids_upd_clients i f w s : streams w !! i = Some s ->
  cids (set_streams (alter (fun s => with_clients (f (clients s)) s) i (streams w)) w) =
    <[i := id <$> f (clients s)]> (cids w).
Proof.
  intros Hs. unfold cids. simpl. apply list_eq. intros k. rewrite list_lookup_fmap.
  destruct (decide (i = k)) as [<-|Hne].
  - rewrite list_lookup_alter_eq, Hs. rewrite list_lookup_insert_eq; [done|].
    rewrite length_fmap. by eapply lookup_lt_Some.
  - by rewrite list_lookup_alter_ne, list_lookup_insert_ne, list_lookup_fmap by done.
Qed.

(** A client that is added is the last of its stream. *)
Lemma cids_add i c w u w' : stream_client_add i c w = Ok (u, w') ->
  exists l, cids w !! i = Some l /\ cids w' = <[i := l ++ [id c]]> (cids w).
Proof.
  unfold stream_client_add. intros ([] & w1 & [= <-] & E)%M_bind_inv.
  set (w1 := set_streams _ w) in E.
  pose proof E as (s & w2 & E1 & _)%M_bind_inv. apply the_stream_inv in E1 as [-> Hs].
  unfold w1 in Hs. simpl in Hs. destruct (streams w !! i) as [s0|] eqn:Hs0;
    [|by rewrite list_lookup_alter_eq, Hs0 in Hs].
  exists (ids_of s0). split; [by apply cids_stream|].
  assert (cids w' = cids w1) as ->.
  { eapply cids_same, E. intros L HL. pose proof (cids_pipeless L) as HP.
    assert (forall i f, preserves (fun w => cids w = L) (upd_pipe i f)) by (intros; by apply keep_upd_pipe).
    assert (forall p, preserves (fun w => cids w = L) (drop_task stask_cleanup p)) by (intros; by apply hold_drop).
    preserve. }
  unfold w1. rewrite (cids_upd_clients i (fun l => l ++ [c]) w s0 Hs0). by rewrite fmap_app.
Qed.

Lemma cids_remove i j w u w' : stream_client_remove i j w = Ok (u, w') ->
  exists l, cids w !! i = Some l /\ cids w' = <[i := delete j l]> (cids w).
Proof.
  unfold stream_client_remove. intros ([] & w1 & [= <-] & E)%M_bind_inv.
  set (w1 := set_streams _ w) in E.
  pose proof E as (s & w2 & E1 & _)%M_bind_inv. apply the_stream_inv in E1 as [-> Hs].
  unfold w1 in Hs. simpl in Hs. destruct (streams w !! i) as [s0|] eqn:Hs0;
    [|by rewrite list_lookup_alter_eq, Hs0 in Hs].
  exists (ids_of s0). split; [by apply cids_stream|].
  assert (cids w' = cids w1) as -> by (eapply cids_same, E; intros L HL; preserve).
  unfold w1. by rewrite (cids_upd_clients i (delete j) w s0 Hs0), list_fmap_delete.
Qed.

(** Fewer clients, in the same order. *)
Lemma ids_sublist (L : list (list Z)) i l l' : L !! i = Some l -> l' `sublist_of` l ->
  concat (<[i := l']> L) `sublist_of` concat L.
Proof.
  intros Hi Hl. rewrite <- (take_drop_middle L i l Hi) at 2. rewrite insert_take_drop by by eapply lookup_lt_Some.
  rewrite !concat_app. simpl. by repeat apply sublist_app.
Qed.

Lemma remove_ids i j : preserves ids_ok (stream_client_remove i j).
Proof.
  intros w u w' Hw (l & Hl & E)%cids_remove. unfold ids_ok, ids in *. rewrite E.
  eapply sublist_NoDup; [exact Hw|]. eapply ids_sublist; [exact Hl|apply sublist_delete].
Qed.

Lemma add_ids i c w u w' : free (id c) w -> stream_client_add i c w = Ok (u, w') -> ids_ok w'.
Proof.
  intros [Hw Hc] (l & Hl & E)%cids_add. unfold ids_ok, ids in *. rewrite E, (concat_append _ _ _ _ Hl).
  by apply NoDup_cons.
Qed.

(** *** Registering, refreshing and deleting *)

#[local] Hint Resolve hold_post hold_drop hold_reschedule hold_hold hold_resume hold_send hold_the_stream
  hold_the_pipe hold_time hold_find_client hold_stream_find hold_the_client hold_stop hold_volume hold_buffer
  hold_new_client free_base : preserve.

Lemma ids_ok_base : base_invariant ids_ok.
Proof. apply pipeless_base, ids_ok_pipeless. Qed.
Lemma upd_client_ids i j f : (forall c, id (f c) = id c) -> preserves ids_ok (upd_client i j f).
Proof. apply hold_upd_client, ids_ok_base. Qed.
#[local] Hint Resolve ids_ok_base : preserve.
#[local] Hint Extern 1 (preserves _ (upd_client _ _ _)) => by apply upd_client_ids : preserve.

Lemma init_free cid i w s : streams w !! i = Some s -> free cid w ->
  free cid (set_streams (alter stream_init i (streams w)) w).
Proof.
  intros Hs [Hw Hc].
  assert (ids (set_streams (alter stream_init i (streams w)) w) `sublist_of` ids w) as Hsub.
  { unfold ids.
    change (cids (set_streams (alter stream_init i (streams w)) w)) with (ids_of <$> alter stream_init i (streams w)).
    replace (ids_of <$> alter stream_init i (streams w)) with (<[i := []]> (cids w)).
    { eapply ids_sublist; [by apply cids_stream|apply sublist_nil_l]. }
    apply list_eq. intros k. destruct (decide (i = k)) as [<-|Hne].
    - rewrite list_lookup_fmap, list_lookup_alter_eq, Hs. rewrite list_lookup_insert_eq; [done|].
      unfold cids. rewrite length_fmap. by eapply lookup_lt_Some.
    - unfold cids. by rewrite list_lookup_insert_ne, !list_lookup_fmap, list_lookup_alter_ne by done. }
  split; [by eapply sublist_NoDup|]. intros Hin. by eapply Hc, elem_of_submseteq, sublist_submseteq.
Qed.

(** The goal is an invariant of the computation in [E]. *)
Ltac by_preserves E :=
  match goal with |- ?I _ => match type of E with ?m _ = Ok _ =>
    let Hm := fresh in assert (preserves I m) as Hm by preserve; eapply Hm; [|exact E]; assumption
  end end.

Lemma new_client_id cid host port w c w' : new_client cid host port w = Ok (c, w' : W) -> id c = cid.
Proof.
  unfold new_client. intros (n & w1 & _ & E)%M_bind_inv. apply M_bind_inv in E as (t & w2 & _ & E).
  by injection E as <- _.
Qed.

Lemma register_ids c w a w' : free (id c) w -> register_client c w = Ok (a, w') -> ids_ok w'.
Proof.
  intros Hw. unfold register_client. intros (nc & w1 & E1 & E)%M_bind_inv.
  assert (free (id c) w1) as Hw1 by (eapply hold_new_client; [apply free_base|exact Hw|exact E1]).
  apply new_client_id in E1 as Hid.
  apply M_bind_inv in E as (s & w2 & E2 & E). apply the_stream_inv in E2 as [-> Hs].
  apply M_bind_inv in E as ([] & w2 & E2 & E).
  assert (free (id nc) w2) as Hw2.
  { rewrite Hid. destruct (s_initialized s); injection E2 as <-; [done|by eapply init_free]. }
  apply M_bind_inv in E as ([] & w3 & E3 & E). apply (add_ids _ _ _ _ _ Hw2) in E3. by_preserves E.
Qed.

Lemma delete_internal_inv i j w u w' : delete_client_internal (Some (i, j)) w = Ok (u, w' : W) ->
  exists l, cids w !! i = Some l /\ cids w' = <[i := delete j l]> (cids w).
Proof.
  unfold delete_client_internal. intros (c' & w1 & E1 & E)%M_bind_inv.
  apply the_client_inv in E1 as (-> & _). apply M_bind_inv in E as ([] & w1 & E1 & E).
  assert (cids w1 = cids w) as E1' by (eapply cids_same, E1; intros L HL; preserve).
  apply cids_remove in E as (l & Hl & E). rewrite E1' in *. by exists l.
Qed.

(** Deleting a client frees its id. *)
Lemma delete_ids cid i j w u w' : ids_ok w -> find_client_in (streams w) cid = Some (i, j) ->
  clientmgr_delete_client cid w = Ok (u, w') -> free cid w'.
Proof.
  unfold clientmgr_delete_client. intros Hw Hf (r & w1 & [= <- <-] & E)%M_bind_inv. rewrite Hf in E.
  apply find_client_some in Hf as (s & c & Hs & Hc & Hid).
  apply delete_internal_inv in E as (l & Hl & E). rewrite (cids_stream _ _ _ Hs) in Hl. injection Hl as <-.
  pose proof (concat_delete _ i (ids_of s) j cid (cids_stream _ _ _ Hs)) as Hp.
  specialize (Hp ltac:(unfold ids_of; by rewrite list_lookup_fmap, Hc; simpl; rewrite Hid)).
  unfold free, ids_ok, ids in *. rewrite E. rewrite <- Hp in Hw. apply NoDup_cons in Hw as []. done.
Qed.

Lemma refresh_ids c : preserves ids_ok (clientmgr_refresh_client c).
Proof.
  intros w b w' Hw. unfold clientmgr_refresh_client. intros (r & w1 & [= <- <-] & E)%M_bind_inv.
  apply M_bind_inv in E as (t & w1 & [= <- <-] & E).
  apply M_bind_inv in E as ([i j] & w2 & E1 & E).
  assert (ids_ok w2) as Hw2; [|by_preserves E]. clear E.
  set (w1 := ssystick w) in *.
  destruct (find_client_in (streams w) (id c)) as [[i' j']|] eqn:Hf.
  - apply M_bind_inv in E1 as (c' & w3 & E3 & E1). apply the_client_inv in E3 as [-> _].
    destruct (negb _).
    + apply M_bind_inv in E1 as ([] & w3 & E3 & E1). eapply register_ids, E1.
      eapply (delete_ids _ i' j' w1), E3; done.
    + assert (ids_ok w1) as Hw1 by done. by_preserves E1.
  - eapply register_ids, E1. split; [done|]. by apply find_client_none.
Qed.

(** *** Moving *)

Lemma stream_find_inv cid w r w' : stream_find cid w = Ok (r, w' : W) ->
  r = fst <$> find_client_in (streams w) cid /\ w' = w.
Proof. unfold stream_find. by intros (r1 & w1 & [= <- <-] & [= <- <-])%M_bind_inv. Qed.

(** Where ids are unique a client is found at its place. *)
Lemma find_client_unique w i j s c : ids_ok w -> streams w !! i = Some s -> clients s !! j = Some c ->
  find_client_in (streams w) (id c) = Some (i, j).
Proof.
  intros Hw Hs Hc. destruct (find_client_in (streams w) (id c)) as [[i' j']|] eqn:Hf.
  - apply find_client_some in Hf as (s' & c' & Hs' & Hc' & Hid).
    by destruct (ids_place w i j i' j' s s' c c' Hw Hs Hc Hs' Hc') as [-> ->].
  - exfalso. apply find_client_none in Hf. apply Hf. apply list_elem_of_In, in_concat. exists (ids_of s).
    split; [by eapply list_elem_of_In, list_elem_of_lookup_2, cids_stream|].
    apply list_elem_of_In, (list_elem_of_lookup_2 _ j). unfold ids_of. by rewrite list_lookup_fmap, Hc.
Qed.

Lemma move_ids i j n : preserves ids_ok (move_client i j n).
Proof.
  intros w a w' Hw. unfold move_client. intros (c & w1 & E1 & E)%M_bind_inv.
  apply the_client_inv in E1 as (-> & s & Hs & Hc). apply M_bind_inv in E as (cur & w1 & Ecur & E).
  apply stream_find_inv in Ecur as [-> ->]. rewrite (find_client_unique w i j s c Hw Hs Hc) in E.
  apply M_bind_inv in E as (cs & w1 & E1 & E). apply the_stream_inv in E1 as (-> & Hcs).
  apply M_bind_inv in E as (ns & w1 & E1 & E). apply the_stream_inv in E1 as (-> & Hns). simpl in *.
  destruct (is_prefix (name cs) (name ns)) eqn:Epre; simpl in E; [by injection E as _ <-|].
  assert (n <> i) as Hne.
  { intros ->. assert (cs = ns) as -> by congruence. unfold is_prefix in Epre.
    apply bool_decide_eq_false in Epre. by apply Epre. }
  apply M_bind_inv in E as ([] & w1 & E1 & E). assert (cids w1 = cids w) as Ec1 by (eapply cids_same, E1; intros L HL; preserve).
  apply M_bind_inv in E as ([] & w2 & E2 & E). apply cids_add in E2 as (l & Hl & E2).
  apply M_bind_inv in E as ([] & w3 & E3 & E). apply cids_remove in E3 as (l' & Hl' & E3).
  assert (ids_ok w3) as Hw3; [|by_preserves E]. clear E.
  rewrite E2, Ec1, list_lookup_insert_ne in Hl' by done.
  assert (l' !! j = Some (id c)) as Hj.
  { rewrite (cids_stream _ _ _ Hs) in Hl'. injection Hl' as <-. unfold ids_of. by rewrite list_lookup_fmap, Hc. }
  pose proof (concat_delete (cids w2) i l' j (id c)) as Hp. rewrite <- E3, E2, Ec1 in Hp.
  rewrite list_lookup_insert_ne in Hp by done. specialize (Hp Hl' Hj).
  rewrite Ec1 in Hl. rewrite (concat_append _ n l (id c) Hl) in Hp. apply Permutation_cons_inv in Hp.
  unfold ids_ok, ids. by rewrite Hp.
Qed.

Lemma ids_invariant : server_invariant ids_ok.
Proof.
  split.
  - apply ids_ok_base.
  - apply remove_ids.
  - apply refresh_ids.
  - apply move_ids.
Qed.

(** *** Events *)

(** Together with the scheduler's invariant, which a run of the queue needs. *)
Definition clients_ok w : Prop := ids_ok w /\ sched_armed w.

Lemma clients_pipeless : pipeless_invariant clients_ok.
Proof.
  destruct ids_ok_pipeless as [A1 A2 A3 A4].
  destruct (sched_pipeless sched_armed (armed_invariant (HasSched0 := server_sched (Q := Q) (Dec := Dec) (Enc := Enc))))
    as [C1 C2 C3 C4].
  split; try (by intros; apply preserves_and). intros w w' E E' [H1 H2]. split; eauto.
Qed.

Lemma clients_invariant : server_invariant clients_ok.
Proof.
  apply both_invariant; [apply ids_invariant|].
  exact (sched_server_invariant _ (armed_invariant (HasSched0 := server_sched (Q := Q) (Dec := Dec) (Enc := Enc)))).
Qed.

Lemma clients_timer fuel : preserves clients_ok (srv_timer_event fuel : M W unit).
Proof.
  unfold srv_timer_event. apply (run_keeps (HasSched0 := server_sched (Q := Q) (Dec := Dec) (Enc := Enc)) ids_ok).
  - by intros s w.
  - apply keeps_stask. intros t. apply keep_stask; [apply ids_ok_pipeless|apply ids_invariant].
  - apply keeps_cleanup.
Qed.

Lemma clients_event fds fuel e : preserves clients_ok (handle_event (J := J) fds fuel e).
Proof. apply keep_event; [apply clients_pipeless|apply clients_invariant|apply clients_timer]. Qed.

(** Main starts without clients. *)
Lemma main_ids fds out args w0 : server_main fds out args = Ok w0 -> ids_ok w0.
Proof.
  intros (ss & b & -> & Hss)%main_inv. change (NoDup (concat (ids_of <$> ss))).
  assert (concat (ids_of <$> ss) = []) as ->; [|constructor].
  induction Hss as [|s ss (_ & _ & Hc & _) _ IH]; [done|]. rewrite fmap_cons. simpl. rewrite IH. unfold ids_of. by rewrite Hc.
Qed.

(** C7: no two clients have the same id.  In every state that the server reaches,
    whatever events it gets, an id belongs to one client only, at one place of one
    stream: registering, refreshing, moving and purging keep the clients apart,
    and the client that a control request or a packet names is the one that
    [find_client] finds. *)
Theorem server_clients_unique fds out args w0 w :
  server_main fds out args = Ok w0 -> reachable (J := J) (fun _ _ => True) fds w0 w ->
  (forall i i' j j' s s' c c', streams w !! i = Some s -> clients s !! j = Some c ->
     streams w !! i' = Some s' -> clients s' !! j' = Some c' -> id c = id c' -> i = i' /\ j = j') /\
  (forall i j s c, streams w !! i = Some s -> clients s !! j = Some c ->
     find_client (id c) w = Ok (Some (i, j), w)).
Proof.
  intros Hmain Hr. assert (clients_ok w) as [Hw _].
  { induction Hr as [|w fuel e go w' _ IH _ E]; [|by eapply clients_event].
    split; [by eapply main_ids|by eapply main_armed]. }
  split; [intros; by eapply ids_place|]. intros i j s c Hs Hc.
  unfold find_client, gets, mbind, M_bind, mret, M_ret. by rewrite (find_client_unique w i j s c).
Qed.
End ids.

(** The client that said hello is found where it is. *)
Lemma server_clients_unique_witness :
  exists s c, streams demo_playing !! 0%nat = Some s /\ clients s !! 0%nat = Some c /\
    find_client (id c) demo_playing = Ok (Some (0%nat, 0%nat), demo_playing).
Proof.
  destruct (demo_start (ReadBytes (zeros 8))) as [w0|] eqn:E; [|vm_compute in E; discriminate].
  destruct (server_clients_unique demo_fds _ demo_args w0 demo_playing E (demo_step _ w0 E I)) as [_ Hfind].
  destruct (streams demo_playing !! 0%nat) as [s|] eqn:Es; [|vm_compute in Es; discriminate].
  destruct (clients s !! 0%nat) as [c|] eqn:Ec; [|vm_compute in Es; injection Es as <-; discriminate].
  exists s, c. split; [done|]. split; [done|]. by apply (Hfind 0%nat 0%nat s c).
Defined.
