(* ===== verification/Sent.v ===== *)
(** * What the server sends

    An invariant of the server: every datagram it ever sent is a command or the
    audio packet of a chunk that the encoder made of bytes read from the pipes, in
    the order they were read, and so is every packet that it keeps.  It holds
    whatever the server is told by the network, the pipes and the control
    connections. *)
From S2P Require Import Prelude.
From S2P Require Import Timespec.
From S2P Require Import Bytes.
From S2P Require Import PcmChunk.
From S2P Require Import TaskHeap.
From S2P Require Import TaskSched.
From S2P Require Import Invariant.
From S2P Require Import Intercom.
From S2P Require Import ServerState.
From S2P Require Import InputPipe.
From S2P Require Import ClientMgr.
From S2P Require Import IntercomSrv.
From S2P Require Import JsonRpc.
From S2P Require Import Util.
From S2P Require Import Control.
From S2P Require Import ServerLoop.
From S2P Require Import ServerInv.
From S2P Require Import PipeInv.
From S2P Require Import ServerMain.

(** ** Audio packets of any chunk *)

(** A chunk as it is after its way over the wire: the fields cut to their widths,
    the data to its size. *)
Definition on_wire (ch : pcmChunk) : pcmChunk :=
  mkChunk (u32 (play_at_tv_sec ch)) (u32 (play_at_tv_nsec ch)) (u32 (samples ch)) (u8 (frame_size ch))
    (u8 (channels ch)) (size ch) (u8 (codec ch)) (take (Z.to_nat (size ch)) <$> data ch).

Lemma le_bytes_mod n x : le_bytes n (x mod 256 ^ Z.of_nat n) = le_bytes n x.
Proof.
  revert x. induction n as [|n IH]; intros x; [done|].
  change (le_bytes (S n) ?x) with (x mod 256 :: le_bytes n (x / 256)).
  rewrite Nat2Z.inj_succ, Z.pow_succ_r by lia. pose proof (Z.pow_pos_nonneg 256 (Z.of_nat n)).
  f_equal.
  - rewrite Z.rem_mul_r, (Z.mul_comm 256), Z.mod_add, Z.mod_mod by lia. done.
  - rewrite Z.rem_mul_r by lia. rewrite Z.mul_comm, Z.div_add, Z.div_small by (try apply Z.mod_pos_bound; lia).
    apply IH.
Qed.

Lemma le_bytes_u8 x : le_bytes 1 (u8 x) = le_bytes 1 x.
Proof. apply (le_bytes_mod 1). Qed.
Lemma htonl_u32 x : htonl (u32 x) = htonl x.
Proof. unfold htonl, bswap, u32. by rewrite (le_bytes_mod 4). Qed.
Lemma htons_u16 x : htons (u16 x) = htons x.
Proof. unfold htons, bswap, u16. by rewrite (le_bytes_mod 2). Qed.

Lemma rd_length b off n v : rd b off n = Ok v -> off + Z.of_nat n <= Z.of_nat (length b).
Proof.
  unfold rd. destruct (_ && _) eqn:E; [|done]. intros _. apply andb_prop in E as [_ E]. by apply Z.leb_le.
Qed.

(** Making a packet takes a chunk whose buffer holds its data. *)
Lemma assemble_data ch n ms r : assemble_audio ch n ms = Ok r -> 0 <= size ch ->
  exists d, data ch = Some d /\ size ch <= Z.of_nat (length d).
Proof.
  unfold assemble_audio. destruct (assemble_header _ _ _) as [[h off] k]. intros E Hs.
  apply res_bind_inv in E as (p1 & _ & E). apply res_bind_inv in E as (p2 & _ & E).
  apply res_bind_inv in E as ([p3 o3] & _ & E). apply res_bind_inv in E as ([p4 o4] & _ & E).
  apply res_bind_inv in E as ([p5 o5] & _ & E). apply res_bind_inv in E as (p6 & _ & E).
  apply res_bind_inv in E as (p7 & _ & E). apply res_bind_inv in E as ([p8 o8] & _ & E).
  apply res_bind_inv in E as (p9 & _ & E). destruct (data ch) as [d|]; [|done].
  apply res_bind_inv in E as (d' & E%rd_length & _). exists d. split; [done|]. lia.
Qed.

(** Whatever the chunk, the client reads back what the wire carries of it. *)
Lemma assemble_wire ch n ms p len k : assemble_audio ch n ms = Ok (p, len, k) -> 0 <= size ch < 65536 ->
  len = 27 + size ch /\ Z.of_nat (length p) = len /\
  forall tail, parse_audio (p ++ tail) = Ok (on_wire ch) /\
    hdr_at (p ++ tail) = Ok (mkHdr PACKET_FORMAT_VERSION AUDIO_DATA 0 (htonl (n mod NONCE_MAX))).
Proof.
  intros Ea Hs. destruct (assemble_data ch n ms _ Ea) as (d & Hd & Hl); [lia|].
  rewrite (assemble_audio_take ch n ms d) in Ea by (done || lia).
  set (P := concat _) in Ea. assert (p = P /\ len = 27 + size ch) as [-> ->] by (split; congruence). clear Ea.
  assert (chunk_ok (on_wire ch)) as Hok.
  { split; simpl; try (apply Z.mod_pos_bound; lia); [lia|]. rewrite Hd. simpl.
    eexists. split; [done|]. rewrite length_take. lia. }
  set (n' := n mod NONCE_MAX). assert (0 <= n' < 4294967295) as Hn' by (apply Z.mod_pos_bound; unfold NONCE_MAX; lia).
  pose proof (assemble_audio_fields (on_wire ch) n' (u16 ms) (take (Z.to_nat (size ch)) d) Hok) as Ef.
  assert (audio_fields (on_wire ch) n' (u16 ms) (take (Z.to_nat (size ch)) d) =
    audio_fields ch n ms (take (Z.to_nat (size ch)) d)) as E.
  { unfold audio_fields. cbn [play_at_tv_sec play_at_tv_nsec samples frame_size channels size codec on_wire].
    rewrite !htonl_u32, !htons_u16, !le_bytes_u8, (Z.mod_small n') by (unfold NONCE_MAX; lia). done. }
  rewrite E in Ef. fold P in Ef. simpl data in Ef. rewrite Hd in Ef. specialize (Ef eq_refl). split; [done|].
  destruct (audio_wire (on_wire ch) n' (u16 ms) [] Hok) as (q & Eq & Hlen & _);
    [lia|apply Z.mod_pos_bound; lia|]. assert (q = P) as -> by congruence. split; [exact Hlen|]. intros tail.
  destruct (audio_wire (on_wire ch) n' (u16 ms) tail Hok) as (q & Eq' & _ & Hp & Hh & _);
    [lia|apply Z.mod_pos_bound; lia|]. assert (q = P) as -> by congruence. split; [exact Hp|].
  by rewrite Hh, (Z.mod_small n') by (unfold NONCE_MAX; lia).
Qed.

(** ** Genuine packets *)

(** The packet [d] is that of the chunk [ch], and has the number [n]. *)
Definition packet_of (ch : pcmChunk) (n : Z) (d : bytes) : Prop :=
  0 <= size ch < 60000 /\ exists n0 ms len k, assemble_audio ch n0 ms = Ok (d, len, k) /\ n = n0 mod NONCE_MAX.

(** ** Where the data comes from *)

(** What the [k]-th call of [read] offers. *)
Definition offered (r : pipe_input) : bytes := match r with ReadBytes b => b | ReadError => [] end.

(** The bytes of calls of [read] before the [n]-th, in the order of the calls,
    from each call what it offers or the beginning of that. *)
Definition piped (rds : nat -> pipe_input) (n : nat) (d : bytes) : Prop :=
  exists (ks : list nat) (bs : list bytes), d = concat bs /\ StronglySorted lt ks /\ Forall (fun k => k < n)%nat ks /\
    Forall2 (fun k b => b `prefix_of` offered (rds k)) ks bs.

Lemma piped_nil rds n : piped rds n [].
Proof. exists [], []. split_and!; [done|constructor..]. Qed.

Lemma piped_mono rds n n' d : (n <= n')%nat -> piped rds n d -> piped rds n' d.
Proof.
  intros Hn (ks & bs & Hd & Hs & Hlt & Hb). exists ks, bs. split_and!; [done|done| |done].
  eapply Forall_impl; [exact Hlt|]. simpl. lia.
Qed.

Lemma piped_snoc rds n d b : piped rds n d -> b `prefix_of` offered (rds n) -> piped rds (S n) (d ++ b).
Proof.
  intros (ks & bs & -> & Hs & Hlt & Hb) Hp. exists (ks ++ [n]), (bs ++ [b]). split_and!.
  - by rewrite concat_app, concat_cons, concat_nil, app_nil_r.
  - clear Hb. induction Hs as [|k ks Hs IH Hk]; simpl; [repeat constructor|]. apply Forall_cons in Hlt as [? Hlt].
    constructor; [by apply IH|]. apply Forall_app. split; [done|]. by apply Forall_singleton.
  - apply Forall_app. split; [|apply Forall_singleton; lia]. eapply Forall_impl; [exact Hlt|]. simpl. lia.
  - apply Forall2_app; [done|]. by constructor.
Qed.

(** The part of a pipe's chunk that is filled was read from the pipes. *)
Definition filled (rds : nat -> pipe_input) (n : nat) (x : inputpipe_ctx) : Prop :=
  (is_Some (data (chunk x)) -> chunksize x < 65536) /\ forall d, data (chunk x) = Some d ->
    Z.of_nat (length d) = chunksize x /\ 0 <= data_read x /\ piped rds n (take (Z.to_nat (data_read x)) d).

Lemma filled_same rds n x x' : chunksize x' = chunksize x -> data (chunk x') = data (chunk x) ->
  data_read x' = data_read x \/ data_read x' = 0 -> filled rds n x -> filled rds n x'.
Proof.
  intros E1 E2 E3 [Hc Hx]. split; [by rewrite E1, E2|]. intros d. rewrite E1, E2. intros Hd.
  destruct (Hx d Hd) as (? & ? & ?). split; [done|]. destruct E3 as [-> | ->]; [done|].
  split; [lia|]. rewrite take_0. apply piped_nil.
Qed.

Lemma filled_mono rds n n' x : (n <= n')%nat -> filled rds n x -> filled rds n' x.
Proof.
  intros Hn [Hc Hx]. split; [done|]. intros d Hd. destruct (Hx d Hd) as (? & ? & ?).
  split_and!; [done..|]. by eapply piped_mono.
Qed.

Section origin.
Context {Dec Enc : Type} `{!OpusLib Dec Enc} (rds : nat -> pipe_input).

(** The chunk has what the encoder made of bytes that were read from the pipes;
    the number of frames is that of the bytes. *)
Definition from_pipes (ch : pcmChunk) : Prop :=
  exists n raw enc frames out m nb out' enc',
    piped rds n raw /\ opus_encode enc raw frames out m = (nb, out', enc') /\
    (frame_size ch <> 0 /\ channels ch <> 0 /\
     frames = Z.quot (Z.quot (Z.of_nat (length raw)) (frame_size ch)) (channels ch)) /\
    0 <= nb < 60000 /\ size ch = nb /\ codec ch = CODEC_OPUS /\
    take (Z.to_nat nb) <$> data ch = Some (take (Z.to_nat nb) out').

(** A packet as the server makes it: of such a chunk, or a command. *)
Definition genuine (d : bytes) : Prop :=
  (exists ch n, from_pipes ch /\ packet_of ch n d) \/ (exists v, volume_packet v = Ok d) \/ stop_packet = Ok d.

(** A packet that is kept to be sent again. *)
Definition kept (ap : audio_packet) : Prop :=
  exists d ch n, ap_data ap = Some d /\ from_pipes ch /\ packet_of ch n d /\ ap_len ap = Z.of_nat (length d).

Lemma kept_genuine ap d p : kept ap -> ap_data ap = Some d -> rd d 0 (Z.to_nat (ap_len ap)) = Ok p -> genuine p.
Proof.
  intros (d' & ch & n & Hd & Hr & Hp & Hl) Hd' E. assert (d' = d) as -> by congruence.
  rewrite Hl, Nat2Z.id, rd_all in E. injection E as <-. left. by exists ch, n.
Qed.

Lemma drop_old_kept age buffer l : Forall kept buffer -> drop_old_packets age buffer = Ok l -> Forall kept l.
Proof.
  revert l. induction buffer as [|ap rest IH]; intros l Hb; cbn [drop_old_packets]; [by intros [= <-]|].
  apply Forall_cons in Hb as [_ Hb]. intros E.
  repeat match type of E with
  | (match ?x with _ => _ end) = _ => destruct x eqn:?; try done
  | (_ ≫= _) = _ => apply res_bind_inv in E as (? & _ & E)
  end; [by apply IH|by injection E as <-].
Qed.
End origin.

(** libopus fills the buffer it is given and does not change its size. *)
Class OpusLaws (Dec Enc : Type) `{!OpusLib Dec Enc} :=
  opus_encode_length : forall e d frames out m nb out' e',
    opus_encode e d frames out m = (nb, out', e') -> length out' = length out.

Section sending.
Context {Q Dec Enc J : Type}
  `{!TimerQueue Q, !TimerQueueLaws Q, !OpusLib Dec Enc, !OpusLaws Dec Enc, !JsonLib J, !HostLib, !UnionLib J}.
Abbreviation W := (server Q Dec Enc).
Implicit Types (w : W).

Context (rds : nat -> pipe_input).

(** All that was ever sent. *)
Definition datagrams w : list bytes := dg_data <$> ssent w.

(** States in which the same was sent, kept and read, or more was read and dropped. *)
Definition quiet w w' : Prop :=
  ssent w' = ssent w /\ streams w' = streams w /\ sv_mtu w' = sv_mtu w /\ reads w' = reads w /\
  (nreads w <= nreads w')%nat.

(** After [n] calls of [read]. *)
Definition stream_sound (n : nat) (s : stream Dec Enc) : Prop :=
  Forall (kept rds) (packet_buffer s) /\ filled rds n (inputpipe s).

(** What was sent remains sent, and all packets are genuine. *)
Record sending (sofar : list bytes) w : Prop := {
  se_sent : sofar ⊆ datagrams w;
  se_genuine : Forall (genuine rds) (datagrams w);
  se_streams : Forall (stream_sound (nreads w)) (streams w);
  se_mtu : sv_mtu w = 1500;
  se_reads : reads w = rds;
}.

Lemma stream_sound_mono n n' s : (n <= n')%nat -> stream_sound n s -> stream_sound n' s.
Proof. intros Hn [? ?]. split; [done|]. by eapply filled_mono. Qed.

Context (sofar : list bytes).
Abbreviation I := (sending sofar).

Lemma sending_quiet w w' : quiet w w' -> I w -> I w'.
Proof.
  intros (H1 & H2 & H3 & H4 & H5) []. unfold datagrams in *.
  split; unfold datagrams; rewrite ?H1, ?H2, ?H3, ?H4; try done.
  eapply Forall_impl; [done|]. intros s. by apply stream_sound_mono.
Qed.

Lemma sending_stream w i s : I w -> streams w !! i = Some s -> stream_sound (nreads w) s.
Proof. intros Hw Hs. exact (proj1 (Forall_lookup _ _) (se_streams _ _ Hw) i s Hs). Qed.

Lemma sd_step {A} (m : M W A) : (forall w a w', m w = Ok (a, w') -> quiet w w') -> preserves I m.
Proof. intros Hm w a w' Hw E. eapply sending_quiet, Hw. by eapply Hm. Qed.
Lemma quiet_refl w : quiet w w. Proof. by repeat split. Qed.
Ltac quietly := unfold quiet; simpl; split_and!; first [done|lia].
Lemma sd_same {A} (m : M W A) : (forall w a w', m w = Ok (a, w') -> w' = w) -> preserves I m.
Proof. intros Hm. apply sd_step. intros w a w' ->%Hm. apply quiet_refl. Qed.
Lemma sd_modify f : (forall w, quiet w (f w)) -> preserves I (modify f).
Proof. intros Hf. apply sd_step. by intros w a w' [= _ <-]. Qed.
Lemma sched_quiet w w' : only_sched w w' -> quiet w w'.
Proof. by intros [sch ->]. Qed.
Lemma sd_post timeout ms (t : stask) : preserves I (post_task timeout ms t).
Proof. apply sd_step. intros w a w' E. by eapply sched_quiet, post_only. Qed.
Lemma sd_drop p : preserves I (drop_task stask_cleanup p).
Proof. apply sd_step. intros w a w' E. by eapply sched_quiet, drop_only. Qed.
Lemma sd_reschedule p timeout ms : preserves I (reschedule_task (P := stask) p timeout ms).
Proof. apply sd_step. intros w a w' E. by eapply sched_quiet, reschedule_only. Qed.

(** The streams change, of which the [i]-th by [f]. *)
Lemma sending_alter w i f : I w ->
  (forall s, streams w !! i = Some s -> stream_sound (nreads w) (f s)) ->
  I (set_streams (alter f i (streams w)) w).
Proof.
  intros [H1 H2 H3 H4 H5] Hf. split; try done. simpl. apply Forall_lookup. intros j s.
  destruct (decide (i = j)) as [<-|Hij].
  - rewrite list_lookup_alter_eq. destruct (streams w !! i) as [s0|] eqn:Es; [|done]. intros [= <-]. by apply Hf.
  - rewrite list_lookup_alter_ne by done. by apply (proj1 (Forall_lookup _ _) H3).
Qed.

Lemma sd_upd_stream i f : (forall n s, stream_sound n s -> stream_sound n (f s)) -> preserves I (upd_stream i f).
Proof.
  intros Hf w u w' Hw [= _ <-]. apply sending_alter; [done|]. intros s Hs. by eapply Hf, sending_stream.
Qed.
Lemma sd_keep_stream i f : (forall s, packet_buffer (f s) = packet_buffer s /\ inputpipe (f s) = inputpipe s) ->
  preserves I (upd_stream i f).
Proof. intros Hf. apply sd_upd_stream. intros n s. unfold stream_sound. by destruct (Hf s) as [-> ->]. Qed.
Lemma sd_upd_pipe i f : (forall n x, filled rds n x -> filled rds n (f x)) -> preserves I (upd_pipe i f).
Proof. intros Hf. apply sd_upd_stream. intros n s [? ?]. split; [done|]. by apply Hf. Qed.
Lemma sd_keep_pipe i f : (forall x, chunksize (f x) = chunksize x /\ data (chunk (f x)) = data (chunk x) /\
    (data_read (f x) = data_read x \/ data_read (f x) = 0)) -> preserves I (upd_pipe i f).
Proof. intros Hf. apply sd_upd_pipe. intros n x. destruct (Hf x) as (? & ? & ?). by apply filled_same. Qed.
Lemma sd_upd_client i j f : preserves I (upd_client i j f).
Proof. by apply sd_keep_stream. Qed.
Lemma sd_upd_control f : preserves I (upd_control f : M W unit).
Proof. apply sd_modify. intros w. quietly. Qed.
Lemma sd_send r p port : genuine rds p -> preserves I (send_unicast r p port).
Proof.
  intros Hp w u w' [H1 H2 H3 H4] [= _ <-]. unfold datagrams in *.
  split; try done; unfold datagrams; simpl; rewrite fmap_app.
  - intros d Hd. apply elem_of_app. left. by apply H1.
  - apply Forall_app. split; [done|]. by apply Forall_singleton.
Qed.
Lemma sd_the_stream i : preserves I (the_stream i).
Proof. apply sd_same. by intros w a w' [-> _]%the_stream_inv. Qed.
Lemma sd_the_pipe i : preserves I (the_pipe i).
Proof. apply sd_same. by intros w a w' [-> _]%the_pipe_inv. Qed.
Lemma sd_time : preserves I sobtainsystime.
Proof. apply sd_step. intros w a w' [= _ <-]. quietly. Qed.
Lemma sd_open : preserves I open_pipe.
Proof. apply sd_step. intros w a w' [= _ <-]. quietly. Qed.
Lemma sd_add_fd f : preserves I (add_fd f).
Proof. apply sd_step. intros w a w' [-> _]%add_fd_inv. quietly. Qed.
Lemma sd_del_fd f : preserves I (del_fd f).
Proof. apply sd_step. intros w a w' [-> _]%del_fd_inv. quietly. Qed.

#[local] Hint Resolve sd_post sd_drop sd_reschedule sd_upd_client sd_upd_control sd_the_stream
  sd_the_pipe sd_time sd_open sd_add_fd sd_del_fd : preserve.
#[local] Hint Extern 1 (preserves _ (modify _)) => apply sd_modify; intros; quietly : preserve.
#[local] Hint Extern 1 (preserves _ (upd_stream _ _)) => by apply sd_keep_stream : preserve.
#[local] Hint Extern 1 (preserves _ (upd_pipe _ _)) => apply sd_keep_pipe; intros ?; by auto : preserve.

(** *** Pipes *)

Lemma sd_set_idle i : preserves I (set_idle i). Proof. keep @set_idle. Qed.
#[local] Hint Resolve sd_set_idle : preserve.
Lemma sd_hold i : preserves I (inputpipe_hold i). Proof. keep @inputpipe_hold. Qed.
Lemma sd_init i : preserves I (inputpipe_init i).
Proof.
  unfold inputpipe_init. apply preserves_bind; [preserve|intros x]. apply preserves_bind; [preserve|intros f].
  destruct (_ =? _); [preserve|]. apply sd_upd_pipe. intros n x' _. unfold filled. simpl.
  match goal with |- context [zeros (u16 ?z)] =>
    assert (0 <= u16 z < 65536) by (apply Z.mod_pos_bound; lia); generalize dependent (u16 z) end.
  intros c Hc. split; [lia|]. intros d [= <-]. rewrite length_zeros by lia. split_and!; [lia|lia|apply piped_nil].
Qed.
#[local] Hint Resolve sd_hold sd_init : preserve.
Lemma sd_resume i : preserves I (inputpipe_resume_read i). Proof. keep @inputpipe_resume_read. Qed.
Lemma sd_forget i : preserves I
  (upd_pipe i (fun x => with_chunk (default (chunk x) (chunk_free_members (Some (chunk x)))) x) : M W unit).
Proof. apply sd_upd_pipe. intros n x _. by split; [intros [? ?]|]. Qed.
#[local] Hint Resolve sd_forget : preserve.
Lemma sd_uninit i : preserves I (inputpipe_uninit i). Proof. keep @inputpipe_uninit. Qed.
#[local] Hint Resolve sd_resume sd_uninit : preserve.

(** The bytes just read are in the chunk but not counted yet. *)
Definition arrived (i : nat) (count : Z) w : Prop :=
  I w /\ forall s d, streams w !! i = Some s -> data (chunk (inputpipe s)) = Some d ->
    let upto := data_read (inputpipe s) + count in
    0 <= upto /\ piped rds (nreads w) (take (Z.to_nat upto) d).

Lemma arrived_quiet {A} i count (m : M W A) : (forall w a w', m w = Ok (a, w') -> quiet w w') ->
  preserves (arrived i count) m.
Proof.
  intros Hm w a w' [Hw Ha] E%Hm. split; [by eapply sending_quiet|]. destruct E as (_ & -> & _ & _ & Hn).
  intros s d Hs Hd. destruct (Ha s d Hs Hd). split; [done|]. by eapply piped_mono.
Qed.

(** They are counted. *)
Lemma sd_count i count f w u w' : arrived i count w ->
  (forall x, chunksize (f x) = chunksize x /\ data (chunk (f x)) = data (chunk x) /\
     data_read (f x) = data_read x + count) ->
  upd_pipe i f w = Ok (u, w') -> I w'.
Proof.
  intros [Hw Ha] Hf [= _ <-]. apply sending_alter; [done|]. intros s Hs.
  destruct (sending_stream w i s Hw Hs) as [Hk [Hc Hx]]. split; [done|]. simpl.
  destruct (Hf (inputpipe s)) as (E1 & E2 & E3). split; [by rewrite E1, E2|]. intros d. rewrite E1, E2, E3. intros Hd.
  destruct (Hx d Hd) as [? _]. by destruct (Ha s d Hs Hd).
Qed.

Lemma take_wr b off v b' : wr b off v = Ok b' -> 0 <= off ->
  take (Z.to_nat off) b' = take (Z.to_nat off) b /\
  take (Z.to_nat (off + Z.of_nat (length v))) b' = take (Z.to_nat off) b ++ v.
Proof.
  unfold wr. destruct (_ && _) eqn:E; [|done]. intros [= <-] H0. apply andb_true_iff in E as [_ E%Z.leb_le].
  assert (length (take (Z.to_nat off) b) = Z.to_nat off) as L by (rewrite length_take; lia).
  split; [by rewrite take_app_length'|]. rewrite app_assoc, take_app_length'; [done|rewrite length_app; lia].
Qed.

Lemma arrives i bs w x d d' u w' : I w -> (exists s, streams w !! i = Some s /\ x = inputpipe s) ->
  data (chunk x) = Some d -> (forall n, S n = nreads w -> piped rds n (take (Z.to_nat (data_read x)) d)) ->
  bs `prefix_of` offered (rds (pred (nreads w))) -> (0 < nreads w)%nat -> wr d (data_read x) bs = Ok d' ->
  upd_pipe i (fun x => with_chunk (with_data (Some d') (chunk x)) x) w = Ok (u, w') ->
  arrived i (Z.of_nat (length bs)) w'.
Proof.
  intros Hw (s & Hs & ->) Hd Hp Hb Hn Ewr [= _ <-]. destruct (sending_stream w i s Hw Hs) as [Hk [Hc Hx]].
  destruct (Hx d Hd) as (Hl & Hr & Hf). destruct (take_wr _ _ _ _ Ewr Hr) as [T1 T2].
  split.
  - apply sending_alter; [done|]. intros s' Hs'. assert (s' = s) as -> by congruence. split; [done|].
    split; [intros _; apply Hc; by rewrite Hd|].
    simpl. intros d0 [= <-]. rewrite (wr_length _ _ _ _ Ewr), T1. done.
  - simpl. intros s' d0. rewrite list_lookup_alter_eq, Hs. intros [= <-] [= <-]. simpl. split; [lia|]. rewrite T2.
    destruct (nreads w) as [|n]; [lia|]. by apply piped_snoc; [apply Hp|].
Qed.

Lemma sd_received i c l n w r a w' : I w ->
  r = match reads w (nreads w) with ReadError => ReadError | ReadBytes b => ReadBytes (take (Z.to_nat n) b) end ->
  pipe_received i c l r (readtick w) = Ok (a, w') -> I w'.
Proof.
  intros Hw Er%eq_sym E. assert (I (readtick w)) as Hw1 by (eapply sending_quiet, Hw; quietly).
  unfold pipe_received in E. apply M_bind_inv in E as (x & w2 & [-> (s & Hs & Hx)]%the_pipe_inv & E).
  apply M_bind_inv in E as (b & w2 & [= <- <-] & E).
  destruct r as [|[|b0 bs]]; [by injection E as _ <-| |].
  { eapply (sd_keep_pipe i (with_state IDLE)), E; [by auto|done]. }
  destruct (data (chunk x)) as [d|] eqn:Hd; [|by injection E as _ <-].
  apply M_bind_inv in E as (d' & w2 & [Ewr ->]%lift_inv & E). apply M_bind_inv in E as ([] & w2 & E1 & E).
  eapply arrives in E1; [|exact Hw1|by exists s|exact Hd| | |simpl; lia|exact Ewr].
  2: { intros m [= ->]. subst x. destruct (sending_stream w i s Hw Hs) as [_ [_ Hf]].
       by destruct (Hf d Hd) as (_ & _ & ?). }
  2: { simpl. rewrite (se_reads _ _ Hw) in Er. destruct (rds (nreads w)) as [|b']; [done|].
       injection Er as Er. rewrite <- Er. apply prefix_take. }
  revert E. case_decide.
  - intros (t & w3 & [_ ->]%lift_inv & E)%M_bind_inv. apply M_bind_inv in E as ([] & w3 & E2 & E).
    eapply sd_count in E2; [|exact E1|done]. eapply preserves_bind, E; [apply sd_post|intros ?; cbv beta; preserve|exact E2].
  - intros ([] & w3 & E2 & E)%M_bind_inv. eapply sd_count in E2; [|exact E1|done].
    eapply preserves_bind, E; [apply sd_reschedule|intros ?; cbv beta; preserve|exact E2].
Qed.

(** The chunk of pipe [i] is complete and has not been encoded yet. *)
Definition complete (i : nat) (ss : list (stream Dec Enc)) : Prop :=
  forall s raw, ss !! i = Some s -> data (chunk (inputpipe s)) = Some raw ->
    data_read (inputpipe s) = 0 /\ size (chunk (inputpipe s)) = Z.of_nat (length raw) /\
    exists n, piped rds n raw.

(** The chunk with its play time and format. *)
Definition finished (play_at : timespec) (x : inputpipe_ctx) : inputpipe_ctx :=
  with_data_read 0 (with_chunk
    (mkChunk (u32 (tv_sec play_at)) (u32 (tv_nsec play_at)) (u32 (ip_samples x)) (u8 (samplesize x))
       (u8 (ip_channels x)) (u16 (data_read x)) CODEC_PCM (data (chunk x))) x).

Lemma timed_inv (b : bool) (z z' : Z) (m m' : res timespec) (k : Z * timespec -> M W Z) w r w' :
  ((if b then p ← lift m; mret (z, p) else p ← lift m'; mret (z', p)) ≫= k) w = Ok (r, w') ->
  exists ret p, k (ret, p) w = Ok (r, w').
Proof.
  intros ([ret p] & w1 & E1 & E)%M_bind_inv. exists ret, p. enough (w1 = w) as <- by exact E.
  by destruct b; apply M_bind_inv in E1 as (? & ? & [_ ->]%lift_inv & [= _ _ <-]).
Qed.

Lemma finish_inv i c w r w' : finish_chunk i c w = Ok (r, w') ->
  r = 0 /\ w' = w \/
  exists s p, streams w !! i = Some s /\ chunksize (inputpipe s) = data_read (inputpipe s) /\
    w' = set_streams (alter (on_pipe (finished p)) i (streams w)) w.
Proof.
  unfold finish_chunk. intros (x & w1 & [-> (s & Hs & ->)]%the_pipe_inv & E)%M_bind_inv.
  destruct (is_chunk_complete (inputpipe s)) eqn:Ec; [|injection E as <- <-; by left]. right.
  apply timed_inv in E as (ret & p & ([] & w2 & ->%upd_pipe_inv & [= _ <-])%M_bind_inv). exists s, p.
  split; [done|]. split; [|done]. by apply Z.eqb_eq.
Qed.

Lemma sd_finish i c w r w' : I w -> finish_chunk i c w = Ok (r, w') ->
  I w' /\ (0 < r -> complete i (streams w')).
Proof.
  intros Hw [[-> ->]|(s & p & Hs & Ec & ->)]%finish_inv; [split; [done|lia]|].
  destruct (sending_stream w i s Hw Hs) as [Hk [Hc Hx]]. split.
  - apply sending_alter; [done|]. intros s' Hs'. assert (s' = s) as -> by congruence. split; [done|].
    eapply filled_same; [..|by split]; [done|done|by right].
  - intros _ s' raw. cbn [streams set_streams]. rewrite list_lookup_alter_eq, Hs. intros [= <-] Hraw.
    destruct (Hx raw Hraw) as (Hl & _ & Hp). specialize (Hc (ex_intro _ raw Hraw)). rewrite Ec in *. rewrite take_ge in Hp by lia.
    split; [done|]. split; [|by eexists]. simpl. rewrite u16_small by lia. lia.
Qed.

Lemma sd_handle i w r w' : I w -> inputpipe_handle i w = Ok (r, w') -> I w' /\ (0 < r -> complete i (streams w')).
Proof.
  intros Hw [[-> ->]|(s & ct & lc & rd & w1 & u & w2 & Hs & -> & Hrd & E1 & E2)]%handle_inv.
  - split; [|lia]. eapply sending_quiet, Hw. quietly.
  - eapply sd_finish, E2. eapply (sd_received _ _ _ _ (ssystick w)), E1; [|exact Hrd].
    eapply sending_quiet, Hw. quietly.
Qed.

(** *** Clients *)

Lemma sd_the_client i j : preserves I (the_client i j). Proof. keep @the_client. Qed.
Lemma sd_find_client cid : preserves I (find_client cid). Proof. keep @find_client. Qed.
#[local] Hint Resolve sd_the_client sd_find_client : preserve.
Lemma sd_stream_find cid : preserves I (stream_find cid). Proof. keep @stream_find. Qed.
#[local] Hint Resolve sd_stream_find : preserve.

Lemma sd_command {A} (r : res bytes) (k : bytes -> M W A) :
  (forall p, r = Ok p -> preserves I (k p)) -> preserves I (lift r ≫= k).
Proof. intros Hk w a w' Hw (p & w1 & [E ->]%lift_inv & E2)%M_bind_inv. by eapply Hk. Qed.

Lemma sd_stop c : preserves I (intercom_stop_client c).
Proof. apply sd_command. intros p E. apply sd_send. by right; right. Qed.
Lemma sd_volume c v : preserves I (clientmgr_client_refreshvolume c v).
Proof. apply sd_command. intros p E. apply sd_send. right. left. by eexists. Qed.
#[local] Hint Resolve sd_stop sd_volume : preserve.

(** What is known of a stream when it is read. *)
Lemma sd_with_stream {A} i (k : stream Dec Enc -> M W A) :
  (forall s, Forall (kept rds) (packet_buffer s) -> preserves I (k s)) -> preserves I (the_stream i ≫= k).
Proof.
  intros Hk w a w' Hw (s & w1 & [-> Hs]%the_stream_inv & E)%M_bind_inv. eapply Hk, E; [|done].
  by destruct (sending_stream w i s Hw Hs).
Qed.

Lemma sd_replay r ap port : kept rds ap ->
  preserves I (match ap_data ap with
               | None => fail NullDeref
               | Some d => p ← lift (rd d 0 (Z.to_nat (ap_len ap))); send_unicast r p port
               end : M W unit).
Proof.
  intros Hap. destruct (ap_data ap) as [d|] eqn:Ed; [|preserve]. apply sd_command. intros p E.
  by eapply sd_send, kept_genuine.
Qed.

Lemma sd_buffer c : preserves I (clientmgr_send_audio_buffer_to_client c).
Proof.
  unfold clientmgr_send_audio_buffer_to_client. apply preserves_bind; [preserve|]. intros [i|]; [|preserve].
  apply sd_with_stream. intros s Hs. induction Hs as [|ap l Hap _ IH]; cbn [mfor]; [preserve|].
  apply preserves_bind; [by apply sd_replay|]. intros _. exact IH.
Qed.
#[local] Hint Resolve sd_buffer : preserve.
Lemma sd_setmute i j m : preserves I (clientmgr_client_setmute i j m). Proof. keep @clientmgr_client_setmute. Qed.
Lemma sd_stop_clients i : preserves I (clientmgr_stop_clients i). Proof. keep @clientmgr_stop_clients. Qed.
Lemma sd_new_client cid host port : preserves I (new_client cid host port). Proof. keep @new_client. Qed.
Lemma sd_client_add i c : preserves I (stream_client_add i c). Proof. keep @stream_client_add. Qed.
Lemma sd_client_remove i j : preserves I (stream_client_remove i j). Proof. keep @stream_client_remove. Qed.
#[local] Hint Resolve sd_setmute sd_stop_clients sd_new_client sd_client_add sd_client_remove : preserve.
Lemma sd_delete_internal r : preserves I (delete_client_internal r). Proof. keep @delete_client_internal. Qed.
#[local] Hint Resolve sd_delete_internal : preserve.
Lemma sd_delete cid : preserves I (clientmgr_delete_client cid). Proof. keep @clientmgr_delete_client. Qed.
Lemma sd_stream_init : preserves I (upd_stream 0 stream_init).
Proof. apply sd_upd_stream. intros n s [_ ?]. split; [constructor|done]. Qed.
#[local] Hint Resolve sd_delete sd_stream_init : preserve.
Lemma sd_register c : preserves I (register_client c). Proof. keep @register_client. Qed.
#[local] Hint Resolve sd_register : preserve.
Lemma sd_refresh c : preserves I (clientmgr_refresh_client c). Proof. keep @clientmgr_refresh_client. Qed.
Lemma sd_move i j n : preserves I (move_client i j n). Proof. keep @move_client. Qed.
#[local] Hint Resolve sd_refresh sd_move : preserve.

(** *** Audio *)

Lemma sd_remove_old i : preserves I (remove_old_audiodata_task i).
Proof.
  unfold remove_old_audiodata_task. apply sd_with_stream. intros s Hs. destruct (_ || _); [preserve|].
  apply preserves_bind; [preserve|intros t]. apply preserves_bind; [preserve|intros b].
  intros w a w' Hw (l & w1 & [E ->]%lift_inv & E2)%M_bind_inv.
  eapply sd_upd_stream, E2; [|exact Hw]. intros n s' [_ ?]. split; [by eapply drop_old_kept|done].
Qed.

Lemma stop_clients_streams i w u w' : clientmgr_stop_clients i w = Ok (u, w') -> streams w' = streams w.
Proof.
  assert (preserves (fun w' => streams w' = streams w) (clientmgr_stop_clients i)) as Hp; [|by apply Hp].
  assert (forall r p port, preserves (fun w' => streams w' = streams w) (send_unicast r p port)) as Hs
    by (intros r p port w1 u1 w2 Hw [= _ <-]; exact Hw).
  assert (preserves (fun w' => streams w' = streams w) (the_stream i)) as Ht
    by (intros w1 u1 w2 Hw [-> _]%the_stream_inv; exact Hw).
  unfold clientmgr_stop_clients, intercom_stop_client. preserve.
Qed.

Lemma encode_from_pipes w i u w' : I w -> complete i (streams w) -> encode_chunk i w = Ok (u, w') ->
  I w' /\ forall s, streams w' !! i = Some s -> from_pipes rds (chunk (inputpipe s)).
Proof.
  intros Hw Hfull E. unfold encode_chunk in E. apply M_bind_inv in E as (s0 & w1 & [-> Hs]%the_stream_inv & E).
  apply M_bind_inv in E as (m & w1 & [= <- <-] & E). apply M_bind_inv in E as ([c ctx] & w1 & [Ee ->]%lift_inv & [= _ <-]).
  destruct (sending_stream w i s0 Hw Hs) as [Hk [Hc Hx]]. rewrite (se_mtu _ _ Hw) in Ee. revert Ee.
  unfold encode_opus_handle. intros (f & Ef & Ee)%res_bind_inv. apply res_bind_inv in Ee as (frames & Efr & Ee).
  destruct (encoder (opus s0)) as [enc|]; [|done]. destruct (data (chunk (inputpipe s0))) as [d|] eqn:Ed; [|done].
  destruct (Hfull s0 d Hs Ed) as (Hread & Hsize & n & Hp).
  destruct (opus_encode enc d frames _ (mss (opus s0))) as [[nb out'] enc'] eqn:Eo.
  pose proof Eo as Hout. apply opus_encode_length in Hout. destruct (Z.ltb_spec nb 0) as [|Hnb]; [done|].
  apply res_bind_inv in Ee as (e & He & Ee). apply res_bind_inv in Ee as (d' & Ewr & [= <- _]).
  pose proof (rd_length _ _ _ _ He) as Hle. rewrite Hout in Hle. pose proof (length_zeros (1500 - 10) ltac:(lia)).
  assert (e = take (Z.to_nat nb) out') as -> by (rewrite rd_fits in He by lia; by injection He as <-).
  split.
  - apply sending_alter; [done|]. intros s Hs'. assert (s = s0) as -> by congruence. split; [done|].
    split; [intros _; apply Hc; by eexists|]. simpl. intros d0 [= <-]. rewrite (wr_length _ _ _ _ Ewr), Hread, take_0. destruct (Hx d eq_refl) as [? _].
    split_and!; [done|lia|apply piped_nil].
  - intros s. simpl. rewrite list_lookup_alter_eq, Hs. intros [= <-]. simpl.
    assert (forall a b q, cdiv a b = Ok q -> b <> 0 /\ q = Z.quot a b) as Hdiv.
    { intros a b q. unfold cdiv. destruct (Z.eqb_spec b 0); [done|]. by intros [= <-]. }
    apply Hdiv in Ef as [? ->]. apply Hdiv in Efr as [? ->]. rewrite Hsize in Eo.
    exists n, d, enc. do 3 eexists. exists nb, out', enc'. split; [exact Hp|]. split; [exact Eo|]. simpl.
    rewrite u16_small by lia. split_and!; [done..|lia|lia|done|done|].
    destruct (take_wr _ _ _ _ Ewr) as [_ T]; [lia|]. simpl. f_equal.
    rewrite Z.add_0_l, Nat2Z.id, length_take, Nat.min_l, take_0 in T by lia. exact T.
Qed.

Lemma sd_send_all (cs : list (nat * sclient)) p : genuine rds p ->
  preserves I (mfor cs (fun c => if muted c.2 then skip else send_unicast (ip c.2) p (cport c.2)) : M W unit).
Proof. intros Hp. pose proof (fun r port => sd_send r p port Hp). preserve. Qed.

Lemma from_pipes_size ch : from_pipes rds ch -> 0 <= size ch < 60000.
Proof. intros (n & raw & enc & fr & out & m & nb & out' & enc' & _ & _ & _ & Hnb & -> & _). exact Hnb. Qed.

Lemma sd_send_audio w i u w' : I w -> (forall s, streams w !! i = Some s -> from_pipes rds (chunk (inputpipe s))) ->
  intercom_send_audio i w = Ok (u, w') -> I w'.
Proof.
  intros Hw Hrec E. unfold intercom_send_audio in E. apply M_bind_inv in E as (s & w1 & [-> Hs]%the_stream_inv & E).
  specialize (Hrec s Hs). pose proof (from_pipes_size _ Hrec) as Hsize. apply M_bind_inv in E as (b & w1 & [= <- <-] & E).
  apply M_bind_inv in E as ([[p len] k] & w1 & [Ea ->]%lift_inv & E).
  apply M_bind_inv in E as (h & w1 & [Eh ->]%lift_inv & E).
  destruct (assemble_wire _ _ _ _ _ _ Ea) as (Hlen & Hp & _); [lia|].
  assert (packet_of (chunk (inputpipe s)) (nonce s mod NONCE_MAX) p) as Hpk by (split; [done|]; by eexists _, _, _, _).
  assert (kept rds (mkAp (Some p) (u16 len) (ntohl (hnonce h)))) as Hk.
  { eexists _, _, _. split; [done|]. split; [exact Hrec|]. split; [exact Hpk|]. simpl. rewrite u16_small; lia. }
  apply M_bind_inv in E as ([] & w1 & E1 & E). eapply sd_upd_stream in E1; [| |exact Hw].
  2: { intros n s' [Hs' ?]. split; [|done]. simpl. apply Forall_app. split; [done|]. by apply Forall_singleton. }
  apply M_bind_inv in E as (a & w2 & E2 & E). eapply sd_post in E2; [|exact E1].
  apply M_bind_inv in E as (s2 & w3 & [-> _]%the_stream_inv & E). eapply sd_send_all, E; [|exact E2].
  left. by eexists _, _.
Qed.
#[local] Hint Resolve sd_remove_old : preserve.

Lemma sd_throttle i : preserves I
  (x ← the_pipe i; del_fd (fd x) ;; upd_pipe i (with_state THROTTLE) ;;
   t ← post_task (Z.quot (read_ms x) 1000) (Z.rem (read_ms x) 1000) (ResumeRead i);
   upd_pipe i (with_resume (Some t))).
Proof. preserve. Qed.

Lemma sd_chunk i (ret : Z) w u w' : I w -> (0 < ret -> complete i (streams w)) ->
  (if ret >? 0 then (if ret =? 2 then clientmgr_stop_clients i else skip) ;; encode_chunk i ;; intercom_send_audio i
   else skip) w = Ok (u, w') -> I w'.
Proof.
  intros Hw Hfull. destruct (Z.gtb_spec ret 0) as [Hr|]; [|by intros [= _ <-]]. specialize (Hfull Hr).
  intros ([] & w2 & E2 & E)%M_bind_inv. apply M_bind_inv in E as ([] & w3 & E3 & E4).
  assert (I w2 /\ complete i (streams w2)) as [Hw2 Hc2].
  { destruct (ret =? 2); [|by injection E2 as <-]. split; [by eapply sd_stop_clients|].
    by rewrite (stop_clients_streams _ _ _ _ E2). }
  eapply encode_from_pipes in E3 as [Hw3 Hrec]; [|done..]. by eapply sd_send_audio.
Qed.

Lemma sd_pipe_event i : preserves I (srv_pipe_event i).
Proof.
  intros w a w' Hw. unfold srv_pipe_event. intros E. apply M_bind_inv in E as (ret & w1 & E1 & E2).
  destruct (sd_handle i w ret w1 Hw E1) as [Hw1 Hfull]. revert E2.
  destruct (ret =? -1); [by apply sd_throttle|]. by apply sd_chunk.
Qed.
Lemma sd_hangup i : preserves I (srv_pipe_hangup i). Proof. keep @srv_pipe_hangup. Qed.
#[local] Hint Resolve sd_pipe_event sd_hangup : preserve.

(** *** The network *)

Lemma sd_request_segment p o peer port : preserves I (handle_request_segment p o peer port).
Proof.
  unfold handle_request_segment. apply preserves_bind; [preserve|intros h].
  apply preserves_bind; [preserve|intros r]. apply preserves_bind; [preserve|intros [n l]].
  apply preserves_bind; [|preserve]. destruct r as [[i j]|]; [|preserve]. apply sd_with_stream. intros s Hs.
  destruct (lsearch (ap_key n) (packet_buffer s)) as [[k ap]|] eqn:El; [|preserve]. apply sd_replay.
  unfold lsearch in El. apply list_find_Some in El as (Hk & _). exact (proj1 (Forall_lookup _ _) Hs k ap Hk).
Qed.
Lemma sd_hello_segment p o peer port : preserves I (handle_hello_segment p o peer port).
Proof. keep @handle_hello_segment. Qed.
#[local] Hint Resolve sd_request_segment sd_hello_segment : preserve.
Lemma sd_cop_loop fuel p len off peer port : preserves I (cop_loop fuel p len off peer port).
Proof. revert off. induction fuel as [|fuel IH]; intros off; cbn [cop_loop]; preserve. Qed.
#[local] Hint Resolve sd_cop_loop : preserve.
Lemma sd_packet fuel p len peer port : preserves I (srv_handle_packet fuel p len peer port).
Proof. unfold srv_handle_packet. keep @intercom_handle_client_operation. Qed.
#[local] Hint Resolve sd_packet : preserve.
Lemma sd_handle_in rs : preserves I (srv_handle_in rs : M W unit).
Proof. induction rs as [|[|buf count peer port] rs IH]; cbn [srv_handle_in]; preserve. Qed.
#[local] Hint Resolve sd_handle_in : preserve.

(** *** Control requests *)

Lemma sd_print fd (o : J) : preserves I (json_object_print_and_put fd o).
Proof. keep @json_object_print_and_put. Qed.
Lemma sd_find_name n : preserves I (stream_find_name n). Proof. keep @stream_find_name. Qed.
Lemma sd_find_fd f : preserves I (stream_find_fd f). Proof. keep @stream_find_fd. Qed.
Lemma sd_apply (v : volume_request) : preserves I (apply_volume (J := J) v). Proof. keep @apply_volume. Qed.
#[local] Hint Resolve sd_print sd_find_name sd_find_fd sd_apply : preserve.
Lemma sd_setstream_params (ps : list (parameter J)) c n : preserves I (setstream_params ps c n).
Proof. revert c n. induction ps as [|p ps IH]; intros c n; cbn [setstream_params]; preserve. Qed.
Lemma sd_setvolume_params (ps : list (parameter J)) v : preserves I (setvolume_params ps v).
Proof. revert v. induction ps as [|p ps IH]; intros v; cbn [setvolume_params]; preserve. Qed.
Lemma sd_get_client f : preserves I (socket_get_client f : M W _). Proof. keep @socket_get_client. Qed.
#[local] Hint Resolve sd_setstream_params sd_setvolume_params sd_get_client : preserve.
Lemma sd_request (r : jsonrpc_request J) fd : preserves I (handle_request r fd).
Proof.
  unfold handle_request, handle_GetRPCVersion, handle_client_setstream, handle_client_setvolume,
    handle_server_getstatus. preserve.
Qed.
#[local] Hint Resolve sd_request : preserve.
Lemma sd_line sc : preserves I (handle_line (J := J) sc). Proof. keep @handle_line. Qed.
Lemma sd_sock_remove k : preserves I (socket_client_remove k : M W unit). Proof. keep @socket_client_remove. Qed.
#[local] Hint Resolve sd_line sd_sock_remove : preserve.
Lemma sd_handle_client k r : preserves I (socket_handle_client (J := J) k r).
Proof. unfold socket_handle_client. keep @upd_sock. Qed.
Lemma sd_close k fd : preserves I (close_socket k fd : M W unit). Proof. keep @close_socket. Qed.
Lemma sd_accept n : preserves I (handle_accept n : M W unit).
Proof. unfold handle_accept. keep @socket_handle_in. Qed.
#[local] Hint Resolve sd_handle_client sd_close sd_accept : preserve.
Lemma sd_socket k fd r : preserves I (handle_socket (J := J) k fd r). Proof. keep @handle_socket. Qed.
Lemma sd_error fd : preserves I (handle_error_event fd : M W unit). Proof. keep @handle_error_event. Qed.
#[local] Hint Resolve sd_socket sd_error : preserve.

(** *** The main loop *)

Lemma sd_stask t : preserves I (run_stask t). Proof. destruct t; simpl; preserve. Qed.

Lemma sd_apart : apart_from_sched I.
Proof. intros s w Hw. by eapply sending_quiet, Hw. Qed.

Lemma sd_timer fuel : preserves (fun w => I w /\ sched_armed w) (srv_timer_event fuel : M W unit).
Proof.
  exact (run_keeps (HasSched0 := server_sched) I run_stask stask_cleanup fuel sd_apart
    (keeps_stask I sd_stask) (keeps_cleanup I)).
Qed.

Lemma sd_event fds fuel e : preserves (fun w => I w /\ sched_armed w) (handle_event (J := J) fds fuel e).
Proof.
  intros w a w' [Hw Hs] E. split; [|by eapply (armed_event (J := J))]. revert E. unfold handle_event.
  intros (p & w1 & [= <- <-] & E)%M_bind_inv. apply M_bind_inv in E as (k & w1 & [= <- <-] & E).
  revert E. generalize (fst <$> last (filter (fun r => fd (inputpipe r.2) = ev_fd e) (imap pair (streams w)))) as q.
  intros q E. revert E.
  assert (forall (m : M W unit), preserves I m -> (m ;; mret true) w = Ok (a, w') -> I w') as Hm.
  { intros m Hm ([] & w1 & E1 & [= _ <-])%M_bind_inv. by eapply Hm. }
  destruct (ev_error e); [apply Hm, sd_error|].
  destruct (_ && _); [intros ([] & w1 & E1 & [= _ <-])%M_bind_inv; by eapply sd_timer|].
  repeat (match goal with |- (if ?b then _ else _) _ = _ -> _ => destruct b end; [apply Hm; preserve|]).
  by intros [= _ <-].
Qed.
End sending.
