(* ===== verification/TaskSafety.v ===== *)
(** * The server does not use a task that was freed

    [tasks_ok] - the ids of the clients are unique and all pointers to tasks
    are good (Pointers.v) - is kept by every handler, and no handler that starts
    in such a state accesses a task that was freed, as long as the pipes are read
    only when there is something to read.  [end_of_file_run] shows that this is
    needed, and [end_of_file_crash] what happens otherwise. *)
From Stdlib Require Import Ascii String.
From S2P Require Import Prelude.
From S2P Require Import Timespec.
From S2P Require Import Bytes.
From S2P Require Import PcmChunk.
From S2P Require Import TaskHeap.
From S2P Require Import TaskSched.
From S2P Require Import Invariant.
From S2P Require Import Safety.
From S2P Require Import Intercom.
From S2P Require Import ServerState.
From S2P Require Import InputPipe.
From S2P Require Import ClientMgr.
From S2P Require Import IntercomSrv.
From S2P Require Import CString.
From S2P Require Import JsonRpc.
From S2P Require Import Util.
From S2P Require Import Control.
From S2P Require Import Stream.
From S2P Require Import ServerLoop.
From S2P Require Import ServerInv.
From S2P Require Import ServerProofs.
From S2P Require Import Pointers.
From S2P Require Import PipeInv.
From S2P Require Import ServerMain.
From S2P Require Import ServerClients.

(** ** Pure functions *)

Lemma rd_never b o n : never UseAfterFree (rd b o n).
Proof. unfold rd. by destruct (_ && _). Qed.
Lemma wr_never b o v : never UseAfterFree (wr b o v).
Proof. unfold wr. by destruct (_ && _). Qed.
Lemma cdiv_never a b : never UseAfterFree (cdiv a b).
Proof. unfold cdiv. by destruct (_ =? _). Qed.
#[local] Hint Resolve rd_never wr_never cdiv_never : never.
Lemma rd8_never b o : never UseAfterFree (rd8 b o). Proof. unfold rd8. never. Qed.
Lemma rd16_never b o : never UseAfterFree (rd16 b o). Proof. unfold rd16. never. Qed.
Lemma rd32_never b o : never UseAfterFree (rd32 b o). Proof. unfold rd32. never. Qed.
Lemma wr8_never b o x : never UseAfterFree (wr8 b o x). Proof. unfold wr8. never. Qed.
Lemma wr16_never b o x : never UseAfterFree (wr16 b o x). Proof. unfold wr16. never. Qed.
Lemma wr32_never b o x : never UseAfterFree (wr32 b o x). Proof. unfold wr32. never. Qed.
#[local] Hint Resolve rd8_never rd16_never rd32_never wr8_never wr16_never wr32_never : never.
Lemma hdr_at_never b : never UseAfterFree (hdr_at b). Proof. unfold hdr_at. never. Qed.
Lemma chunk_at_never b o : never UseAfterFree (chunk_at b o). Proof. unfold chunk_at. never. Qed.
Lemma value_string_never {J} (v : value J) : never UseAfterFree (value_string v). Proof. by destruct v. Qed.
#[local] Hint Resolve hdr_at_never chunk_at_never value_string_never : never.
Lemma parse_request_never b o : never UseAfterFree (parse_request b o). Proof. unfold parse_request. never. Qed.
Lemma parse_hello_never b o : never UseAfterFree (parse_hello b o). Proof. unfold parse_hello. never. Qed.
Lemma drop_old_never age l : never UseAfterFree (drop_old_packets age l).
Proof. induction l as [|ap l IH]; cbn [drop_old_packets]; never. Qed.
Lemma volume_packet_never v : never UseAfterFree (volume_packet v). Proof. unfold volume_packet, assemble_volume. never. Qed.
Lemma stop_packet_never : never UseAfterFree stop_packet. Proof. unfold stop_packet, assemble_stop. never. Qed.
Lemma assemble_audio_never c n b : never UseAfterFree (assemble_audio c n b). Proof. unfold assemble_audio, assemble32, assemble16. never. Qed.
Lemma encode_never {Dec Enc} `{!OpusLib Dec Enc} m ctx c : never UseAfterFree (encode_opus_handle m ctx c).
Proof. unfold encode_opus_handle. never. Qed.
#[local] Hint Resolve parse_request_never parse_hello_never drop_old_never volume_packet_never stop_packet_never
  assemble_audio_never encode_never : never.

Section safety.
Context {Q Dec Enc J : Type}
  `{!TimerQueue Q, !TimerQueueLaws Q, !OpusLib Dec Enc, !JsonLib J, !HostLib, !UnionLib J}.
Abbreviation W := (server Q Dec Enc).
Implicit Types (w : W).

(** A use of freed memory is only allowed to the parser of the requests. *)
Definition allowed (f : fault) : Prop :=
  f = UseAfterFree -> exists text, jsonrpc_parse_string (J := J) text = Fault UseAfterFree.

Lemma allowed_other f : f <> UseAfterFree -> allowed f.
Proof. by intros Hf ->. Qed.
Let HF := allowed_other.

Lemma safe_pure {A} (I : W -> Prop) (r : res A) : never UseAfterFree r -> safe allowed I (lift r : M W A).
Proof. intros Hr. apply safe_lift. intros f ->. apply HF. by intros ->. Qed.
Lemma wp_pure {A} (r : res A) (K : A -> W -> Prop) w : never UseAfterFree r -> (forall a, r = Ok a -> K a w) ->
  wp allowed (lift r) K w.
Proof. intros Hr. apply wp_lift. intros f ->. apply HF. by intros ->. Qed.
Lemma safe_fault {A} (I : W -> Prop) f : f <> UseAfterFree -> safe allowed I (fail f : M W A).
Proof. intros Hf. by apply safe_fail, HF. Qed.
#[local] Hint Extern 1 (safe _ _ (lift _)) => solve [apply safe_pure; eauto 2 with never nocore] : safe.
#[local] Hint Extern 1 (safe _ _ (fail _)) => by apply safe_fault : safe.

(** *** Handlers that leave the pointers alone *)

(** An invariant of the views and the functions of the tasks, that posting a
    task keeps. *)
Record task_invariant (I : W -> Prop) : Prop := {
  ti_same : forall w w', same w w' -> I w -> I w';
  ti_post : forall timeout ms t, (forall i, t <> SetIdle i) -> safe allowed I (post_task timeout ms t);
}.

Section invariant.
Context (I : W -> Prop) (HI : task_invariant I).

Lemma safe_step {A} (m : M W A) : (forall w, wp allowed m (fun _ => same w) w) -> safe allowed I m.
Proof. intros Hm w Hw. eapply wp_mono; [apply Hm|]. intros a w' _ Hs. exact (ti_same _ HI w w' Hs Hw). Qed.
Lemma safe_change f : (forall w, same w (f w)) -> safe allowed I (modify f).
Proof. intros Hf. apply safe_step. intros w. apply Hf. Qed.

Lemma same_refl w : same w w.
Proof. done. Qed.
Lemma safe_stream i : safe allowed I (the_stream i).
Proof. apply safe_step. intros w. by apply (stream_wp allowed HF). Qed.
Lemma safe_pipe i : safe allowed I (the_pipe i).
Proof. apply safe_step. intros w. by apply (pipe_wp allowed HF). Qed.
Lemma safe_upd_stream i f : (forall s, tview_of (f s) = tview_of s) -> safe allowed I (upd_stream i f).
Proof. intros Hf. apply safe_change. intros w. split; [|done]. by apply (fmap_alter_same tview_of). Qed.
Lemma safe_upd_pipe i f : (forall x, state (f x) = state x /\ resume_task (f x) = resume_task x /\ idle_task (f x) = idle_task x) ->
  safe allowed I (upd_pipe i f).
Proof. intros Hf. apply safe_upd_stream. intros s. unfold tview_of. simpl. by destruct (Hf (inputpipe s)) as (-> & -> & ->). Qed.
Lemma safe_upd_client i j f : (forall c, id (f c) = id c /\ purge_task (f c) = purge_task c) ->
  safe allowed I (upd_client i j f).
Proof.
  intros Hf. apply safe_upd_stream. intros s. unfold tview_of. simpl. f_equal.
  apply (fmap_alter_same (fun c => (id c, purge_task c))). intros c. by destruct (Hf c) as [-> ->].
Qed.
Lemma safe_send r p port : safe allowed I (send_unicast r p port).
Proof. by apply safe_change. Qed.
Lemma safe_time : safe allowed I sobtainsystime.
Proof. by apply safe_step. Qed.
Lemma safe_control f : safe allowed I (upd_control f : M W unit).
Proof. by apply safe_change. Qed.
Lemma safe_add f : safe allowed I (add_fd f : M W unit).
Proof. apply safe_step. intros w. by apply (add_fd_wp allowed HF). Qed.
Lemma safe_del f : safe allowed I (del_fd f : M W unit).
Proof. apply safe_step. intros w. by apply (del_fd_wp allowed HF). Qed.
Lemma safe_post timeout ms t : (forall i, t <> SetIdle i) -> safe allowed I (post_task timeout ms t).
Proof. apply (ti_post _ HI). Qed.

#[local] Hint Resolve safe_stream safe_pipe safe_send safe_time safe_control safe_add safe_del : safe.
#[local] Hint Extern 1 (safe _ _ (upd_client _ _ _)) => by apply safe_upd_client : safe.
#[local] Hint Extern 1 (safe _ _ (upd_stream _ _)) => by apply safe_upd_stream : safe.
#[local] Hint Extern 1 (safe _ _ (upd_pipe _ _)) => by apply safe_upd_pipe : safe.
#[local] Hint Extern 1 (safe _ _ (modify _)) => by apply safe_change : safe.
#[local] Hint Extern 1 (safe _ _ (post_task _ _ _)) => by apply safe_post : safe.

Lemma safe_find_client cid : safe allowed I (find_client cid). Proof. unfold find_client. safe. Qed.
#[local] Hint Resolve safe_find_client : safe.
Lemma safe_stream_find cid : safe allowed I (stream_find cid). Proof. unfold stream_find. safe. Qed.
Lemma safe_find_name n : safe allowed I (stream_find_name n). Proof. unfold stream_find_name. safe. Qed.
Lemma safe_the_client i j : safe allowed I (the_client i j). Proof. unfold the_client. safe. Qed.
Lemma safe_stop c : safe allowed I (intercom_stop_client c). Proof. unfold intercom_stop_client. safe. Qed.
Lemma safe_volume c v : safe allowed I (clientmgr_client_refreshvolume c v).
Proof. unfold clientmgr_client_refreshvolume, intercom_set_volume. safe. Qed.
#[local] Hint Resolve safe_stream_find safe_find_name safe_the_client safe_stop safe_volume : safe.
Lemma safe_buffer c : safe allowed I (clientmgr_send_audio_buffer_to_client c).
Proof. unfold clientmgr_send_audio_buffer_to_client. safe. Qed.
#[local] Hint Resolve safe_buffer : safe.
Lemma safe_setmute i j m : safe allowed I (clientmgr_client_setmute i j m).
Proof. unfold clientmgr_client_setmute. safe. Qed.
Lemma safe_stop_clients i : safe allowed I (clientmgr_stop_clients i). Proof. unfold clientmgr_stop_clients. safe. Qed.
Lemma safe_remove_old i : safe allowed I (remove_old_audiodata_task i).
Proof. unfold remove_old_audiodata_task. safe. Qed.
Lemma safe_send_audio i : safe allowed I (intercom_send_audio i). Proof. unfold intercom_send_audio. safe. Qed.
Lemma safe_encode i : safe allowed I (encode_chunk i). Proof. unfold encode_chunk. safe. Qed.
Lemma safe_request_segment p o peer port : safe allowed I (handle_request_segment p o peer port).
Proof. unfold handle_request_segment. safe. Qed.
Lemma safe_print fd (o : J) : safe allowed I (json_object_print_and_put fd o).
Proof. unfold json_object_print_and_put. safe. Qed.
#[local] Hint Resolve safe_setmute safe_print : safe.
Lemma safe_apply (v : volume_request) : safe allowed I (apply_volume (J := J) v). Proof. unfold apply_volume. safe. Qed.
Lemma safe_setstream_params (ps : list (parameter J)) c n : safe allowed I (setstream_params ps c n).
Proof. revert c n. induction ps as [|p ps IH]; intros c n; cbn [setstream_params]; safe. Qed.
Lemma safe_setvolume_params (ps : list (parameter J)) v : safe allowed I (setvolume_params ps v).
Proof. revert v. induction ps as [|p ps IH]; intros v; cbn [setvolume_params]; safe. Qed.
Lemma safe_finish i ct : safe allowed I (finish_chunk i ct). Proof. unfold finish_chunk. safe. Qed.
End invariant.

(** *** The invariant *)

Definition tasks_ok w : Prop := ids_ok w /\ pointers_ok w.

Lemma same_ids w w' : same w w' -> ids_ok w -> ids_ok w'.
Proof. intros [E _]. unfold ids_ok, ids. by rewrite !cids_tvs, E. Qed.

Lemma pointers_post t w a w' : pointers_ok w -> (forall i, t <> SetIdle i) -> only_sched w w' ->
  pend w !! a = None -> pend w' = <[a := t]> (pend w) -> pointers_ok w'.
Proof.
  intros (Hp & Ha & Hf) Ht Ho Hn Hw'. destruct (only_sched_tvs _ _ Ho) as [E _]. unfold pointers_ok. rewrite E.
  split; [|done]. eapply pointers_grow; [exact Hp| |].
  - rewrite Hw'. by apply insert_subseteq.
  - intros b i. rewrite Hw'. intros [[_ ?]|[_ Hb]]%lookup_insert_Some; [by eapply Ht|]. by apply (pt_no_idle _ _ Hp b i).
Qed.

Lemma pointers_invariant : task_invariant pointers_ok.
Proof.
  split; [apply pointers_same|]. intros timeout ms t Ht w Hw. apply (post_wp allowed HF).
  intros a w' Ho Hn Hw'. by eapply pointers_post.
Qed.

Lemma tasks_invariant : task_invariant tasks_ok.
Proof.
  split; [intros w w' Hs [H1 H2]; split; [by eapply same_ids|by eapply pointers_same]|].
  intros timeout ms t Ht w [Hi Hw]. apply (post_wp allowed HF). intros a w' Ho Hn Hw'. split; [|by eapply pointers_post].
  destruct (only_sched_tvs _ _ Ho) as [E _]. unfold ids_ok, ids in *. by rewrite cids_tvs, E, <- cids_tvs.
Qed.

#[local] Hint Resolve pointers_invariant tasks_invariant : core.
#[local] Hint Resolve pointers_invariant tasks_invariant safe_stream safe_pipe safe_send safe_time safe_control
  safe_add safe_del safe_find_client safe_stream_find safe_find_name safe_the_client safe_stop safe_volume
  safe_buffer safe_setmute safe_stop_clients safe_remove_old safe_send_audio safe_encode safe_request_segment
  safe_print safe_apply safe_setstream_params safe_setvolume_params safe_finish : safe.
#[local] Hint Extern 1 (safe _ _ (upd_client _ _ _)) => by apply safe_upd_client; auto with safe : safe.
#[local] Hint Extern 1 (safe _ _ (upd_pipe _ _)) => by apply safe_upd_pipe; auto with safe : safe.
#[local] Hint Extern 1 (safe _ _ (modify _)) => by apply safe_change; auto with safe : safe.

(** The rest of a handler keeps the invariant. *)
Lemma wp_safe {A} (I : W -> Prop) (m : M W A) w : safe allowed I m -> I w -> wp allowed m (fun _ => I) w.
Proof. intros Hm. apply Hm. Qed.

(** *** Deleting a client *)

Lemma without_ok i j w s : pointers_ok w -> streams w !! i = Some s ->
  before_hold i (<[i := without j (tview_of s)]> (tvs w)) (pend w).
Proof.
  intros (Hp & Ha & Hf) Hs. pose proof (tvs_lookup w i s Hs) as Hv. split_and!.
  - apply pointers_set; [done|by apply (pt_idle _ _ Hp i _ Hv)|intros a; by apply (pt_resume _ _ Hp i _ a Hv)|].
    intros cid p Hin. apply (pt_purge _ _ Hp i _ cid p Hv). simpl in *.
    eapply elem_of_submseteq; [exact Hin|]. apply sublist_submseteq, sublist_delete.
  - intros k v Hk [[-> _]|[_ Hv']]%lookup_set; [done|]. by apply (Ha k).
  - eapply first_init_set; [exact Hf|exact Hv|done|]. intros Hne. left. intros E. apply Hne. simpl in *. by rewrite E.
Qed.

(** Where ids are unique, the id of a client is gone with it. *)
Lemma without_ids i j w s c k u : ids_ok w -> streams w !! i = Some s -> clients s !! j = Some c ->
  <[i := without j (tview_of s)]> (tvs w) !! k = Some u -> id c ∉ fst <$> tv_clients u.
Proof.
  intros Hw Hs Hc Hu Hin. pose proof (concat_delete (cids w) i (ids_of s) j (id c)) as Hp.
  specialize (Hp (cids_stream _ _ _ Hs) ltac:(unfold ids_of; by rewrite list_lookup_fmap, Hc)).
  unfold ids_ok, ids in Hw. rewrite <- Hp in Hw. apply NoDup_cons in Hw as [Hnot _]. apply Hnot.
  apply list_elem_of_In, in_concat. exists (fst <$> tv_clients u). split; [|by apply list_elem_of_In].
  apply list_elem_of_In. apply (list_elem_of_lookup_2 _ k).
  assert (<[i:=delete j (ids_of s)]> (cids w) = (fun v => fst <$> tv_clients v) <$> <[i := without j (tview_of s)]> (tvs w)) as ->.
  { rewrite list_fmap_insert, <- cids_tvs. f_equal. simpl. rewrite list_fmap_delete, <- list_fmap_compose. done. }
  by rewrite list_lookup_fmap, Hu.
Qed.

Lemma client_purge w i s j c : pointers_ok w -> streams w !! i = Some s -> clients s !! j = Some c -> purged c w.
Proof.
  intros (Hp & _) Hs Hc. apply (pt_purge _ _ Hp i _ (id c) (purge_task c) (tvs_lookup w i s Hs)). simpl.
  apply list_elem_of_fmap. exists c. split; [done|]. by eapply list_elem_of_lookup_2.
Qed.

Lemma the_client_wp i j w (K : sclient -> W -> Prop) :
  (forall s c, streams w !! i = Some s -> clients s !! j = Some c -> K c w) -> wp allowed (the_client i j) K w.
Proof.
  intros HK. apply wp_bind, (stream_wp allowed HF). intros s Hs. destruct (clients s !! j) as [c|] eqn:Hc.
  - by eapply HK.
  - by apply HF.
Qed.

Lemma delete_internal_wp i j w (K : unit -> W -> Prop) : tasks_ok w ->
  (forall w', pointers_ok w' -> K tt w') -> wp allowed (delete_client_internal (Some (i, j))) K w.
Proof.
  intros [Hi Hw] HK. apply wp_bind, the_client_wp. intros s c Hs Hc.
  destruct (client_purge w i s j c Hw Hs Hc) as (a & -> & Ha). apply wp_bind, (drop_wp allowed); [by eexists|].
  intros w1 Ho Hpend. destruct (only_sched_tvs _ _ Ho) as [E1 E2]. apply (remove_wp allowed HF); [|done].
  intros s1 Hs1. rewrite E2, Hs in Hs1. injection Hs1 as <-. rewrite E1.
  destruct (without_ok i j w s Hw Hs) as (H1 & H2). split; [|exact H2].
  destruct Hpend as [-> | ->]; [exact H1|]. apply pointers_shrink; [exact H1|].
  eapply unreferenced_by; [exact H1|exact Ha|done|]. intros k u cid [= <-] Hu Hin.
  eapply (without_ids i j w s c k u); [done..|]. by apply (list_elem_of_fmap_2 fst) in Hin.
Qed.

Lemma delete_wp cid w (K : unit -> W -> Prop) : tasks_ok w ->
  (forall w', tasks_ok w' -> cid ∉ ids w' -> K tt w') -> wp allowed (clientmgr_delete_client cid) K w.
Proof.
  intros Hw HK. destruct (find_client_in (streams w) cid) as [[i j]|] eqn:Hf.
  - eapply wp_mono.
    + apply wp_bind. unfold find_client at 1. unfold gets at 1, wp at 1, mbind at 1, M_bind at 1, mret at 1, M_ret at 1.
      rewrite Hf. apply (delete_internal_wp i j w (fun _ => pointers_ok)); auto.
    + intros [] w' E Hp. destruct (delete_ids cid i j w tt w' (proj1 Hw) Hf E). by apply HK.
  - apply wp_bind. unfold find_client at 1. unfold gets at 1, wp at 1, mbind at 1, M_bind at 1, mret at 1, M_ret at 1.
    rewrite Hf. apply wp_skip, HK; [done|]. by apply find_client_none.
Qed.

(** *** Registering, refreshing and moving *)

Lemma new_client_wp cid host port w (K : sclient -> W -> Prop) : pointers_ok w ->
  (forall c w', pointers_ok w' -> purged c w' -> K c w') -> wp allowed (new_client cid host port) K w.
Proof.
  intros Hw HK. apply wp_bind. unfold gets at 1, wp at 1. apply wp_bind, (post_wp allowed HF).
  intros a w' Ho Hn Hw'. apply wp_ret, HK.
  { by apply (pointers_post (DeleteClient cid) w a). }
  exists a. split; [done|].
  rewrite Hw'. apply lookup_insert_eq.
Qed.

(** Initialising the first stream takes no client away: there is none yet. *)
Lemma stream_init_ok w s : pointers_ok w -> streams w !! 0%nat = Some s -> s_initialized s = false ->
  pointers_ok (set_streams (alter stream_init 0%nat (streams w)) w).
Proof.
  intros (Hp & Ha & Hf) Hs Hinit. pose proof (tvs_lookup w 0 s Hs) as Hv.
  pose proof (Hf _ 0%nat _ Hv Hinit Hv) as Hc. unfold pointers_ok. erewrite set_stream_tvs by exact Hs.
  change (pend _) with (pend w). split_and!.
  - apply pointers_set; [done|by apply (pt_idle _ _ Hp 0%nat _ Hv)|intros a Hr; exact (pt_resume _ _ Hp 0%nat _ a Hv Hr)|].
    intros cid p Hin. by apply not_elem_of_nil in Hin.
  - eapply active_set; [exact Ha|by left|]. intros Hst. by destruct (Ha 0%nat _ ltac:(done) Hv Hst).
  - by eapply first_init_set; [exact Hf|exact Hv|done|].
Qed.

Lemma register_wp c w (K : nat * nat -> W -> Prop) : pointers_ok w ->
  (forall r w', pointers_ok w' -> K r w') -> wp allowed (register_client c) K w.
Proof.
  intros Hw HK. apply wp_bind, new_client_wp; [done|]. clear w Hw. intros nc w Hw Hpurge.
  apply wp_bind, (stream_wp allowed HF). intros s Hs. apply wp_bind.
  assert (forall w1, pointers_ok w1 -> purged nc w1 -> (exists v, tvs w1 !! 0%nat = Some v /\ tv_init v = true) ->
    wp allowed (stream_client_add 0 nc ;;
      s ← the_stream 0;
      match get_client s (id c) with
      | None => fail NullDeref
      | Some j =>
          upd_client 0 j (with_volume (volume_percent c)) ;;
          c' ← the_client 0 j;
          clientmgr_send_audio_buffer_to_client c' ;;
          upd_client 0 j (fun c' => with_mac (made_up_mac (id c)) (with_protoversion 2 c')) ;;
          mret (0%nat, j)
      end) K w1) as Hrest.
  { intros w1 Hw1 Hp1 Hv1. apply wp_bind, (add_wp allowed HF); [done..|]. intros w2 Hw2.
    eapply wp_mono; [apply (wp_safe pointers_ok); [|exact Hw2]|intros; by apply HK]. safe. }
  destruct (s_initialized s) eqn:Hinit.
  - apply wp_skip, Hrest; [done..|]. exists (tview_of s). split; [by apply tvs_lookup|done].
  - apply upd_stream_wp, Hrest; [by eapply stream_init_ok|by destruct Hpurge as (a & ? & ?); exists a|].
    eexists. erewrite set_stream_tvs by exact Hs. rewrite list_lookup_insert_eq; [done|].
    eapply lookup_lt_Some. by apply tvs_lookup.
Qed.

Lemma refresh_pointers c w : tasks_ok w -> wp allowed (clientmgr_refresh_client c) (fun _ => pointers_ok) w.
Proof.
  intros Hw. apply wp_bind. unfold find_client at 1. unfold gets at 1, wp at 1, mbind at 1, M_bind at 1, mret at 1, M_ret at 1.
  apply wp_bind. unfold sobtainsystime at 1, wp at 1. set (w1 := ssystick w).
  assert (tasks_ok w1) as Hw1 by (by apply (ti_same _ tasks_invariant w)). apply wp_bind.
  assert (forall r w', pointers_ok w' -> wp allowed (let '(i, j) := r in
    upd_client i j (with_seen (ssysclk w (ssysticks w)) (latency c)) ;;
    c' ← the_client i j;
    (if is_roughly (volume_percent c) (volume_percent c') then skip
     else clientmgr_client_refreshvolume c' (volume_percent c')) ;;
    mret true) (fun _ => pointers_ok) w') as Hrest.
  { intros [i j] w' Hw'. apply (wp_safe pointers_ok); [|exact Hw']. safe. }
  destruct (find_client_in (streams w) (id c)) as [[i j]|].
  - apply wp_bind, the_client_wp. intros s c' Hs Hc'. destruct (negb _).
    + apply wp_bind, delete_wp; [done|]. intros w2 [_ Hw2] _. apply register_wp; [done|]. apply Hrest.
    + destruct (client_purge w1 i s j c' (proj2 Hw1) Hs Hc') as (a & Ea & Ha).
      apply wp_bind, (reschedule_wp allowed HF).
      * intros b Hb. rewrite Ea in Hb. injection Hb as <-. by eexists.
      * intros b w2 Ho Hpend. apply wp_ret. apply (Hrest (i, j)).
        destruct (only_sched_tvs _ _ Ho) as [E _]. eapply pointers_same; [by split|apply Hw1].
  - apply register_wp; [apply Hw1|]. apply Hrest.
Qed.

Lemma safe_refresh c : safe allowed tasks_ok (clientmgr_refresh_client c).
Proof.
  intros w Hw. eapply wp_mono; [by apply refresh_pointers|]. intros b w' E Hp. split; [|done].
  eapply refresh_ids; [apply Hw|exact E].
Qed.

(** There is a client: the first stream is initialised. *)
Lemma client_first w i s j c : pointers_ok w -> streams w !! i = Some s -> clients s !! j = Some c ->
  exists v, tvs w !! 0%nat = Some v /\ tv_init v = true.
Proof.
  intros (_ & _ & Hf) Hs Hc. pose proof (tvs_lookup w i s Hs) as Hv.
  destruct (lookup_lt_is_Some_2 (tvs w) 0) as [v Hv0]; [by apply lookup_lt_Some in Hv; lia|]. exists v. split; [done|].
  destruct (tv_init v) eqn:Hi; [done|]. pose proof (Hf v i _ Hv0 Hi Hv) as E. simpl in E. by destruct (clients s).
Qed.

Lemma move_pointers i j n w : pointers_ok w -> wp allowed (move_client i j n) (fun _ => pointers_ok) w.
Proof.
  intros Hw. apply wp_bind, the_client_wp. intros s c Hs Hc. apply wp_bind. eapply wp_mono.
  { apply (wp_safe pointers_ok); [safe|exact Hw]. }
  intros cur w1 E _. apply stream_find_inv in E as [_ ->]. apply wp_bind, (stream_wp allowed HF). intros cs _.
  apply wp_bind, (stream_wp allowed HF). intros ns _. destruct (negb _); [|by apply wp_ret].
  apply wp_bind. eapply wp_mono.
  { apply (wp_safe (fun w' => same w w')); [|apply same_refl]. unfold intercom_stop_client. apply safe_bind; [safe|].
    intros p w' [E1 E2]. done. }
  intros [] w1 _ Hsame. assert (pointers_ok w1) as Hw1 by (by eapply pointers_same).
  apply wp_bind, (add_wp allowed HF); [done| | |].
  - destruct (client_purge w i s j c Hw Hs Hc) as (a & Ea & Ha). exists a. split; [done|]. by destruct Hsame as [_ ->].
  - destruct Hsame as [-> _]. by eapply client_first.
  - intros w2 Hw2. apply wp_bind, (remove_wp allowed HF); [intros s2 Hs2; by apply without_ok|]. intros w3 Hw3.
    apply (wp_safe pointers_ok); [safe|exact Hw3].
Qed.

Lemma safe_move i j n : safe allowed tasks_ok (move_client i j n).
Proof.
  intros w [Hi Hw]. eapply wp_mono; [by apply move_pointers|]. intros b w' E Hp. split; [|done]. by eapply move_ids.
Qed.

(** *** Network: a hello may change what the invariant is about. *)

Section network.
Context (I : W -> Prop) (HI : task_invariant I) (Hrefresh : forall c, safe allowed I (clientmgr_refresh_client c)).

Lemma safe_hello p o peer port : safe allowed I (handle_hello_segment p o peer port).
Proof. unfold handle_hello_segment. safe. Qed.
#[local] Hint Resolve safe_hello : safe.
Lemma safe_cop fuel p l o peer port : safe allowed I (cop_loop fuel p l o peer port).
Proof. revert o. induction fuel as [|fuel IH]; intros o; cbn [cop_loop]; [by apply safe_fault|]. safe. Qed.
#[local] Hint Resolve safe_cop : safe.
Lemma safe_packet fuel p l peer port : safe allowed I (srv_handle_packet fuel p l peer port).
Proof. unfold srv_handle_packet, intercom_handle_client_operation. safe. Qed.
#[local] Hint Resolve safe_packet : safe.
Lemma safe_handle_in rs : safe allowed I (srv_handle_in rs).
Proof. induction rs as [|[|] rs IH]; cbn [srv_handle_in]; safe. Qed.
End network.

(** *** Control connections: a request may move a client. *)

Section control.
Context (I : W -> Prop) (HI : task_invariant I) (Hmove : forall i j n, safe allowed I (move_client i j n)).

Lemma safe_request (r : jsonrpc_request J) f : safe allowed I (handle_request r f).
Proof.
  unfold handle_request, handle_GetRPCVersion, handle_client_setstream, handle_client_setvolume,
    handle_server_getstatus. safe.
Qed.
#[local] Hint Resolve safe_request : safe.

(** The parser is the one that may use freed memory. *)
Lemma safe_line sc : safe allowed I (handle_line (J := J) sc).
Proof.
  unfold handle_line. cbv zeta. destruct (_ =? 0); [safe|]. apply safe_bind; [|safe].
  apply safe_lift. intros f Hf ->. by exists (cstr (line sc)).
Qed.
#[local] Hint Resolve safe_line : safe.
Lemma safe_upd_sock k sc : safe allowed I (upd_sock k sc : M W unit).
Proof. unfold upd_sock. safe. Qed.
#[local] Hint Resolve safe_upd_sock : safe.
Lemma safe_socket_client k r : safe allowed I (socket_handle_client (J := J) k r).
Proof. unfold socket_handle_client. safe. Qed.
#[local] Hint Resolve safe_socket_client : safe.
Lemma safe_close_socket k f : safe allowed I (close_socket k f : M W unit).
Proof. unfold close_socket, socket_client_remove. safe. Qed.
#[local] Hint Resolve safe_close_socket : safe.
Lemma safe_handle_socket k f r : safe allowed I (handle_socket (J := J) k f r).
Proof. unfold handle_socket. safe. Qed.
Lemma safe_accept a : safe allowed I (handle_accept a : M W unit).
Proof. unfold handle_accept, socket_handle_in. safe. Qed.
End control.

#[local] Hint Resolve safe_refresh safe_move safe_close_socket : safe.

(** *** Pipes *)

(** Pipe [i] is playing; handlers that leave the pointers alone keep it so. *)
Definition playing i w : Prop := pointers_ok w /\ forall v, tvs w !! i = Some v -> tv_state v = PLAYING.

Lemma playing_invariant i : task_invariant (playing i).
Proof.
  split.
  - intros w w' Hs [H1 H2]. split; [by eapply pointers_same|]. by destruct Hs as [-> _].
  - intros timeout ms t Ht w [Hw Hst]. apply (post_wp allowed HF). intros a w' Ho Hn Hw'. split.
    + by eapply pointers_post.
    + by destruct (only_sched_tvs _ _ Ho) as [-> _].
Qed.
#[local] Hint Resolve playing_invariant : core.
#[local] Hint Resolve playing_invariant : safe.

Lemma received_safe i ct lc r w : playing i w -> r <> ReadBytes [] ->
  wp allowed (pipe_received i ct lc r) (fun _ => playing i) w.
Proof.
  intros Hw Hr. apply wp_bind, (pipe_wp allowed HF). intros s Hs. apply wp_bind. unfold gets at 1, wp at 1.
  destruct r as [|[|y bs]]; [by apply wp_skip|done|]. destruct (data _) as [d|]; [|by apply wp_skip].
  apply wp_bind, wp_pure; [apply wr_never|]. intros d' _. apply wp_bind.
  eapply wp_mono; [apply (wp_safe (playing i)); [|exact Hw]; safe|]. intros [] w1 _ Hw1.
  destruct Hw as [(Hp & _) Hst]. pose proof (tvs_lookup w i s Hs) as Hv.
  pose proof (Hst _ Hv) as Hplay. simpl in Hplay. cbv zeta.
  destruct (decide (state (inputpipe s) = IDLE)) as [Hidle|_]; [congruence|].
  pose proof (pt_idle _ _ Hp i _ Hv) as Hnone. simpl in Hnone. rewrite Hnone.
  apply (wp_safe (playing i)); [|exact Hw1]. unfold reschedule_task. safe.
Qed.

Lemma throttle_wp i w : playing i w ->
  wp allowed (x ← the_pipe i; del_fd (fd x) ;; upd_pipe i (with_state THROTTLE) ;;
    t ← post_task (Z.quot (read_ms x) 1000) (Z.rem (read_ms x) 1000) (ResumeRead i);
    upd_pipe i (with_resume (Some t))) (fun _ => pointers_ok) w.
Proof.
  intros [(Hp & Ha & Hf) Hst]. apply wp_bind, (pipe_wp allowed HF). intros s Hs. pose proof (tvs_lookup w i s Hs) as Hv.
  apply wp_bind, (del_fd_wp allowed HF), wp_bind, upd_pipe_wp. set (w1 := set_efd _ w).
  assert (streams w1 !! i = Some s) as Hs1 by exact Hs.
  apply wp_bind, (post_wp allowed HF). intros a w2 Ho Hn Hw2.
  destruct (only_sched_tvs _ _ Ho) as [E1 E2].
  assert (streams w2 !! i = Some (on_pipe (with_state THROTTLE) s)) as Hs2 by (rewrite E2; by apply set_stream_lookup).
  apply upd_pipe_wp. unfold pointers_ok. erewrite set_stream_tvs by exact Hs2. rewrite E1.
  erewrite set_stream_tvs by exact Hs1. rewrite list_insert_insert_eq. change (tvs w1) with (tvs w).
  change (pend (set_streams _ w2)) with (pend w2). rewrite Hw2. change (pend _) with (pend w) in Hn |- *. split_and!.
  - apply pointers_set.
    + eapply pointers_grow; [exact Hp|by apply insert_subseteq|].
      intros b k [[_ ?]|[_ Hb]]%lookup_insert_Some; [done|]. by apply (pt_no_idle _ _ Hp b k).
    + by apply (pt_idle _ _ Hp i _ Hv).
    + simpl. intros b [= <-]. split; [done|]. apply lookup_insert_eq.
    + intros cid p Hin. destruct (pt_purge _ _ Hp i _ cid p Hv Hin) as (b & -> & Hb). exists b. split; [done|].
      rewrite lookup_insert_ne; [done|]. congruence.
  - eapply active_set; [exact Ha|by left|]. simpl. intros _. apply (Ha i _ ltac:(done) Hv).
    rewrite (Hst _ Hv). done.
  - eapply first_init_set; [exact Hf|exact Hv|done|]. intros Hne. by left.
Qed.

Lemma handle_safe i w : playing i w -> delivers i w -> wp allowed (inputpipe_handle i) (fun _ => playing i) w.
Proof.
  intros Hw Hd. apply wp_bind. unfold sobtainsystime at 1, wp at 1. apply wp_bind. unfold gets at 1, wp at 1.
  apply wp_bind, wp_pure; [apply timeAddMs_never|]. intros full _.
  assert (playing i (ssystick w)) as Hw1 by exact Hw.
  apply wp_bind, (pipe_wp allowed HF). intros s Hs. cbv zeta. destruct (_ >? 0); [by apply wp_ret|].
  apply wp_bind. unfold read_pipe at 1, wp at 1. cbv zeta.
  apply wp_bind. eapply wp_mono; [apply received_safe; [exact Hw|]|].
  - change (reads (ssystick w)) with (reads w). change (nreads (ssystick w)) with (nreads w).
    destruct (reads w (nreads w)) as [|b] eqn:Er; [done|]. intros [= E]. by apply (Hd s b).
  - intros u w2 _ Hw2. apply (wp_safe (playing i)); [|exact Hw2]. apply safe_finish; auto.
Qed.

Lemma pipe_event_wp i w : playing i w -> delivers i w -> wp allowed (srv_pipe_event i) (fun _ => pointers_ok) w.
Proof.
  intros Hw Hd. apply wp_bind. eapply wp_mono; [by apply handle_safe|]. intros ret w1 _ Hw1.
  destruct (ret =? -1); [by apply throttle_wp|]. apply (wp_safe pointers_ok); [|apply Hw1]. safe.
Qed.

Lemma hangup_wp i w : pointers_ok w -> wp allowed (srv_pipe_hangup i) (fun _ => pointers_ok) w.
Proof.
  intros (Hp & Ha & Hf). apply wp_bind, wp_bind, (hold_wp allowed HF).
  - split; [done|]. split; [by apply active_weaken|done].
  - intros w1 Hw1. eapply wp_mono; [apply (wp_safe pointers_ok); [|exact Hw1]; safe|].
    intros [] w2 _ Hw2. by apply (resume_wp allowed HF).
Qed.

(** *** Tasks *)

(** What makes it right to free a task after it was run: no pointer to it is
    left. *)
Definition finished (t : stask) w : Prop :=
  match t with
  | ResumeRead i => no_resume i w
  | DeleteClient cid => cid ∉ ids w
  | RemoveOld _ | SetIdle _ => True
  end.

Lemma stask_wp t w : tasks_ok w -> (forall i, t <> SetIdle i) ->
  wp allowed (run_stask t) (fun _ w' => tasks_ok w' /\ finished t w') w.
Proof.
  intros Hw Ht. destruct t as [i|i|i|cid]; simpl.
  - eapply wp_mono; [apply (wp_safe tasks_ok); [|exact Hw]; apply safe_remove_old; auto|done].
  - eapply wp_mono.
    + apply (wp_and_preserves allowed ids_ok); [|apply Hw|].
      * apply (hold_resume ids_ok). apply ids_ok_base.
      * apply (resume_wp allowed HF) with (K := fun _ w' => pointers_ok w' /\ no_resume i w'); [apply Hw|auto].
    + intros [] w' _ [Hi [Hp Hr]]. done.
  - by destruct (Ht i).
  - by apply delete_wp.
Qed.

Lemma unreferenced_finished a t w : pointers_ok w -> pend w !! a = Some t -> finished t w -> unreferenced a (tvs w).
Proof.
  intros (Hp & _) Ha Hd. eapply unreferenced_by; [exact Hp|exact Ha|..].
  - intros i v -> Hv. rewrite (Hd v Hv). done.
  - intros i v cid -> Hv Hin. apply Hd. unfold ids. rewrite cids_tvs. apply list_elem_of_In, in_concat.
    exists (fst <$> tv_clients v). split; apply list_elem_of_In.
    + apply list_elem_of_fmap. exists v. split; [done|]. by eapply list_elem_of_lookup_2.
    + by apply (list_elem_of_fmap_2' fst _ (cid, Some a)).
Qed.

(** Together with an invariant [K] of the rest of the state that the tasks keep. *)
Section timer.
Context (K : W -> Prop) (Hsched : apart_from_sched K).
Context (HK : forall t w, tasks_ok w -> K w -> (forall i, t <> SetIdle i) -> wp allowed (run_stask t) (fun _ => K) w).

Lemma tasks_sched sch w : tr_payload <$> s_tasks sch = pend w -> tasks_ok w /\ K w -> tasks_ok (set_stasks sch w) /\ K (set_stasks sch w).
Proof. intros E [Ht Hk]. split; [|by apply Hsched]. eapply (ti_same _ tasks_invariant); [|exact Ht]. by split. Qed.

Lemma tasks_free a t sch w : tasks_ok w /\ K w -> pend w !! a = Some t -> finished t w ->
  tr_payload <$> s_tasks sch = delete a (pend w) -> tasks_ok (set_stasks sch w) /\ K (set_stasks sch w).
Proof.
  intros [[Hi Hp] Hk] Ha Hd E. split; [|by apply Hsched]. split; [exact Hi|].
  pose proof (unreferenced_finished a t w Hp Ha Hd) as Hu. destruct Hp as (H1 & H2 & H3). split; [|split; [exact H2|exact H3]].
  change (tvs (set_stasks sch w)) with (tvs w). change (pend (set_stasks sch w)) with (tr_payload <$> s_tasks sch).
  rewrite E. by apply pointers_shrink.
Qed.

Lemma timer_safe fuel : safe allowed (fun w => (tasks_ok w /\ K w) /\ sched_ok (stasks w)) (srv_timer_event fuel).
Proof.
  apply (run_safe (HasSched0 := server_sched (Q := Q) (Dec := Dec) (Enc := Enc)) allowed HF
    (fun w => tasks_ok w /\ K w) finished).
  - intros sch w E. by apply tasks_sched.
  - intros a t sch w Hw Ha Hd E. by apply (tasks_free a t).
  - intros t a w [Ht Hw] Ha. assert (forall i, t <> SetIdle i) as Hn.
    { intros i ->. destruct Ht as [_ [Hp _]]. by eapply (pt_no_idle _ _ Hp). }
    eapply wp_mono; [apply wp_and; [by apply stask_wp|by apply (HK t)]|]. intros [] w' _ ([? ?] & ?). done.
  - intros t I HI. apply keep_stask; [by apply sched_pipeless|by apply sched_server_invariant].
  - done.
Qed.
End timer.

Section pipes.
Context (B : gset Z).

(** The pipes that are not to be read are not watched. *)
Definition all_ok w : Prop := tasks_ok w /\ pipes_ok true B w.

Lemma timer_all fuel w : all_ok w -> sched_ok (stasks w) ->
  wp allowed (srv_timer_event fuel) (fun _ => all_ok) w.
Proof.
  intros Hw Hs. eapply wp_mono; [apply (timer_safe (pipes_ok true B)); [apply pipes_apart| |by split]|].
  - intros t w1 Ht Hp Hn. eapply wp_mono.
    + apply (wp_and_preserves allowed (pipes_ok true B)); [by apply stask_pipes|exact Hp|by apply stask_wp].
    + intros [] w2 _ [Hp2 _]. exact Hp2.
  - intros [] w1 _ [Hw1 _]. exact Hw1.
Qed.

(** *** Events *)

(** An event is for a descriptor that is watched and has an owner, and where it is
    a pipe there is something to read. *)
Record careful w (e : event) : Prop := {
  ca_proper : proper w e;
  ca_delivers : forall i s, streams w !! i = Some s -> fd (inputpipe s) = ev_fd e -> delivers i w;
}.

(** A pipe that is watched is playing. *)
Lemma watched_playing w i s : all_ok w -> streams w !! i = Some s -> ip_initialized (inputpipe s) = true ->
  fd (inputpipe s) ∈ efd w -> playing i w.
Proof.
  intros [[_ Hp] [Hw _]] Hs Hop Hin. split; [done|]. intros v. rewrite (tvs_lookup w i s Hs). intros [= <-]. simpl.
  assert (views w !! i = Some (view_of (inputpipe s))) as Hv by (unfold views; by rewrite list_lookup_fmap, Hs).
  pose proof (vo_each _ _ _ _ _ Hw i _ Hv) as Hview. unfold view_ok in Hview. simpl in Hview.
  destruct (state (inputpipe s)); [|done|]; naive_solver.
Qed.

(** The outermost branch of the computation. *)
Ltac branch Eb :=
  match goal with |- wp _ (if ?b then _ else _) _ _ => destruct b eqn:Eb end.

(** What an event leads to, apart from the ids and the pipes. *)
Lemma event_safe fds fuel e w : all_ok w -> sched_ok (stasks w) -> careful w e ->
  wp allowed (handle_event (J := J) fds fuel e) (fun _ => pointers_ok) w.
Proof.
  intros Hall Hs [Hprop Hd]. pose proof Hall as [Ht Hw]. unfold handle_event. cbv zeta.
  assert (forall (m : M W unit) (b : bool), wp allowed m (fun _ => pointers_ok) w ->
    wp allowed (m ;; mret b : M W bool) (fun _ => pointers_ok) w) as Hthen by (intros m b Hm; by apply wp_bind).
  assert (forall (m : M W unit) (b : bool), safe allowed tasks_ok m ->
    wp allowed (m ;; mret b : M W bool) (fun _ => pointers_ok) w) as Hsafe.
  { intros m b Hm. apply Hthen. eapply wp_mono; [by apply Hm|]. intros [] w' _ Hend. apply Hend. }
  apply wp_bind. unfold stream_find_fd at 1. unfold gets at 1, wp at 1, mbind at 1, M_bind at 1, mret at 1, M_ret at 1.
  set (p := fst <$> last _). assert (forall i, p = Some i -> exists s, streams w !! i = Some s /\ fd (inputpipe s) = ev_fd e)
    as Hp by (intros i E; by apply (last_filter_inv (fun r => fd (inputpipe r.2) = ev_fd e)) in E).
  clearbody p. apply wp_bind. unfold socket_get_client at 1.
  unfold gets at 1, wp at 1, mbind at 1, M_bind at 1, mret at 1, M_ret at 1. set (k := fst <$> last _). clearbody k.
  destruct (ev_error e).
  { apply Hthen. unfold handle_error_event. apply wp_bind. unfold stream_find_fd at 1.
    unfold gets at 1, wp at 1, mbind at 1, M_bind at 1, mret at 1, M_ret at 1.
    destruct (fst <$> last _) as [i|]; [by apply hangup_wp, Ht|].
    eapply wp_mono; [apply (wp_safe tasks_ok); [|exact Ht]|intros [] w' _ Hend; apply Hend]. unfold socket_get_client.
    safe; auto. }
  branch Eb. { apply Hthen. eapply wp_mono; [by apply timer_all|]. intros [] w' _ [[_ Hend] _]. done. }
  clear Eb.
  branch Epipe.
  { apply Hthen. apply andb_prop in Epipe as [[i ->]%bool_decide_eq_true _]. destruct (Hp i eq_refl) as (s & Hi & Hfd).
    simpl. apply pipe_event_wp; [|by eapply Hd]. eapply watched_playing; [done|exact Hi|by eapply Hprop|].
    rewrite Hfd. apply Hprop. }
  branch Eb. { apply Hsafe, safe_handle_in; auto using safe_refresh. }
  clear Eb.
  branch Eb. { apply Hsafe, safe_accept; auto. }
  clear Eb.
  branch Eb. { apply Hsafe, safe_handle_socket; auto using safe_move. }
  apply wp_ret, Ht.
Qed.

Lemma event_ok fds fuel e go w w' : all_ok w -> sched_armed w -> careful w e ->
  handle_event (J := J) fds fuel e w = Ok (go, w') -> all_ok w' /\ sched_armed w'.
Proof.
  intros Hw Hs He E. pose proof He as [Hprop Hd]. pose proof Hw as [[Hi _] Hpipes].
  destruct (clients_event fds fuel e w go w' (conj Hi Hs) E) as [Hi' Hs'].
  pose proof (event_safe fds fuel e w Hw (proj1 Hs) He) as Hp. unfold wp in Hp. rewrite E in Hp.
  split; [|done]. split; [by split|].
  eapply event_pipes, E; [exact Hpipes|exact Hprop| |by auto].
  intros [] w1 E1. pose proof (timer_all fuel w Hw (proj1 Hs)) as Htimer. unfold wp in Htimer. rewrite E1 in Htimer. apply Htimer.
Qed.
End pipes.

(** Main starts with streams without clients and tasks. *)
Lemma main_all fds out args w0 : (forall n U, out_opens out n U ∉ U) -> server_main fds out args = Ok w0 ->
  all_ok (base_fds fds) w0.
Proof.
  intros Ho Hmain. split; [|by eapply main_pipes]. split; [by eapply main_ids|].
  apply main_inv in Hmain as (ss & b & -> & Hss).
  assert (forall i v, (tview_of <$> ss) !! i = Some v ->
    tv_state v = IDLE /\ tv_resume v = None /\ tv_idle v = None /\ tv_clients v = []) as Hv.
  { intros i v. rewrite list_lookup_fmap. destruct (ss !! i) as [s|] eqn:Hs; [|done]. intros [= <-].
    destruct (proj1 (Forall_lookup _ _) Hss i s Hs) as (? & _ & Hc & ? & ? & _). simpl. by rewrite Hc. }
  split; [split|split].
  - intros i v Hi. apply (Hv i v Hi).
  - intros i v a Hi Hr. destruct (Hv i v Hi) as (_ & E & _). congruence.
  - intros i v cid p Hi Hin. destruct (Hv i v Hi) as (_ & _ & _ & E). rewrite E in Hin. by apply not_elem_of_nil in Hin.
  - intros a i. unfold pend, payloads. simpl. by rewrite lookup_fmap, lookup_empty.
  - intros i v _ Hi Hst. by destruct (Hv i v Hi) as (? & _).
  - intros v0 i v _ _ Hi. by destruct (Hv i v Hi) as (_ & _ & _ & E).
Qed.

Lemma reachable_all fds out args w0 w : (forall n U, out_opens out n U ∉ U) -> server_main fds out args = Ok w0 ->
  reachable (J := J) careful fds w0 w -> all_ok (base_fds fds) w /\ sched_armed w.
Proof.
  intros Ho Hmain Hr. induction Hr as [|w fuel e go w' _ [IH1 IH2] He E].
  - split; [by eapply main_all|by eapply main_armed].
  - by eapply event_ok.
Qed.

(** The task at [a] is allocated, and there for [t]. *)
Definition posted_as w (a : addr) (t : stask) : Prop :=
  exists r, s_tasks (stasks w) !! a = Some r /\ tr_payload r = t.

Lemma pend_posted w a t : pend w !! a = Some t -> posted_as w a t.
Proof. unfold pend, payloads. rewrite lookup_fmap. intros (r & Hr & ->)%fmap_Some. by exists r. Qed.

(** C9: the server never uses a task that was freed: in every state that it
    reaches, a client's pointer is to the task that will purge this client, a
    pipe's pointer to the one that will resume it, which it has just when the
    pipe is throttled; and whatever event comes next, only the parser of the
    control requests can access freed memory.  This needs that events
    are true when they are handled, and that a pipe is reported as readable only
    when there is something to read, not at the end of its file. *)
Theorem server_tasks_live fds out args w0 w :
  (forall n U, out_opens out n U ∉ U) ->
  server_main fds out args = Ok w0 -> reachable (J := J) careful fds w0 w ->
  (forall i s c, streams w !! i = Some s -> c ∈ clients s ->
     exists a, purge_task c = Some a /\ posted_as w a (DeleteClient (id c))) /\
  (forall i s, streams w !! i = Some s ->
     idle_task (inputpipe s) = None /\
     match resume_task (inputpipe s) with
     | Some a => state (inputpipe s) = THROTTLE /\ posted_as w a (ResumeRead i)
     | None => state (inputpipe s) <> THROTTLE
     end) /\
  (forall fuel e, careful w e -> handle_event (J := J) fds fuel e w = Fault UseAfterFree ->
     exists text, jsonrpc_parse_string (J := J) text = Fault UseAfterFree).
Proof.
  intros Ho Hmain Hr. destruct (reachable_all fds out args w0 w Ho Hmain Hr) as [Hw Hs].
  pose proof Hw as [[_ [Hp _]] [Hpipes _]]. split_and!.
  - intros i s c Hi Hc. pose proof (tvs_lookup w i s Hi) as Hv.
    destruct (pt_purge _ _ Hp i _ (id c) (purge_task c) Hv) as (a & Ha & Hpost).
    { simpl. apply list_elem_of_fmap. by exists c. }
    exists a. split; [done|]. by apply pend_posted.
  - intros i s Hi. pose proof (tvs_lookup w i s Hi) as Hv. split; [apply (pt_idle _ _ Hp i _ Hv)|].
    destruct (resume_task (inputpipe s)) as [a|] eqn:Er.
    + destruct (pt_resume _ _ Hp i _ a Hv Er) as [? ?]. split; [done|]. by apply pend_posted.
    + intros Hst. pose proof (vo_each _ _ _ _ _ Hpipes i (view_of (inputpipe s))) as Hview.
      unfold view_ok in Hview. simpl in Hview. rewrite Hst, Er in Hview.
      destruct Hview as (_ & _ & [? ?]); [|done]. unfold views. by rewrite list_lookup_fmap, Hi.
  - intros fuel e He E. pose proof (event_safe _ fds fuel e w Hw (proj1 Hs) He) as Hwp. unfold wp in Hwp.
    rewrite E in Hwp. by apply Hwp.
Qed.
End safety.

(** The client that says hello is found where the task is that purges it. *)
Lemma server_tasks_live_witness :
  exists s c a, streams demo_playing !! 0%nat = Some s /\ clients s = [c] /\ purge_task c = Some a /\
    posted_as demo_playing a (DeleteClient 3).
Proof.
  destruct (demo_start (ReadBytes (zeros 8))) as [w0|] eqn:E; [|vm_compute in E; discriminate].
  assert (careful w0 hello_event) as Hp.
  { vm_compute in E. injection E as <-. split; [split|].
    - apply (bool_decide_unpack _). vm_compute. exact I.
    - intros [|i] s; [intros [= <-]; vm_compute; discriminate|done].
    - apply (bool_decide_unpack _). vm_compute. exact I.
    - intros [|i] s; [intros [= <-]; vm_compute; discriminate|done]. }
  destruct (server_tasks_live demo_fds (demo_outside (ReadBytes (zeros 8))) demo_args w0 demo_playing next_fd_fresh E
    (demo_step _ w0 E Hp)) as [Hpurge _].
  destruct (streams demo_playing !! 0%nat) as [s|] eqn:Es; [|vm_compute in Es; discriminate].
  destruct (clients s) as [|c [|c' cs]] eqn:Ec; [vm_compute in Es; injection Es as <-; discriminate| |
    vm_compute in Es; injection Es as <-; discriminate].
  destruct (Hpurge 0%nat s c Es) as (a & Ha & Hpost); [rewrite Ec; apply list_elem_of_here|].
  exists s, c, a. split; [done|]. split; [done|]. split; [done|].
  assert (id c = 3) as Hid by (vm_compute in Es; injection Es as <-; by injection Ec as <-). by rewrite <- Hid.
Defined.

(** *** The end of a file *)

(** The pipe is at its end at the first read and is written to again later; the
    server's buffer is 10 ms. *)
Definition eof_outside : outside :=
  mkOutside (fun n => mkTime (7 + Z.of_nat n) 0) (fun _ => mkTime 990 0)
    (fun n => if (n =? 0)%nat then ReadBytes [] else ReadBytes (zeros 8)) next_fd (fun _ => []).
Definition eof_args : list (Z * bytes) :=
  [(98, str "10"); (115, str "pipe:///tmp/f?buffer_ms=10&codec=opus&name=default&sampleformat=1000:16:2")].
Definition eof_start : res (server forest unit unit) := server_main demo_fds eof_outside eof_args.

(** The end of the file, the purge of the only client, data to play, the throttling
    of the pipe, and the run of the task that is to resume it. *)
Definition eof_calls : list (list event) :=
  [[hello_event]; [pipe_event 6]; [timer_event]; [timer_event]; [timer_event]; [pipe_event 6]; [pipe_event 6];
   [timer_event]; [timer_event]].

(** A pipe's pointer to the task that resumes it, and whether it is allocated. *)
Definition dangling (r : res (server forest unit unit)) : option (list (option bool)) :=
  match r with
  | Ok w => Some ((fun s => (fun a => negb (bool_decide (is_Some (s_tasks (stasks w) !! a)))) <$>
                    resume_task (inputpipe s)) <$> streams w)
  | Fault _ => None
  end.

(** At the end of its file a pipe becomes idle but stays watched.  When its last
    client was purged and it is written to again, it plays without a client, and
    is throttled; the task that is to resume it then finds no client.  The next
    client is registered but its stream stays silent; and if it comes only after
    the pipe was declared idle, the server uses the freed task. *)
Lemma end_of_file_run :
  summary (after eof_calls eof_start) = Some ([(THROTTLE, 6, true)], [0%nat], [3; 4; 5], []) /\
  dangling (after eof_calls eof_start) = Some [Some true] /\
  summary (after (eof_calls ++ [[hello_event]]) eof_start) =
    Some ([(THROTTLE, 6, true)], [1%nat], [3; 4; 5], []) /\
  after (eof_calls ++ replicate 4 [timer_event] ++ [[hello_event]]) eof_start = Fault UseAfterFree.
Proof. split_and!; vm_compute; reflexivity. Qed.

Section resume.
Context {Q Dec Enc : Type} `{!TimerQueue Q, !TimerQueueLaws Q, !OpusLib Dec Enc}.
Implicit Types (w : server Q Dec Enc) (s : stream Dec Enc).

(** Pipe [i] points to a task that is not allocated. *)
Record stale (i : nat) (t : addr) w s : Prop := {
  sl_stream : streams w !! i = Some s;
  sl_pointer : resume_task (inputpipe s) = Some t;
  sl_free : s_tasks (stasks w) !! t = None;
}.

Lemma stale_drop i t w s : stale i t w s ->
  drop_task stask_cleanup (resume_task (inputpipe s)) w = Fault UseAfterFree.
Proof.
  intros [_ Hp Hf]. rewrite Hp. unfold drop_task, the_task, mbind, M_bind.
  change (get_sched w) with (stasks w). by rewrite Hf.
Qed.

Lemma stale_hold i t w s : stale i t w s -> state (inputpipe s) = THROTTLE ->
  inputpipe_hold i w = Fault UseAfterFree.
Proof.
  intros Hw Hst. unfold inputpipe_hold. rewrite (M_bind_Ok _ _ _ _ _ (the_pipe_run w i s (sl_stream _ _ _ _ Hw))).
  rewrite Hst. cbn [decide]. unfold mbind, M_bind. rewrite decide_False by done. unfold skip.
  rewrite decide_True by done. by rewrite (stale_drop i t w s Hw).
Qed.

Lemma stale_upd i t w s f : stale i t w s -> (forall s, inputpipe (f s) = inputpipe s) ->
  stale i t (set_streams (alter f i (streams w)) w) (f s).
Proof.
  intros [Hs Hp Hf] Hf'. split; [|by rewrite Hf'|done]. simpl. by rewrite list_lookup_alter_eq, Hs.
Qed.

Lemma stale_add i t w s c : stale i t w s -> clients s = [] ->
  (state (inputpipe s) = THROTTLE ->
     stream_client_add i c w = Ok (tt, set_streams (alter (with_clients [c]) i (streams w)) w)) /\
  (state (inputpipe s) = IDLE -> stream_client_add i c w = Fault UseAfterFree).
Proof.
  intros Hw Hc. pose proof (sl_stream _ _ _ _ Hw) as Hs. unfold stream_client_add.
  assert (upd_stream i (fun s => with_clients (clients s ++ [c]) s) w =
    Ok (tt, set_streams (alter (with_clients [c]) i (streams w)) w)) as E.
  { rewrite upd_stream_run. do 3 f_equal. eapply list_alter_ext; [|done].
    intros s' Hs'. rewrite Hs in Hs'. injection Hs' as <-. by rewrite Hc. }
  rewrite (M_bind_Ok _ _ _ _ _ E).
  pose proof (stale_upd i t w s (with_clients [c]) Hw (fun _ => eq_refl)) as Hw1.
  set (w1 := set_streams _ w) in *.
  rewrite (M_bind_Ok _ _ _ _ _ (the_stream_run w1 i _ (sl_stream _ _ _ _ Hw1))).
  change (Z.of_nat (length (clients (with_clients [c] s))) =? 1) with true.
  change (inputpipe (with_clients [c] s)) with (inputpipe s). split; intros ->; [done|].
  change (true && bool_decide (IDLE = IDLE)) with true. cbv iota.
  pose proof (stale_drop i t w1 _ Hw1) as Hd. change (inputpipe (with_clients [c] s)) with (inputpipe s) in Hd.
  rewrite (sl_pointer _ _ _ _ Hw) in Hd |- *. unfold mbind at 1, M_bind at 1. by rewrite Hd.
Qed.

Lemma stale_remove i t w s j : stale i t w s -> state (inputpipe s) = THROTTLE ->
  delete j (clients s) = [] -> stream_client_remove i j w = Fault UseAfterFree.
Proof.
  intros Hw Hst Hj. unfold stream_client_remove.
  rewrite (M_bind_Ok _ _ _ _ _ (upd_stream_run w i _)).
  pose proof (stale_upd i t w s (fun s => with_clients (delete j (clients s)) s) Hw (fun _ => eq_refl)) as Hw1.
  set (w1 := set_streams _ w) in *.
  rewrite (M_bind_Ok _ _ _ _ _ (the_stream_run w1 i _ (sl_stream _ _ _ _ Hw1))).
  cbn [clients with_clients]. rewrite Hj. simpl. by eapply stale_hold.
Qed.

(** C40: the task that resumes a throttled pipe leaves a dangling pointer when
    the stream has no client. In every server whose scheduler is in order and in
    which this task is the only one that is due, the timer event changes nothing
    but the scheduler: the task is freed, the pipe stays throttled and keeps its
    pointer to it. In every later state in which the pipe has this pointer and
    the address is not in use again: while the pipe is throttled, a first client
    is registered but the pipe is not watched again, and when the last client
    leaves, the freed task is used; and once the pipe was declared idle, the
    first client that is registered makes the server use the freed task.
    ([end_of_file_run] is a run that gets there.) *)
Theorem end_of_file_crash w i s t r fuel :
  sched_ok (stasks w) -> streams w !! i = Some s -> clients s = [] ->
  state (inputpipe s) = THROTTLE -> resume_task (inputpipe s) = Some t ->
  s_tasks (stasks w) !! t = Some r -> tr_running r = false -> tr_payload r = ResumeRead i ->
  due (s_clk (stasks w) (s_ticks (stasks w))) (stasks w) = [(t, tr_due r)] -> (2 <= fuel)%nat ->
  exists sch, srv_timer_event fuel w = Ok (tt, set_stasks sch w) /\
    s_tasks sch = delete t (s_tasks (stasks w)) /\ stale i t (set_stasks sch w) s /\
    forall w2 s2, stale i t w2 s2 ->
      (forall c, state (inputpipe s2) = THROTTLE -> clients s2 = [] ->
         stream_client_add i c w2 = Ok (tt, set_streams (alter (with_clients [c]) i (streams w2)) w2)) /\
      (forall j, state (inputpipe s2) = THROTTLE -> delete j (clients s2) = [] ->
         stream_client_remove i j w2 = Fault UseAfterFree) /\
      (forall c, state (inputpipe s2) = IDLE -> clients s2 = [] ->
         stream_client_add i c w2 = Fault UseAfterFree).
Proof.
  intros Hw Hs Hc Hst Hp Ht Hr Hpl Hdue Hfuel.
  set (w0 := set_stasks (taken (tick (stasks w)) t r) w).
  assert (run_stask (tr_payload r) w0 = Ok (tt, w0)) as Erun.
  { rewrite Hpl. simpl. unfold inputpipe_resume_read, mbind, M_bind. rewrite (the_stream_run w0 i s Hs).
    by rewrite Hc. }
  pose proof (run_one (HasSched0 := server_sched) run_stask stask_cleanup fuel w t r w0
    Hw Ht Hr Hdue Erun eq_refl eq_refl Hfuel) as E.
  destruct (arm_queue (dropped (tick (stasks w)) t)) as [_ Et].
  eexists. split; [exact E|]. split; [exact Et|]. split.
  { split; [done|done|]. simpl. rewrite Et. simpl. apply lookup_delete_eq. }
  intros w2 s2 Hw2. split_and!.
  - intros c Hst2 Hc2. by apply (stale_add i t w2 s2).
  - intros j Hst2 Hj. by eapply stale_remove.
  - intros c Hst2 Hc2. by apply (stale_add i t w2 s2).
Qed.
End resume.

(** The run up to the task that is to resume the pipe: it is due at 16.01 s, and
    the clock shows 18 s. *)
Definition eof_throttled : res (server forest unit unit) := after (take 7 eof_calls) eof_start.
Definition eof_resume : trec stask := mkTrec (mkTime 16 10000000) false (ResumeRead 0).
Definition eof_idle : trec stask := mkTrec (mkTime 24 10000000) false (SetIdle 0).
Definition eof_sched : sched forest stask :=
  mkSched (Cons 2 (tr_due eof_resume) (Cons 1 (tr_due eof_idle) Nil Nil) Nil)
    {[ 2%positive := eof_resume; 1%positive := eof_idle ]} (Some (tr_due eof_resume))
    (fun n => mkTime (7 + Z.of_nat n) 0) 11.

Lemma eof_throttled_value w : eof_throttled = Ok w -> stasks w = eof_sched /\
  exists s, streams w = [s] /\ clients s = [] /\ state (inputpipe s) = THROTTLE /\
    resume_task (inputpipe s) = Some 2%positive.
Proof. vm_compute. intros [= <-]. split; [done|]. by eexists. Qed.

Lemma eof_sched_ok : sched_ok eof_sched.
Proof.
  split.
  - split; [|split; [|done]]; [unfold addrs; simpl; repeat constructor; set_solver|].
    split; [repeat constructor; vm_compute; discriminate|]. split; [|done].
    split; [constructor|done].
  - intros p d. simpl. rewrite !elem_of_cons, elem_of_nil. split.
    + intros [[= -> ->]|[[= -> ->]|[]]]; eexists; split; by vm_compute.
    + intros (t & Ht & <- & _). rewrite lookup_insert_Some, lookup_singleton_Some in Ht. naive_solver.
Qed.

(** In this run the next client is registered with a stream that stays silent, and
    when it leaves again, the freed task is used. *)
Lemma end_of_file_crash_witness :
  exists (w w1 : server forest unit unit), eof_throttled = Ok w /\ srv_timer_event 2 w = Ok (tt, w1) /\
    forall c, exists w2, stream_client_add 0 c w1 = Ok (tt, w2) /\
      stream_client_remove 0 0 w2 = Fault UseAfterFree.
Proof.
  destruct eof_throttled as [w|] eqn:E; [|vm_compute in E; discriminate]. exists w.
  destruct (eof_throttled_value w E) as (Et & s & Es & Hc & Hst & Hp).
  destruct (end_of_file_crash w 0 s 2 eof_resume 2) as (sch & E1 & _ & Hstale & Hlater).
  - rewrite Et. exact eof_sched_ok.
  - by rewrite Es.
  - exact Hc.
  - exact Hst.
  - exact Hp.
  - by rewrite Et.
  - reflexivity.
  - reflexivity.
  - by rewrite Et.
  - lia.
  - eexists. split; [reflexivity|]. split; [exact E1|]. intros c.
    pose proof (stale_upd 0 2 _ s (with_clients [c]) Hstale (fun _ => eq_refl)) as Hstale2.
    eexists. split; [by apply (Hlater _ s Hstale)|]. by apply (Hlater _ _ Hstale2).
Defined.
