(* ===== verification/Registry.v ===== *)
(** * The registry of clients as a finite map

    Which stream a client listens to is, to the rest of the program, a map from
    ids to streams: [stream_find] looks an id up, a hello inserts it, a purge
    deletes it and a control request replaces it.  The vectors of clients in the
    streams implement this map, as long as the ids are unique (ServerClients.v). *)
From Stdlib Require Import Ascii String.
From S2P Require Import Prelude.
From S2P Require Import Timespec.
From S2P Require Import Bytes.
From S2P Require Import CString.
From S2P Require Import PcmChunk.
From S2P Require Import TaskHeap.
From S2P Require Import TaskSched.
From S2P Require Import Invariant.
From S2P Require Import Safety.
From S2P Require Import Intercom.
From S2P Require Import ServerState.
From S2P Require Import InputPipe.
From S2P Require Import ClientMgr.
From S2P Require Import IntercomSrv.
From S2P Require Import JsonRpc.
From S2P Require Import Util.
From S2P Require Import Control.
From S2P Require Import Stream.
From S2P Require Import ServerLoop.
From S2P Require Import ServerInv.
From S2P Require Import Pointers.
From S2P Require Import PipeInv.
From S2P Require Import ServerMain.
From S2P Require Import ServerClients.
From S2P Require Import TaskSafety.

(** ** Lists of lists *)

(** The element [x] is in the list number [i]. *)
Definition at_place {A} (L : list (list A)) (x : A) (i : nat) : Prop := exists l, L !! i = Some l /\ x ∈ l.

Lemma place_insert {A} (L : list (list A)) i l l' x k : L !! i = Some l ->
  at_place (<[i := l']> L) x k <-> (k = i /\ x ∈ l') \/ (k <> i /\ at_place L x k).
Proof.
  intros Hi. unfold at_place. destruct (decide (i = k)) as [<-|Hne].
  - rewrite list_lookup_insert_eq by by eapply lookup_lt_Some. naive_solver.
  - rewrite list_lookup_insert_ne by done. naive_solver.
Qed.

Lemma place_append {A} (L : list (list A)) i l y x k : L !! i = Some l ->
  at_place (<[i := l ++ [y]]> L) x k <-> at_place L x k \/ (x = y /\ k = i).
Proof.
  intros Hi. rewrite (place_insert L i l) by done. rewrite elem_of_app, list_elem_of_singleton. unfold at_place.
  destruct (decide (k = i)) as [->|]; [rewrite Hi|]; naive_solver.
Qed.

Lemma place_delete {A} (L : list (list A)) i l j y x k : NoDup (concat L) -> L !! i = Some l -> l !! j = Some y ->
  at_place (<[i := delete j l]> L) x k <-> at_place L x k /\ x <> y.
Proof.
  intros Hnd Hi Hj. pose proof (concat_delete L i l j y Hi Hj) as Hp. rewrite <- Hp in Hnd.
  apply NoDup_cons in Hnd as [Hy _].
  assert (forall z m, at_place (<[i := delete j l]> L) z m -> z <> y) as Hne.
  { intros z m (l' & Hl & Hz) ->. apply Hy. apply list_elem_of_In, in_concat. exists l'.
    split; apply list_elem_of_In; [by eapply list_elem_of_lookup_2|done]. }
  assert (forall z, z ∈ l <-> z = y \/ z ∈ delete j l) as Hin.
  { intros z. rewrite <- elem_of_cons. by rewrite <- (delete_Permutation l j y Hj). }
  split.
  - intros Hx. split; [|by eapply Hne]. apply (place_insert L i l) in Hx as [[-> Hx]|[_ Hx]]; [|done..].
    exists l. split; [done|]. apply Hin. by right.
  - intros [(l' & Hk & Hx) Hxy]. apply (place_insert L i l); [done|]. destruct (decide (k = i)) as [->|]; [left|right].
    + split; [done|]. assert (l' = l) as -> by congruence. by apply Hin in Hx as [|].
    + split; [done|]. by exists l'.
Qed.

(** ** The abstraction *)

Section registry.
Context {Q Dec Enc J : Type}
  `{!TimerQueue Q, !TimerQueueLaws Q, !OpusLib Dec Enc, !JsonLib J, !HostLib, !UnionLib J}.
Abbreviation W := (server Q Dec Enc).
Implicit Types (w : W) (R : gmap Z nat).

(** The server [w] implements the map [R]: looking a client up in the streams is
    looking it up in the map. *)
Definition represents w R : Prop := forall cid, stream_find cid w = Ok (R !! cid, w).

Lemma represents_find w R cid : represents w R -> fst <$> find_client_in (streams w) cid = R !! cid.
Proof. intros Hw. specialize (Hw cid). unfold stream_find, find_client, gets, mbind, M_bind, mret, M_ret in Hw. by injection Hw. Qed.

Lemma represents_streams w w' R : streams w' = streams w -> represents w R -> represents w' R.
Proof.
  intros E HR cid. rewrite <- (represents_find w R cid HR), <- E. done.
Qed.

Lemma find_place w cid i : ids_ok w -> fst <$> find_client_in (streams w) cid = Some i <-> at_place (cids w) cid i.
Proof.
  intros Hw. split.
  - destruct (find_client_in (streams w) cid) as [[i' j]|] eqn:E; [|done]. intros [= ->].
    apply find_client_some in E as (s & c & Hs & Hc & <-). exists (ids_of s). split; [by apply cids_stream|].
    apply list_elem_of_fmap. exists c. split; [done|]. by eapply list_elem_of_lookup_2.
  - intros (l & Hl & Hin). unfold cids in Hl. rewrite list_lookup_fmap in Hl.
    destruct (streams w !! i) as [s|] eqn:Hs; [|done]. injection Hl as <-.
    apply list_elem_of_fmap in Hin as (c & -> & Hc). apply list_elem_of_lookup_1 in Hc as [j Hc].
    by rewrite (find_client_unique w i j s c Hw Hs Hc).
Qed.

(** In terms of the ids only. *)
Lemma represents_iff w R : ids_ok w -> represents w R <-> forall cid i, R !! cid = Some i <-> at_place (cids w) cid i.
Proof.
  intros Hw. split.
  - intros HR cid i. by rewrite <- (represents_find w R cid HR), find_place.
  - intros HR cid. unfold stream_find, find_client, gets, mbind, M_bind, mret, M_ret. do 2 f_equal.
    apply option_eq. intros i. by rewrite find_place, HR.
Qed.

(** There is such a map. *)
Lemma represents_exists w : ids_ok w -> exists R, represents w R.
Proof.
  intros Hw. set (f := fun cid => (cid, default 0%nat (fst <$> find_client_in (streams w) cid))).
  exists (list_to_map (f <$> ids w)). apply represents_iff; [done|]. intros cid i.
  rewrite <- elem_of_list_to_map.
  - rewrite list_elem_of_fmap, <- find_place by done. unfold f. split.
    + intros (x & [= -> ->] & Hx). destruct (find_client_in (streams w) x) as [[k j]|] eqn:E; [done|].
      by apply find_client_none in E.
    + intros E. exists cid. rewrite E. split; [done|]. apply (find_place w cid i Hw) in E as (l & Hl & Hin).
      apply list_elem_of_In, in_concat. exists l. split; apply list_elem_of_In; [by eapply list_elem_of_lookup_2|done].
  - rewrite <- list_fmap_compose. change (fst ∘ f) with (@Datatypes.id Z). by rewrite list_fmap_id.
Qed.

Lemma represents_cids w w' R : ids_ok w -> cids w' = cids w -> represents w R -> represents w' R.
Proof.
  intros Hw E HR. assert (ids_ok w') as Hw' by (unfold ids_ok, ids; by rewrite E).
  apply represents_iff; [done|]. rewrite E. by apply represents_iff.
Qed.

(** ** The operations *)

Lemma add_represents i c w u w' R : free (id c) w -> represents w R -> stream_client_add i c w = Ok (u, w') ->
  represents w' (<[id c := i]> R).
Proof.
  intros Hfree HR E. pose proof (add_ids i c w u w' Hfree E) as Hw'. destruct Hfree as [Hw Hc].
  apply cids_add in E as (l & Hl & E). apply represents_iff; [done|]. intros cid k.
  rewrite lookup_insert_Some, E, (place_append _ _ l) by done. rewrite (proj1 (represents_iff w R Hw) HR).
  split; [naive_solver|]. intros [Hk|[-> ->]]; [right|by left]. split; [|done]. intros <-.
  destruct Hk as (l' & Hl' & Hin). apply Hc. apply list_elem_of_In, in_concat. exists l'.
  split; apply list_elem_of_In; [by eapply list_elem_of_lookup_2|done].
Qed.

Lemma delete_place w R i l j cid w' : ids_ok w -> represents w R -> cids w !! i = Some l -> l !! j = Some cid ->
  cids w' = <[i := delete j l]> (cids w) -> represents w' (delete cid R).
Proof.
  intros Hw HR Hl Hj E. assert (ids_ok w') as Hw'.
  { unfold ids_ok, ids. rewrite E. pose proof (concat_delete (cids w) i l j cid Hl Hj) as Hp. unfold ids_ok, ids in Hw.
    rewrite <- Hp in Hw. by apply NoDup_cons in Hw as []. }
  apply represents_iff; [done|]. intros x k. rewrite lookup_delete_Some, E, (place_delete _ _ l j cid) by done.
  rewrite (proj1 (represents_iff w R Hw) HR). naive_solver.
Qed.

Lemma delete_represents cid w u w' R : ids_ok w -> represents w R -> clientmgr_delete_client cid w = Ok (u, w') ->
  represents w' (delete cid R).
Proof.
  unfold clientmgr_delete_client. intros Hw HR (r & w1 & E1 & E)%M_bind_inv.
  unfold find_client, gets, mbind, M_bind, mret, M_ret in E1. injection E1 as <- <-.
  pose proof (represents_find w R cid HR) as Hf. destruct (find_client_in (streams w) cid) as [[i j]|] eqn:Efind.
  - apply find_client_some in Efind as (s & c & Hs & Hc & <-). apply delete_internal_inv in E as (l & Hl & E).
    eapply delete_place; [done..| |exact E]. rewrite (cids_stream _ _ _ Hs) in Hl. injection Hl as <-.
    unfold ids_of. by rewrite list_lookup_fmap, Hc.
  - injection E as _ <-. by rewrite delete_id.
Qed.

(** Posting a task for a new client leaves the streams alone. *)
Lemma new_client_streams cid host port w c w' : new_client cid host port w = Ok (c, w' : W) ->
  id c = cid /\ streams w' = streams w.
Proof.
  unfold new_client. intros (n & w1 & [= _ <-] & E)%M_bind_inv. apply M_bind_inv in E as (t & w2 & E2 & E).
  injection E as <- <-. split; [done|]. apply post_only in E2. by apply only_sched_tvs in E2 as [_ ->].
Qed.

(** No client is lost when the first stream is initialised. *)
Lemma init_cids w s : pointers_ok w -> streams w !! 0%nat = Some s -> s_initialized s = false ->
  cids (set_streams (alter stream_init 0%nat (streams w)) w) = cids w.
Proof.
  intros (_ & _ & Hf) Hs Hi. pose proof (tvs_lookup w 0%nat s Hs) as Hv.
  pose proof (Hf _ 0%nat _ Hv Hi Hv) as Hc. simpl in Hc. unfold cids. simpl. apply list_eq. intros k.
  rewrite !list_lookup_fmap. destruct (decide (0%nat = k)) as [<-|Hne]; [|by rewrite list_lookup_alter_ne].
  rewrite list_lookup_alter_eq, Hs. simpl. unfold ids_of. simpl. by destruct (clients s).
Qed.

#[local] Hint Resolve hold_post hold_drop hold_reschedule hold_send hold_the_stream hold_the_pipe hold_time
  hold_find_client hold_stream_find hold_the_client hold_stop hold_volume hold_buffer : preserve.
#[local] Hint Extern 1 (preserves _ (upd_client _ _ _)) => by apply hold_upd_client : preserve.

(** The rest of a handler, which keeps the clients. *)
Lemma rest_represents {A} (m : M W A) w a w' R :
  (forall L, base_invariant (fun w => cids w = L) -> preserves (fun w => cids w = L) m) ->
  ids_ok w -> represents w R -> m w = Ok (a, w') -> represents w' R.
Proof. intros Hm Hw HR E. eapply represents_cids; [exact Hw|by eapply cids_same|exact HR]. Qed.

Lemma register_represents c w a w' R : pointers_ok w -> free (id c) w -> represents w R ->
  register_client c w = Ok (a, w') -> represents w' (<[id c := 0%nat]> R).
Proof.
  intros Hp [Hw Hc] HR. unfold register_client. intros (nc & w1 & E1 & E)%M_bind_inv. apply new_client_streams in E1 as [Hid Est].
  assert (cids w1 = cids w) as Ec1 by (unfold cids; by rewrite Est).
  apply M_bind_inv in E as (s & w2 & E2 & E). apply the_stream_inv in E2 as [-> Hs].
  apply M_bind_inv in E as ([] & w2 & E2 & E). assert (cids w2 = cids w) as Ec2.
  { destruct (s_initialized s) eqn:Hi; injection E2 as <-; [done|]. rewrite Est in Hs |- *.
    rewrite <- (init_cids w s Hp Hs Hi). done. }
  apply M_bind_inv in E as ([] & w3 & E3 & E). assert (free (id nc) w2) as Hfree2.
  { rewrite Hid. unfold free, ids_ok, ids. by rewrite Ec2. }
  pose proof (represents_cids w w2 R Hw Ec2 HR) as HR2. pose proof (add_ids _ _ _ _ _ Hfree2 E3) as Hw3.
  pose proof (add_represents _ _ _ _ _ _ Hfree2 HR2 E3) as HR3. rewrite Hid in HR3.
  eapply rest_represents, E; [|done..]. intros L HL. preserve.
Qed.

(** Whether the client is registered, with the port it has now. *)
Definition known c w : bool :=
  match find_client_in (streams w) (id c) with
  | Some (i, j) => match streams w !! i ≫= (fun s => clients s !! j) with
                   | Some c' => cport c =? cport c'
                   | None => false
                   end
  | None => false
  end.

Lemma refresh_represents c w b w' R : tasks_ok w -> represents w R -> clientmgr_refresh_client c w = Ok (b, w') ->
  represents w' (if known c w then R else <[id c := 0%nat]> R).
Proof.
  intros [Hw Hp] HR. unfold clientmgr_refresh_client. intros (r & w1 & E1 & E)%M_bind_inv.
  unfold find_client, gets, mbind, M_bind, mret, M_ret in E1. injection E1 as <- <-.
  apply M_bind_inv in E as (t & w1 & E1 & E). injection E1 as <- <-.
  apply M_bind_inv in E as ([i j] & w2 & E1 & E). set (w1 := ssystick w) in *.
  assert (ids_ok w1) as Hw1 by exact Hw. assert (pointers_ok w1) as Hp1 by exact Hp.
  assert (represents w1 R) as HR1 by (by apply (represents_cids w)).
  assert (ids_ok w2 /\ represents w2 (if known c w then R else <[id c := 0%nat]> R)) as [Hw2 HR2].
  { unfold known. destruct (find_client_in (streams w) (id c)) as [[i' j']|] eqn:Hf.
    - apply M_bind_inv in E1 as (c' & w3 & E3 & E1). apply the_client_inv in E3 as (-> & s & Hs & Hc).
      change (streams w1) with (streams w) in Hs. rewrite Hs. simpl. rewrite Hc. destruct (cport c =? cport c'); simpl in E1.
      + assert (cids w2 = cids w1) as Ec by (eapply cids_same, E1; intros L HL; preserve).
        split; [unfold ids_ok, ids; by rewrite Ec|by apply (represents_cids w1)].
      + apply M_bind_inv in E1 as ([] & w3 & E3 & E1).
        destruct (delete_ids (id c) i' j' w1 tt w3 Hw1 Hf E3) as [Hw3 Hc3].
        pose proof (delete_wp (id c) w1 (fun _ => tasks_ok) (conj Hw1 Hp1) (fun w' Hw' _ => Hw')) as Hwp.
        unfold wp in Hwp. rewrite E3 in Hwp. destruct Hwp as [_ Hp3].
        pose proof (delete_represents _ _ _ _ _ Hw1 HR1 E3) as HR3.
        split; [by eapply register_ids, E1|]. pose proof (register_represents _ _ _ _ _ Hp3 (conj Hw3 Hc3) HR3 E1) as HR2.
        by rewrite insert_delete_eq in HR2.
    - assert (free (id c) w1) as Hfree by (split; [done|by apply find_client_none]).
      split; [by eapply register_ids, E1|by eapply register_represents, E1]. }
  eapply rest_represents, E; [|done..]. intros L HL. preserve.
Qed.

Lemma move_represents i j n s c ns w a w' R : ids_ok w -> represents w R ->
  streams w !! i = Some s -> clients s !! j = Some c -> streams w !! n = Some ns -> move_client i j n w = Ok (a, w') ->
  represents w' (if is_prefix (name s) (name ns) then R else <[id c := n]> R).
Proof.
  intros Hw HR Hs Hc Hns. unfold move_client. intros (c' & w1 & E1 & E)%M_bind_inv.
  apply the_client_inv in E1 as (-> & s' & Hs' & Hc'). assert (s' = s) as -> by congruence.
  assert (c' = c) as -> by congruence. apply M_bind_inv in E as (cur & w1 & Ecur & E).
  apply stream_find_inv in Ecur as [-> ->]. rewrite (find_client_unique w i j s c Hw Hs Hc) in E.
  apply M_bind_inv in E as (cs & w1 & E1 & E). apply the_stream_inv in E1 as (-> & Hcs).
  apply M_bind_inv in E as (ns' & w1 & E1 & E). apply the_stream_inv in E1 as (-> & Hns'). simpl in *.
  assert (cs = s) as -> by congruence. assert (ns' = ns) as -> by congruence.
  destruct (is_prefix (name s) (name ns)) eqn:Epre; simpl in E; [by injection E as _ <-|].
  assert (n <> i) as Hne.
  { intros ->. assert (ns = s) as -> by congruence. unfold is_prefix in Epre.
    apply bool_decide_eq_false in Epre. by apply Epre. }
  apply M_bind_inv in E as ([] & w1 & E1 & E). assert (cids w1 = cids w) as Ec1 by (eapply cids_same, E1; intros L HL; preserve).
  apply M_bind_inv in E as ([] & w2 & E2 & E). apply cids_add in E2 as (l & Hl & E2).
  apply M_bind_inv in E as ([] & w3 & E3 & E). apply cids_remove in E3 as (l' & Hl' & E3).
  rewrite E2, Ec1, list_lookup_insert_ne in Hl' by done. rewrite Ec1 in Hl.
  assert (l' !! j = Some (id c)) as Hj.
  { rewrite (cids_stream _ _ _ Hs) in Hl'. injection Hl' as <-. unfold ids_of. by rewrite list_lookup_fmap, Hc. }
  rewrite E2, Ec1, list_insert_insert_ne in E3 by done. set (L := <[i := delete j l']> (cids w)) in *.
  assert (L !! n = Some l) as HLn by (unfold L; by rewrite list_lookup_insert_ne).
  assert (ids_ok w3) as Hw3.
  { unfold ids_ok, ids. rewrite E3, (concat_append _ _ _ _ HLn). unfold L.
    rewrite (concat_delete (cids w) i l' j (id c) Hl' Hj). exact Hw. }
  assert (represents w3 (<[id c := n]> R)) as HR3.
  { apply represents_iff; [done|]. intros cid k.
    rewrite E3, (place_append _ _ l) by done. unfold L. rewrite (place_delete _ _ l' j (id c)) by done.
    rewrite lookup_insert_Some, (proj1 (represents_iff w R Hw) HR). naive_solver. }
  eapply rest_represents, E; [|done..]. intros L' HL. preserve.
Qed.

(** ** The events *)

(** The map is one that satisfies [P]. *)
Definition registered (P : gmap Z nat -> Prop) w : Prop := exists R, represents w R /\ P R.

Lemma registered_cids P w w' : ids_ok w -> cids w' = cids w -> registered P w -> registered P w'.
Proof. intros Hw E (R & HR & HP). exists R. split; [by apply (represents_cids w)|done]. Qed.

Lemma registry_invariant P : task_invariant (J := J) (fun w => tasks_ok w /\ registered P w).
Proof.
  split.
  - intros w w' Hs [Ht Hr]. split; [by apply (ti_same _ tasks_invariant w)|]. apply (registered_cids P w); [apply Ht| |done].
    destruct Hs as [E _]. by rewrite !cids_tvs, E.
  - intros timeout ms t Hn w [Ht Hr]. eapply wp_mono; [by apply (ti_post _ tasks_invariant)|]. intros a w' E Ht'.
    split; [done|]. apply (registered_cids P w); [apply Ht| |done]. apply post_only in E as [sch ->]. done.
Qed.

(** What keeps the ids of the clients keeps the map. *)
Lemma pipeless_represents {A} (m : M W A) w a w' R :
  (forall L, pipeless_invariant (fun w => cids w = L) -> preserves (fun w => cids w = L) m) ->
  ids_ok w -> represents w R -> m w = Ok (a, w') -> represents w' R.
Proof.
  intros Hm Hw HR E. apply (represents_cids w); [done| |done]. exact (Hm (cids w) (cids_pipeless _) w a w' eq_refl E).
Qed.

Lemma network_registered P rs : (forall R cid, P R -> P (<[cid := 0%nat]> R)) ->
  safe (allowed (J := J)) (fun w => tasks_ok w /\ registered P w) (srv_handle_in rs).
Proof.
  intros HP. apply safe_handle_in; [apply registry_invariant|]. intros c w [Ht (R & HR & Hr)].
  eapply wp_mono; [by apply safe_refresh|]. intros b w' E Ht'. split; [done|].
  eexists. split; [eapply refresh_represents; [exact Ht|exact HR|exact E]|]. destruct (known c w); auto.
Qed.

Lemma control_registered P k f r : (forall R cid n, is_Some (R !! cid) -> P R -> P (<[cid := n]> R)) ->
  safe (allowed (J := J)) (fun w => tasks_ok w /\ registered P w) (handle_socket (J := J) k f r).
Proof.
  intros HP. apply safe_handle_socket; [apply registry_invariant|]. intros i j n w [Ht (R & HR & Hr)].
  eapply wp_mono; [by apply safe_move|]. intros a w' E Ht'. split; [done|].
  assert (exists s c ns, streams w !! i = Some s /\ clients s !! j = Some c /\ streams w !! n = Some ns)
    as (s & c & ns & Hs & Hc & Hns).
  { revert E. unfold move_client. intros (c & w1 & E1 & E)%M_bind_inv. apply the_client_inv in E1 as (-> & s & Hs & Hc).
    apply M_bind_inv in E as (cur & w1 & Ecur & E). apply stream_find_inv in Ecur as [-> ->].
    apply M_bind_inv in E as (cs & w1 & E1 & E). apply the_stream_inv in E1 as (-> & Hcs).
    apply M_bind_inv in E as (ns & w1 & E1 & E). apply the_stream_inv in E1 as (-> & Hns). by exists s, c, ns. }
  destruct Ht as [Hw Hp]. eexists. split; [eapply move_represents; [exact Hw|exact HR|exact Hs|exact Hc|exact Hns|exact E]|].
  destruct (is_prefix _ _); [done|]. apply HP; [|done]. exists i.
  rewrite <- (represents_find w R (id c) HR). by rewrite (find_client_unique w i j s c Hw Hs Hc).
Qed.

Lemma timer_registered P fuel : (forall R cid, P R -> P (delete cid R)) ->
  safe (allowed (J := J)) (fun w => (tasks_ok w /\ registered P w) /\ sched_ok (stasks w)) (srv_timer_event fuel).
Proof.
  intros HP. apply timer_safe.
  { intros sch w (R & HR & Hr). exists R. split; [by apply (represents_streams w)|done]. }
  intros t w Ht (R & HR & Hr) Hn.
  eapply wp_mono; [by apply (stask_wp t)|]. intros [] w' E _. destruct t as [i|i|i|cid]; [| |by destruct (Hn i)|].
  - exists R. split; [|done]. eapply rest_represents, E; [|apply Ht|done]. intros L HL. by apply hold_remove_old.
  - exists R. split; [|done]. eapply rest_represents, E; [|apply Ht|done]. intros L HL. by apply hold_resume.
  - exists (delete cid R). split; [|by apply HP]. eapply delete_represents, E; [apply Ht|done].
Qed.

(** The result of a handler is as good as its invariant. *)
Lemma safe_result {A} (I : W -> Prop) (m : M W A) w a w' :
  safe (allowed (J := J)) I m -> I w -> m w = Ok (a, w') -> I w'.
Proof. intros Hm Hw E. specialize (Hm w Hw). unfold wp in Hm. by rewrite E in Hm. Qed.

(** C8: the streams and their vectors of clients implement a map from ids to
    streams, which is what looking a client up shows.  A hello inserts the client,
    at the first stream, if it is not known with its port; deleting a client
    deletes its id; moving one replaces its stream, unless the name of the old
    stream is a prefix of that of the new one.  Of the events, a run of the tasks
    only deletes; datagrams only put clients to the first stream, and take none
    away; control requests do not change which clients there are; and the events
    of pipes and of the control socket leave the map alone.  This holds in every
    state the server reaches when the events are true. *)
Theorem registry_refines fds out args w0 w R :
  (forall n U, out_opens out n U ∉ U) ->
  server_main fds out args = Ok w0 -> reachable (J := J) careful fds w0 w -> represents w R ->
  (forall c b w', clientmgr_refresh_client c w = Ok (b, w') ->
     represents w' (if known c w then R else <[id c := 0%nat]> R)) /\
  (forall cid u w', clientmgr_delete_client cid w = Ok (u, w') -> represents w' (delete cid R)) /\
  (forall i j n s c ns a w', streams w !! i = Some s -> clients s !! j = Some c -> streams w !! n = Some ns ->
     move_client i j n w = Ok (a, w') ->
     represents w' (if is_prefix (name s) (name ns) then R else <[id c := n]> R)) /\
  (forall fuel u w', srv_timer_event fuel w = Ok (u, w') -> exists R', represents w' R' /\ R' ⊆ R) /\
  (forall rs u w', srv_handle_in rs w = Ok (u, w') ->
     exists R', represents w' R' /\ forall cid, R' !! cid = R !! cid \/ R' !! cid = Some 0%nat) /\
  (forall k f r u w', handle_socket (J := J) k f r w = Ok (u, w') ->
     exists R', represents w' R' /\ forall cid, is_Some (R' !! cid) <-> is_Some (R !! cid)) /\
  (forall i f u w', srv_pipe_event i w = Ok (u, w') \/ srv_pipe_hangup i w = Ok (u, w') \/
     handle_accept f w = Ok (u, w') -> represents w' R).
Proof.
  intros Ho Hmain Hr HR. destruct (reachable_all fds out args w0 w Ho Hmain Hr) as [[Ht _] [Hs _]].
  assert (forall R' cid, R' ⊆ R -> delete cid R' ⊆ R) as H1 by (intros R' cid; etrans; [apply delete_subseteq|done]).
  assert (forall R' cid, (forall x, R' !! x = R !! x \/ R' !! x = Some 0%nat) ->
    forall x, <[cid := 0%nat]> R' !! x = R !! x \/ <[cid := 0%nat]> R' !! x = Some 0%nat) as H2.
  { intros R' cid HR' x. destruct (decide (cid = x)) as [->|]; [right; apply lookup_insert_eq|].
    rewrite lookup_insert_ne by done. apply HR'. }
  assert (forall R' cid n, is_Some (R' !! cid) -> (forall x, is_Some (R' !! x) <-> is_Some (R !! x)) ->
    forall x, is_Some (<[cid := n]> R' !! x) <-> is_Some (R !! x)) as H3.
  { intros R' cid n Hin HR' x. destruct (decide (cid = x)) as [->|]; [|by rewrite lookup_insert_ne].
    rewrite lookup_insert_eq. split; [intros _; by apply HR'|done]. }
  split_and!.
  - intros c b w' E. by eapply refresh_represents.
  - intros cid u w' E. eapply delete_represents, E; [apply Ht|done].
  - intros i j n s c ns a w' Hi Hj Hn E. eapply move_represents, E; [apply Ht|done..].
  - intros fuel u w' E. eapply (safe_result _ _ _ _ _ (timer_registered (fun R' => R' ⊆ R) fuel H1)), E.
    split; [|done]. split; [done|]. by exists R.
  - intros rs u w' E.
    eapply (safe_result _ _ _ _ _ (network_registered (fun R' => forall cid, R' !! cid = R !! cid \/ R' !! cid = Some 0%nat) rs H2)), E.
    split; [done|]. exists R. auto.
  - intros k f r u w' E.
    eapply (safe_result _ _ _ _ _ (control_registered (fun R' => forall cid, is_Some (R' !! cid) <-> is_Some (R !! cid)) k f r H3)), E.
    split; [done|]. by exists R.
  - intros i f u w' [E|[E|E]]; (eapply pipeless_represents, E; [|apply Ht|done]); intros L HL;
      [apply (keep_pipe_event _ HL)|apply (keep_hangup _ HL)|apply (keep_accept _ HL)].
Qed.

End registry.

(** After the hello the map has the client 3, and it is empty when this client is
    deleted. *)
Lemma registry_refines_witness :
  represents demo_playing {[3 := 0%nat]} /\
  exists w', clientmgr_delete_client 3 demo_playing = Ok (tt, w') /\ represents w' (delete 3 {[3 := 0%nat]}).
Proof.
  destruct (demo_start (ReadBytes (zeros 8))) as [w0|] eqn:E; [|vm_compute in E; discriminate].
  assert (careful w0 hello_event) as Hp.
  { vm_compute in E. injection E as <-. split; [split|].
    - apply (bool_decide_unpack _). vm_compute. exact I.
    - intros [|i] s; [intros [= <-]; vm_compute; discriminate|done].
    - apply (bool_decide_unpack _). vm_compute. exact I.
    - intros [|i] s; [intros [= <-]; vm_compute; discriminate|done]. }
  assert (represents demo_playing {[3 := 0%nat]}) as HR.
  { assert (cids demo_playing = [[3]]) as Ec by (vm_compute; reflexivity).
    apply represents_iff; [unfold ids_ok, ids; rewrite Ec; apply NoDup_singleton|]. intros cid i. rewrite Ec.
    rewrite lookup_singleton_Some. split.
    - intros [<- <-]. exists [3]. split; [reflexivity|]. apply list_elem_of_here.
    - intros (l & Hl & Hin). destruct i as [|i]; [|discriminate Hl]. injection Hl as <-.
      apply list_elem_of_singleton in Hin as ->. split; reflexivity. }
  split; [exact HR|].
  destruct (registry_refines demo_fds (demo_outside (ReadBytes (zeros 8))) demo_args w0 demo_playing _ next_fd_fresh E
    (demo_step _ w0 E Hp) HR) as (_ & Hdel & _).
  destruct (clientmgr_delete_client 3 demo_playing) as [[[] w']|f] eqn:Edel; [|vm_compute in Edel; discriminate].
  exists w'. split; [reflexivity|]. exact (Hdel 3 tt w' Edel).
Defined.
