(* ===== verification/Repair.v ===== *)
(** * Client and server: the repair of a loss, and registration

    The two sides of the protocol together: the datagrams of the client of
    IntercomClient.v are given to the server of ServerLoop.v, and what the server
    answers is read by the client again. *)
From S2P Require Import ServerState.
From S2P Require Import InputPipe.
From S2P Require Import ClientMgr.
From S2P Require Import IntercomSrv.
From S2P Require Import ServerProofs.
From S2P Require Import Prelude.
From S2P Require Import Timespec.
From S2P Require Import Bytes.
From S2P Require Import PQueue.
From S2P Require Import PcmChunk.
From S2P Require Import TaskHeap.
From S2P Require Import TaskSched.
From S2P Require Import Intercom.
From S2P Require Import ClientState.
From S2P Require Import AlsaDevice.
From S2P Require Import IntercomClient.
From S2P Require Import ClientGaps.

(** The fields of a request for the packet [n], sent by the client [i] as its
    packet number [k]. *)
Definition request_fields (i k n : Z) : list bytes :=
  [le_bytes 1 PACKET_FORMAT_VERSION; le_bytes 1 CLIENT_OPERATION; le_bytes 2 (htons i); le_bytes 4 (htonl k);
   le_bytes 1 REQUEST; le_bytes 1 6; le_bytes 4 (htonl n)].

Lemma request_bytes i k n : (p ← wr (zeros 14) 0 (hdr_bytes (mkHdr PACKET_FORMAT_VERSION CLIENT_OPERATION (htons i) (htonl k)));
  assemble_request p HDR_SIZE n) = Ok (concat (request_fields i k n), 6).
Proof. reflexivity. Qed.

Lemma request_renumbered i k k' n : wr32 (concat (request_fields i k n)) 4 (htonl k') = Ok (concat (request_fields i k' n)).
Proof. reflexivity. Qed.

Lemma request_read i k n tail : 0 <= i < 65536 -> 0 <= n < 4294967296 ->
  let p := concat (request_fields i k n) ++ tail in
  hdr_at p = Ok (mkHdr PACKET_FORMAT_VERSION CLIENT_OPERATION (htons i) (htonl k)) /\
  rd8 p HDR_SIZE = Ok REQUEST /\ parse_request p HDR_SIZE = Ok (n, 6) /\ get_nonce_from_tlv p HDR_SIZE = Ok n.
Proof.
  intros Hi Hn p. unfold p. rewrite concat_tail. pose (F := request_fields i k n).
  split; [apply hdr_at_fields; [done|done|apply htons_range|apply htonl_range]|].
  split; [by field (take 4 F)|]. unfold parse_request, get_nonce_from_tlv, mbind, res_bind.
  split; field (take 6 F); [field (take 5 F)|]; by rewrite ntohl_htonl.
Qed.

(** The fields of a hello of the client [i], as its packet number [k]. *)
Definition hello_fields (i k latency volume : Z) : list bytes :=
  [le_bytes 1 PACKET_FORMAT_VERSION; le_bytes 1 CLIENT_OPERATION; le_bytes 2 (htons i); le_bytes 4 (htonl k);
   le_bytes 1 HELLO; le_bytes 1 9; le_bytes 2 (htons i); le_bytes 4 (htonl latency); le_bytes 1 volume].

(** The packet of the first hello task. *)
Definition blank_hello (i k : Z) : bytes :=
  concat [le_bytes 1 PACKET_FORMAT_VERSION; le_bytes 1 CLIENT_OPERATION; le_bytes 2 (htons i); le_bytes 4 (htonl k)]
    ++ zeros 9.

Lemma blank_bytes i k :
  wr (zeros 17) 0 (hdr_bytes (mkHdr PACKET_FORMAT_VERSION CLIENT_OPERATION (htons i) (htonl k))) = Ok (blank_hello i k).
Proof. reflexivity. Qed.

Lemma hello_bytes i k k' j latency volume :
  (p ← wr32 (blank_hello i k) 4 (htonl k'); assemble_hello p HDR_SIZE j latency volume) =
  Ok (concat (take 4 (hello_fields i k' latency volume) ++ drop 4 (hello_fields j k' latency volume)), 9).
Proof. reflexivity. Qed.

Lemma hello_read i k latency volume tail : 0 <= i < 65536 -> 0 <= latency < 4294967296 -> is_byte volume ->
  let p := concat (hello_fields i k latency volume) ++ tail in
  hdr_at p = Ok (mkHdr PACKET_FORMAT_VERSION CLIENT_OPERATION (htons i) (htonl k)) /\
  rd8 p HDR_SIZE = Ok HELLO /\ parse_hello p HDR_SIZE = Ok (i, latency, volume, 9).
Proof.
  intros Hi Hl Hv p. unfold p. rewrite concat_tail. pose (F := hello_fields i k latency volume).
  split; [apply hdr_at_fields; [done|done|apply htons_range|apply htonl_range]|].
  split; [by field (take 4 F)|]. unfold parse_hello, mbind, res_bind.
  field (take 6 F). field (take 7 F). field (take 8 F). field (take 5 F).
  by rewrite ntohl_htonl, ntohs_htons.
Qed.

Section repair.
Context {Q Dec Enc Dev : Type} `{!TimerQueue Q, !TimerQueueLaws Q, !OpusLib Dec Enc, !AlsaLib Dev}.
Implicit Types (c : client Q Dec Enc Dev) (w : server Q Dec Enc).

(** The task that asks for the packet [n] the first time. *)
Definition first_request c (n : Z) : intercom_task :=
  mkItask (concat (request_fields (nodeid (ictx c)) (c_nonce c mod NONCE_MAX) n)) (Some (serverip (ictx c)))
    (u8 (bufferms c / REQUEST_RETRY_INTERVAL_MS)).

Lemma send_request_posts c n : client_ok c -> 0 <= n < 4294967296 ->
  exists c' a t, intercom_send_request (ap_key n) c = Ok (tt, c') /\ client_ok c' /\ ictx c' = ictx c /\
    s_tasks (tasks c') !! a = Some t /\ tr_running t = false /\ tr_payload t = RequestTask (first_request c n).
Proof.
  intros Hc Hn. unfold intercom_send_request, the_ictx, gets, next_nonce, lift, mbind, M_bind.
  simpl get_nonce. cbv iota beta. set (c1 := set_nonce _ c).
  pose proof (request_bytes (nodeid (ictx c)) (c_nonce c mod NONCE_MAX) n) as E. unfold mbind, res_bind in E.
  destruct (wr (zeros 14) 0 (hdr_bytes _)) as [p0|]; [|done]. simpl ap_nonce. rewrite E.
  change (mkItask _ _ _) with (first_request c n).
  destruct (post_client c1 0 0 (RequestTask (first_request c n))) as (a & d & s' & E' & Hok & _ & _ & Ht);
    [exact Hc|lia|lia|].
  rewrite E'. exists (set_tasks s' c1), a, (mkTrec d false (RequestTask (first_request c n))).
  split; [done|]. split; [done|]. split; [done|]. simpl. by rewrite Ht, lookup_insert_eq.
Qed.

(** Running the task as long as the packet is missing sends the request. *)
Lemma request_task_sends c i k n r ip : client_ok c -> 0 <= i < 65536 -> 0 <= n < 4294967296 -> 0 < r < 256 ->
  n ∈ nonces (missing_packets (ictx c)) ->
  exists c' k', request_task (mkItask (concat (request_fields i k n)) (Some ip) r) c = Ok (tt, c') /\
    sent c' = sent c ++ [mkDgram ip (u16 (port (ictx c))) (concat (request_fields i k' n))].
Proof.
  intros Hc Hi Hn Hr Hin. unfold request_task, next_nonce, the_ictx, gets, lift, mbind, M_bind.
  simpl get_nonce. cbv iota beta. set (c1 := set_nonce _ c). set (k' := c_nonce c mod NONCE_MAX).
  set (t := mkItask _ _ _). change (it_packet t) with (concat (request_fields i k n)). rewrite request_renumbered.
  destruct (request_read i k' n [] Hi Hn) as (_ & _ & _ & E). rewrite app_nil_r in E. rewrite E.
  change (it_retries_left t) with r. rewrite (proj2 (Z.gtb_lt r 0)) by lia.
  change (missing_packets (ictx c1)) with (missing_packets (ictx c)).
  rewrite (proj2 (already_requesting_spec _ n) Hin). unfold intercom_send_packet_unicast, modify, lift, mbind, M_bind.
  change (it_recipient t) with (Some ip). change (length (concat (request_fields i k' n))) with 14%nat. rewrite rd_all.
  set (c2 := set_sent _ c1).
  destruct (post_client c2 0 REQUEST_RETRY_INTERVAL_MS
    (RequestTask (mkItask (concat (request_fields i k' n)) (Some ip) (u8 (r - 1)))))
    as (a & d & s' & E' & _); [exact Hc|lia|unfold REQUEST_RETRY_INTERVAL_MS; lia|].
  rewrite E'. by exists (set_tasks s' c2), k'.
Qed.

(** C4: a packet that was lost is repaired. A client in order whose id fits 16
    bits, whose buffer is between 100 and 25599 ms long (a request has one
    attempt for every 100 ms of it, counted in a byte: outside of these lengths
    it can have none and is given up without being sent) and that misses the
    packet [n], below NONCE_MAX, posts a task that asks for it. Whenever this
    task is run, in a client in order that still misses the packet, a datagram
    is sent to the server. When it arrives at a server that knows the client's
    id and keeps the packet, complete and as [assemble_audio] made it of a
    well-formed chunk, the server sends exactly that packet to where the
    datagram came from; and from what it sends one reads this chunk and the
    number [n]. (What the later attempts do is in [request_task_spec].) *)
Theorem loss_repaired c w i j s k ap d ch n ms len m tail1 tail2 peer pport fuel :
  client_ok c -> 0 <= nodeid (ictx c) < 65536 -> 100 <= bufferms c < 25600 -> 0 <= n < NONCE_MAX ->
  find_client_in (streams w) (nodeid (ictx c)) = Some (i, j) -> streams w !! i = Some s ->
  lsearch (ap_key n) (packet_buffer s) = Some (k, ap) -> packet_ok ap -> ap_data ap = Some d ->
  chunk_ok ch -> 0 <= ms < 65536 -> assemble_audio ch n ms = Ok (d, len, m) ->
  exists c1 a t task, intercom_send_request (ap_key n) c = Ok (tt, c1) /\
    s_tasks (tasks c1) !! a = Some t /\ tr_running t = false /\ tr_payload t = RequestTask task /\
    forall c2, client_ok c2 -> n ∈ nonces (missing_packets (ictx c2)) ->
      exists c3 p w', request_task task c2 = Ok (tt, c3) /\
        sent c3 = sent c2 ++ [mkDgram (serverip (ictx c)) (u16 (port (ictx c2))) p] /\ length p = 14%nat /\
        srv_handle_packet (S (S fuel)) (p ++ tail1) 14 peer pport w = Ok (tt, w') /\
        ssent w' = ssent w ++ [mkDgram peer (u16 pport) d] /\
        parse_audio (d ++ tail2) = Ok ch /\
        exists h, hdr_at (d ++ tail2) = Ok h /\ ntohl (hnonce h) = n.
Proof.
  intros Hc Hid Hb Hn Hfind Hs Hl Hap Hd Hch Hms Ha. unfold NONCE_MAX in Hn.
  destruct (send_request_posts c n Hc) as (c1 & a & t & E1 & _ & _ & Ht & Hr & Hp); [lia|].
  exists c1, a, t, (first_request c n). do 4 (split; [done|]). intros c2 Hc2 Hin.
  destruct (request_task_sends c2 (nodeid (ictx c)) (c_nonce c mod NONCE_MAX) n
    (u8 (bufferms c / REQUEST_RETRY_INTERVAL_MS)) (serverip (ictx c))) as (c3 & k' & E3 & Hsent);
    [done|done|lia| |done|].
  { unfold REQUEST_RETRY_INTERVAL_MS.
    assert (1 <= bufferms c / 100 < 256); [|by rewrite u8_small; lia].
    split; [apply Z.div_le_lower_bound|apply Z.div_lt_upper_bound]; lia. }
  destruct (request_read (nodeid (ictx c)) k' n tail1 Hid) as (Eh & Et & Ep & _); [lia|].
  eexists c3, _, _. split; [exact E3|]. split; [exact Hsent|].
  set (p := concat (request_fields (nodeid (ictx c)) k' n)). fold p in Eh, Et, Ep.
  split; [done|]. split.
  { unfold srv_handle_packet, lift, modify, mbind, M_bind. rewrite Eh. set (h := mkHdr _ _ _ _) in *.
    set (w1 := set_recent (intercom_recently_seen_add (recent w) h) w).
    destruct (request_total w1 (p ++ tail1) _ n peer pport fuel Eh Et Ep) as [Hserved _].
    change (version h =? PACKET_FORMAT_VERSION) with true. change (type h =? CLIENT_OPERATION) with true.
    cbv iota beta. fold w1. rewrite (Hserved i j s k ap d); [done| |done|done|done|done].
    change (ntohs (clientid h)) with (ntohs (htons (nodeid (ictx c)))). by rewrite ntohs_htons. }
  split; [done|].
  destruct (audio_wire ch n ms tail2 Hch) as (p' & Ea & _ & Hparse & Hh & _); [lia|done|].
  assert (p' = d) as -> by congruence. split; [done|]. eexists. split; [exact Hh|].
  simpl. by rewrite Z.mod_small, ntohl_htonl by (unfold NONCE_MAX; lia).
Qed.

(** *** Registration *)

Lemma send_hello_run c k r rcp : client_ok c -> is_softvol (alsa c) = true ->
  let i := nodeid (ictx c) in
  exists c' k', send_hello (mkItask (blank_hello i k) (Some rcp) r) c = Ok (tt, c') /\
    sent c' = sent c ++ [mkDgram rcp (u16 (port (ictx c)))
      (concat (hello_fields i k' (latency_ms (alsa c)) (softvol_level (alsa c))))].
Proof.
  intros Hc Hsoft i. unfold send_hello, next_nonce, the_ictx, gets, lift, mbind, M_bind.
  simpl get_nonce. cbv iota beta. set (c1 := set_nonce _ c). set (k' := c_nonce c mod NONCE_MAX).
  set (t := mkItask _ _ _). change (it_packet t) with (blank_hello i k).
  pose proof (hello_bytes i k k' i (latency_ms (alsa c)) (softvol_level (alsa c))) as E. unfold mbind, res_bind in E.
  destruct (wr32 (blank_hello i k) 4 _) as [p0|]; [|done].
  unfold obtain_volume. change (alsa c1) with (alsa c). rewrite Hsoft. cbv iota beta delta [mret M_ret modify].
  change (nodeid (ictx c1)) with i. rewrite E. cbv iota beta.
  set (p := concat (take 4 _ ++ _)). change p with (concat (hello_fields i k' (latency_ms (alsa c)) (softvol_level (alsa c)))) in *.
  clear p. set (p := concat _). unfold intercom_send_packet_unicast, modify, lift, mbind, M_bind.
  change (it_recipient t) with (Some rcp). change (length p) with 17%nat. rewrite rd_all. set (c2 := set_sent _ _).
  destruct (post_client c2 1 500 (HelloTask (mkItask p (Some rcp) (it_retries_left t)))) as (a & d & s' & E' & _);
    [exact Hc|lia|lia|]. rewrite E'. by eexists _, k'.
Qed.

(** C12: a hello registers the client. A client in order that uses the software
    volume, and whose id, latency and volume fit their fields of 16, 32 and 8
    bits, sends, by its hello task, a datagram with them. At a server whose
    scheduler is in order, that does not know the id, whose first stream is
    initialised, has no clients and keeps only complete packets, and whose pipe
    is idle, open, without a task to resume it ([dormant]) and not watched (an
    idle pipe that is still watched makes the server exit), this datagram adds
    the client to the first stream with the identity, latency and volume the
    client has and the address the datagram came from; the stream's pipe is
    watched and playing; the packets that are kept are sent to the client; and a
    task waits that will delete it when it falls silent. *)
Theorem hello_registers c w s rest k r tail peer pport fuel :
  client_ok c -> 0 <= nodeid (ictx c) < 65536 -> 0 <= latency_ms (alsa c) < 4294967296 ->
  is_softvol (alsa c) = true -> is_byte (softvol_level (alsa c)) ->
  server_ok w -> streams w = s :: rest -> find_client_in (streams w) (nodeid (ictx c)) = None -> dormant s ->
  fd (inputpipe s) ∉ efd w -> Forall packet_ok (packet_buffer s) ->
  exists c' p w' s' x t,
    send_hello (mkItask (blank_hello (nodeid (ictx c)) k) (Some (serverip (ictx c))) r) c = Ok (tt, c') /\
    sent c' = sent c ++ [mkDgram (serverip (ictx c)) (u16 (port (ictx c))) p] /\ length p = 17%nat /\
    srv_handle_packet (S (S fuel)) (p ++ tail) 17 peer pport w = Ok (tt, w') /\
    streams w' = s' :: rest /\ clients s' = [x] /\ id x = nodeid (ictx c) /\ ip x = peer /\ cport x = pport /\
    latency x = latency_ms (alsa c) /\ volume_percent x = softvol_level (alsa c) /\ connected x = true /\
    state (inputpipe s') = PLAYING /\ fd (inputpipe s) ∈ efd w' /\ ssent w' = ssent w ++ replayed x (packet_buffer s) /\
    waits w' t (DeleteClient (nodeid (ictx c))) /\ server_ok w'.
Proof.
  intros Hc Hid Hlat Hsoft Hvol Hw Hs Hnone Hd Hfd Hbuf.
  destruct (send_hello_run c k r (serverip (ictx c)) Hc Hsoft) as (c' & k' & E1 & Hsent).
  set (i := nodeid (ictx c)) in *. set (lat := latency_ms (alsa c)) in *. set (v := softvol_level (alsa c)) in *.
  destruct (hello_read i k' lat v tail Hid Hlat Hvol) as (Eh & Et & Ep).
  set (p := concat (hello_fields i k' lat v)) in *.
  set (h := mkHdr PACKET_FORMAT_VERSION CLIENT_OPERATION (htons i) (htonl k')) in *.
  set (w1 := set_recent (intercom_recently_seen_add (recent w) h) w).
  set (cl := mkSclient peer pport i false zero_time 0 lat v false None (mkIdent [] (zeros 6))).
  destruct (refresh_new_total w1 s rest cl) as (w' & s' & t & Er & Hs' & Hcl & Hst & Hfd' & _ & Hsnt & Hwt & Hok);
    [exact Hw|done|done|done|done|done|].
  eexists c', p, w', s', _, t. split; [exact E1|]. split; [exact Hsent|]. split; [done|]. split.
  { unfold srv_handle_packet, lift, modify, mbind, M_bind. rewrite Eh.
    change (version h =? PACKET_FORMAT_VERSION) with true. change (type h =? CLIENT_OPERATION) with true.
    cbv iota beta. fold w1. unfold intercom_handle_client_operation. cbn [cop_loop].
    change (HDR_SIZE <? 17) with true. unfold lift, mbind, M_bind, mret, M_ret. rewrite Et.
    change (HELLO =? HELLO) with true. cbv iota beta. unfold handle_hello_segment, lift, mbind, M_bind, mret, M_ret.
    rewrite Ep. fold cl. rewrite Er. change (HDR_SIZE + 9 <? 17) with false. done. }
  split; [exact Hs'|]. split; [exact Hcl|]. do 5 (split; [done|]). split; [done|]. split; [exact Hst|].
  split; [exact Hfd'|]. split; [exact Hsnt|]. split; [exact Hwt|exact Hok].
Qed.
End repair.

(** A client that misses the packet 41, and the server of ServerProofs.v. *)
Definition demo_misser : client forest unit unit unit :=
  set_ictx (with_missing [ap_key 41] (ictx demo_client)) demo_client.

Lemma loss_repaired_witness :
  exists task c3 p w', request_task task demo_misser = Ok (tt, c3) /\ sent c3 = [mkDgram 9 1704 p] /\
    srv_handle_packet 2 (p ++ [7; 7]) 14 8 5000 demo_server = Ok (tt, w') /\
    exists d, ssent w' = [mkDgram 8 5000 d] /\ parse_audio (d ++ [1]) = Ok demo_chunk.
Proof.
  destruct (loss_repaired demo_client demo_server 0 0 (demo_stream PLAYING) 0 demo_stored
    (concat (audio_fields demo_chunk 41 500 [1; 2; 3; 4; 5; 6; 7; 8])) demo_chunk 41 500 35 (Some 42) [7; 7] [1] 8 5000 0)
    as (c1 & a & t & task & _ & _ & _ & _ & H).
  - exact demo_client_ok.
  - simpl. lia.
  - simpl. lia.
  - unfold NONCE_MAX. lia.
  - vm_compute. reflexivity.
  - reflexivity.
  - vm_compute. reflexivity.
  - exact demo_stored_ok.
  - reflexivity.
  - exact demo_chunk_ok.
  - lia.
  - vm_compute. reflexivity.
  - destruct (H demo_misser) as (c3 & p & w' & E1 & Hs & _ & E2 & Hw & Hp & _); [exact demo_client_ok|by constructor|].
    exists task, c3, p, w'. split; [exact E1|]. split; [exact Hs|]. split; [exact E2|].
    eexists. split; [exact Hw|exact Hp].
Defined.

Definition demo_newcomer : client forest unit unit unit :=
  set_alsa (with_mixer 0 true 80 demo_alsa) demo_client.

Lemma hello_registers_witness :
  exists (c' : client forest unit unit unit) p w' x, sent c' = [mkDgram 9 1704 p] /\
    srv_handle_packet 2 (p ++ [7]) 17 8 5001 demo_waiting = Ok (tt, w') /\
    7 ∈ efd w' /\ id x = 3 /\ volume_percent x = 80 /\ ssent w' = replayed x [demo_stored].
Proof.
  destruct (hello_registers demo_newcomer demo_waiting demo_dormant [] 0 0 [7] 8 5001 0)
    as (c' & p & w' & s' & x & t & _ & Hsent & _ & E & _ & _ & Hi & _ & _ & _ & Hv & _ & _ & Hfd & Hs & _).
  - exact demo_client_ok.
  - simpl. lia.
  - simpl. lia.
  - reflexivity.
  - unfold is_byte. simpl. lia.
  - exact demo_server_ok.
  - reflexivity.
  - vm_compute. reflexivity.
  - by split.
  - simpl. set_solver.
  - repeat constructor. exact demo_stored_ok.
  - exists c', p, w', x. split; [exact Hsent|]. split; [exact E|]. split; [exact Hfd|].
    split; [exact Hi|]. split; [exact Hv|exact Hs].
Defined.
