(* ===== verification/EndToEnd.v ===== *)
(** * Server and client together

    What becomes of the server's commands at the client: theorems that put the
    packets ClientMgr.v builds into the client's packet handler. *)
From S2P Require Import ServerState.
From S2P Require Import InputPipe.
From S2P Require Import ClientMgr.
From S2P Require Import Prelude.
From S2P Require Import Timespec.
From S2P Require Import Bytes.
From S2P Require Import PQueue.
From S2P Require Import PcmChunk.
From S2P Require Import TaskHeap.
From S2P Require Import TaskSched.
From S2P Require Import Intercom.
From S2P Require Import ClientState.
From S2P Require Import AlsaDevice.
From S2P Require Import IntercomClient.
From S2P Require Import ClientGaps.
From S2P Require Import ClientBuffer.

(** The bytes of a volume command. *)
Definition volume_fields (v : Z) : list bytes :=
  [le_bytes 1 PACKET_FORMAT_VERSION; le_bytes 1 SERVER_OPERATION; le_bytes 2 0; le_bytes 4 0;
   le_bytes 1 CLIENT_VOLUME; le_bytes 1 3; le_bytes 1 v].

Lemma volume_packet_fields v : ClientMgr.volume_packet v = Ok (concat (volume_fields v)).
Proof. reflexivity. Qed.

(** The header of every server operation. *)
Definition sop_hdr : intercom_packet_hdr := mkHdr PACKET_FORMAT_VERSION SERVER_OPERATION 0 0.

Lemma volume_hdr v tail : hdr_at (concat (volume_fields v) ++ tail) = Ok sop_hdr.
Proof. rewrite concat_tail. by apply hdr_at_fields. Qed.

Section client.
Context {Q Dec Enc Dev : Type} `{!TimerQueue Q, !TimerQueueLaws Q, !OpusLib Dec Enc, !AlsaLib Dev}.
Implicit Types (c : client Q Dec Enc Dev).

Lemma volume_segment_run v tail c : is_byte v -> is_softvol (alsa c) = true ->
  handle_sop_segment (concat (volume_fields v) ++ tail) HDR_SIZE c =
    Ok (11, set_alsa (with_mixer (mixer_max (alsa c)) true v (alsa c)) c).
Proof.
  intros Hv Hsoft. rewrite concat_tail. pose (F := volume_fields v).
  assert (rd8 (concat (volume_fields v ++ [tail])) HDR_SIZE = Ok CLIENT_VOLUME) as Et.
  { by field (take 4 F). }
  assert (parse_volume (concat (volume_fields v ++ [tail])) HDR_SIZE = Ok (v, 3)) as Ep.
  { unfold parse_volume, mbind, res_bind, mret, res_ret. field (take 6 F). by field (take 5 F). }
  unfold handle_sop_segment, lift, mbind, M_bind. rewrite Et, Ep.
  unfold on_alsa, adjustVolume, gets, modify, mbind, M_bind. simpl. by rewrite Hsoft.
Qed.

(** The client after it obeyed a volume command. *)
Definition obeyed (v : Z) c : client Q Dec Enc Dev :=
  set_alsa (with_mixer (mixer_max (alsa c)) true v (alsa c))
    (set_ictx (with_recent (intercom_recently_seen_add (recent_packets (ictx c)) sop_hdr) (ictx c)) c).

(** Of two commands of the server in a row the client obeys only the first.
    A volume command reaches the player unchanged, but all server operations
    carry the nonce 0, so the next one, unless an audio packet comes in between,
    looks like a repetition of the first and is dropped. *)
Theorem second_command_dropped c v1 v2 tail :
  is_byte v1 -> is_byte v2 -> is_softvol (alsa c) = true ->
  intercom_recently_seen (recent_packets (ictx c)) sop_hdr = false ->
  exists p1 p2, ClientMgr.volume_packet v1 = Ok p1 /\ ClientMgr.volume_packet v2 = Ok p2 /\
    intercom_handle_packet 12 (p1 ++ tail) 11 c = Ok (tt, obeyed v1 c) /\
    softvol_level (alsa (obeyed v1 c)) = v1 /\
    intercom_handle_packet 12 (p2 ++ tail) 11 (obeyed v1 c) = Ok (tt, obeyed v1 c).
Proof.
  intros H1 H2 Hsoft Hseen. exists (concat (volume_fields v1)), (concat (volume_fields v2)).
  split; [apply volume_packet_fields|]. split; [apply volume_packet_fields|].
  unfold intercom_handle_packet, the_ictx, gets, lift, mbind, M_bind. rewrite !volume_hdr.
  change (version sop_hdr =? PACKET_FORMAT_VERSION) with true. cbv iota. split; [|split; [done|]].
  - rewrite Hseen. unfold upd_ictx, modify.
    change (type sop_hdr =? SERVER_OPERATION) with true. change (type sop_hdr =? AUDIO_DATA) with false.
    cbv iota. unfold intercom_handle_server_operation. cbn [sop_loop].
    change (HDR_SIZE <? 11) with true. cbv iota. unfold mbind, M_bind.
    rewrite volume_segment_run by done. change (11 <? 11) with false. done.
  - change (recent_packets (ictx (obeyed v1 c))) with (trim_recent (recent_packets (ictx c)) ++ [sop_hdr]).
    by rewrite recently_seen_snoc, !Z.eqb_refl.
Qed.
(** The size that an audio packet announces is compared neither with the length of
    the datagram nor with the buffer it is in: with a size that reaches beyond the
    buffer the client copies what lies behind it. *)
Theorem audio_size_unchecked c fuel p len h ch :
  hdr_at p = Ok h -> version h = PACKET_FORMAT_VERSION -> type h = AUDIO_DATA ->
  intercom_recently_seen (recent_packets (ictx c)) h = false ->
  chunk_at p AUDIO_HDR_SIZE = Ok ch -> 0 <= size (chunk_ntoh ch) ->
  Z.of_nat (length p) < 27 + size (chunk_ntoh ch) ->
  intercom_handle_packet fuel p len c = Fault OutOfBounds.
Proof.
  intros Hh Hv Ht Hseen Hch H0 Hsize. unfold intercom_handle_packet, the_ictx, gets, lift, mbind at 1, M_bind at 1.
  rewrite Hh, Hv, Z.eqb_refl. unfold mbind, M_bind. rewrite Hseen, Ht. unfold upd_ictx, modify.
  change (AUDIO_DATA =? SERVER_OPERATION) with false. change (AUDIO_DATA =? AUDIO_DATA) with true. cbv iota beta.
  unfold skip, intercom_handle_audio, lift, mbind, M_bind.
  assert (parse_audio p = Fault OutOfBounds) as ->; [|done].
  unfold parse_audio. rewrite Hch. unfold mbind, res_bind.
  replace (size (chunk_ntoh (chunk_copy_meta (mkChunk 0 0 0 0 0 0 0 None) ch))) with (size (chunk_ntoh ch)) by done.
  rewrite rd_out; [done|]. change (CHUNK_HEADER_SIZE + AUDIO_HDR_SIZE) with 27. lia.
Qed.

(** ** Audio packets *)

(** The device is open for chunks of the format of [ch]. *)
Definition device_fits c (ch : pcmChunk) : Prop :=
  initialized (alsa c) = true /\ rate (alsa c) = samples ch /\ a_channels (alsa c) = channels ch /\
  a_frame_size (alsa c) = frame_size ch.

Lemma adapt_device_fits c ch : device_fits c ch -> adapt_device ch c = Ok (tt, c).
Proof.
  intros (Hi & Hr & Hc & Hf). unfold adapt_device, gets, mbind, M_bind.
  rewrite Hr, Hc, Hf, !Z.eqb_refl. simpl. by rewrite Hi.
Qed.

(** The header of the audio packet number [n]. *)
Definition audio_hdr (n : Z) : intercom_packet_hdr :=
  mkHdr PACKET_FORMAT_VERSION AUDIO_DATA 0 (htonl (n mod NONCE_MAX)).

(** What becomes of a packet that arrives; the rest of the state included. *)
Lemma deliver c ch n ms tail q l :
  let x := ictx c in
  let rest := (remove_request n (missing_packets x)).2 in
  let gap := seqZ (lastreceviedseqno x + 1) (n - lastreceviedseqno x - 1) in
  let kept := live (sysclk c (S (systicks c))) l in
  let new := filter (fun i => i ∉ nonces rest) gap in
  client_ok c -> chunk_ok ch -> device_fits c ch -> 0 <= ms < 65536 ->
  intercom_recently_seen (recent_packets x) (audio_hdr n) = false ->
  receivebuffer x = Some q -> fifo receivebuffer_cmp q l -> 0 < capacity q < 2 ^ 31 ->
  timespec_cmp (chunk_get_play_at (Some ch)) (sysclk c (systicks c)) > 0 ->
  Z.of_nat (length kept) < capacity q -> Forall (fun y => later receivebuffer_cmp y ch) kept ->
  0 <= lastreceviedseqno x < n -> n < 2 ^ 31 -> n - lastreceviedseqno x < capacity q ->
  Z.of_nat (length rest + length gap) <= capacity q ->
  exists p len k c' q', assemble_audio ch n ms = Ok (p, len, k) /\
    intercom_handle_packet 0 (p ++ tail) len c = Ok (tt, c') /\
    receivebuffer (ictx c') = Some q' /\ fifo receivebuffer_cmp q' (kept ++ [ch]) /\
    lastreceviedseqno (ictx c') = n /\ missing_packets (ictx c') = rest ++ (ap_key <$> new) /\
    (forall i, i ∈ new -> requested c' i (attempts c)) /\
    client_ok c' /\ grows c c' /\ alsa c' = alsa c /\ underrun c' = false /\
    sysclk c' = sysclk c /\ bufferms c' = bufferms c /\ serverip (ictx c') = serverip x /\ capacity q' = capacity q /\
    recent_packets (ictx c') = intercom_recently_seen_add (recent_packets x) (audio_hdr n).
Proof.
  intros x rest gap kept new Hok Hch Hdev Hms Hseen Hbuf Hq Hcap Hplay Hroom Hlater Hlast Hn Hnear Hmiss.
  destruct (audio_wire ch n ms tail) as (p & Ea & _ & Hparse & Hhdr & _); [done|lia|done|].
  exists p, (27 + size ch), (Some (u32 (n + 1))).
  set (c1 := set_ictx (with_recent (intercom_recently_seen_add (recent_packets x) (audio_hdr n)) x) c).
  set (c2 := set_ictx (with_missing rest (ictx c1)) c1).
  assert (buffer_capacity (receivebuffer (ictx (systick c2))) = capacity q) as Ecap by (simpl; by rewrite Hbuf).
  destruct (gap_run (systick c2) n) as (c3 & Egap & Hasked);
    [exact Hok|apply Hlast|apply Hlast|done|rewrite Ecap; exact Hnear|rewrite Ecap; lia|rewrite Ecap; exact Hmiss|].
  destruct Hasked as [Hok3 Hg3 Hb3 (Hal & Hclk & Htk & _) Hx3 Hreq].
  destruct (put_chunk_total c3 ch q l) as (q' & Eput & Hq' & Hcap4).
  { by rewrite Hx3. } { done. } { by rewrite Hclk, Htk. } { by rewrite Hclk, Htk. }
  destruct (after_put_fields c3 l q') as (Hx4 & Hu & Ht4 & Hal4 & _ & Hclk4 & Hb4).
  set (c4 := after_put c3 l q') in *. clearbody c4.
  set (c5 := set_ictx (with_lastseqno n (ictx c4)) c4).
  exists c5, q'. split; [exact Ea|]. split.
  { assert (ntohl (hnonce (audio_hdr n)) = n) as Eseq.
    { simpl. rewrite Z.mod_small, ntohl_htonl by (unfold NONCE_MAX; lia). done. }
    assert (lastreceviedseqno (ictx c4) = lastreceviedseqno x) as El by (by rewrite Hx4, Hx3).
    unfold intercom_handle_packet, the_ictx, gets, lift, mbind, M_bind. rewrite Hhdr. fold (audio_hdr n).
    change (version (audio_hdr n) =? PACKET_FORMAT_VERSION) with true. cbv beta iota. fold x. rewrite Hseen.
    change (type (audio_hdr n) =? SERVER_OPERATION) with false.
    change (type (audio_hdr n) =? AUDIO_DATA) with true.
    unfold intercom_handle_audio, the_ictx, upd_ictx, gets, modify, lift, mbind, M_bind.
    rewrite Hparse, Hhdr. fold (audio_hdr n). rewrite Eseq. cbv iota beta delta [skip mret M_ret].
    fold x c1. change (missing_packets (ictx c1)) with (missing_packets x). fold rest c2.
    change (buffer_capacity (receivebuffer (ictx c2))) with (buffer_capacity (receivebuffer (ictx (systick c2)))).
    rewrite Ecap, (proj2 (Z.eqb_neq (capacity q) 0)) by lia. unfold obtainsystime. cbv iota beta.
    change (mkTime _ _) with (chunk_get_play_at (Some ch)).
    change (sysclk c2 (systicks c2)) with (sysclk c (systicks c)).
    rewrite (proj2 (Z.gtb_lt _ _)), Egap, Eput by lia.
    rewrite El, (proj2 (Z.gtb_lt n _)) by lia. fold c5. rewrite adapt_device_fits; [done|].
    unfold device_fits. change (alsa c5) with (alsa c4). by rewrite Hal4, Hal. }
  split; [by simpl; rewrite Hx4|]. split; [by rewrite Hclk, Htk in Hq'|]. split; [done|].
  split; [by simpl; rewrite Hx4, Hx3|]. split.
  { intros i Hi. destruct (Hreq i Hi) as (a & t & d & Ht & H). exists a, t, d.
    change (tasks c5) with (tasks c4). rewrite Ht4. split; [done|]. simpl.
    by rewrite Hx4, Hx3 in *. }
  split; [unfold client_ok; simpl; by rewrite Ht4|].
  split; [intros a t Ha; simpl; rewrite Ht4; by apply Hg3|]. split; [simpl; by rewrite Hal4, Hal|].
  simpl. rewrite Hx4, Hx3, Hclk4, Hclk, Hb4, Hb3. done.
Qed.

(** C3: a chunk the server sends reaches the client's buffer. The packet that
    the server makes of a well-formed chunk, the number [n] and the length of
    its buffer, which fits 16 bits, arrives at a client in order that has a
    buffer in play order, with a capacity below 2^31, and a device that is open
    in the chunk's format. The chunk is due after the time the clock shows and
    after the chunks that are kept, those whose time has not passed, which leave
    a place free in the buffer; [n] is above the last number received, by less
    than the buffer's capacity, and below 2^31; the packet is not a repetition
    of the one remembered last; and the gap fits on the list of missing packets,
    together with what is on it. Then the chunk is behind the kept ones in the
    buffer, [n] is the last number received, the first entry for [n] (the only
    one, where there are no duplicates) is off the list of missing packets, and
    every number between the previous one and [n] that was not on it is, with a
    request for it in the task queue. The player's state does not change.
    Outside of these conditions [put_chunk_fifo] (a full buffer drops the chunk)
    and [handle_gap_silent] say what happens. *)
Theorem audio_delivered c ch n ms tail q l :
  let x := ictx c in
  let rest := without n (missing_packets x) in
  let gap := seqZ (lastreceviedseqno x + 1) (n - lastreceviedseqno x - 1) in
  let kept := live (sysclk c (S (systicks c))) l in
  let new := filter (fun i => i ∉ nonces rest) gap in
  client_ok c -> chunk_ok ch -> device_fits c ch -> 0 <= ms < 65536 ->
  intercom_recently_seen (recent_packets x) (audio_hdr n) = false ->
  receivebuffer x = Some q -> fifo receivebuffer_cmp q l -> 0 < capacity q < 2 ^ 31 ->
  timespec_cmp (chunk_get_play_at (Some ch)) (sysclk c (systicks c)) > 0 ->
  Z.of_nat (length kept) < capacity q -> Forall (fun y => later receivebuffer_cmp y ch) kept ->
  0 <= lastreceviedseqno x < n -> n < 2 ^ 31 -> n - lastreceviedseqno x < capacity q ->
  Z.of_nat (length rest + length gap) <= capacity q ->
  exists p len k c' q', assemble_audio ch n ms = Ok (p, len, k) /\
    intercom_handle_packet 0 (p ++ tail) len c = Ok (tt, c') /\
    receivebuffer (ictx c') = Some q' /\ fifo receivebuffer_cmp q' (kept ++ [ch]) /\
    lastreceviedseqno (ictx c') = n /\ missing_packets (ictx c') = rest ++ (ap_key <$> new) /\
    (forall i, i ∈ new -> requested c' i (attempts c)) /\
    client_ok c' /\ grows c c' /\ alsa c' = alsa c /\ underrun c' = false.
Proof.
  intros x rest gap kept new Hok Hch Hdev Hms Hseen Hbuf Hq Hcap Hplay Hroom Hlater Hlast Hn Hnear Hmiss.
  assert (rest = (remove_request n (missing_packets x)).2) as Er by (symmetry; apply remove_request_without).
  unfold new. rewrite Er in Hmiss |- *.
  destruct (deliver c ch n ms tail q l) as (p & len & k & c' & q' & H); [done..|].
  exists p, len, k, c', q'. naive_solver.
Qed.
End client.

Definition demo_soft : client forest unit unit unit :=
  set_alsa (with_mixer 0 true 80 demo_alsa) demo_client.

Lemma second_command_dropped_witness :
  exists p1 c1, intercom_handle_packet 12 (p1 ++ [0; 0; 0]) 11 demo_soft = Ok (tt, c1) /\
    softvol_level (alsa c1) = 55.
Proof.
  destruct (second_command_dropped demo_soft 55 60 [0; 0; 0]) as (p1 & p2 & _ & _ & E & Hl & _);
    [unfold is_byte; lia|unfold is_byte; lia|reflexivity|reflexivity|].
  exists p1. eexists. split; [exact E|exact Hl].
Defined.

(** The client of ClientState.v with an open device; its last packet was 40. *)
Definition demo_listener : client forest unit unit unit :=
  set_alsa (with_initialized true true (with_format 1000 2 2 demo_alsa)) demo_client.

(** Packet 44 arrives: 41 and 43 are requested, 42 is already missing. *)
Lemma audio_delivered_witness :
  exists p len k c', assemble_audio demo_chunk 44 500 = Ok (p, len, k) /\
    intercom_handle_packet 0 (p ++ [7; 7]) len demo_listener = Ok (tt, c') /\
    nonces (missing_packets (ictx c')) = [42; 41; 43] /\ requested c' 43 5.
Proof.
  destruct (audio_delivered demo_listener demo_chunk 44 500 [7; 7] (mkPQueue 20 [] receivebuffer_cmp) [])
    as (p & len & k & c' & q' & Ea & Eh & _ & _ & _ & Em & Hr & _).
  - exact demo_client_ok.
  - exact demo_chunk_ok.
  - done.
  - lia.
  - reflexivity.
  - reflexivity.
  - by apply fifo_empty.
  - simpl. lia.
  - vm_compute. reflexivity.
  - simpl. lia.
  - constructor.
  - simpl. lia.
  - lia.
  - simpl. lia.
  - vm_compute. discriminate.
  - exists p, len, k, c'. split; [exact Ea|]. split; [exact Eh|]. split.
    + rewrite Em. vm_compute. reflexivity.
    + apply (Hr 43). by do 2 constructor.
Defined.

(** An audio packet of 27 bytes in a buffer of 1500 that announces 65535. *)
Lemma audio_size_unchecked_example :
  intercom_handle_packet 0 ([1; 1; 0; 0; 0; 0; 0; 7] ++ zeros 14 ++ [2; 2; 255; 255; 0] ++ zeros 1473) 27 demo_client =
    Fault OutOfBounds.
Proof. vm_compute. reflexivity. Qed.
