(* ===== verification/Transmission.v ===== *)
(** * A stream of packets, of which some are lost

    The server sends chunk after chunk with consecutive numbers; any of the packets
    may be lost.  What the client then has: the chunks that arrived, in their
    order, and a request for every one that was lost before the last one that
    arrived. *)
From S2P Require Import ServerState.
From S2P Require Import Prelude.
From S2P Require Import Timespec.
From S2P Require Import Bytes.
From S2P Require Import PQueue.
From S2P Require Import PcmChunk.
From S2P Require Import TaskHeap.
From S2P Require Import TaskSched.
From S2P Require Import Intercom.
From S2P Require Import ClientState.
From S2P Require Import AlsaDevice.
From S2P Require Import IntercomClient.
From S2P Require Import ClientGaps.
From S2P Require Import ClientBuffer.
From S2P Require Import EndToEnd.

(** ** Which packets are heard of *)

(** The number of the last packet that arrives and the numbers that are missing
    then: [last] is the last one so far, [n] the next one to be sent. *)
Fixpoint heard {A} (last n : Z) (sends : list (A * bool)) : Z * list Z :=
  match sends with
  | [] => (last, [])
  | (_, true) :: sends =>
      let r := heard n (n + 1) sends in (r.1, seqZ (last + 1) (n - last - 1) ++ r.2)
  | (_, false) :: sends => heard last (n + 1) sends
  end.

Lemma sends_S {A} (x : A * bool) sends i n y : n < i ->
  (x :: sends) !! Z.to_nat (i - n) = Some y <-> sends !! Z.to_nat (i - (n + 1)) = Some y.
Proof. intros Hi. replace (Z.to_nat (i - n)) with (S (Z.to_nat (i - (n + 1)))) by lia. done. Qed.

(** The last packet is one that arrives, and none arrives after it. *)
Lemma heard_last {A} last n (sends : list (A * bool)) : last < n ->
  ((heard last n sends).1 = last \/
   n <= (heard last n sends).1 /\ exists x, sends !! Z.to_nat ((heard last n sends).1 - n) = Some (x, true)) /\
  forall j x, sends !! j = Some (x, true) -> n + Z.of_nat j <= (heard last n sends).1.
Proof.
  revert last n. induction sends as [|[x [|]] sends IH]; intros last n Hlt; cbn [heard].
  - split; [by left|done].
  - destruct (IH n (n + 1)) as [H1 H2]; [lia|]. cbn [fst]. split.
    + right. destruct H1 as [->|[Hge Hs]]; [split; [lia|]; exists x; by rewrite Z.sub_diag|].
      split; [lia|]. destruct Hs as [y Hy]. exists y. by apply sends_S; [lia|].
    + intros [|j] y; [|intros Hy; specialize (H2 j y Hy); lia].
      intros _. destruct H1 as [->|[Hge _]]; lia.
  - destruct (IH last (n + 1)) as [H1 H2]; [lia|]. split.
    + destruct H1 as [->|[Hge [y Hy]]]; [by left|]. right. split; [lia|]. exists y. by apply sends_S; [lia|].
    + intros [|j] y; [done|]. intros Hy. specialize (H2 j y Hy). lia.
Qed.

(** The missing numbers are those between the last one so far and the last one
    then, without those that arrived. *)
Lemma heard_missing {A} last n (sends : list (A * bool)) i : last < n ->
  i ∈ (heard last n sends).2 <->
  last < i < (heard last n sends).1 /\ (i < n \/ n <= i /\ exists x, sends !! Z.to_nat (i - n) = Some (x, false)).
Proof.
  revert last n. induction sends as [|[x [|]] sends IH]; intros last n Hlt.
  - simpl. split; [by intros ?%not_elem_of_nil|]. intros [? _]. lia.
  - change ((heard last n ((x, true) :: sends)).1) with ((heard n (n + 1) sends).1).
    change ((heard last n ((x, true) :: sends)).2)
      with (seqZ (last + 1) (n - last - 1) ++ (heard n (n + 1) sends).2).
    rewrite elem_of_app, elem_of_seqZ, IH by lia.
    destruct (heard_last n (n + 1) sends ltac:(lia)) as [Hl _]. split.
    + intros [Hi|[Hi Hs]]; [destruct Hl as [->|[? _]]; lia|]. split; [lia|]. right. split; [lia|].
      destruct Hs as [?|[_ [y Hy]]]; [lia|]. exists y. by apply sends_S; [lia|].
    + intros [Hi Hs]. destruct (decide (i < n)) as [|Hge]; [left; lia|right]. destruct Hs as [?|[_ [y Hy]]]; [lia|].
      destruct (decide (i = n)) as [->|]; [by rewrite Z.sub_diag in Hy|]. split; [lia|]. right. split; [lia|].
      exists y. by apply (sends_S (x, true)) in Hy; [|lia].
  - cbn [heard]. rewrite IH by lia. split.
    + intros [Hi Hs]. split; [lia|]. destruct (decide (i < n)) as [|Hge]; [by left|right]. split; [lia|].
      destruct (decide (i = n)) as [->|]; [exists x; by rewrite Z.sub_diag|].
      destruct Hs as [?|[_ [y Hy]]]; [lia|]. exists y. by apply sends_S; [lia|].
    + intros [Hi Hs]. split; [lia|]. destruct (decide (i < n + 1)) as [|Hge]; [by left|right]. split; [lia|].
      destruct Hs as [?|[_ [y Hy]]]; [lia|]. exists y. by apply (sends_S (x, false)) in Hy; [|lia].
Qed.

(** The chunks of the packets that arrive. *)
Fixpoint arrived (sends : list (pcmChunk * bool)) : list pcmChunk :=
  match sends with
  | [] => []
  | (ch, true) :: sends => ch :: arrived sends
  | (_, false) :: sends => arrived sends
  end.

Section transmission.
Context {Q Dec Enc Dev : Type} `{!TimerQueue Q, !TimerQueueLaws Q, !OpusLib Dec Enc, !AlsaLib Dev}.
Abbreviation W := (client Q Dec Enc Dev).
Implicit Types (c : client Q Dec Enc Dev).

(** The server's side composed with the client's: a packet is made of every
    chunk, with the number that the packet before left, and handled by the client
    if it arrives. *)
Fixpoint transmit (n ms : Z) (sends : list (pcmChunk * bool)) : M W unit :=
  match sends with
  | [] => skip
  | (ch, arrives) :: sends =>
      '(p, len, k) ← lift (assemble_audio ch n ms);
      (if arrives : bool then intercom_handle_packet 0 p len else skip) ;;
      transmit (default n k) ms sends
  end.

(** The chunk is to be played later than any time the client's clock shows. *)
Definition timely c (ch : pcmChunk) : Prop :=
  forall t, timespec_cmp (chunk_get_play_at (Some ch)) (sysclk c t) > 0.

Lemma timely_live c l t : Forall (timely c) l -> live (sysclk c t) l = l.
Proof.
  destruct l as [|ch l]; [done|]. intros [Ht _]%Forall_cons. cbn [live]. unfold outdated.
  specialize (Ht t). rewrite timespec_cmp_antisym, Z.gtb_ltb, (proj2 (Z.ltb_ge _ _)) by lia.
  by rewrite andb_false_r.
Qed.

Lemma audio_hdr_other (recent : list intercom_packet_hdr) n k : 0 <= n < k -> k < 2 ^ 31 ->
  intercom_recently_seen (intercom_recently_seen_add recent (audio_hdr n)) (audio_hdr k) = false.
Proof.
  intros Hn Hk. unfold intercom_recently_seen_add. rewrite recently_seen_snoc.
  cbn [hnonce audio_hdr]. rewrite !Z.mod_small by (unfold NONCE_MAX; lia).
  rewrite (proj2 (Z.eqb_neq _ _)); [done|]. intros E%htonl_inj; lia.
Qed.

(** What the client has to fulfil before the packet [n], for the packets [sends]
    to be stored behind [l] in its buffer [q]. *)
Record ready c (q : PQueue pcmChunk) l (n : Z) (sends : list (pcmChunk * bool)) : Prop := {
  rd_ok : client_ok c;
  rd_chunks : Forall chunk_ok sends.*1;
  rd_device : Forall (device_fits c) (arrived sends);
  rd_buffer : receivebuffer (ictx c) = Some q;
  rd_fifo : fifo receivebuffer_cmp q l;
  rd_timely : Forall (timely c) (l ++ arrived sends);
  rd_sorted : StronglySorted (later receivebuffer_cmp) (l ++ arrived sends);
  rd_numbers : 0 <= lastreceviedseqno (ictx c) < n /\ n + Z.of_nat (length sends) < 2 ^ 31;
  rd_missing : Forall (fun i => i <= lastreceviedseqno (ictx c)) (nonces (missing_packets (ictx c)));
  rd_new : forall k, n <= k < 2 ^ 31 -> intercom_recently_seen (recent_packets (ictx c)) (audio_hdr k) = false;
  rd_room : Z.of_nat (length l + length (missing_packets (ictx c)) + length sends)
              + n - lastreceviedseqno (ictx c) <= capacity q < 2 ^ 31;
}.

(** One packet that arrives. *)
Lemma transmit_one c q l n ms ch sends : 0 <= ms < 65536 -> ready c q l n ((ch, true) :: sends) ->
  let gap := seqZ (lastreceviedseqno (ictx c) + 1) (n - lastreceviedseqno (ictx c) - 1) in
  exists p len c' q', assemble_audio ch n ms = Ok (p, len, Some (n + 1)) /\
    intercom_handle_packet 0 p len c = Ok (tt, c') /\ ready c' q' (l ++ [ch]) (n + 1) sends /\
    lastreceviedseqno (ictx c') = n /\
    nonces (missing_packets (ictx c')) = nonces (missing_packets (ictx c)) ++ gap /\
    (forall i, i ∈ gap -> requested c' i (attempts c)) /\ grows c c' /\
    serverip (ictx c') = serverip (ictx c) /\ attempts c' = attempts c /\ alsa c' = alsa c.
Proof.
  intros Hms [Hok Hch Hdev Hbuf Hq Htime Hsort [Hlast Hn] Hmiss Hnew Hroom] gap.
  change (arrived ((ch, true) :: sends)) with (ch :: arrived sends) in *.
  apply Forall_app in Htime as [Htl [Htc Hts]%Forall_cons]. cbn [fmap list_fmap fst length] in *.
  apply Forall_cons in Hch as [Hch Hchs]. apply Forall_cons in Hdev as [Hdev Hdevs].
  assert ((remove_request n (missing_packets (ictx c))).2 = missing_packets (ictx c)) as Erest.
  { unfold remove_request. rewrite (proj2 (lsearch_None _ _)); [done|]. intros Hin.
    rewrite Forall_forall in Hmiss. specialize (Hmiss n Hin). simpl in Hmiss. lia. }
  assert (filter (fun i => i ∉ nonces (missing_packets (ictx c))) gap = gap) as Enew.
  { apply filter_all, Forall_forall. intros i [Hi _]%elem_of_seqZ Hin. rewrite Forall_forall in Hmiss.
    specialize (Hmiss i Hin). simpl in Hmiss. lia. }
  assert (length gap = Z.to_nat (n - lastreceviedseqno (ictx c) - 1)) as Egap by apply length_seqZ.
  destruct (audio_wire ch n ms [] Hch) as (p & Ea & _); [lia|done|]. rewrite u32_small in Ea by lia.
  assert (Forall (fun y => later receivebuffer_cmp y ch) l) as Hlater.
  { apply Forall_forall. intros y Hy. eapply StronglySorted_app_1_elem_of; [exact Hsort|done|by left]. }
  pose proof (deliver c ch n ms [] q l) as D. cbv zeta in D. fold gap in D.
  rewrite Erest, Enew, (timely_live _ l) in D by done.
  destruct D as (p' & len & k & c' & q' & Ea' & Eh & Hb' & Hq' & Hl' & Hm' & Hr & Hok' & Hg & Hal & _ & Hclk & Hbms
    & Hip & Hcap & Hrec); try done; try lia; [by apply Hnew; lia|].
  rewrite Ea in Ea'. injection Ea' as <- <- <-.
  assert (nonces (missing_packets (ictx c')) = nonces (missing_packets (ictx c)) ++ gap) as Em.
  { rewrite Hm'. unfold nonces. rewrite fmap_app. f_equal. rewrite <- list_fmap_compose. by apply list_fmap_id. }
  assert (attempts c' = attempts c) as Eatt by (unfold attempts; by rewrite Hbms).
  rewrite app_nil_r in Eh. exists p, (27 + size ch), c', q'. split; [done|]. split; [done|]. split; [|by split_and!].
  split; try done.
  - eapply Forall_impl; [exact Hdevs|]. intros y. unfold device_fits. by rewrite Hal.
  - rewrite <- (assoc_L (++)). apply Forall_app. split; [|constructor; [|]]; unfold timely; rewrite Hclk; done.
  - by rewrite <- (assoc_L (++)).
  - rewrite Hl'. lia.
  - rewrite Hl', Em. apply Forall_app. split.
    + eapply Forall_impl; [exact Hmiss|]. simpl. lia.
    + apply Forall_forall. intros i ?%elem_of_seqZ. lia.
  - intros k Hk. rewrite Hrec. apply audio_hdr_other; lia.
  - rewrite Hl', Hcap. assert (length (missing_packets (ictx c')) = length (missing_packets (ictx c)) + length gap)%nat as ->.
    { unfold nonces in Em. apply (f_equal length) in Em. by rewrite length_app, !length_fmap in Em. }
    rewrite length_app, Egap. simpl. lia.
Qed.

(** One packet that is lost. *)
Lemma transmit_lost c q l n ms ch sends : 0 <= ms < 65536 -> ready c q l n ((ch, false) :: sends) ->
  (exists p len, assemble_audio ch n ms = Ok (p, len, Some (n + 1))) /\ ready c q l (n + 1) sends.
Proof.
  intros Hms [Hok Hch Hdev Hbuf Hq Htime Hsort [Hlast Hn] Hmiss Hnew Hroom].
  change (arrived ((ch, false) :: sends)) with (arrived sends) in *. cbn [fmap list_fmap fst length] in *.
  apply Forall_cons in Hch as [Hch Hchs]. split.
  - destruct (audio_wire ch n ms [] Hch) as (p & Ea & _); [lia|done|]. rewrite u32_small in Ea by lia.
    by exists p, (27 + size ch).
  - split; try done; try lia. intros k Hk. apply Hnew. lia.
Qed.

(** What the client has after the packets. *)
Record has c (q : PQueue pcmChunk) (l : list pcmChunk) (last : Z) (missing : list Z) : Prop := {
  hs_ok : client_ok c;
  hs_buffer : receivebuffer (ictx c) = Some q;
  hs_fifo : fifo receivebuffer_cmp q l;
  hs_last : lastreceviedseqno (ictx c) = last;
  hs_missing : nonces (missing_packets (ictx c)) = missing;
}.

Lemma transmit_run ms sends : 0 <= ms < 65536 -> forall c q l n, ready c q l n sends ->
  let H := heard (lastreceviedseqno (ictx c)) n sends in
  exists c' q', transmit n ms sends c = Ok (tt, c') /\
    has c' q' (l ++ arrived sends) H.1 (nonces (missing_packets (ictx c)) ++ H.2) /\
    (forall i, i ∈ H.2 -> requested c' i (attempts c)) /\
    grows c c' /\ serverip (ictx c') = serverip (ictx c) /\ attempts c' = attempts c /\ alsa c' = alsa c.
Proof.
  intros Hms. induction sends as [|[ch [|]] sends IH]; intros c q l n Hr H.
  - destruct Hr. exists c, q. split; [done|]. rewrite !app_nil_r in *. split; [done|].
    split; [by intros i ?%not_elem_of_nil|]. by split; [intros a t Ha|].
  - destruct (transmit_one c q l n ms ch sends Hms Hr)
      as (p & len & c1 & q1 & Ea & Eh & Hr1 & Hl1 & Hm1 & Hq1 & Hg1 & Hip1 & Hat1 & Hal1).
    destruct (IH c1 q1 _ _ Hr1) as (c' & q' & Et & Hhas & Hreq & Hg & Hip & Hat & Hal). rewrite Hl1, Hm1 in *.
    exists c', q'. split; [cbn [transmit]; unfold lift, mbind, M_bind; by rewrite Ea, Eh|].
    rewrite <- !(assoc_L (++)) in Hhas. split; [exact Hhas|]. split_and!; [|by eapply grows_trans|congruence..].
    intros i [Hi|Hi]%elem_of_app; [|rewrite <- Hat1; by apply Hreq].
    apply (requested_grows c1); [done|done|]. by apply Hq1.
  - destruct (transmit_lost c q l n ms ch sends Hms Hr) as ((p & len & Ea) & Hr1).
    destruct (IH c q l _ Hr1) as (c' & q' & Et & Hrest). exists c', q'. split; [|exact Hrest].
    cbn [transmit]. unfold lift, mbind, M_bind. by rewrite Ea.
Qed.

(** C5: what is sent is heard or asked for. Of a run of packets the server sends
    - a well-formed chunk each, with consecutive numbers below 2^31 - any may be
    lost. Let the client be in order, with a last number just below the first of
    these, none of them remembered as just seen, and with nothing missing; let
    the chunks in its buffer and those that arrive be in play order, each due
    later than the ones before it and than any time the client's clock shows;
    let the device be open in the format of those that arrive, and the buffer's
    capacity, below 2^31, be enough for the chunks in it and one more than the
    packets of the run; the buffer's length that the packets carry fits 16 bits.
    Then the client has in its buffer, behind the chunks that were there,
    exactly the chunks whose packets arrived, in their order; its last number is
    that of the last packet that arrived; and the packets it counts as missing
    are exactly the lost ones before that, for each of which a request waits in
    the task queue. *)
Theorem stream_delivered c q l n ms sends : 0 <= ms < 65536 -> ready c q l n sends ->
  lastreceviedseqno (ictx c) = n - 1 -> missing_packets (ictx c) = [] ->
  exists c' q' last, transmit n ms sends c = Ok (tt, c') /\
    receivebuffer (ictx c') = Some q' /\ fifo receivebuffer_cmp q' (l ++ arrived sends) /\
    lastreceviedseqno (ictx c') = last /\
    (last = n - 1 \/ n <= last /\ exists ch, sends !! Z.to_nat (last - n) = Some (ch, true)) /\
    (forall j ch, sends !! j = Some (ch, true) -> n + Z.of_nat j <= last) /\
    (forall i, i ∈ nonces (missing_packets (ictx c')) <->
       n <= i < last /\ exists ch, sends !! Z.to_nat (i - n) = Some (ch, false)) /\
    (forall i, i ∈ nonces (missing_packets (ictx c')) -> requested c' i (attempts c)) /\
    client_ok c' /\ alsa c' = alsa c.
Proof.
  intros Hms Hr Hlast Hmiss.
  destruct (transmit_run ms sends Hms c q l n Hr) as (c' & q' & Et & [Hok Hb Hq Hl Hm] & Hreq & _ & _ & _ & Hal).
  rewrite Hlast in *. rewrite Hmiss in Hm. simpl in Hm.
  destruct (heard_last (n - 1) n sends) as [H1 H2]; [lia|].
  exists c', q', (heard (n - 1) n sends).1. rewrite Hm. split_and!; try done.
  intros i. rewrite heard_missing by lia. split.
  - intros [Hi [?|[Hge Hs]]]; [lia|]. split; [lia|done].
  - intros [Hi Hs]. split; [lia|]. right. split; [lia|done].
Qed.
End transmission.

(** The client of EndToEnd.v with the empty buffer; its clock shows 1. *)
Definition demo_audience : client forest unit unit unit :=
  set_ictx (with_missing [] (ictx demo_listener)) demo_listener.

Definition demo_second (t : Z) : pcmChunk := mkChunk t 0 1000 2 2 8 CODEC_PCM (Some [1; 2; 3; 4; 5; 6; 7; 8]).

Lemma demo_second_ok t : 0 <= t < 4294967296 -> chunk_ok (demo_second t).
Proof.
  intros Ht. split; unfold is_byte; simpl; unfold CODEC_PCM; try lia.
  eexists. split; [done|]. reflexivity.
Qed.

Lemma demo_second_timely t : 1000 < t -> timely demo_audience (demo_second t).
Proof. intros Ht i. unfold timespec_cmp. simpl. cases_lt; lia. Qed.

(** Three packets, 41 to 43, of which the second is lost. *)
Definition demo_sends : list (pcmChunk * bool) :=
  [(demo_second 1001, true); (demo_second 1002, false); (demo_second 1003, true)].

Lemma stream_delivered_witness :
  exists c' q', transmit 41 500 demo_sends demo_audience = Ok (tt, c') /\
    fifo receivebuffer_cmp q' [demo_second 1001; demo_second 1003] /\
    lastreceviedseqno (ictx c') = 43 /\ requested c' 42 5.
Proof.
  destruct (stream_delivered demo_audience (mkPQueue 20 [] receivebuffer_cmp) [] 41 500 demo_sends)
    as (c' & q' & last & Et & _ & Hq & Hl & Hlast & Harr & Hm & Hreq & _).
  - lia.
  - split; try done.
    + exact demo_client_ok.
    + repeat constructor; apply demo_second_ok; lia.
    + repeat constructor.
    + by apply fifo_empty.
    + repeat constructor; apply demo_second_timely; lia.
    + repeat constructor.
  - reflexivity.
  - reflexivity.
  - pose proof (Harr 2%nat _ eq_refl) as Hge. exists c', q'. split; [exact Et|]. split; [exact Hq|].
    assert (last = 43) as ->.
    { destruct Hlast as [?|[_ [ch Hch]]]; [lia|]. apply lookup_lt_Some in Hch. simpl in Hch, Hge. lia. }
    split; [exact Hl|]. apply Hreq, Hm. split; [lia|]. by exists (demo_second 1002).
Defined.
