(* ===== verification/Held.v ===== *)
(** * What the client holds

    An invariant of the client, for any property of chunks that decoding keeps:
    when the chunks it is sent have the property, so has every chunk in its
    receive buffer; every packet it counts as missing comes before one that it was
    sent; and the sound device is given nothing but such chunks, decoded, changed in
    speed and without what was played before, and silence. *)
From S2P Require Import Prelude.
From S2P Require Import Timespec.
From S2P Require Import Bytes.
From S2P Require Import PQueue.
From S2P Require Import PcmChunk.
From S2P Require Import Speed.
From S2P Require Import TaskHeap.
From S2P Require Import TaskSched.
From S2P Require Import Invariant.
From S2P Require Import Intercom.
From S2P Require Import ClientState.
From S2P Require Import AlsaDevice.
From S2P Require Import IntercomClient.
From S2P Require Import ClientGaps.
From S2P Require Import AlsaPlayer.
From S2P Require Import ClientLoop.
From S2P Require Import ClientInv.

(** ** The elements of a queue *)

Lemma run_loop_inv {A B} (K : A -> Prop) (R : B -> Prop) (body : A -> A + res B) p a b :
  (forall a, K a -> match body a with inl a' => K a' | inr (Ok b) => R b | inr (Fault _) => True end) ->
  K a -> run_loop body p a = Ok b -> R b.
Proof.
  intros Hb. unfold run_loop. rewrite loop_pos_nat. generalize (Pos.to_nat p) as n. intros n. revert a.
  induction n as [|n IH]; intros a Ha; simpl; [done|]. pose proof (Hb a Ha) as H.
  destruct (body a) as [a'|[b'|f]]; [by apply IH|intros [= ->]; exact H|done].
Qed.

Definition held {A} (q : option (PQueue A)) : list A := match q with Some q => qdata q | None => [] end.

Section elements.
Context {A : Type} (P : A -> Prop).

Lemma enqueue_elements q x q' : Forall P (held q) -> P x -> pqueue_enqueue q x = Ok q' -> Forall P (qdata q').
Proof.
  intros Hq Hx. unfold pqueue_enqueue. destruct q as [q|]; [|done]. simpl in Hq.
  destruct (_ >=? _); [by intros [= <-]|]. unfold mbind, res_bind.
  destruct (run_loop _ _ _) as [d|] eqn:E; [|done]. intros [= <-]. simpl.
  eapply (run_loop_inv (fun st => Forall P st.1)), E; simpl.
  - intros [d' i] Hd. simpl in *. unfold sift_up_body. case_decide; [done|].
    destruct (d' !! i), (d' !! PARENT i); [|done..]. destruct (_ >? _); [|done]. simpl. by rewrite swap_perm.
  - apply Forall_app. split; [done|]. by apply Forall_singleton.
Qed.

Lemma heapify_elements cmp d i d' : Forall P d -> pqueue_heapify cmp d i = Ok d' -> Forall P d'.
Proof.
  intros Hd. unfold pqueue_heapify. apply (run_loop_inv (fun st => Forall P st.1)); [|done].
  intros [l j] Hl. simpl in Hl. unfold heapify_body. case_decide; [done|]. simpl. by rewrite swap_perm.
Qed.

Lemma refill_elements d : Forall P d ->
  Forall P (match last d with Some y => removelast (<[0%nat := y]> d) | None => [] end).
Proof.
  intros Hd. destruct (last d) as [y|] eqn:El; [|done].
  assert (P y) as Hy.
  { apply last_Some in El as [l ->]. rewrite Forall_forall in Hd. apply Hd, elem_of_app. right. by apply list_elem_of_singleton. }
  assert (Forall P (<[0%nat := y]> d)) as Hi by (by apply Forall_insert).
  revert Hi. generalize (<[0%nat := y]> d) as l. intros l. induction l as [|z l IH]; [done|].
  intros [Hz Hl]%Forall_cons. destruct l as [|z' l]; [done|]. constructor; [done|]. by apply IH.
Qed.

Lemma dequeue_elements q r q' : Forall P (held q) -> pqueue_dequeue q = Ok (r, q') -> Forall P (held q').
Proof.
  intros Hq. unfold pqueue_dequeue. destruct q as [q|]; [|by intros [= _ <-]]. simpl in Hq.
  destruct (pqueue_peek (Some q)) as [x|]; [|by intros [= _ <-]]. unfold mbind, res_bind.
  destruct (pqueue_heapify _ _ _) as [d|] eqn:E; [|done]. intros [= _ <-]. simpl.
  by eapply heapify_elements, E; apply refill_elements.
Qed.

Lemma dequeue_result q x q' : Forall P (held q) -> pqueue_dequeue q = Ok (Some x, q') -> P x.
Proof.
  intros Hq. unfold pqueue_dequeue. destruct q as [q|]; [|done]. simpl in Hq.
  destruct (pqueue_peek (Some q)) as [y|] eqn:Ep; [|done]. unfold mbind, res_bind.
  destruct (pqueue_heapify _ _ _) as [d|]; [|done]. intros [= <- _]. simpl in Ep.
  destruct (qdata q) as [|z l]; [done|]. injection Ep as <-. by apply Forall_cons in Hq as [? _].
Qed.

Lemma peek_elements q x : Forall P (held q) -> pqueue_peek q = Some x -> P x.
Proof.
  intros Hq. destruct q as [q|]; [|done]. simpl in *. destruct (qdata q) as [|y l]; [done|].
  intros [= ->]. by apply Forall_cons in Hq as [? _].
Qed.
End elements.

Section holding.
Context {Q Dec Enc Dev : Type}
  `{!TimerQueue Q, !TimerQueueLaws Q, !OpusLib Dec Enc, !AlsaLib Dev, !AlsaPollLib Dev, !SoxrLib}.
Abbreviation W := (client Q Dec Enc Dev).
Implicit Types (w : W).

(** A chunk becomes another one when the client decodes it. *)
Definition decodes (c c' : pcmChunk) : Prop :=
  exists (ctx ctx' : opuscodec_ctx Dec Enc) b, chunk_decode ctx (Some c) = Ok (b, Some c', ctx').

(** What the player makes of a chunk: it decodes it, changes its speed, and takes
    off what was played. *)
Definition processed (c c' : pcmChunk) : Prop :=
  decodes c c' \/ (exists factor, adjust_speed_soxr c factor = Ok c') \/
  (exists frames, pcmchunk_shaveoff c frames = Ok c').

Definition silent (c : pcmChunk) : Prop := exists d, data c = Some d /\ Forall (eq 0) d.

(** Chunks that may be played, when [P] is true of those that come in. *)
Definition audible (P : pcmChunk -> Prop) (c : pcmChunk) : Prop :=
  silent c \/ exists c0, P c0 /\ rtc processed c0 c.

(** The player's context keeps nothing else for later. *)
Definition leftover (P : pcmChunk -> Prop) (a : alsaplayer_ctx) : Prop :=
  forall o, overflow a = Some o -> audible P o.

(** [P] is what is true of the chunks, [N] of the numbers of packets, [D] of the
    sound device. *)
Record holding (P : pcmChunk -> Prop) (N : Z -> Prop) (D : Dev -> Prop) w : Prop := {
  ho_buffer : Forall P (held (receivebuffer (ictx w)));
  ho_missing : Forall (fun i => exists n, N n /\ i < n) (nonces (missing_packets (ictx w)));
  ho_last : lastreceviedseqno (ictx w) = 0 \/ N (lastreceviedseqno (ictx w));
  ho_left : leftover P (alsa w);
  ho_device : D (device w);
}.

(** A call of the device that writes nothing but audible data. *)
Definition decent (P : pcmChunk -> Prop) (call : alsa_call) : Prop :=
  forall d n, call = PcmWritei d n -> exists c, audible P c /\ data c = Some d.

(** A property of the device that decent calls keep. *)
Definition device_property (P : pcmChunk -> Prop) (D : Dev -> Prop) : Prop :=
  forall call d rc out d', decent P call -> D d -> alsa_do call d = (rc, out, d') -> D d'.

Lemma audible_mono (P P' : pcmChunk -> Prop) c : (forall c, P c -> P' c) -> audible P c -> audible P' c.
Proof. intros HP [?|(c0 & ? & ?)]; [by left|right]. exists c0. auto. Qed.
Lemma audible_in (P : pcmChunk -> Prop) c : P c -> audible P c.
Proof. intros Hc. right. by exists c. Qed.

Lemma audible_speed (P : pcmChunk -> Prop) c f c' : P c -> adjust_speed_soxr c f = Ok c' -> audible P c'.
Proof. intros Hc E. right. exists c. split; [done|]. apply rtc_once. right. left. by exists f. Qed.

Lemma audible_shave (P : pcmChunk -> Prop) c n c' : audible P c -> pcmchunk_shaveoff c n = Ok c' -> audible P c'.
Proof.
  intros [(d & Hd & Hz)|(c0 & Hc & Hr)] E; [left|right; exists c0; split; [done|eapply rtc_r; [done|right; right; by exists n]]].
  revert E. unfold pcmchunk_shaveoff. destruct (_ <? 0); [done|]. rewrite Hd. intros (b & Eb & E)%res_bind_inv.
  apply res_bind_inv in E as (ms & _ & E). apply res_bind_inv in E as (t & _ & [= <-]). exists b. split; [done|].
  revert Eb. unfold rd. destruct (_ && _); [|done]. intros [= <-]. by apply Forall_take, Forall_drop.
Qed.

Lemma silence_audible (P : pcmChunk -> Prop) p ms : audible P (get_emptychunk p ms).
Proof. left. eexists. split; [done|]. by apply Forall_replicate. Qed.

Lemma holding_mono (P P' : pcmChunk -> Prop) (N N' : Z -> Prop) (D D' : Dev -> Prop) w :
  (forall c, P c -> P' c) -> (forall n, N n -> N' n) -> (forall d, D d -> D' d) ->
  holding P N D w -> holding P' N' D' w.
Proof.
  intros HP HN HD [H1 H2 H3 H4 H5]. split; [by eapply Forall_impl| |naive_solver| |by apply HD].
  - eapply Forall_impl; [exact H2|]. simpl. intros i (n & Hn & Hi). exists n. auto.
  - intros o Ho. by eapply audible_mono, H4.
Qed.

Context (P : pcmChunk -> Prop) (N : Z -> Prop) (D : Dev -> Prop)
  (HP : forall c c', P c -> decodes c c' -> P c') (HD : device_property P D).
Abbreviation I := (holding P N D).

(** States in which the client holds the same. *)
Definition still w w' : Prop :=
  receivebuffer (ictx w') = receivebuffer (ictx w) /\ missing_packets (ictx w') = missing_packets (ictx w) /\
  lastreceviedseqno (ictx w') = lastreceviedseqno (ictx w) /\
  (overflow (alsa w') = overflow (alsa w) \/ overflow (alsa w') = None) /\ device w' = device w.

Lemma leftover_same a a' : overflow a' = overflow a \/ overflow a' = None -> leftover P a -> leftover P a'.
Proof. intros [E|E] Ha o; rewrite E; [apply Ha|done]. Qed.
Lemma holding_still w w' : still w w' -> I w -> I w'.
Proof. intros (H1 & H2 & H3 & H4 & H5) []. split; rewrite ?H1, ?H2, ?H3, ?H5; try done. by eapply leftover_same. Qed.
Lemma hd_step {A} (m : M W A) : (forall w a w', m w = Ok (a, w') -> still w w') -> preserves I m.
Proof. intros Hm w a w' Hw E. eapply holding_still, Hw. by eapply Hm. Qed.
Lemma hd_modify f : (forall w, still w (f w)) -> preserves I (modify f).
Proof. intros Hf. apply hd_step. by intros w a w' [= _ <-]. Qed.
Ltac still := unfold still; simpl; split_and!; auto.
Lemma hd_apart : apart_from_sched I.
Proof. intros s w Hw. eapply holding_still, Hw. still. Qed.
Lemma hd_post timeout ms (t : ctask) : preserves I (post_task timeout ms t).
Proof. apply apart_post, hd_apart. Qed.
Lemma hd_drop p : preserves I (drop_task ctask_cleanup p).
Proof. apply apart_drop; [apply hd_apart|]. intros t. apply preserves_skip. Qed.
Lemma hd_reschedule p timeout ms : preserves I (reschedule_task (P := ctask) p timeout ms).
Proof. apply apart_reschedule, hd_apart. Qed.
Lemma hd_upd_alsa f : (forall a, overflow (f a) = overflow a \/ overflow (f a) = None) -> preserves I (upd_alsa f : M W unit).
Proof. intros Hf. apply hd_modify. intros w. still. Qed.
Lemma hd_snd call : decent P call -> preserves I (snd call : M W _).
Proof.
  intros Hc w a w' [H1 H2 H3 H4 H5]. unfold snd. destruct (alsa_do _ _) as [[rc out] d] eqn:E. intros [= _ <-].
  split; try done. simpl. by eapply HD.
Qed.
Lemma hd_systime : preserves I (obtainsystime : M W _).
Proof. apply hd_step. intros w a w' [= _ <-]. still. Qed.
Lemma hd_gai : preserves I (gai_error : M W _).
Proof. apply hd_step. intros w a w' [= _ <-]. still. Qed.
Lemma hd_socket : preserves I (new_socket : M W _).
Proof. apply hd_step. intros w a w' [= _ <-]. still. Qed.
Lemma hd_nonce : preserves I (next_nonce : M W _).
Proof. apply hd_step. intros w a w'. unfold next_nonce. destruct (get_nonce _) as [n [k|]]; intros [= _ <-]; still. Qed.
Lemma hd_the_task p : preserves I (the_task p : M W (trec ctask)).
Proof. apply hd_step. intros w a w'. unfold the_task. destruct (_ !! _); intros [=]; subst; still. Qed.
Lemma hd_codec {A} f : preserves I (with_codec_ctx f : M W A).
Proof. apply hd_step. intros w a w'. unfold with_codec_ctx. destruct (f _) as [[b o]|]; intros [=]; subst; still. Qed.
Lemma hd_unicast r p n port : preserves I (intercom_send_packet_unicast r p n port : M W _).
Proof.
  unfold intercom_send_packet_unicast. destruct r; [|apply preserves_fail].
  apply preserves_bind; [apply preserves_lift|]. intros d. apply hd_modify. intros w. still.
Qed.

#[local] Hint Resolve hd_post hd_drop hd_reschedule hd_systime hd_gai hd_socket hd_nonce
  hd_the_task hd_codec hd_unicast : preserve.
#[local] Hint Extern 1 (preserves _ (modify _)) => apply hd_modify; intros; still : preserve.
#[local] Hint Extern 1 (preserves _ (upd_alsa _)) => apply hd_upd_alsa; intros; by auto : preserve.
#[local] Hint Extern 1 (preserves _ (snd _)) => apply hd_snd; intros ? ?; discriminate : preserve.

Ltac keep h := unfold h; preserve.

(** *** The sound device *)

Lemma hd_snd_ call : decent P call -> preserves I (snd_ call : M W _).
Proof. intros Hc. pose proof (hd_snd call Hc). keep @snd_. Qed.
Lemma hd_snd_out call : decent P call -> preserves I (snd_out call : M W _).
Proof. intros Hc. pose proof (hd_snd call Hc). keep @snd_out. Qed.
#[local] Hint Extern 1 (preserves _ (snd_ _)) => apply hd_snd_; intros ? ?; discriminate : preserve.
#[local] Hint Extern 1 (preserves _ (snd_out _)) => apply hd_snd_out; intros ? ?; discriminate : preserve.

(** Computations whose result has a property when the client holds what it should. *)
Definition yields {A} (R : A -> Prop) (m : M W A) : Prop := forall w a w', I w -> m w = Ok (a, w') -> I w' /\ R a.

Lemma yields_bind {A B} (R : A -> Prop) (m : M W A) (k : A -> M W B) :
  yields R m -> (forall a, R a -> preserves I (k a)) -> preserves I (m ≫= k).
Proof.
  intros Hm Hk w b w' Hw (a & w1 & E1 & E2)%M_bind_inv. destruct (Hm _ _ _ Hw E1) as [Hw1 Ha]. by eapply Hk.
Qed.
Lemma yields_via {A B} (S : A -> Prop) (R : B -> Prop) (m : M W A) (k : A -> M W B) :
  yields S m -> (forall a, S a -> yields R (k a)) -> yields R (m ≫= k).
Proof.
  intros Hm Hk w b w' Hw (a & w1 & E1 & E2)%M_bind_inv. destruct (Hm _ _ _ Hw E1) as [Hw1 Ha]. by eapply Hk.
Qed.
Lemma yields_seq {A B} (R : B -> Prop) (m : M W A) (k : A -> M W B) :
  preserves I m -> (forall a, yields R (k a)) -> yields R (m ≫= k).
Proof. intros Hm Hk w b w' Hw (a & w1 & E1 & E2)%M_bind_inv. by eapply Hk, E2; eapply Hm. Qed.
Lemma yields_ret {A} (R : A -> Prop) a : R a -> yields R (mret a).
Proof. by intros Ha w b w' Hw [= <- <-]. Qed.
Lemma yields_fail {A} (R : A -> Prop) f : yields R (fail f).
Proof. by intros w b w'. Qed.
Lemma yields_preserves {A} (R : A -> Prop) (m : M W A) : yields R m -> preserves I m.
Proof. intros Hm w a w' Hw E. by eapply Hm. Qed.
Lemma yields_lift {A} (r : res A) : yields (fun a => r = Ok a) (lift r).
Proof. intros w a w' Hw [E ->]%lift_inv. done. Qed.
Lemma yields_alsa : yields (leftover P) (gets alsa : M W _).
Proof. intros w x w' Hw [= <- <-]. by destruct Hw. Qed.

(** [yield] goes through a function on the player's context that leaves its
    overflow alone or removes it. *)
Ltac yield :=
  repeat match goal with
  | |- yields _ (mret _) => apply yields_ret; eapply leftover_same; [|eassumption]; by auto
  | |- yields _ (fail _) => apply yields_fail
  | |- yields _ (match ?x with _ => _ end) => destruct x
  | |- yields _ (_ ≫= _) => apply yields_seq; [solve [preserve]|intros ?]
  | |- yields _ (let _ := _ in _) => cbv zeta
  end.

Lemma yields_remove_task a : leftover P a -> yields (leftover P) (alsaplayer_remove_task a : M W _).
Proof. intros Ha. unfold alsaplayer_remove_task. yield. Qed.
Lemma yields_uninit a : leftover P a -> yields (leftover P) (alsaplayer_uninit a : M W _).
Proof.
  intros Ha. unfold alsaplayer_uninit. destruct (negb _); [yield|].
  do 5 (apply yields_seq; [preserve|intros _]). cbv zeta.
  eapply (yields_via (leftover P)); [|intros c Hc; yield]. destruct (main_poll_fd _); yield.
Qed.
Lemma yields_init a : leftover P a -> yields (leftover P) (alsaplayer_init a : M W _).
Proof. intros Ha. unfold alsaplayer_init. yield. Qed.
Lemma yields_init_alsafd a : leftover P a -> yields (leftover P) (init_alsafd a : M W _).
Proof. intros Ha. unfold init_alsafd. yield. Qed.
Lemma yields_mixer_init a : leftover P a -> yields (fun r => leftover P r.2) (mixer_init a : M W _).
Proof. intros Ha. unfold mixer_init. yield. Qed.
Lemma hd_mixer_uninit : preserves I (mixer_uninit : M W _). Proof. keep @mixer_uninit. Qed.
#[local] Hint Resolve hd_mixer_uninit : preserve.
Lemma yields_obtain_volume a : leftover P a -> yields (fun r => leftover P r.2) (obtain_volume a : M W _).
Proof.
  intros Ha. unfold obtain_volume. cbv zeta. destruct (is_softvol a); [yield|].
  eapply yields_via; [by apply yields_mixer_init|]. intros [elem c] Hc. simpl in Hc. yield.
Qed.
Lemma yields_adjust v a : leftover P a -> yields (leftover P) (adjustVolume a v : M W _).
Proof.
  intros Ha. unfold adjustVolume. destruct (is_softvol a); [yield|].
  eapply yields_via; [by apply yields_mixer_init|]. intros [elem c] Hc. simpl in Hc. yield.
Qed.
Lemma hd_set_alsa a : leftover P a -> preserves I (modify (set_alsa a) : M W unit).
Proof. intros Ha. apply preserves_modify. intros w []. by split. Qed.
Lemma hd_on_alsa f : (forall a, leftover P a -> yields (leftover P) (f a)) -> preserves I (on_alsa f).
Proof.
  intros Hf. unfold on_alsa. eapply yields_bind; [apply yields_alsa|]. intros a Ha.
  eapply yields_bind; [by apply Hf|]. intros a' Ha'. by apply hd_set_alsa.
Qed.
#[local] Hint Extern 1 (preserves _ (on_alsa _)) => apply hd_on_alsa;
  first [apply yields_remove_task|apply yields_uninit|apply yields_init|apply yields_init_alsafd|apply yields_adjust] : preserve.

(** *** What is held *)

(** An update of the context of the intercom that keeps the three fields good. *)
Lemma hd_upd_ictx f :
  (forall x, Forall P (held (receivebuffer x)) -> Forall P (held (receivebuffer (f x)))) ->
  (forall x i, i ∈ nonces (missing_packets (f x)) -> i ∈ nonces (missing_packets x)) ->
  (forall x, lastreceviedseqno (f x) = lastreceviedseqno x \/ lastreceviedseqno (f x) = 0 \/ N (lastreceviedseqno (f x))) ->
  preserves I (upd_ictx f : M W unit).
Proof.
  intros H1 H2 H3. apply preserves_modify. intros w [A1 A2 A3 A4 A5]. split; simpl; [| | |done..].
  - by apply H1.
  - rewrite Forall_forall in *. intros i Hi. by apply A2, H2.
  - destruct (H3 (ictx w)) as [->|?]; [done|naive_solver].
Qed.

Lemma hd_missing f : (forall l i, i ∈ nonces (f l) -> i ∈ nonces l) ->
  preserves I (upd_ictx (fun x => with_missing (f (missing_packets x)) x) : M W unit).
Proof. intros Hf. apply hd_upd_ictx; [done| |by left]. intros x i. apply Hf. Qed.

Lemma nonces_sub l l' : l ⊆ l' -> forall i, i ∈ nonces l -> i ∈ nonces l'.
Proof. intros Hs i. unfold nonces. rewrite !list_elem_of_fmap. intros (ap & -> & Hap). exists ap. auto. Qed.

Lemma remove_request_sub n l : (remove_request n l).2 ⊆ l.
Proof.
  unfold remove_request. destruct (lsearch _ _) as [[i x]|]; [|done]. apply sublist_subseteq, sublist_delete.
Qed.
Lemma prune_from_sub i l n : prune_from i l n ⊆ l.
Proof.
  revert l. induction i as [|i IH]; intros l; [done|]. cbn [prune_from]. cbv zeta. etrans; [apply IH|].
  destruct (l !! i); [|done]. case_match; [|done]. apply sublist_subseteq, sublist_delete.
Qed.
Lemma limit_missing_sub l cap : limit_missing_packets l cap ⊆ l.
Proof.
  induction l as [|x l IH]; cbn [limit_missing_packets]; destruct (_ >? _); try done.
  intros y Hy%IH. by apply elem_of_cons; right.
Qed.

Lemma yields_ictx : yields (fun x => Forall P (held (receivebuffer x)) /\
    Forall (fun i => exists n, N n /\ i < n) (nonces (missing_packets x))) (the_ictx : M W _).
Proof. intros w x w' Hw [= <- <-]. destruct Hw. done. Qed.

Lemma hd_buffer q : Forall P (held q) -> preserves I (upd_ictx (with_receivebuffer q) : M W unit).
Proof. intros Hq. apply hd_upd_ictx; [done|done|by left]. Qed.
Lemma hd_send_request mp : preserves I (intercom_send_request mp : M W _).
Proof. unfold intercom_send_request, the_ictx. preserve. Qed.
#[local] Hint Resolve hd_send_request : preserve.

Lemma hd_served n x : Forall (fun i => exists n, N n /\ i < n) (nonces (missing_packets x)) ->
  preserves I (upd_ictx (with_missing (remove_request n (missing_packets x)).2) : M W unit).
Proof.
  intros Hx. apply preserves_modify. intros w [A1 A2 A3 A4 A5]. split; simpl; try done.
  rewrite Forall_forall in *. intros i Hi. eapply Hx, nonces_sub, Hi. apply remove_request_sub.
Qed.

Lemma hd_request_task d : preserves I (request_task d : M W _).
Proof.
  unfold request_task. apply preserves_bind; [preserve|intros n]. apply preserves_bind; [preserve|intros p].
  apply preserves_bind; [preserve|intros r]. eapply yields_bind; [apply yields_ictx|]. intros x [_ Hx].
  destruct (_ >? 0); [preserve|by apply hd_served].
Qed.
#[local] Hint Resolve hd_request_task : preserve.

(** *** Gaps *)

Lemma hd_request_missing cap i n : N n -> 0 <= i < n -> n < 4294967296 -> preserves I (request_missing cap i : M W _).
Proof.
  intros Hn Hi Hn32. unfold request_missing. eapply yields_bind; [apply yields_ictx|]. intros x [_ Hx].
  destruct (already_requesting _ _); [preserve|]. apply preserves_bind; [|intros _; preserve].
  apply preserves_modify. intros w [A1 A2 A3 A4 A5]. split; simpl; try done. rewrite u32_small by lia.
  rewrite Forall_forall in *. intros k Hk. eapply nonces_sub in Hk; [|apply limit_missing_sub].
  unfold nonces in Hk. rewrite fmap_app in Hk. apply elem_of_app in Hk as [Hk|Hk]; [by apply Hx|].
  apply list_elem_of_singleton in Hk as ->. exists n. split; [done|]. simpl. lia.
Qed.

Lemma hd_gap n : N n -> 0 <= n < 4294967296 -> preserves I (handle_gap n : M W _).
Proof.
  intros Hn Hn32. unfold handle_gap, the_ictx. apply preserves_bind; [preserve|intros x]. cbv zeta.
  destruct (is_next_chunk _ _); [preserve|]. destruct (_ <? _); [preserve|]. destruct (_ >=? _).
  - apply hd_upd_ictx; [by constructor|done|by right; right].
  - set (m := u64 _). assert (0 <= m) as Hm by (apply Z.mod_pos_bound; lia). revert m Hm. intros m Hm.
    assert (forall l, (forall i, i ∈ l -> 0 <= i < n) -> preserves I (mfor l (request_missing (buffer_capacity (receivebuffer x))) : M W _)) as Hl.
    { induction l as [|i l IH]; intros Hi; cbn [mfor]; [preserve|]. apply preserves_bind.
      - apply (hd_request_missing _ _ n); [done| |lia]. apply Hi. by left.
      - intros _. apply IH. intros k Hk. apply Hi. by right. }
    apply Hl. intros i ?%elem_of_seqZ. lia.
Qed.

(** *** The receive buffer *)

Lemma hd_realloc n : preserves I (realloc_intercom_buffer n : M W _).
Proof.
  unfold realloc_intercom_buffer. eapply yields_bind; [apply yields_lift|]. intros q [= <-]. by apply hd_buffer.
Qed.
#[local] Hint Resolve hd_realloc : preserve.
Lemma hd_realloc_when n m : preserves I (realloc_intercom_buffer_when_required n m : M W _).
Proof. unfold realloc_intercom_buffer_when_required, the_ictx. preserve. Qed.

Lemma drop_old_elements fuel q ctime oldest q' : Forall P (held q) -> drop_old fuel q ctime oldest = Ok q' -> Forall P (held q').
Proof.
  revert q oldest. induction fuel as [|fuel IH]; intros q oldest Hq; cbn [drop_old]; [done|].
  destruct (_ && _); [|by intros [= <-]]. unfold mbind, res_bind.
  destruct (pqueue_dequeue q) as [[r q1]|] eqn:E; [|done]. apply IH. by eapply dequeue_elements.
Qed.
Lemma hd_remove_old : preserves I (remove_old_data_from_receivebuffer : M W _).
Proof.
  unfold remove_old_data_from_receivebuffer. eapply yields_bind; [apply yields_ictx|]. intros x [Hx _].
  destruct (pqueue_peek _) as [oldest|]; [|preserve]. apply preserves_bind; [preserve|intros t].
  eapply yields_bind; [apply yields_lift|]. intros q E. apply hd_buffer. by eapply drop_old_elements, E.
Qed.
#[local] Hint Resolve hd_realloc_when hd_remove_old : preserve.
Lemma hd_put c : P c -> preserves I (intercom_put_chunk c : M W _).
Proof.
  intros Hc. unfold intercom_put_chunk. apply preserves_bind; [preserve|intros _].
  eapply yields_bind; [apply yields_ictx|]. intros x [Hx _]. eapply yields_bind; [apply yields_lift|]. intros q E.
  apply preserves_bind; [|preserve]. apply hd_buffer. by eapply enqueue_elements.
Qed.
Lemma hd_time_next : preserves I (intercom_get_time_next_audiochunk : M W _).
Proof. unfold intercom_get_time_next_audiochunk, the_ictx. preserve. Qed.
Lemma hd_getnext : preserves I (intercom_getnextaudiochunk : M W _).
Proof.
  unfold intercom_getnextaudiochunk. eapply yields_bind; [apply yields_ictx|]. intros x [Hx _].
  eapply yields_bind; [apply yields_lift|]. intros [c q] E. apply preserves_bind; [|preserve].
  apply hd_buffer. by eapply dequeue_elements.
Qed.
Lemma hd_adapt c : preserves I (adapt_device c : M W _). Proof. keep @adapt_device. Qed.
#[local] Hint Resolve hd_time_next hd_getnext hd_adapt : preserve.

(** Decoding keeps the property of a chunk, also where its duration is asked for. *)
Lemma decode_keeps ctx c b c' ctx' : P c -> chunk_decode ctx (Some c) = Ok (b, c', ctx') -> exists d, c' = Some d /\ P d.
Proof.
  intros Hc E. assert (exists d, c' = Some d) as [d ->].
  { revert E. unfold chunk_decode. destruct (_ =? _); [|by intros [= _ <- _]; exists c]. unfold mbind, res_bind.
    destruct (decode_opus_handle ctx c) as [[d ctx1]|]; [|done]. intros [= _ <- _]. by exists d. }
  exists d. split; [done|]. eapply HP; [exact Hc|]. by exists ctx, ctx', b.
Qed.
Lemma duration_keeps ctx c ms c' ctx' : P c -> chunk_getduration_ms ctx (Some c) = Ok (ms, c', ctx') ->
  exists d, c' = Some d /\ P d.
Proof.
  intros Hc. unfold chunk_getduration_ms, mbind, res_bind.
  destruct (chunk_decode ctx (Some c)) as [[[b c1] ctx1]|] eqn:E; [|done].
  destruct (decode_keeps _ _ _ _ _ Hc E) as (d & -> & Hd). intros [= _ <- _]. by exists d.
Qed.

(** *** Packets *)

Lemma duration_yields c : P c -> yields (fun r => exists d, r.2 = Some d /\ P d)
  (with_codec_ctx (fun ctx => '(ms, c, ctx) ← chunk_getduration_ms ctx (Some c); mret ((ms, c), ctx)) : M W (Z * option pcmChunk)).
Proof.
  intros Hc w r w' Hw E. split; [by eapply hd_codec|]. revert E. unfold with_codec_ctx, mbind, res_bind.
  destruct (chunk_getduration_ms _ _) as [[[ms c'] ctx']|] eqn:E; [|done]. intros [= <- _]. by eapply duration_keeps.
Qed.

Lemma hd_audio packet n : (forall ch, parse_audio packet = Ok ch -> P ch) ->
  (forall h, hdr_at packet = Ok h -> N (ntohl (hnonce h))) -> preserves I (intercom_handle_audio packet n : M W _).
Proof.
  intros Hch Hn. unfold intercom_handle_audio. eapply yields_bind; [apply yields_lift|]. intros c Ec%Hch.
  eapply yields_bind; [apply yields_lift|]. intros h Hh%Hn. cbv zeta. set (this := ntohl (hnonce h)) in *.
  assert (0 <= this < 4294967296) as Hthis by apply (bswap_range 4).
  apply preserves_bind;
    [apply (hd_missing (fun l => (remove_request this l).2)); intros l; apply nonces_sub, remove_request_sub|intros _].
  apply preserves_bind; [unfold the_ictx; preserve|intros x]. eapply (yields_bind P).
  { destruct (_ =? 0); [|intros w c' w' Hw [= <- <-]; done].
    intros w c' w' Hw (b & w1 & [_ ->]%lift_inv & E)%M_bind_inv. apply M_bind_inv in E as ([ms d] & w1 & E1 & E).
    destruct (duration_yields c Ec _ _ _ Hw E1) as [Hw1 (d' & Ed & Hd')]. simpl in Ed. subst d.
    apply M_bind_inv in E as ([] & w2 & E2 & [= <- <-]). split; [by eapply hd_realloc_when|done]. }
  intros c' Hc'. apply preserves_bind; [preserve|intros t].
  assert (preserves I (upd_ictx (fun x => if this >? lastreceviedseqno x then with_lastseqno this x else x) : M W unit)) as Hlast.
  { apply hd_upd_ictx; intros y; destruct (_ >? _); auto. }
  destruct (_ >? 0).
  - apply preserves_bind; [by apply hd_gap|intros _]. apply preserves_bind; [by apply hd_put|intros _].
    apply preserves_bind; [done|intros _]. preserve.
  - apply preserves_bind; [done|intros _]. apply preserves_bind; [|preserve].
    apply (hd_missing (fun l => prune_missing_packets l this)). intros l. apply nonces_sub, prune_from_sub.
Qed.

Lemma hd_stop : preserves I (handle_stop : M W _).
Proof.
  apply hd_upd_ictx; [by constructor| |by right; left]. intros x i. simpl. by intros ?%not_elem_of_nil.
Qed.
#[local] Hint Resolve hd_stop : preserve.
Lemma hd_segment p o : preserves I (handle_sop_segment p o : M W _). Proof. keep @handle_sop_segment. Qed.
#[local] Hint Resolve hd_segment : preserve.
Lemma hd_sop_loop fuel p n o : preserves I (sop_loop fuel p n o : M W _).
Proof. revert o. induction fuel as [|fuel IH]; intros o; cbn [sop_loop]; preserve. Qed.
#[local] Hint Resolve hd_sop_loop : preserve.

(** A datagram that carries what it should, if it carries audio. *)
Definition good_datagram (buf : bytes) : Prop :=
  forall h, hdr_at buf = Ok h -> type h = AUDIO_DATA ->
    N (ntohl (hnonce h)) /\ forall ch, parse_audio buf = Ok ch -> P ch.

Lemma hd_recent r : preserves I (upd_ictx (fun x => with_recent (r x) x) : M W unit).
Proof. apply hd_modify. intros w. still. Qed.

Lemma hd_packet fuel p n : good_datagram p -> preserves I (intercom_handle_packet fuel p n : M W _).
Proof.
  intros Hp. unfold intercom_handle_packet, intercom_handle_server_operation.
  eapply yields_bind; [apply yields_lift|]. intros h Hh. destruct (_ =? PACKET_FORMAT_VERSION); [|preserve].
  apply preserves_bind; [unfold the_ictx; preserve|intros x]. destruct (intercom_recently_seen _ _); [preserve|].
  apply preserves_bind; [apply (hd_recent (fun x => intercom_recently_seen_add (recent_packets x) h))|intros _].
  apply preserves_bind; [preserve|intros _]. destruct (Z.eqb_spec (type h) AUDIO_DATA) as [Et|_]; [|preserve].
  destruct (Hp h Hh Et) as [Hn Hc]. apply preserves_bind; [|preserve]. apply hd_audio; [done|].
  intros h' E. by assert (h' = h) as -> by congruence.
Qed.

Definition good_received (r : received) : Prop :=
  match r with RecvError => True | Received buf count _ _ => good_datagram buf end.

Lemma hd_handle_in rs : Forall good_received rs -> preserves I (client_handle_in rs : M W _).
Proof.
  induction 1 as [|r rs Hr _ IH]; cbn [client_handle_in]; [preserve|]. destruct r as [|buf count peer port]; [preserve|].
  destruct (count =? 0); [preserve|]. apply preserves_bind; [by apply hd_packet|]. by intros _.
Qed.

(** *** Registration *)

Lemma hd_hello r : preserves I (intercom_hello r : M W _).
Proof.
  unfold intercom_hello, the_ictx. assert (forall t, preserves I (upd_ictx (with_hello t) : M W unit)) by (intros t; apply hd_modify; intros w; still).
  preserve.
Qed.
#[local] Hint Resolve hd_hello : preserve.
Lemma hd_reinit : preserves I (intercom_reinit : M W _).
Proof.
  unfold intercom_reinit. apply preserves_bind.
  { apply hd_upd_ictx; [by constructor| |by left]. intros x i. simpl. by intros ?%not_elem_of_nil. }
  intros _. apply preserves_bind; [preserve|intros r]. destruct r; try preserve.
  all: apply hd_modify; intros w; still.
Qed.
Lemma hd_iuninit : preserves I (intercom_uninit : M W _).
Proof.
  unfold intercom_uninit, the_ictx. apply preserves_bind; [preserve|intros x]. destruct (hello x); [|preserve].
  do 3 (apply preserves_bind; [preserve|intros _]).
  apply hd_upd_ictx; [by constructor| |by right; left]. intros y i. simpl. by intros ?%not_elem_of_nil.
Qed.
#[local] Hint Resolve hd_reinit hd_iuninit : preserve.
Lemma hd_send_hello d : preserves I (send_hello d : M W _).
Proof.
  unfold send_hello, the_ictx. assert (forall t, preserves I (upd_ictx (with_hello t) : M W unit)) by (intros t; apply hd_modify; intros w; still).
  do 3 (apply preserves_bind; [preserve|intros ?]). eapply yields_bind; [apply yields_alsa|]. intros b Hb.
  eapply yields_bind; [by apply yields_obtain_volume|]. intros [v b'] Hb'. apply preserves_bind; [by apply hd_set_alsa|intros _].
  preserve.
Qed.
#[local] Hint Resolve hd_send_hello : preserve.
Lemma hd_hello_task d : preserves I (hello_task d : M W _). Proof. keep @hello_task. Qed.
#[local] Hint Resolve hd_hello_task : preserve.

(** *** The player *)

Lemma hd_decode c : preserves I (decode c : M W _). Proof. keep @decode. Qed.
#[local] Hint Resolve hd_decode : preserve.
Lemma hd_decode_first : preserves I (decode_first_input : M W _).
Proof.
  unfold decode_first_input, intercom_peeknextaudiochunk. intros w u w' Hw (c & w1 & E1 & E)%M_bind_inv.
  apply M_bind_inv in E1 as (x & w2 & [= <- <-] & [= <- <-]).
  apply M_bind_inv in E as (d & w1 & E1 & E). assert (I w1) as Hw1 by by eapply hd_decode.
  apply M_bind_inv in E as (x & w2 & [= <- <-] & E). destruct d as [d|]; [|by injection E as _ <-].
  destruct (receivebuffer (ictx w1)) as [q|] eqn:Eq; [|by injection E as _ <-].
  eapply hd_buffer, E; [|done]. simpl. apply Forall_insert; [by destruct Hw1 as [H1 _ _ _ _]; rewrite Eq in H1|].
  destruct (pqueue_peek (receivebuffer (ictx w))) as [c|] eqn:Ep.
  - assert (P c) as Hc by (eapply peek_elements, Ep; apply Hw). revert E1. unfold decode, with_codec_ctx, mbind, res_bind.
    destruct (chunk_decode _ _) as [[[b c'] ctx']|] eqn:Ed; [|done]. intros [= E1 _].
    destruct (decode_keeps _ _ _ _ _ Hc Ed) as (d' & -> & Hd'). simplify_eq. done.
  - unfold decode, with_codec_ctx, chunk_decode in E1. simpl in E1. by injection E1.
Qed.
Lemma hd_drop_late fuel r p : preserves I (drop_late fuel r p : M W _).
Proof. revert p. induction fuel as [|fuel IH]; intros p; cbn [drop_late]; preserve. Qed.
#[local] Hint Resolve hd_decode_first hd_drop_late : preserve.

Lemma yields_decode c : P c -> yields (fun r => exists d, r = Some d /\ P d) (decode (Some c) : M W _).
Proof.
  intros Hc w r w' Hw E. split; [by eapply hd_decode|]. revert E. unfold decode, with_codec_ctx, mbind, res_bind.
  destruct (chunk_decode _ _) as [[[b c'] ctx']|] eqn:Ed; [|done]. intros [= <- _]. by eapply decode_keeps.
Qed.
Lemma yields_getnext : yields (fun r => forall c, r = Some c -> P c) (intercom_getnextaudiochunk : M W _).
Proof.
  unfold intercom_getnextaudiochunk. eapply yields_via; [apply yields_ictx|]. intros x [Hx _].
  eapply yields_via; [apply yields_lift|]. intros [c q] E. apply yields_seq.
  { apply hd_buffer. by eapply dequeue_elements. }
  intros _. apply yields_seq; [preserve|intros _]. apply yields_ret. intros c' ->. by eapply dequeue_result.
Qed.

(** The speed of a chunk is changed; it may be decoded before. *)
Lemma yields_adjust_speed ch r : P ch -> yields (audible P) (adjust_speed ch r : M W _).
Proof.
  intros Hc. unfold adjust_speed. apply yields_seq; [preserve|intros next].
  eapply yields_via; [by apply duration_yields|]. intros [ms c] (d & Ed & Hd). simpl in Ed. subst c.
  apply yields_seq; [preserve|intros e]. cbv zeta. intros w a w' Hw [E ->]%lift_inv. split; [done|].
  by eapply audible_speed, E.
Qed.

Lemma yields_play_next r t p : yields (audible P) (play_next r t p : M W _).
Proof.
  unfold play_next. eapply yields_via; [apply yields_getnext|]. intros c Hc.
  apply yields_seq; [preserve|intros a]. destruct c as [c|].
  - do 4 (apply yields_seq; [preserve|intros ?]). eapply yields_via; [apply yields_decode; by apply Hc|].
    intros d (d' & -> & Hd'). simpl. destruct (tm_near t); [by apply yields_ret, audible_in|by apply yields_adjust_speed].
  - apply yields_seq; [preserve|intros _]. apply yields_ret, silence_audible.
Qed.
Lemma yields_getchunk p d : yields (audible P) (getchunk p d : M W _).
Proof.
  unfold getchunk. do 4 (apply yields_seq; [preserve|intros ?]).
  apply yields_seq; [preserve|intros [t p']]. apply yields_seq; [preserve|intros ?].
  destruct (_ || _); [apply yields_play_next|]. apply yields_ret, silence_audible.
Qed.

(** Only audible data is written, and only the rest of it is kept. *)
Lemma hd_write d n : (exists c, audible P c /\ data c = Some d) -> preserves I (write_pcm d n : M W _).
Proof.
  intros Hd. assert (preserves I (snd (PcmWritei d n) : M W _)) as Hw.
  { apply hd_snd. intros d' n' [= <- <-]. exact Hd. }
  unfold write_pcm. preserve.
Qed.
Lemma hd_alsa_handle : preserves I (alsaplayer_handle : M W _).
Proof.
  unfold alsaplayer_handle. eapply yields_bind; [apply yields_alsa|]. intros a Ha. cbv zeta.
  apply preserves_bind; [preserve|intros [rc out]]. eapply (yields_bind (audible P)).
  { destruct (overflow a) as [o|] eqn:Eo; [by apply yields_ret, Ha|apply yields_getchunk]. }
  intros c Hc. destruct (_ || _); [preserve|]. destruct (data c) as [d|] eqn:Ed; [|preserve].
  apply preserves_bind; [apply hd_write; by exists c|intros pcm]. destruct (_ <? _).
  - eapply yields_bind; [apply yields_alsa|]. intros a' Ha'. eapply yields_bind; [apply yields_lift|]. intros o Eo.
    apply preserves_modify. intros w []. split; simpl; try done. intros o' [= <-]. eapply audible_shave, Eo.
    destruct (overflow a') as [o0|] eqn:Eo0; [by apply Ha'|done].
  - preserve.
Qed.
Lemma hd_resume i : preserves I (resume_polling i : M W _).
Proof. unfold resume_polling, the_ictx. preserve. Qed.
#[local] Hint Resolve hd_alsa_handle hd_resume : preserve.
Lemma hd_ctask t : preserves I (run_ctask t : M W _).
Proof. destruct t; simpl; unfold alsaplayer_uninit_task; preserve. Qed.

(** *** The main loop *)

Lemma hd_pause i : preserves I (pause_polling i : M W _).
Proof. unfold pause_polling, poll_fds. preserve. Qed.
Lemma hd_ready i : preserves I (device_ready i : M W _). Proof. keep @device_ready. Qed.
Lemma hd_neterror : preserves I (client_network_error : M W _). Proof. keep @client_network_error. Qed.
Lemma hd_sigterm : preserves I (sig_term_handler : M W _). Proof. keep @sig_term_handler. Qed.
#[local] Hint Resolve hd_pause hd_ready hd_neterror hd_sigterm : preserve.

(** Together with the order of the tasks, which a run of the queue needs. *)
Definition orderly w : Prop := I w /\ sched_ok (tasks w) /\ armed (tasks w).

Lemma orderly_timer fuel : preserves orderly (client_timer_event fuel : M W _).
Proof.
  refine (run_keeps (HasSched0 := client_sched) I run_ctask ctask_cleanup fuel hd_apart _ _).
  - intros t J HJ. apply preserves_and; [apply hd_ctask|by apply cl_ctask, sched_client_invariant].
  - intros t J _ w a w' Hw [= _ <-]. done.
Qed.

Lemma orderly_of {A} (m : M W A) : preserves I m ->
  (forall J, client_invariant J -> preserves J m) -> preserves orderly m.
Proof.
  intros Hm Hc. apply preserves_and; [done|].
  apply (Hc (fun w => sched_ok (tasks w) /\ armed (tasks w))).
  exact (sched_client_invariant _ (armed_invariant (HasSched0 := client_sched))).
Qed.

Lemma orderly_entry tfd fuel ds rs i : Forall good_received ds -> preserves orderly (handle_entry tfd fuel ds rs i : M W _).
Proof.
  intros Hds. pose proof (orderly_timer fuel) as H1.
  assert (preserves orderly (client_handle_in ds : M W _)) as H2 by (apply orderly_of; [by apply hd_handle_in|intros; by apply cl_handle_in]).
  assert (preserves orderly (client_network_error : M W _)) as H3 by (apply orderly_of; [preserve|intros; by apply cl_neterror]).
  assert (forall i, preserves orderly (pause_polling i : M W _)) as H4
    by (intros; apply orderly_of; [preserve|intros; by apply cl_pause]).
  assert (forall i, preserves orderly (device_ready i : M W _)) as H5
    by (intros; apply orderly_of; [preserve|intros; by apply cl_ready]).
  unfold handle_entry, poll_fds, the_ictx. preserve.
Qed.

Lemma orderly_poll tfd fuel n rs ds : Forall good_received ds -> preserves orderly (handle_poll tfd fuel n rs ds : M W _).
Proof.
  intros Hds. assert (forall rs es, preserves orderly (handle_entries tfd fuel ds rs es : M W _)) as He.
  { intros rs' es. revert rs'. induction es as [|i es IH]; intros rs'; cbn [handle_entries]; [preserve|].
    apply preserves_bind; [by apply orderly_entry|]. intros r. apply IH. }
  assert (preserves orderly (sig_term_handler : M W _)) by (apply orderly_of; [preserve|intros; by apply cl_sigterm]).
  unfold handle_poll, poll_fds. preserve.
Qed.

Lemma hd_fd_amount : preserves I (alsa_get_fd_amount : M W Z).
Proof.
  unfold alsa_get_fd_amount. cbv zeta. eapply yields_bind; [by apply yields_init|]. intros a Ha. cbv beta.
  eapply yields_bind; [by apply yields_remove_task|]. intros a' Ha'.
  eapply yields_bind; [by apply yields_uninit|]. intros ? _. preserve.
Qed.
#[local] Hint Resolve hd_fd_amount : preserve.

Lemma main_orderly tfd out args w0 : (forall card mixer pcm, D (c_device out card mixer pcm)) ->
  client_main tfd out args = Ok w0 -> orderly w0.
Proof.
  intros Hdev Hmain. destruct (start_order tfd out args w0 Hmain) as (n & _ & Hs & Ha). split; [|done].
  revert Hmain. unfold client_main, mbind at 1, res_bind at 1.
  destruct (client_options _ args) as [o|]; [|done]. destruct (co_servername o) as [name|]; [|done].
  unfold mbind at 1, res_bind at 1.
  destruct ((intercom_init _ ;; start_polling tfd) (client_state o name out)) as [[[] w]|] eqn:E; [|done].
  intros [= <-]. revert E.
  assert (preserves I (intercom_init (rnd_nonce out) ;; start_polling tfd : M W unit)) as Hp.
  { unfold intercom_init, start_polling, the_ictx. preserve. }
  apply Hp. split; simpl; [constructor|constructor|by left|done|apply Hdev].
Qed.
End holding.
