(* ===== verification/System.v ===== *)
(** * The server, the network and a client

    The server of ServerMain.v and a client of ClientInv.v, side by side.  The
    network gives the client datagrams that the server has sent, to whomever, as
    often and in whatever order it likes, or not at all; the other clients, and
    whoever else sends something to the server, are part of the server's events,
    about which nothing is assumed. *)
From Stdlib Require Import Ascii String.
From S2P Require Import ServerState.
From S2P Require Import InputPipe.
From S2P Require Import ClientMgr.
From S2P Require Import IntercomSrv.
From S2P Require Import JsonRpc.
From S2P Require Import Util.
From S2P Require Import Control.
From S2P Require Import Stream.
From S2P Require Import ServerLoop.
From S2P Require Import ServerInv.
From S2P Require Import ServerMain.
From S2P Require Import Sent.
From S2P Require Import Prelude.
From S2P Require Import Timespec.
From S2P Require Import Bytes.
From S2P Require Import PQueue.
From S2P Require Import PcmChunk.
From S2P Require Import Speed.
From S2P Require Import TaskHeap.
From S2P Require Import TaskSched.
From S2P Require Import Invariant.
From S2P Require Import Intercom.
From S2P Require Import ClientState.
From S2P Require Import AlsaDevice.
From S2P Require Import IntercomClient.
From S2P Require Import ClientGaps.
From S2P Require Import AlsaPlayer.
From S2P Require Import ClientLoop.
From S2P Require Import ClientInv.
From S2P Require Import Held.
From S2P Require Import EndToEnd.

Definition stop_fields : list bytes :=
  [le_bytes 1 PACKET_FORMAT_VERSION; le_bytes 1 SERVER_OPERATION; le_bytes 2 0; le_bytes 4 0;
   le_bytes 1 CLIENT_STOP; le_bytes 1 2].

Lemma stop_hdr p tail : stop_packet = Ok p -> hdr_at (p ++ tail) = Ok sop_hdr.
Proof.
  assert (stop_packet = Ok (concat stop_fields)) as -> by reflexivity. intros [= <-].
  change (hdr_at (concat stop_fields ++ tail) = Ok sop_hdr). rewrite concat_tail. by apply hdr_at_fields.
Qed.

(** What the client reads from a datagram of the server. *)
Lemma genuine_read {Dec Enc} `{!OpusLib Dec Enc} rds d tail h :
  genuine rds d -> hdr_at (d ++ tail) = Ok h -> type h = AUDIO_DATA ->
  exists ch n, from_pipes rds ch /\ packet_of ch n d /\ ntohl (hnonce h) = n /\ parse_audio (d ++ tail) = Ok (on_wire ch).
Proof.
  intros [(ch & n & Hr & Hp)|[[v Hv]|Hs]] Eh Et.
  - exists ch, n. split; [done|]. split; [done|]. destruct Hp as (Hsize & n0 & ms & len & k & Ea & ->).
    destruct (assemble_wire ch n0 ms d len k Ea) as (_ & _ & Hw); [lia|]. destruct (Hw tail) as [Hparse Hhdr].
    split; [|exact Hparse]. assert (h = audio_hdr n0) as -> by (rewrite Hhdr in Eh; by injection Eh).
    simpl. apply ntohl_htonl. pose proof (Z.mod_pos_bound n0 NONCE_MAX). unfold NONCE_MAX in *. lia.
  - rewrite volume_packet_fields in Hv. injection Hv as Hv. rewrite <- Hv in Eh.
    change (hdr_at (concat (volume_fields v) ++ tail) = Ok h) in Eh. rewrite volume_hdr in Eh. by injection Eh as <-.
  - rewrite (stop_hdr d tail Hs) in Eh. by injection Eh as <-.
Qed.

Section system.
Context {Q Q' Dec Enc Dec' Enc' Dev J : Type}
  `{!TimerQueue Q, !TimerQueueLaws Q, !OpusLib Dec Enc, !OpusLaws Dec Enc, !JsonLib J, !HostLib, !UnionLib J}
  `{!TimerQueue Q', !TimerQueueLaws Q', !OpusLib Dec' Enc', !AlsaLib Dev, !AlsaPollLib Dev, !SoxrLib}.

Record system := mkSystem { ssrv : server Q Dec Enc; scli : client Q' Dec' Enc' Dev }.
Implicit Types (s : system).

(** A datagram of the server in the client's receive buffer, which is longer. *)
Definition delivered (air : list bytes) (r : received) : Prop :=
  match r with
  | RecvError => True
  | Received buf count _ _ => exists d tail, d ∈ air /\ buf = d ++ tail /\ count = Z.of_nat (length d)
  end.

(** An event of the server, or a return of [poll] at the client. *)
Inductive sys_step (fds : server_fds) (tfd : Z) : system -> system -> Prop :=
  | server_step w w' c fuel e go : handle_event (J := J) fds fuel e w = Ok (go, w') ->
      sys_step fds tfd (mkSystem w c) (mkSystem w' c)
  | client_step w c c' fuel n revents ds : Forall (delivered (datagrams w)) ds ->
      handle_poll tfd fuel n revents ds c = Ok (tt, c') ->
      sys_step fds tfd (mkSystem w c) (mkSystem w c').

(** [D]: what is true of the sound device when chunks of a kind come in. *)
Context (rds : nat -> pipe_input) (D : (pcmChunk -> Prop) -> Dev -> Prop)
  (HDm : forall (P P' : pcmChunk -> Prop) d, (forall c, P c -> P' c) -> D P d -> D P' d)
  (HD : forall P, device_property (Dec := Dec') (Enc := Enc') P (D P)).

(** What the client may have: a chunk that was encoded from the pipes and sent,
    perhaps decoded, and the number of a packet that was sent. *)
Definition heard_chunk (air : list bytes) (ch : pcmChunk) : Prop :=
  exists d ch0 n, d ∈ air /\ packet_of ch0 n d /\ from_pipes (Dec := Dec) (Enc := Enc) rds ch0 /\ rtc (decodes (Dec := Dec') (Enc := Enc')) (on_wire ch0) ch.
Definition heard_number (air : list bytes) (n : Z) : Prop := exists d ch0, d ∈ air /\ packet_of ch0 n d.

Lemma heard_decodes air c c' : heard_chunk air c -> decodes (Dec := Dec') (Enc := Enc') c c' -> heard_chunk air c'.
Proof.
  intros (d & ch0 & n & Hd & Hp & Hr & Hc) Hdec. exists d, ch0, n. split_and!; [done..|]. by eapply rtc_r.
Qed.

Definition sys_ok s : Prop :=
  (sending rds [] (ssrv s) /\ sched_armed (ssrv s)) /\
  orderly (heard_chunk (datagrams (ssrv s))) (heard_number (datagrams (ssrv s)))
    (D (heard_chunk (datagrams (ssrv s)))) (scli s).

Lemma delivered_good air r : Forall (genuine (Dec := Dec) (Enc := Enc) rds) air -> delivered air r ->
  good_received (heard_chunk air) (heard_number air) r.
Proof.
  intros Hg. destruct r as [|buf count peer port]; [done|]. intros (d & tail & Hd & -> & _) h Eh Et.
  rewrite Forall_forall in Hg. destruct (genuine_read rds d tail h (Hg d Hd) Eh Et) as (ch & n & Hr & Hp & -> & Hparse).
  split; [by exists d, ch|]. rewrite Hparse. intros c [= <-]. by exists d, ch, n.
Qed.

Lemma sys_step_ok fds tfd s s' : sys_step fds tfd s s' -> sys_ok s -> sys_ok s'.
Proof.
  intros [w w' c fuel e go E|w c c' fuel n revents ds Hds E] [[Hw Ha] Hc]; (split; [|]); simpl in *.
  - exact (sd_event rds [] fds fuel e w go w' (conj Hw Ha) E).
  - assert (sending rds (datagrams w) w) as Hw1 by (destruct Hw; by split).
    destruct (sd_event rds (datagrams w) fds fuel e w go w' (conj Hw1 Ha) E) as [[Hsub _ _ _] _].
    assert (forall ch, heard_chunk (datagrams w) ch -> heard_chunk (datagrams w') ch) as Hmore.
    { intros ch (d & ch0 & n & Hd & Hp). exists d, ch0, n. auto. }
    destruct Hc as [Hc ?]. split; [|done]. eapply holding_mono, Hc; [exact Hmore| |intros d; by apply HDm].
    intros n (d & ch0 & Hd & Hp). exists d, ch0. auto.
  - done.
  - eapply orderly_poll, E; [intros ch ch'; apply heard_decodes|apply HD| |done].
    eapply Forall_impl; [exact Hds|]. intros r. apply delivered_good, Hw.
Qed.

Lemma sys_start fds tfd out args cout cargs w0 c0 :
  (forall P card mixer pcm, D P (c_device cout card mixer pcm)) -> server_main fds out args = Ok w0 ->
  client_main tfd cout cargs = Ok c0 -> rds = out_reads out -> sys_ok (mkSystem w0 c0).
Proof.
  intros Hdev Hs Hc ->. split; [|by eapply main_orderly, Hc; [apply HD|intros; apply Hdev]].
  split; [|by eapply main_armed]. apply main_inv in Hs as (ss & b & -> & Hss).
  split; simpl; try done. eapply Forall_impl; [exact Hss|]. intros x (_ & _ & _ & _ & _ & E1 & E2).
  unfold stream_sound. rewrite E1. split; [constructor|].
  split; [intros [d E]|intros d E]; by rewrite E2 in E.
Qed.
End system.

(** ** Nothing is invented *)

Section invented.
Context {Q Q' Dec Enc Dec' Enc' Dev J : Type}
  `{!TimerQueue Q, !TimerQueueLaws Q, !OpusLib Dec Enc, !OpusLaws Dec Enc, !JsonLib J, !HostLib, !UnionLib J}
  `{!TimerQueue Q', !TimerQueueLaws Q', !OpusLib Dec' Enc', !AlsaLib Dev, !AlsaPollLib Dev, !SoxrLib}.
Implicit Types (s : system (Q := Q) (Q' := Q') (Dec := Dec) (Enc := Enc) (Dec' := Dec') (Enc' := Enc') (Dev := Dev)).

(** What can happen from some point of both programs on. *)
Definition sys_reachable (fds : server_fds) (tfd : Z) s s' : Prop := rtc (sys_step (J := J) fds tfd) s s'.

Lemma sys_invariant D fds tfd out args cout cargs w0 c0 s :
  (forall (P P' : pcmChunk -> Prop) d, (forall c, P c -> P' c) -> D P d -> D P' d) ->
  (forall P, device_property (Dec := Dec') (Enc := Enc') P (D P)) ->
  (forall P card mixer pcm, D P (c_device cout card mixer pcm)) ->
  server_main fds out args = Ok w0 -> client_main tfd cout cargs = Ok c0 ->
  sys_reachable fds tfd (mkSystem w0 c0) s -> sys_ok (out_reads out) D s.
Proof.
  intros HDm HD Hdev Hw Hc. unfold sys_reachable. apply rtc_ind_r; [by eapply sys_start|].
  intros s1 s2 _ Hstep IH. by eapply sys_step_ok.
Qed.

(** C2: the client holds nothing that the server did not read from its pipes:
    whatever happens to either program - clients that come and go, requests, control
    connections, packets lost, repeated and reordered - each chunk in the client's
    receive buffer comes, perhaps decoded, from a packet that the server sent, whose
    audio data is what the encoder made of bytes read from the pipes, in the order
    of the reads and none of them twice; and a packet that the client misses lies
    before one that was sent. *)
Theorem nothing_invented fds tfd out args cout cargs w0 c0 s :
  server_main fds out args = Ok w0 -> client_main tfd cout cargs = Ok c0 ->
  sys_reachable fds tfd (mkSystem w0 c0) s ->
  (forall ch, ch ∈ held (receivebuffer (ictx (scli s))) ->
     exists d ch0 n, d ∈ datagrams (ssrv s) /\ packet_of ch0 n d /\
       from_pipes (Dec := Dec) (Enc := Enc) (out_reads out) ch0 /\
       rtc (decodes (Dec := Dec') (Enc := Enc')) (on_wire ch0) ch) /\
  (forall i, i ∈ nonces (missing_packets (ictx (scli s))) ->
     exists d ch0 n, d ∈ datagrams (ssrv s) /\ packet_of ch0 n d /\ i < n).
Proof.
  intros Hw Hc Hr. assert (sys_ok (out_reads out) (fun _ _ => True) s) as [_ [[Hb Hm _ _ _] _]] by by eapply sys_invariant.
  rewrite Forall_forall in Hb. rewrite Forall_forall in Hm. split; [exact Hb|].
  intros i (n & (d & ch0 & Hd & Hp) & Hi)%Hm. by exists d, ch0, n.
Qed.
End invented.

(** ** Nothing else is played

    A sound device with a tape of all that was written to it; otherwise it is any
    device. *)
Record taped (Dev : Type) := mkTaped { dev : Dev; tape : list bytes }.
#[global] Arguments mkTaped {Dev}.
#[global] Arguments dev {Dev}.
#[global] Arguments tape {Dev}.

#[export] Instance taped_alsa {Dev} `{!AlsaLib Dev} : AlsaLib (taped Dev) := {|
  alsa_do call d :=
    let '(rc, out, d') := alsa_do call (dev d) in
    (rc, out, mkTaped d' (match call with PcmWritei b _ => tape d ++ [b] | _ => tape d end));
  snd_pcm_poll_descriptors d n := snd_pcm_poll_descriptors (dev d) n;
|}.
#[export] Instance taped_poll {Dev} `{!AlsaPollLib Dev} : AlsaPollLib (taped Dev) := {|
  snd_pcm_poll_descriptors_revents d fds := snd_pcm_poll_descriptors_revents (dev d) fds;
|}.

Section played.
Context {Q Q' Dec Enc Dec' Enc' Dev J : Type}
  `{!TimerQueue Q, !TimerQueueLaws Q, !OpusLib Dec Enc, !OpusLaws Dec Enc, !JsonLib J, !HostLib, !UnionLib J}
  `{!TimerQueue Q', !TimerQueueLaws Q', !OpusLib Dec' Enc', !AlsaLib Dev, !AlsaPollLib Dev, !SoxrLib}.
Implicit Types (s : system (Q := Q) (Q' := Q') (Dec := Dec) (Enc := Enc) (Dec' := Dec') (Enc' := Enc') (Dev := taped Dev)).

(** What is on the tape is the data of audible chunks. *)
Definition on_tape (P : pcmChunk -> Prop) (d : taped Dev) : Prop :=
  Forall (fun b => exists c, audible (Dec := Dec') (Enc := Enc') P c /\ data c = Some b) (tape d).

Lemma on_tape_property P : device_property (Dec := Dec') (Enc := Enc') P (on_tape P).
Proof.
  intros call d rc out d' Hc Hd E. simpl in E. destruct (alsa_do call (dev d)) as [[rc' out'] d1]. injection E as _ _ <-.
  unfold on_tape. simpl. destruct call; try exact Hd. apply Forall_app. split; [exact Hd|].
  apply Forall_singleton. by eapply Hc.
Qed.

(** C1: the sound device is given nothing but silence and what the server read
    from its pipes: whatever happens to either program, the bytes of every write
    are zeros, or the data of a chunk that the client got in a packet of the server
    - with what the encoder made of bytes read from the pipes - and that it decoded,
    changed in speed, or shortened by what was played before. *)
Theorem only_heard_played fds tfd out args cout cargs w0 c0 s :
  (forall card mixer pcm, tape (c_device cout card mixer pcm) = []) ->
  server_main fds out args = Ok w0 -> client_main tfd cout cargs = Ok c0 ->
  sys_reachable (J := J) fds tfd (mkSystem w0 c0) s ->
  forall b, b ∈ tape (device (scli s)) ->
    Forall (eq 0) b \/
    exists d ch0 n c, d ∈ datagrams (ssrv s) /\ packet_of ch0 n d /\
      from_pipes (Dec := Dec) (Enc := Enc) (out_reads out) ch0 /\
      rtc (processed (Dec := Dec') (Enc := Enc')) (on_wire ch0) c /\ data c = Some b.
Proof.
  intros Hdev Hw Hc Hr b Hb. assert (sys_ok (out_reads out) on_tape s) as [_ [[_ _ _ _ Ht] _]].
  { eapply sys_invariant, Hr; [|apply on_tape_property| |exact Hw|exact Hc].
    - intros P P' d HP Hd. eapply Forall_impl; [exact Hd|]. intros x (c & ? & ?). exists c. split; [|done]. by eapply audible_mono.
    - intros P card mixer pcm. unfold on_tape. by rewrite Hdev. }
  unfold on_tape in Ht. rewrite Forall_forall in Ht. destruct (Ht b Hb) as (c & [(d & Hd & Hz)|(c1 & Hc1 & Hp)] & Ec).
  - left. by assert (d = b) as <- by congruence.
  - right. destruct Hc1 as (d & ch0 & n & Hd & Hpk & Hfrom & Hdec). exists d, ch0, n, c. split_and!; try done.
    etrans; [|exact Hp]. revert Hdec. apply rtc_subrel. intros x y H1. by left.
Qed.
End played.

(** *** A song on its way *)

(** A codec that copies, for chunks of four bytes per frame. *)
Definition copied (d out : bytes) : bytes := take (length out) (take (length out) d ++ drop (length d) out).
#[local] Instance copy_opus : OpusLib unit unit := {|
  opus_decoder_create _ _ := (0, Some tt);
  opus_encoder_create _ _ := (0, Some tt);
  opus_set_bitrate e _ := (0, e);
  opus_decode d p out _ := (Z.of_nat (length p) / 4, copied p out, d);
  opus_encode e p _ out _ := (Z.of_nat (length p), copied p out, e);
|}.
#[local] Instance copy_opus_laws : OpusLaws unit unit.
Proof.
  intros e d frames out m nb out' e' [= _ <- _]. unfold copied.
  rewrite length_take, length_app, length_take, length_drop. lia.
Qed.

Definition song : bytes := Z.of_nat <$> seq 1 40.
(** The client gets the chunk 90.1 seconds before its play time and asks for the
    time again when it is due; its device has a tape. *)
Definition waiting_client : client_outside (taped unit) :=
  mkClientOutside 0 41 (fun _ => mkTime 7 0) (fun n => if (n <? 1)%nat then mkTime 900 0 else mkTime 990 100000000)
    (fun _ _ => DnsDone 9) (fun _ => 4) (fun _ _ _ => mkTaped tt []).

Definition song_outside : outside := demo_outside (ReadBytes song).
Abbreviation song_server := (server_main (Q := forest) (Dec := unit) (Enc := unit) demo_fds song_outside demo_args).
Abbreviation song_client :=
  (client_main (Q := forest) (Dec := unit) (Enc := unit) (Dev := taped unit) 3 waiting_client demo_client_args).

(** The last datagram that the server sent. *)
Definition last_sent (w : server forest unit unit) : bytes := default [] (last (datagrams w)).
(** The client gets it. *)
Abbreviation receives d c :=
  (handle_poll (Q := forest) (Dec := unit) (Enc := unit) (Dev := taped unit) 3 5 1 [0; 0; POLLIN]
     [Received (d ++ zeros (1500 - Z.of_nat (length d))) (Z.of_nat (length d)) 9 5000] c).
(** Its device is ready. *)
Abbreviation plays c :=
  (handle_poll (Q := forest) (Dec := unit) (Enc := unit) (Dev := taped unit) 3 5 1 [POLLOUT; 0; 0] [] c).

Lemma receives_delivered (w : server forest unit unit) d n : d ∈ datagrams w ->
  Forall (delivered (datagrams w)) [Received (d ++ zeros n) (Z.of_nat (length d)) 9 5000].
Proof. intros Hd. apply Forall_singleton. by exists d, (zeros n). Qed.

Lemma song_played : exists w0 c0 w1 w2 c1 c2 go1 go2, song_server = Ok w0 /\ song_client = Ok c0 /\
  handle_event (J := unit) demo_fds 10 hello_event w0 = Ok (go1, w1) /\
  handle_event (J := unit) demo_fds 10 (pipe_event 6) w1 = Ok (go2, w2) /\
  last_sent w2 ∈ datagrams w2 /\ receives (last_sent w2) c0 = Ok (tt, c1) /\
  held (receivebuffer (ictx c1)) = [mkChunk 990 100000000 1000 2 2 40 CODEC_PCM (Some song)] /\
  plays c1 = Ok (tt, c2) /\ tape (device c2) = [song].
Proof.
  destruct song_server as [w0|] eqn:E0; [|vm_compute in E0; discriminate].
  destruct song_client as [c0|] eqn:Ec; [|vm_compute in Ec; discriminate].
  destruct (handle_event (J := unit) demo_fds 10 hello_event w0) as [[g1 w1]|] eqn:E1;
    [|vm_compute in E0; injection E0 as <-; vm_compute in E1; discriminate].
  destruct (handle_event (J := unit) demo_fds 10 (pipe_event 6) w1) as [[g2 w2]|] eqn:E2;
    [|vm_compute in E0; injection E0 as <-; vm_compute in E1; injection E1 as <- <-; vm_compute in E2; discriminate].
  exists w0, c0, w1, w2. vm_compute in E0. injection E0 as <-. vm_compute in Ec. injection Ec as <-.
  vm_compute in E1. injection E1 as <- <-. vm_compute in E2. injection E2 as <- <-.
  do 4 eexists. split_and!; try (vm_compute; reflexivity).
  apply (bool_decide_unpack _). vm_compute. exact I.
Qed.

(** The song reached the client, and came from the pipe. *)
Lemma nothing_invented_witness : exists w0 c0 w c ch, song_server = Ok w0 /\ song_client = Ok c0 /\
  sys_reachable (J := unit) demo_fds 3 (mkSystem w0 c0) (mkSystem w c) /\
  ch ∈ held (receivebuffer (ictx c)) /\ data ch = Some song /\
  exists d ch0 n, d ∈ datagrams w /\ packet_of ch0 n d /\ from_pipes (out_reads song_outside) ch0 /\
    rtc decodes (on_wire ch0) ch.
Proof.
  destruct song_played as (w0 & c0 & w1 & w & c & c2 & g1 & g2 & Es & Ec & E1 & E2 & Hd & E3 & Hheld & _).
  assert (sys_reachable (J := unit) demo_fds 3 (mkSystem w0 c0) (mkSystem w c)) as Hr.
  { eapply rtc_l; [eapply server_step, E1|]. eapply rtc_l; [eapply server_step, E2|].
    eapply rtc_once, client_step, E3. exact (receives_delivered w _ _ Hd). }
  destruct (nothing_invented demo_fds 3 song_outside demo_args waiting_client demo_client_args w0 c0 _
    Es Ec Hr) as [Hall _].
  assert (mkChunk 990 100000000 1000 2 2 40 CODEC_PCM (Some song) ∈ held (receivebuffer (ictx c))) as Hin
    by (rewrite Hheld; apply list_elem_of_singleton; reflexivity).
  exists w0, c0, w, c, (mkChunk 990 100000000 1000 2 2 40 CODEC_PCM (Some song)). split; [exact Es|]. split; [exact Ec|].
  split; [exact Hr|]. split; [exact Hin|]. split; [reflexivity|]. exact (Hall _ Hin).
Defined.

(** It is played; what is written is no silence, so it came from the pipe. *)
Lemma only_heard_played_witness : exists w0 c0 w c, song_server = Ok w0 /\ song_client = Ok c0 /\
  sys_reachable (J := unit) demo_fds 3 (mkSystem w0 c0) (mkSystem w c) /\ tape (device c) = [song] /\
  exists d ch0 n ch, d ∈ datagrams w /\ packet_of ch0 n d /\ from_pipes (out_reads song_outside) ch0 /\
    rtc processed (on_wire ch0) ch /\ data ch = Some song.
Proof.
  destruct song_played as (w0 & c0 & w1 & w & c1 & c & g1 & g2 & Es & Ec & E1 & E2 & Hd & E3 & _ & E4 & Ht).
  assert (sys_reachable (J := unit) demo_fds 3 (mkSystem w0 c0) (mkSystem w c)) as Hr.
  { eapply rtc_l; [eapply server_step, E1|]. eapply rtc_l; [eapply server_step, E2|].
    eapply rtc_l; [eapply client_step, E3; exact (receives_delivered w _ _ Hd)|].
    eapply rtc_once, client_step, E4. constructor. }
  exists w0, c0, w, c. split; [exact Es|]. split; [exact Ec|]. split; [exact Hr|]. split; [exact Ht|].
  destruct (only_heard_played demo_fds 3 song_outside demo_args waiting_client demo_client_args w0 c0 _
    (fun _ _ _ => eq_refl) Es Ec Hr song) as [Hz|H].
  - simpl. rewrite Ht. apply list_elem_of_singleton. reflexivity.
  - apply Forall_cons in Hz as [Hz _]. vm_compute in Hz. discriminate.
  - exact H.
Defined.
